(* ===== verification/_CoqProject ===== *)
-Q . S2P
Prelude.v
FfaCore.v
FfaMsg.v
FfaFunctions.v
Console.v
Diagnostics.v
MsgLoop.v
Notify.v
NotifySpec.v
EcRelay.v
RelayClient.v
Thermal.v
TimeAlarm.v
Battery.v
FwMgmt.v
Ucsi.v
TpmSst.v
TpmBus.v
Tpm.v
TpmSystem.v
TpmDevice.v
TpmFifo.v
Uart.v
Interrupts.v
Espi.v
EspiRegisters.v
EspiStub.v
EcMemory.v
Platform.v
Session.v
