(* ===== verification/Prelude.v ===== *)
(** * The secure partitions of odp-secure-services

    The program is a set of services that run in an Arm secure partition.  The
    normal world sends FF-A direct requests; the service a request names by its
    UUID answers it: some by asking an embedded controller (EC) over a UART,
    some by themselves, one by driving a TPM through memory-mapped registers.

    ** The parts and their files

    - [Prelude]: outcomes of Rust functions, the state monad [stM], machine
      words, bytes, enumerations, and the lemmas and tactics all files share.
    - [FfaCore] (odp-ffa/src/lib.rs, smc.rs, util.rs): identifiers, error
      codes, register files, the supervisor call and [exec_simple].
    - [FfaMsg] (odp-ffa/src/function/msg): payload buffers and the register
      encoding of direct requests and responses.
    - [FfaFunctions] (odp-ffa/src/function): one Module per other FF-A function.
    - [Console] (odp-ffa/src/function/console.rs): the console writer.
    - [Diagnostics] (ec-service-lib/src/sp_logger.rs, odp-ffa console.rs,
      platform/*/src/baremetal/panic.rs): both loggers and the panic handler.
    - [MsgLoop] (ec-service-lib/src/service.rs, message_handler.rs, lib.rs): the
      trait [Service], the chain of handler nodes, the message loop.
    - [Notify], [NotifySpec] (services/notify.rs): the notification tables and
      handlers, their abstract view and its specification.
    - [EcRelay] (services/ec_relay.rs): the ODP codec, the serial transport, the
      round trip to the EC; [RelayClient]: what its clients share.
    - [Thermal], [TimeAlarm], [Battery] (services of the same names): the
      services that relay to the EC.
    - [FwMgmt] (services/fw_mgmt.rs, tpm_stub.rs), [Ucsi] (services/ucsi.rs): the
      services that answer by themselves.
    - [TpmSst] (services/tpm_sst.rs): the TPM driver; [TpmBus]: the grammar of
      what it does on the bus, and its properties; [Tpm] (services/tpm.rs):
      localities, CRB states and the FF-A interface of the TPM service, in the
      build with the test feature too; [TpmSystem]: clients, device, service
      and driver together, with the history of driver calls as abstract view;
      [TpmDevice], [TpmFifo]: a TPM behind a CRB, and one behind a FIFO, that
      work in time, under both.
    - [Uart] (qemu-sp-uart/src/lib.rs): the PL011 driver.
    - [Interrupts] (hafnium, aarch64-haf, platform/*/src/baremetal/interrupt.rs):
      hypervisor calls, exception vectors, critical section.
    - [Espi] (espi-device/src): cycle types, operation codes, tags, short
      operands and payload sizes of the eSPI device crate; [EspiRegisters]
      (config_register.rs, status_register.rs, register_enum_types.rs): the
      declarations of its registers; [EspiStub] (espi-device-stub): its channel
      traits and the stub device.
    - [EcMemory] (platform/ihv1-sp/src/services/ec_memory.rs): the layout of
      the EC's memory.
    - [Platform] (platform/qemu-sp, platform/ihv1-sp main.rs, battery.rs): the
      chain the QEMU partition serves, both [main]s and the entry points;
      [Session]: that partition under a hypervisor with a queue of requests,
      and its specification.

    ** How the parts interact

    A Rust function that can fail or panic returns an [outcome]; one that
    changes a state or the outside world is a [stM] computation.  A service's
    handler works on the pair of its own state and the world it shares with
    the others.  Components meet at type classes that come with a class of
    laws: [SmcEnv] (the hypervisor behind [smc #0], FfaCore), [Service] and
    [HandlerNode] (MsgLoop), [OdpTransport] and [UartIo] (EcRelay),
    [Relay] (between EcRelay and its clients), [TpmSstOps] (between Tpm and
    TpmSst), [Mmio] and [Counter] (device registers and the generic timer),
    [UartMmio] (Uart), [HvcEnv] and [HafInterruptHandler] (Interrupts),
    [Hypervisor] (Session), [CrbTpm] (TpmDevice) and
    [FifoTpm] (TpmFifo).  The clients' theorems are proved from the laws.  [pl011_laws] discharges
    [UartIoLaws], [serial_laws] the transport's, [ec_relay_laws] the relay's,
    [tpm_sst_laws] the TPM driver's, and every service has a [ServiceLaws]
    instance; [Platform] puts them together.  The [RefCell] that shares the
    relay among services is the world itself: a handler borrows it for one
    round trip and no handler runs inside another.

    Code outside the repository is a class with its documented behaviour as
    laws: the [uuid] crate ([UuidOps]), [mctp_rs] ([MctpOps]), the devices and
    the hypervisor.  Each has a concrete instance on which the definitions are
    evaluated.

    ** What the theorems show

    - Encodings: direct messages, every FF-A function and the ODP header decode
      to what was encoded; payload accessors and buffers keep to their bounds;
      the generic execution path sorts every answer of the hypervisor.
    - Serving: the loop ends only when an SMC fails; the QEMU partition routes
      every request to the service with its UUID and answers it as five reference
      functions say; each answer or error is sent back.  Neither [main]
      returns, and either panics only right after a call of its run, of those
      the model has (no log lines), was refused by the hypervisor.
      [qemu_session] puts it together: a queue of
      requests is served in order, each exactly once, and the hypervisor hears
      the replies the reference functions give.
    - Notification: requests with distinct cookies act on the abstract table as
      specified or not at all, a mapping is removed only as it was registered,
      and the bitmap stays in step; two lemmas show
      what happens with repeated cookies and with the id 0.
    - EC: a response is accepted exactly if it is the answer to the request;
      a frame ends at its end flag or with a full buffer; the three relayed
      services are transparent; the UART driver keeps the PL011's protocol.
    - TPM: every request is answered as a table of opcodes says; a start
      request follows its plan, commits only on the driver's success and only
      for the active open locality; the registers of the active locality are
      put in order and buffers are cleared; localities are exclusive and
      isolated.  The driver's properties are about the events on the bus: the
      response in the buffer is the bytes loaded from the registers of the
      grammar, every store and wait is that of a literal table, with its
      register, bits and timeout, a wait fails only once the counter has shown
      that its timeout is over, and every wait ends.  Over all clients, requests and driver answers, replaying
      the driver calls gives the service's state, and each call was in order;
      a command goes from the request's registers to the bus and its response
      back to the client's buffer; over a TPM that works in time, behind either
      interface, the command succeeds and the buffer holds what the TPM
      computes.
    - Diagnostics: a panic is reported at most once, and the partition then
      stands still, whatever the console does.
    - Interrupts: those pending are delivered once, in order.
    - eSPI: cycle types decode to what was encoded, but for three flash types
      whose codes collide; the registers hold the values of their fields that
      fit the fields' bits, which all do but bytes in three narrower fields; in
      the flash register two fields share a bit.

    ** Bounds and fuel

    Integers are [Z] with their width written out: [trunc w] where Rust wraps
    or casts, [is_u w] where a value is known to fit.  Indexing out of range,
    [unwrap] of an error and oversized shifts are [Panic].

    A loop without a structural bound takes fuel, and [NoFuel] marks the cut.
    The message loop runs [fuel] rounds and is meant to use them up.
    [write_str] needs at most as many rounds as there are bytes and gets
    them.  The TPM driver's polls need one round per tick of the timeout:
    [fuel_ok] asks for more rounds than the longest timeout has ticks at the
    highest frequency.  A byte sent over the PL011 may wait [tx_bound] polls,
    the number the device's law names.  The driver's bounded read takes its
    budget, and the frame receiver the room in its buffer, as a number of
    rounds.  The theorems about results assume enough fuel and exclude
    [NoFuel], so they are statements of termination too.

    ** What is left out

    [core::fmt] makes the text of numbers and levels: a log record carries it.
    The loggers and the panic handler are modelled in [Diagnostics], but a log
    call inside another component is no step of it, so a panic out of such a
    call, when the console's SMC fails, is not seen there.  Build scripts and
    the code for hosts other than the target are not modelled.  Pointers are 64-bit
    addresses that wrap.  The TPM's internal register blocks are memory in the
    service's state, which the client changes between requests and not during
    one; the request's locality is cut to eight bits as the code does.  A
    critical section sets the interrupt masks; that nothing interrupts it is
    the hardware's promise.

    The conversions of the eSPI crate's registers come out of a macro of
    another crate: the model has the declarations, and the class [Declared]
    what a conversion that follows its declaration does.  No code of the
    repository uses the EC's memory layout or the eSPI channels yet.

    The message loop and the interrupt handlers are modelled each by itself, not
    interleaved: the handlers of the repository touch no state of a service. *)
From Stdlib Require Import ZArith Lia.
From stdpp Require Export prelude list list_numbers numbers option strings.
#[local] Open Scope Z_scope.

(** ** Outcomes of Rust functions

    [Ok] and [Err] are the two constructors of [Result]; [Panic] is an
    unwinding panic ([unwrap] of an [Err], an index out of range);
    [NoFuel] marks a loop that was cut off by the fuel argument of the model
    and is never produced when the fuel is sufficient. *)
Inductive outcome (E A : Type) : Type :=
  | Ok (a : A)
  | Err (e : E)
  | Panic
  | NoFuel.
Arguments Ok {E A} a.
Arguments Err {E A} e.
Arguments Panic {E A}.
Arguments NoFuel {E A}.

#[export] Instance outcome_eq_dec {E A} `{EqDecision E} `{EqDecision A} :
  EqDecision (outcome E A).
Proof. solve_decision. Defined.

#[export] Instance outcome_ret {E} : MRet (outcome E) := @Ok E.
#[export] Instance outcome_bind {E} : MBind (outcome E) := fun A B k m =>
  match m with
  | Ok a => k a
  | Err e => Err e
  | Panic => Panic
  | NoFuel => NoFuel
  end.

(** [Result::map_err] *)
Definition map_err {E E' A} (f : E -> E') (m : outcome E A) : outcome E' A :=
  match m with
  | Ok a => Ok a
  | Err e => Err (f e)
  | Panic => Panic
  | NoFuel => NoFuel
  end.

(** [Option::ok_or] *)
Definition ok_or {E A} (e : E) (o : option A) : outcome E A :=
  match o with Some a => Ok a | None => Err e end.

(** A [None] that stands for a panicking access. *)
Definition or_panic {E A} (o : option A) : outcome E A :=
  match o with Some a => Ok a | None => Panic end.

(** The [Result] was produced and is [Ok]. *)
Definition is_ok {E A} (m : outcome E A) : bool :=
  match m with Ok _ => true | _ => false end.

(** ** Stateful computations

    [stM W E A] threads a world [W] (a device, a transport, the SMC
    environment, a service) through a computation; the world reached before
    an error is kept, as it is in Rust. *)
Definition stM (W E A : Type) : Type := W -> outcome E A * W.

#[export] Instance stM_ret {W E} : MRet (stM W E) := fun A a w => (Ok a, w).
#[export] Instance stM_bind {W E} : MBind (stM W E) := fun A B k m w =>
  match m w with
  | (Ok a, w') => k a w'
  | (Err e, w') => (Err e, w')
  | (Panic, w') => (Panic, w')
  | (NoFuel, w') => (NoFuel, w')
  end.

Definition lift {W E A} (m : outcome E A) : stM W E A := fun w => (m, w).

(** A call of the environment that cannot fail. *)
Definition call {W E A} (f : W -> A * W) : stM W E A := fun w =>
  let '(a, w') := f w in (Ok a, w').

(** Reading and replacing the world. *)
Definition get_st {W E} : stM W E W := fun w => (Ok w, w).

(** [r.map_err(f)] on the result of a stateful call. *)
Definition st_map_err {W E E' A} (f : E -> E') (m : stM W E A) : stM W E' A :=
  fun w => let '(r, w') := m w in (map_err f r, w').

(** The result of a call as a value, for a [match] on it. *)
Definition attempt {W E E' A} (m : stM W E A) : stM W E' (A + E) := fun w =>
  match m w with
  | (Ok a, w') => (Ok (inl a), w')
  | (Err e, w') => (Ok (inr e), w')
  | (Panic, w') => (Panic, w')
  | (NoFuel, w') => (NoFuel, w')
  end.

(** [r.unwrap()]: an [Err] becomes a panic, whatever the caller's error type. *)
Definition st_unwrap {W E E' A} (m : stM W E A) : stM W E' A := fun w =>
  match m w with
  | (Ok a, w') => (Ok a, w')
  | (Err _, w') | (Panic, w') => (Panic, w')
  | (NoFuel, w') => (NoFuel, w')
  end.

(** [r.unwrap_or(d)] *)
Definition st_unwrap_or {W E E' A} (d : A) (m : stM W E A) : stM W E' A := fun w =>
  match m w with
  | (Ok a, w') => (Ok a, w')
  | (Err _, w') => (Ok d, w')
  | (Panic, w') => (Panic, w')
  | (NoFuel, w') => (NoFuel, w')
  end.

(** A computation on the second component of the world. *)
Definition on_snd {S W E A} (m : stM W E A) : stM (S * W) E A := fun sw =>
  let '(r, w) := m sw.2 in (r, (sw.1, w)).

(** Changing the first component. *)
Definition modify_fst {S W E} (f : S -> S) : stM (S * W) E unit := fun sw => (Ok tt, (f sw.1, sw.2)).

(** ** Machine words *)

(** [z] is a value of the unsigned type of [w] bits. *)
Definition is_u (w z : Z) : Prop := 0 <= z < 2 ^ w.

#[export] Instance is_u_dec w z : Decision (is_u w z).
Proof. unfold is_u. apply _. Defined.

(** [z as uW]: truncation to [w] bits. *)
Definition trunc (w z : Z) : Z := z mod 2 ^ w.

(** [z as iW] for an unsigned [z] of the same width. *)
Definition to_signed (w z : Z) : Z :=
  if decide (z < 2 ^ (w - 1)) then z else z - 2 ^ w.

(** [!z] on [w] bits. *)
Definition unot (w z : Z) : Z := 2 ^ w - 1 - z.

(** ** Bytes *)

Definition is_byte (b : Z) : Prop := is_u 8 b.
Abbreviation bytes_ok l := (Forall is_byte l).

(** [to_le_bytes] of an [8 * n]-bit integer, [from_le_bytes], and their
    big-endian counterparts. *)
Fixpoint to_le_bytes (n : nat) (z : Z) : list Z :=
  match n with
  | O => []
  | S n => z mod 256 :: to_le_bytes n (z / 256)
  end.

Fixpoint from_le_bytes (l : list Z) : Z :=
  match l with
  | [] => 0
  | b :: l => b + 256 * from_le_bytes l
  end.

Definition to_be_bytes (n : nat) (z : Z) : list Z := reverse (to_le_bytes n z).
Definition from_be_bytes (l : list Z) : Z := from_le_bytes (reverse l).

(** [u64::to_be] and [u64::from_be] on the little-endian target. *)
Definition bswap64 (z : Z) : Z := from_be_bytes (to_le_bytes 8 z).

(** [buf[a..b]], when it is in range. *)
Definition slice {A} (l : list A) (a b : nat) : list A := take (b - a) (drop a l).

Definition get_slice {A} (l : list A) (a b : nat) : option (list A) :=
  if decide (a <= b <= length l)%nat then Some (slice l a b) else None.

(** [buf[off..off + src.len()].copy_from_slice(src)] with the target range in bounds. *)
Definition blit {A} (l : list A) (off : nat) (src : list A) : list A :=
  take off l ++ src ++ drop (off + length src) l.

(** [slice::chunks(n)]; [fuel] at least the length of the list suffices. *)
Fixpoint chunks_fuel {A} (fuel n : nat) (l : list A) : list (list A) :=
  match fuel, l with
  | O, _ | _, [] => []
  | S fuel, _ => take n l :: chunks_fuel fuel n (drop n l)
  end.
Definition chunks {A} (n : nat) (l : list A) : list (list A) := chunks_fuel (length l) n l.

(** [slice::chunks_exact(n)]: the remainder is left out. *)
Definition chunks_exact {A} (n : nat) (l : list A) : list (list A) :=
  filter (fun c => length c = n) (chunks n l).

(** [Iterator::position] *)
Definition position {A} (P : A -> Prop) `{forall x, Decision (P x)} (l : list A) : option nat :=
  fst <$> list_find P l.

(** ** Primitive enumerations

    A [#[repr(..)]] enum with [num_enum]'s [TryFromPrimitive] and
    [IntoPrimitive]: the discriminant of a variant, and the variant of a
    discriminant. *)
Class PrimEnum (T : Type) := {
  discr : T -> Z;
  variants : list T;
}.

Definition try_from_primitive {T} `{PrimEnum T} (z : Z) : option T :=
  snd <$> list_find (fun v => discr v = z) variants.

Class PrimEnumLaws (T : Type) `{PrimEnum T} : Prop := {
  variants_complete : forall v : T, v ∈ variants;
  discr_inj : forall v v' : T, discr v = discr v' -> v = v';
}.

(** ** Outcomes: lemmas *)

(** Neither a panic nor an exhausted loop. *)
Definition settles {E A} (Q : A -> Prop) (r : outcome E A) : Prop :=
  match r with Ok a => Q a | Err _ => True | Panic | NoFuel => False end.

Lemma settles_mono {E A} (Q Q' : A -> Prop) (r : outcome E A) :
  settles Q r -> (forall a, r = Ok a -> Q a -> Q' a) -> settles Q' r.
Proof. destruct r; cbn; auto. Qed.

Lemma settles_bind {E A B} (Q : A -> Prop) (Q' : B -> Prop) (r : outcome E A) (k : A -> outcome E B) :
  settles Q r -> (forall a, Q a -> settles Q' (k a)) -> settles Q' (x ← r; k x).
Proof. destruct r; cbn; auto. Qed.

(** The same for stateful computations: [settles] of the result, whatever the
    world, and the rule for sequencing. *)
Definition st_settles {W E A} (Q : A -> Prop) (m : stM W E A) : Prop := forall w, settles Q (m w).1.

Lemma st_settles_ret {W E A} (Q : A -> Prop) (a : A) : Q a -> st_settles Q (mret (M := stM W E) a).
Proof. by intros ? w. Qed.

Lemma st_settles_lift {W E A} (Q : A -> Prop) (r : outcome E A) :
  settles Q r -> st_settles Q (lift (W := W) r).
Proof. by intros ? w. Qed.

Lemma st_settles_bind {W E A B} (Q : A -> Prop) (Q' : B -> Prop) (m : stM W E A) (k : A -> stM W E B) :
  st_settles Q m -> (forall a, Q a -> st_settles Q' (k a)) -> st_settles Q' (x ← m; k x).
Proof.
  intros Hm Hk w. unfold mbind, stM_bind. specialize (Hm w).
  destruct (m w) as [[a|e| |] w']; cbn in Hm |- *; try done. by apply Hk.
Qed.

Lemma st_settles_mono {W E A} (Q Q' : A -> Prop) (m : stM W E A) :
  st_settles Q m -> (forall a, Q a -> Q' a) -> st_settles Q' m.
Proof. intros Hm HQ w. eapply settles_mono; [apply Hm|auto]. Qed.

Lemma st_settles_map_err {W E E' A} (Q : A -> Prop) (f : E -> E') (m : stM W E A) :
  st_settles Q m -> st_settles Q (st_map_err f m).
Proof. intros Hm w. unfold st_map_err. specialize (Hm w). by destruct (m w) as [[]?]. Qed.

Lemma mapM_fmap_ok {E A B} (f : A -> outcome E B) (g : A -> B) l :
  Forall (fun x => f x = Ok (g x)) l -> mapM f l = Ok (g <$> l).
Proof.
  induction 1 as [|x l Hx _ IH]; [done|].
  change (mapM f (x :: l)) with (y ← f x; k ← mapM f l; mret (y :: k)).
  by rewrite Hx, IH.
Qed.

(** ** Words: lemmas *)

(** ** Runs

    [runs m w Q X]: from the world [w] the computation ends, in [Q] with a
    result or in [X] with an error; it neither panics nor runs out of fuel. *)
Definition runs {W E A} (m : stM W E A) (w : W) (Q : A -> W -> Prop) (X : E -> W -> Prop) : Prop :=
  match m w with
  | (Ok a, w') => Q a w'
  | (Err e, w') => X e w'
  | _ => False
  end.

(** No error is possible. *)
Definition no_error {W E} (e : E) (w : W) : Prop := False.

Lemma bind_ok {W E A B} (m : stM W E A) (k : A -> stM W E B) w a w' :
  m w = (Ok a, w') -> (m ≫= k) w = k a w'.
Proof. unfold mbind, stM_bind. by intros ->. Qed.

Lemma runs_ret {W E A} (a : A) (w : W) Q (X : E -> W -> Prop) : Q a w -> runs (mret a) w Q X.
Proof. done. Qed.

Lemma runs_lift {W E A} (r : outcome E A) (w : W) Q X :
  runs (lift r) w Q X = match r with Ok a => Q a w | Err e => X e w | _ => False end.
Proof. by destruct r. Qed.

Lemma runs_call {W E A} (f : W -> A * W) w Q (X : E -> W -> Prop) :
  Q (f w).1 (f w).2 -> runs (call f) w Q X.
Proof. unfold runs, call. by destruct (f w). Qed.

Lemma runs_bind {W E A B} (m : stM W E A) (k : A -> stM W E B) w Q X :
  runs m w (fun a w' => runs (k a) w' Q X) X -> runs (m ≫= k) w Q X.
Proof. unfold runs at 1 3, mbind, stM_bind. destruct (m w) as [[a|e| |] w']; done. Qed.

Lemma runs_mono {W E A} (m : stM W E A) w (Q Q' : A -> W -> Prop) (X X' : E -> W -> Prop) :
  runs m w Q X -> (forall a w', Q a w' -> Q' a w') -> (forall e w', X e w' -> X' e w') ->
  runs m w Q' X'.
Proof. unfold runs. intros Hm HQ HX. destruct (m w) as [[a|e| |] w']; auto. Qed.

Lemma runs_attempt {W E E' A} (m : stM W E A) w Q (X : E' -> W -> Prop) :
  runs m w (fun a => Q (inl a)) (fun e => Q (inr e)) -> runs (attempt m) w Q X.
Proof. unfold runs, attempt. by destruct (m w) as [[a|e| |] w']. Qed.

Lemma runs_on_snd {S W E A} (m : stM W E A) (sw : S * W) Q X :
  runs m sw.2 (fun a w => Q a (sw.1, w)) (fun e w => X e (sw.1, w)) -> runs (on_snd m) sw Q X.
Proof. unfold runs, on_snd. by destruct (m sw.2) as [[a|e| |] w']. Qed.

Lemma runs_ok {W E A} (m : stM W E A) w Q (X : E -> W -> Prop) :
  runs m w Q X -> (forall e w', ~ X e w') -> exists a w', m w = (Ok a, w') /\ Q a w'.
Proof. unfold runs. intros Hm HX. destruct (m w) as [[a|e| |] w']; naive_solver. Qed.

Lemma runs_settles {W E A} (m : stM W E A) w (Q : A -> W -> Prop) (P : A -> Prop) X :
  runs m w Q X -> (forall a w', Q a w' -> P a) -> settles P (m w).1.
Proof. unfold runs. intros Hm HP. destruct (m w) as [[a|e| |] w']; cbn; eauto. Qed.

Lemma trunc_small w z : is_u w z -> trunc w z = z.
Proof. apply Z.mod_small. Qed.

Lemma trunc_words w l : Forall (is_u w) l -> trunc w <$> l = l.
Proof.
  induction 1 as [|x l Hx _ IH]; [done|]. rewrite fmap_cons, IH. by rewrite trunc_small.
Qed.

Lemma trunc_range w z : 0 <= w -> is_u w (trunc w z).
Proof. intros. apply Z.mod_pos_bound. lia. Qed.

Lemma trunc_trunc w z : trunc w (trunc w z) = trunc w z.
Proof. apply Z.mod_mod_divide. apply Z.divide_refl. Qed.

Lemma trunc_ones w z : 0 <= w -> Z.land z (Z.ones w) = trunc w z.
Proof. apply Z.land_ones. Qed.

Lemma is_u_weaken w w' z : is_u w z -> w <= w' -> is_u w' z.
Proof.
  unfold is_u. intros [? ?] ?. split; [done|].
  assert (0 <= w) by (destruct (decide (0 <= w)); [done|];
    rewrite Z.pow_neg_r in *; lia).
  pose proof (Z.pow_le_mono_r 2 w w'). lia.
Qed.

(** Two disjoint bit fields joined by [|] are the sum of their values. *)
Lemma lor_shiftl_add n h l :
  is_u n l -> Z.lor (Z.shiftl h n) l = h * 2 ^ n + l.
Proof.
  intros Hl. assert (0 <= n).
  { unfold is_u in Hl. destruct (decide (0 <= n)); [done|].
    rewrite Z.pow_neg_r in Hl; lia. }
  rewrite <- Z.shiftl_mul_pow2 by done.
  rewrite <- Z.lxor_lor, Z.add_nocarry_lxor; try done;
    apply Z.bits_inj'; intros i Hi; rewrite Z.land_spec, Z.bits_0;
    (destruct (decide (i < n)); [by rewrite Z.shiftl_spec_low|]);
    rewrite <- (Z.mod_small l (2 ^ n)) by apply Hl;
    rewrite Z.mod_pow2_bits_high by lia; apply andb_false_r.
Qed.

Lemma field_high n h l :
  is_u n l -> Z.shiftr (Z.lor (Z.shiftl h n) l) n = h.
Proof.
  intros Hl. rewrite lor_shiftl_add by done. unfold is_u in Hl.
  assert (0 <= n) by (destruct (decide (0 <= n)); [done|];
    rewrite Z.pow_neg_r in Hl; lia).
  rewrite Z.shiftr_div_pow2 by done. rewrite Z.div_add_l by lia.
  rewrite Z.div_small by done. lia.
Qed.

Lemma field_low n h l :
  is_u n l -> trunc n (Z.lor (Z.shiftl h n) l) = l.
Proof.
  intros Hl. rewrite lor_shiftl_add by done. unfold trunc, is_u in *.
  rewrite Z.add_comm, Z_mod_plus_full. by apply Z.mod_small.
Qed.

Lemma field_range n m h l :
  0 <= m -> is_u m h -> is_u n l -> is_u (m + n) (Z.lor (Z.shiftl h n) l).
Proof.
  intros Hm Hh Hl. rewrite lor_shiftl_add by done. unfold is_u in *.
  assert (0 <= n) by (destruct (decide (0 <= n)); [done|];
    rewrite Z.pow_neg_r in Hl; lia).
  rewrite Z.pow_add_r by lia. nia.
Qed.

(** A word is its high and low halves. *)
Lemma field_split n z :
  0 <= n -> Z.lor (Z.shiftl (Z.shiftr z n) n) (trunc n z) = z.
Proof.
  intros. rewrite lor_shiftl_add by (by apply trunc_range).
  unfold trunc. rewrite Z.shiftr_div_pow2 by done.
  pose proof (Z.div_mod z (2 ^ n)). lia.
Qed.

Lemma shiftr_range n m z : 0 <= n -> 0 <= m -> is_u (n + m) z -> is_u m (Z.shiftr z n).
Proof.
  unfold is_u. intros Hn Hm [? Hz]. rewrite Z.shiftr_div_pow2 by done.
  rewrite Z.pow_add_r in Hz by lia. split.
  - apply Z.div_pos; lia.
  - apply Z.div_lt_upper_bound; lia.
Qed.

(** ** Single bits: lemmas *)

Lemma testbit_bit b k : 0 <= b -> 0 <= k -> Z.testbit (Z.shiftl 1 b) k = bool_decide (k = b).
Proof.
  intros Hb Hk. rewrite Z.shiftl_1_l, Z.pow2_bits_eqb by done.
  destruct (Z.eqb_spec b k); case_bool_decide; congruence.
Qed.

(** A word has no bits above its width. *)
Lemma testbit_high z w k : is_u w z -> w <= k -> Z.testbit z k = false.
Proof.
  intros Hz Hk. destruct (decide (0 <= w)).
  - rewrite <- (trunc_small w z Hz). unfold trunc. apply Z.mod_pow2_bits_high. lia.
  - unfold is_u in Hz. rewrite Z.pow_neg_r in Hz; lia.
Qed.

(** [z & (1 << n) == 0] tests one bit. *)
Lemma land_bit_zero z n :
  0 <= n -> Z.land z (Z.shiftl 1 n) = 0 <-> Z.testbit z n = false.
Proof.
  intros Hn. split.
  - intros Hz. assert (Z.testbit (Z.land z (Z.shiftl 1 n)) n = false) as Hb.
    { by rewrite Hz, Z.bits_0. }
    rewrite Z.land_spec, testbit_bit, bool_decide_true, andb_true_r in Hb by done. done.
  - intros Ht. apply Z.bits_inj'. intros m Hm.
    rewrite Z.land_spec, testbit_bit, Z.bits_0 by done.
    case_bool_decide; [subst; by rewrite Ht|apply andb_false_r].
Qed.

Lemma land_single_bit {A} z n (a b : A) :
  0 <= n ->
  (if decide (Z.land z (Z.shiftl 1 n) = 0) then a else b) = if Z.testbit z n then b else a.
Proof.
  intros Hn. destruct (land_bit_zero z n Hn) as [H1 H2].
  case_decide as Hd; destruct (Z.testbit z n); try done.
  - by specialize (H1 Hd).
  - by destruct Hd; apply H2.
Qed.

Lemma testbit_unot w b k :
  0 <= b < w -> 0 <= k < w -> Z.testbit (unot w (Z.shiftl 1 b)) k = bool_decide (k <> b).
Proof.
  intros Hb Hk. unfold unot.
  replace (2 ^ w - 1) with (Z.ones w) by (rewrite Z.ones_equiv; lia).
  rewrite Z.sub_nocarry_ldiff.
  - rewrite Z.ldiff_spec, testbit_bit, Z.ones_spec_low by lia.
    rewrite andb_true_l. repeat case_bool_decide; done.
  - apply Z.bits_inj'. intros m Hm. rewrite Z.ldiff_spec, testbit_bit, Z.bits_0 by lia.
    case_bool_decide as He; [|done]. subst. by rewrite Z.ones_spec_low by lia.
Qed.

Lemma lor_bit_range w z b : is_u w z -> 0 <= b < w -> is_u w (Z.lor z (Z.shiftl 1 b)).
Proof.
  intros [Hz1 Hz2] Hb.
  assert (0 <= Z.lor z (Z.shiftl 1 b)) as H0
    by (apply Z.lor_nonneg; split; [done|by apply Z.shiftl_nonneg]).
  split; [done|]. destruct (Z.eq_dec (Z.lor z (Z.shiftl 1 b)) 0) as [->|Hn];
    [by apply Z.pow_pos_nonneg; lia|].
  apply Z.log2_lt_pow2; [lia|]. rewrite Z.log2_lor by (done || by apply Z.shiftl_nonneg).
  rewrite Z.shiftl_1_l, Z.log2_pow2 by lia.
  destruct (Z.eq_dec z 0) as [->|]; [change (Z.log2 0) with 0; lia|].
  assert (Z.log2 z < w) by (apply Z.log2_lt_pow2; lia). lia.
Qed.

Lemma land_range_l w z y : is_u w z -> 0 <= y -> is_u w (Z.land z y).
Proof.
  intros [Hz1 Hz2] Hy. split; [apply Z.land_nonneg; by left|].
  pose proof (Z.land_nonneg z y). destruct (Z.eq_dec (Z.land z y) 0) as [->|]; [lia|].
  assert (z <> 0) by (intros ->; by rewrite Z.land_0_l in *).
  assert (0 < w) by (destruct (decide (0 < w)); [done|];
    assert (2 ^ w <= 1) by (destruct (decide (w = 0)) as [->|];
      [done|rewrite Z.pow_neg_r; lia]); lia).
  apply Z.log2_lt_pow2; [lia|].
  eapply Z.le_lt_trans; [by apply Z.log2_land|].
  pose proof (Z.log2_lt_pow2 z w). pose proof (Z.log2_nonneg y). lia.
Qed.

(** ** Positions: lemmas *)

Section Position.
Context {A} (P : A -> Prop) `{forall x, Decision (P x)}.

Lemma position_Some l i :
  position P l = Some i <->
  exists x, l !! i = Some x /\ P x /\ forall j y, l !! j = Some y -> (j < i)%nat -> ~ P y.
Proof.
  unfold position. rewrite fmap_Some. split.
  - intros ([j x] & (Hx & HP & Hn)%list_find_Some & ->). eauto.
  - intros (x & Hx & HP & Hn). exists (i, x). split; [|done].
    by apply list_find_Some.
Qed.

Lemma position_None l : position P l = None <-> Forall (fun x => ~ P x) l.
Proof. unfold position. by rewrite fmap_None, list_find_None. Qed.

(** Replacing an element that does not count by one that does not count. *)
Lemma position_insert_ne l i x :
  ~ P x -> (forall y, l !! i = Some y -> ~ P y) ->
  list_find P (<[i := x]> l) = list_find P l.
Proof.
  intros Hx Hy. destruct (list_find P l) as [[j y]|] eqn:Hf.
  - apply list_find_Some in Hf as (Hj & HP & Hn).
    apply list_find_Some. assert (i <> j) by naive_solver.
    rewrite list_lookup_insert_ne by done. split_and!; [done|done|].
    intros k z Hz Hk. destruct (decide (i = k)) as [->|].
    + apply list_lookup_insert_Some in Hz as [(_ & -> & _)|[? _]]; done.
    + rewrite list_lookup_insert_ne in Hz by done. eauto.
  - apply list_find_None in Hf. apply list_find_None.
    by apply Forall_insert.
Qed.

Lemma position_insert_iff l i x y :
  l !! i = Some y -> (P x <-> P y) -> position P (<[i := x]> l) = position P l.
Proof.
  intros Hy Hxy. destruct (position P l) as [j|] eqn:Hp.
  - apply position_Some in Hp as (z & Hz & HP & Hn). apply position_Some.
    assert (i < length l)%nat by (by eapply lookup_lt_Some).
    assert (forall k w, <[i := x]> l !! k = Some w -> exists w', l !! k = Some w' /\ (P w <-> P w'))
      as Hk.
    { intros k w Hw. apply list_lookup_insert_Some in Hw as [(-> & -> & _)|[_ Hw]]; eauto. }
    destruct (decide (i = j)) as [->|Hne].
    + exists x. rewrite list_lookup_insert_eq by done. split_and!; [done|simplify_eq; by apply Hxy|].
      intros k w Hw Hlt HPw. destruct (Hk k w Hw) as (w' & Hw' & Hiff).
      eapply Hn; [done..|]. by apply Hiff.
    + exists z. rewrite list_lookup_insert_ne by done. split_and!; [done..|].
      intros k w Hw Hlt HPw. destruct (Hk k w Hw) as (w' & Hw' & Hiff).
      eapply Hn; [done..|]. by apply Hiff.
  - apply position_None in Hp. apply position_None. apply Forall_insert; [done|].
    rewrite Hxy. by eapply Forall_lookup_1 in Hp.
Qed.

Lemma position_insert_new l i x :
  position P l = None -> P x -> (i < length l)%nat -> position P (<[i := x]> l) = Some i.
Proof.
  rewrite position_None, position_Some. intros Hf Hx Hi.
  exists x. split_and!; [by rewrite list_lookup_insert_eq|done|].
  intros j y Hy Hj. rewrite list_lookup_insert_ne in Hy by lia.
  by eapply Forall_lookup_1 in Hf.
Qed.
End Position.

(** ** Bytes: lemmas *)

Lemma length_to_le_bytes n z : length (to_le_bytes n z) = n.
Proof. revert z. induction n; intros; simpl; auto. Qed.

Lemma to_le_bytes_ok n z : bytes_ok (to_le_bytes n z).
Proof.
  revert z. induction n; intros; simpl; constructor; auto.
  unfold is_byte, is_u. change (2 ^ 8) with 256. by apply Z.mod_pos_bound.
Qed.

Lemma from_le_to_le n z : from_le_bytes (to_le_bytes n z) = z mod 2 ^ (8 * Z.of_nat n).
Proof.
  revert z. induction n as [|n IH]; intros z; [by rewrite Z.mod_1_r|].
  cbn [to_le_bytes from_le_bytes]. rewrite IH.
  replace (8 * Z.of_nat (S n)) with (8 + 8 * Z.of_nat n) by lia.
  rewrite Z.pow_add_r by lia. change (2 ^ 8) with 256.
  rewrite Z.rem_mul_r by lia. lia.
Qed.

Lemma from_le_to_le_small n z :
  is_u (8 * Z.of_nat n) z -> from_le_bytes (to_le_bytes n z) = z.
Proof. intros. rewrite from_le_to_le. by apply Z.mod_small. Qed.

Lemma to_le_from_le l : bytes_ok l -> to_le_bytes (length l) (from_le_bytes l) = l.
Proof.
  induction 1 as [|b l Hb Hl IH]; [done|].
  cbn [length to_le_bytes from_le_bytes]. unfold is_byte, is_u in Hb.
  change (2 ^ 8) with 256 in Hb. f_equal.
  - rewrite (Z.mul_comm 256), Z_mod_plus_full. by apply Z.mod_small.
  - rewrite (Z.mul_comm 256), Z.div_add by lia. by rewrite Z.div_small.
Qed.

Lemma from_le_range l : bytes_ok l -> is_u (8 * Z.of_nat (length l)) (from_le_bytes l).
Proof.
  intros Hl. rewrite <- (to_le_from_le l Hl), from_le_to_le, length_to_le_bytes.
  apply Z.mod_pos_bound. lia.
Qed.

Lemma from_le_range_n n w l :
  length l = n -> w = 8 * Z.of_nat n -> bytes_ok l -> is_u w (from_le_bytes l).
Proof. intros <- ->. apply from_le_range. Qed.

Lemma bytes_ok_zeros n : bytes_ok (replicate n 0).
Proof. apply Forall_replicate. split; done. Qed.

Lemma from_be_to_be n z :
  is_u (8 * Z.of_nat n) z -> from_be_bytes (to_be_bytes n z) = z.
Proof.
  intros. unfold from_be_bytes, to_be_bytes. rewrite reverse_involutive.
  by apply from_le_to_le_small.
Qed.

Lemma length_to_be_bytes n z : length (to_be_bytes n z) = n.
Proof. unfold to_be_bytes. by rewrite length_reverse, length_to_le_bytes. Qed.

Lemma to_be_bytes_ok n z : bytes_ok (to_be_bytes n z).
Proof. apply Forall_reverse, to_le_bytes_ok. Qed.

Lemma bswap64_range z : is_u 64 (bswap64 z).
Proof.
  unfold bswap64, from_be_bytes.
  change 64 with (8 * Z.of_nat 8). rewrite <- (length_to_le_bytes 8 z) at 1.
  rewrite <- length_reverse. apply from_le_range, Forall_reverse, to_le_bytes_ok.
Qed.

Lemma bswap64_involutive z : is_u 64 z -> bswap64 (bswap64 z) = z.
Proof.
  intros Hz. unfold bswap64 at 1, from_be_bytes.
  assert (to_le_bytes 8 (bswap64 z) = reverse (to_le_bytes 8 z)) as ->.
  { unfold bswap64, from_be_bytes.
    rewrite <- (length_to_le_bytes 8 z), <- length_reverse at 1.
    apply to_le_from_le, Forall_reverse, to_le_bytes_ok. }
  rewrite reverse_involutive. by apply from_le_to_le_small.
Qed.

(** ** Slices and chunks: lemmas *)

Lemma length_slice {A} (l : list A) a b :
  (b <= length l)%nat -> length (slice l a b) = (b - a)%nat.
Proof. intros. unfold slice. rewrite length_take, length_drop. lia. Qed.

Lemma get_slice_Some {A} (l : list A) a b :
  (a <= b <= length l)%nat -> get_slice l a b = Some (slice l a b).
Proof. intros. unfold get_slice. by rewrite decide_True. Qed.

Lemma Forall_slice {A} (P : A -> Prop) l a b : Forall P l -> Forall P (slice l a b).
Proof. intros. by apply Forall_take, Forall_drop. Qed.

Lemma slice_app {A} (l : list A) a b c :
  (a <= b <= c)%nat -> slice l a b ++ slice l b c = slice l a c.
Proof.
  intros Hab. unfold slice.
  replace (drop b l) with (drop (b - a) (drop a l)) by (rewrite drop_drop; f_equal; lia).
  rewrite <- (take_drop (b - a) (take (c - a) (drop a l))). f_equal.
  - rewrite take_take. f_equal. lia.
  - rewrite take_drop_commute. do 2 f_equal. lia.
Qed.

Lemma slice_all {A} (l : list A) n : length l = n -> slice l 0 n = l.
Proof. intros <-. unfold slice. rewrite Nat.sub_0_r. apply firstn_all. Qed.

Lemma slice_slice {A} (l : list A) a b c d :
  (a + d <= b)%nat -> slice (slice l a b) c d = slice l (a + c) (a + d).
Proof.
  intros Hd. unfold slice. rewrite skipn_firstn_comm, take_take, drop_drop. f_equal; lia.
Qed.

Lemma slice_one {A} (l : list A) i x : l !! i = Some x -> slice l i (i + 1) = [x].
Proof.
  intros Hx. unfold slice. rewrite (drop_S l x i) by done.
  replace (i + 1 - i)%nat with 1%nat by lia. by rewrite firstn_cons, take_0.
Qed.

(** The field of a struct, written back. *)
Lemma le_slice l a b n :
  bytes_ok l -> (a <= b <= length l)%nat -> n = (b - a)%nat ->
  to_le_bytes n (from_le_bytes (slice l a b)) = slice l a b.
Proof.
  intros Hb Hab ->. rewrite <- (length_slice l a b) by lia.
  by apply to_le_from_le, Forall_slice.
Qed.

Lemma length_blit {A} (l src : list A) off :
  (off + length src <= length l)%nat -> length (blit l off src) = length l.
Proof.
  intros. unfold blit. rewrite !length_app, length_take, length_drop. lia.
Qed.

Lemma Forall_blit {A} (P : A -> Prop) l off src :
  Forall P l -> Forall P src -> Forall P (blit l off src).
Proof.
  intros. unfold blit. apply Forall_app; split; [by apply Forall_take|].
  apply Forall_app; split; [done|by apply Forall_drop].
Qed.

Lemma chunks_fuel_spec {A} fuel n (l : list A) :
  (0 < n)%nat -> (length l <= fuel)%nat ->
  concat (chunks_fuel fuel n l) = l /\
  Forall (fun c => 0 < length c <= n)%nat (chunks_fuel fuel n l).
Proof.
  intros Hn. revert l. induction fuel as [|fuel IH]; intros [|x l] Hl; simpl in Hl;
    try (split; [done|constructor]); [lia|].
  cbn [chunks_fuel concat].
  destruct (IH (drop n (x :: l))) as [Hc Hf].
  { rewrite length_drop. simpl. lia. }
  split.
  - by rewrite Hc, take_drop.
  - constructor; [|done]. rewrite length_take. simpl. lia.
Qed.

Lemma length_chunks_fuel {A} fuel n (l : list A) k :
  (0 < n)%nat -> (length l <= k * n)%nat -> (length (chunks_fuel fuel n l) <= k)%nat.
Proof.
  intros Hn. revert l k. induction fuel as [|fuel IH]; intros [|x l] k Hk;
    cbn [chunks_fuel length]; try lia.
  destruct k as [|k]; [simpl in Hk; lia|].
  apply le_n_S, IH. rewrite length_drop. simpl in *. lia.
Qed.

Lemma length_chunks {A} n (l : list A) k :
  (0 < n)%nat -> (length l <= k * n)%nat -> (length (chunks n l) <= k)%nat.
Proof. apply length_chunks_fuel. Qed.

Lemma chunks_fuel_enough {A} fuel fuel' n (l : list A) :
  (0 < n)%nat -> (length l <= fuel)%nat -> (length l <= fuel')%nat ->
  chunks_fuel fuel n l = chunks_fuel fuel' n l.
Proof.
  intros Hn. revert fuel' l.
  induction fuel as [|fuel IH]; intros [|fuel'] [|x l] Hf Hf'; simpl in Hf, Hf';
    try done; try lia.
  cbn [chunks_fuel]. f_equal. apply IH; rewrite length_drop; simpl; lia.
Qed.

Lemma chunks_nil {A} n : chunks n (@nil A) = [].
Proof. done. Qed.

Lemma chunks_app {A} n (l1 l2 : list A) :
  (0 < n)%nat -> length l1 = n -> chunks n (l1 ++ l2) = l1 :: chunks n l2.
Proof.
  intros Hn Hl. destruct l1 as [|x l1]; simpl in Hl; [lia|].
  unfold chunks at 1. cbn [app length chunks_fuel].
  change (x :: l1 ++ l2) with ((x :: l1) ++ l2).
  rewrite take_app_length' by done. rewrite drop_app_length' by done. f_equal.
  apply chunks_fuel_enough; rewrite ?length_app; lia.
Qed.

Lemma chunks_exact_app {A} n (l1 l2 : list A) :
  (0 < n)%nat -> length l1 = n -> chunks_exact n (l1 ++ l2) = l1 :: chunks_exact n l2.
Proof.
  intros. unfold chunks_exact. rewrite chunks_app by done.
  by rewrite filter_cons_True.
Qed.

Lemma chunks_exact_concat {A} n (ls : list (list A)) :
  (0 < n)%nat -> Forall (fun l => length l = n) ls -> chunks_exact n (concat ls) = ls.
Proof.
  intros Hn. induction 1 as [|l ls Hl _ IH]; [done|].
  cbn [concat]. by rewrite chunks_exact_app, IH.
Qed.

(** A byte string whose length is a multiple of [n] is the concatenation of
    [n]-byte pieces. *)
Lemma split_pieces {A} n k (l : list A) :
  length l = (k * n)%nat ->
  exists ls, l = concat ls /\ length ls = k /\ Forall (fun c => length c = n) ls.
Proof.
  revert l. induction k as [|k IH]; intros l Hl.
  - exists []. destruct l; [done|]. simpl in Hl. lia.
  - destruct (IH (drop n l)) as (ls & Hd & Hls & Hf).
    { rewrite length_drop. simpl in Hl. lia. }
    exists (take n l :: ls). split_and!.
    + cbn [concat]. by rewrite <- Hd, take_drop.
    + simpl. lia.
    + constructor; [rewrite length_take; simpl in Hl; lia|done].
Qed.

Lemma slice_concat {A} n i (ls : list (list A)) l :
  Forall (fun c => length c = n) ls -> ls !! i = Some l ->
  slice (concat ls) (i * n) (i * n + n) = l.
Proof.
  intros Hf. revert i. induction Hf as [|c ls Hc Hf IH]; intros i Hi; [done|].
  unfold slice. destruct i as [|i]; simplify_eq/=.
  - rewrite drop_0, take_app_length'; [done|lia].
  - rewrite <- (IH i) by done. unfold slice.
    rewrite drop_app_ge by lia. f_equal; [lia|f_equal; lia].
Qed.

(** Words written little-endian one after the other, read back, and vice versa. *)
Lemma words_of_bytes ws :
  Forall (is_u 64) ws ->
  from_le_bytes <$> chunks_exact 8 (concat (to_le_bytes 8 <$> ws)) = ws.
Proof.
  intros Hws. rewrite chunks_exact_concat; [|lia|].
  - induction Hws as [|w ws Hw _ IH]; [done|].
    rewrite !fmap_cons, IH. f_equal. by apply from_le_to_le_small.
  - apply Forall_fmap, Forall_true. intros w. apply length_to_le_bytes.
Qed.

Lemma bytes_of_words k l :
  length l = (k * 8)%nat -> bytes_ok l ->
  concat (to_le_bytes 8 <$> (from_le_bytes <$> chunks_exact 8 l)) = l /\
  length (from_le_bytes <$> chunks_exact 8 l) = k /\
  Forall (is_u 64) (from_le_bytes <$> chunks_exact 8 l).
Proof.
  intros Hl Hb. destruct (split_pieces 8 k l Hl) as (ls & -> & <- & Hf).
  rewrite chunks_exact_concat by (done || lia). rewrite length_fmap.
  clear Hl. induction Hf as [|c ls Hc _ IH]; [done|].
  apply Forall_app in Hb as [Hbc Hbl]. destruct (IH Hbl) as (IH1 & _ & IH2).
  split_and!; [|done|].
  - rewrite !fmap_cons. cbn [concat]. rewrite IH1. f_equal.
    rewrite <- Hc. by apply to_le_from_le.
  - rewrite fmap_cons. constructor; [|done].
    change 64 with (8 * Z.of_nat 8). rewrite <- Hc. by apply from_le_range.
Qed.

(** ** Primitive enumerations: lemmas *)

Section PrimEnumTheory.
Context `{PrimEnumLaws T}.

Lemma try_from_primitive_discr (v : T) : try_from_primitive (discr v) = Some v.
Proof.
  unfold try_from_primitive.
  destruct (list_find_elem_of (fun v' : T => discr v' = discr v) variants v)
    as [[i v'] Hf]; [apply variants_complete|done|].
  rewrite Hf. simpl. f_equal. apply discr_inj.
  by apply list_find_Some in Hf as (_ & ? & _).
Qed.

Lemma try_from_primitive_Some z (v : T) :
  try_from_primitive z = Some v <-> discr v = z.
Proof.
  split; [|intros <-; apply try_from_primitive_discr].
  unfold try_from_primitive. intros Hv.
  apply fmap_Some in Hv as ([i v'] & Hf & ->).
  by apply list_find_Some in Hf as (_ & ? & _).
Qed.

End PrimEnumTheory.

(** ** Automation *)

(** Solves a [PrimEnumLaws] instance of a concrete enumeration. *)
Ltac solve_prim_enum :=
  split;
  [ intros []; repeat first [left; done | right]
  | intros [] []; vm_compute; congruence ].

(** Closed range checks, length side conditions and byte-list facts. *)
Ltac solve_range := first
  [ done | lia
  | unfold is_byte, is_u in *; simpl; lia
  | vm_compute; intuition congruence ].

Create HintDb odp.
Create Rewrite HintDb odp_len.
#[export] Hint Resolve trunc_range to_le_bytes_ok to_be_bytes_ok bytes_ok_zeros
  Forall_slice Forall_blit bswap64_range : odp.
#[export] Hint Rewrite @length_app @length_take @length_drop @length_replicate
  length_to_le_bytes length_to_be_bytes @length_reverse @length_insert
  @length_fmap : odp_len.

(** Normalises list lengths and decides the arithmetic. *)
Ltac solve_len := autorewrite with odp_len in *; first [lia | simpl in *; lia].

(** Case analysis on the scrutinee of the goal's next match. *)
Ltac step_match :=
  match goal with
  | |- context [match ?x with _ => _ end] => destruct x eqn:?; simplify_eq/=
  end.
