(* ===== verification/FfaCore.v ===== *)
(** FF-A core: error and function identifiers, the SMC register file
    ([SmcParams], [SmcCall]), the supervisor call itself and the generic
    execution path of [odp-ffa/src/lib.rs], [smc.rs] and [util.rs].

    The hypervisor behind [smc #0] is not part of the repository: it is the
    parameter [SmcEnv], a function from the function identifier and the
    argument registers to the result registers.  [SmcEnvLaws] states that an
    SMC returns 18 registers of 64 bits. *)
From Stdlib Require Import ZArith Lia.
From S2P Require Import Prelude.
#[local] Open Scope Z_scope.

(** ** Identifiers (lib.rs) *)

Module ErrorCode.
Inductive t : Type :=
  | Ok | NotSupported | InvalidParameters | NoMemory | Busy | Interrupted
  | Denied | Retry | Aborted | NoData | NotReady.

Definition to_i64 (c : t) : Z :=
  match c with
  | Ok => 0
  | NotSupported => -1
  | InvalidParameters => -2
  | NoMemory => -3
  | Busy => -4
  | Interrupted => -5
  | Denied => -6
  | Retry => -7
  | Aborted => -8
  | NoData => -9
  | NotReady => -10
  end.

#[export] Instance eq_dec : EqDecision t.
Proof. solve_decision. Defined.

#[export] Instance enum : PrimEnum t := {|
  discr := to_i64;
  variants := [Ok; NotSupported; InvalidParameters; NoMemory; Busy; Interrupted;
    Denied; Retry; Aborted; NoData; NotReady];
|}.
End ErrorCode.
Export (hints) ErrorCode.

Module FunctionId.
Inductive t : Type :=
  | Error | Success32 | Success64 | Interrupt | Version | Features | RxRelease
  | RxTxMap | RxTxUnmap | PartitionInfoGet | IdGet | MsgWait | MsgYield | MsgRun
  | MsgSend | MsgSendDirectReq | MsgSendDirectResp | MsgSend2 | MsgPoll
  | MemDonate | MemLend | MemShare | MemRetrieveReq | MemRetrieveResp
  | MemRelinquish | MemReclaim | MemFragRx | MemFragTx | NotificationBind
  | NotificationSet | NotificationGet | MemPermGet | MemPermSet | ConsoleLog
  | MsgSendDirectReq2 | MsgSendDirectResp2.

Definition to_u64 (f : t) : Z :=
  match f with
  | Error => 0x84000060
  | Success32 => 0x84000061
  | Success64 => 0xC4000061
  | Interrupt => 0x84000062
  | Version => 0x84000063
  | Features => 0x84000064
  | RxRelease => 0x84000065
  | RxTxMap => 0xC4000066
  | RxTxUnmap => 0x84000067
  | PartitionInfoGet => 0x84000068
  | IdGet => 0x84000069
  | MsgWait => 0x8400006B
  | MsgYield => 0x8400006C
  | MsgRun => 0x8400006D
  | MsgSend => 0x8400006E
  | MsgSendDirectReq => 0xC400006F
  | MsgSendDirectResp => 0xC4000070
  | MsgSend2 => 0x84000086
  | MsgPoll => 0x8400006A
  | MemDonate => 0xC4000071
  | MemLend => 0xC4000072
  | MemShare => 0xC4000073
  | MemRetrieveReq => 0x84000074
  | MemRetrieveResp => 0x84000075
  | MemRelinquish => 0x84000076
  | MemReclaim => 0x84000077
  | MemFragRx => 0x8400007A
  | MemFragTx => 0x8400007B
  | NotificationBind => 0x8400007F
  | NotificationSet => 0x84000081
  | NotificationGet => 0x84000082
  | MemPermGet => 0x84000088
  | MemPermSet => 0x84000089
  | ConsoleLog => 0xC400008A
  | MsgSendDirectReq2 => 0xC400008D
  | MsgSendDirectResp2 => 0xC400008E
  end.

#[export] Instance eq_dec : EqDecision t.
Proof. solve_decision. Defined.

#[export] Instance enum : PrimEnum t := {|
  discr := to_u64;
  variants := [Error; Success32; Success64; Interrupt; Version; Features; RxRelease;
    RxTxMap; RxTxUnmap; PartitionInfoGet; IdGet; MsgWait; MsgYield; MsgRun;
    MsgSend; MsgSendDirectReq; MsgSendDirectResp; MsgSend2; MsgPoll;
    MemDonate; MemLend; MemShare; MemRetrieveReq; MemRetrieveResp;
    MemRelinquish; MemReclaim; MemFragRx; MemFragTx; NotificationBind;
    NotificationSet; NotificationGet; MemPermGet; MemPermSet; ConsoleLog;
    MsgSendDirectReq2; MsgSendDirectResp2];
|}.
End FunctionId.
Export (hints) FunctionId.

Module Error.
Inductive t : Type :=
  | InvalidFunctionId (v : Z)
  | UnexpectedFunctionId (id : FunctionId.t)
  | InvalidErrorCode (v : Z)
  | ErrorCode (c : ErrorCode.t)
  | HafniumError (v : Z)
  | TooManySmcParams
  | Other (s : string).

#[export] Instance eq_dec : EqDecision t.
Proof. solve_decision. Defined.
End Error.
Export (hints) Error.

Abbreviation ffa_result := (outcome Error.t).

Definition try_parse_function_id (func_id : Z) : ffa_result FunctionId.t :=
  match try_from_primitive func_id with
  | Some id => Ok id
  | None => Err (Error.InvalidFunctionId func_id)
  end.

(** [err as i64] reads the 64-bit register as a signed number. *)
Definition try_parse_error_code (err : Z) : ffa_result ErrorCode.t :=
  match try_from_primitive (to_signed 64 err) with
  | Some c => Ok c
  | None => Err (Error.InvalidErrorCode (to_signed 64 err))
  end.

(** ** Registers (smc.rs) *)

Module SmcParams.
Record t : Type := mk {
  x1 : Z; x2 : Z; x3 : Z; x4 : Z; x5 : Z; x6 : Z; x7 : Z; x8 : Z; x9 : Z;
  x10 : Z; x11 : Z; x12 : Z; x13 : Z; x14 : Z; x15 : Z; x16 : Z; x17 : Z;
}.

#[export] Instance eq_dec : EqDecision t.
Proof. solve_decision. Defined.

(** [SmcParams { x1, x2, x3, x4, ..Default::default() }] *)
Definition with_default (a1 a2 a3 a4 : Z) : t :=
  mk a1 a2 a3 a4 0 0 0 0 0 0 0 0 0 0 0 0 0.

Definition default : t := with_default 0 0 0 0.

Definition to_list (p : t) : list Z :=
  [x1 p; x2 p; x3 p; x4 p; x5 p; x6 p; x7 p; x8 p; x9 p;
   x10 p; x11 p; x12 p; x13 p; x14 p; x15 p; x16 p; x17 p].

(** [iter.next().unwrap_or(0)], seventeen times, then one more [next]. *)
Definition try_from_iter (iter : list Z) : ffa_result t :=
  let next i := from_option id 0 (iter !! i) in
  let params := mk (next 0%nat) (next 1%nat) (next 2%nat) (next 3%nat) (next 4%nat)
    (next 5%nat) (next 6%nat) (next 7%nat) (next 8%nat) (next 9%nat) (next 10%nat)
    (next 11%nat) (next 12%nat) (next 13%nat) (next 14%nat) (next 15%nat) (next 16%nat) in
  match iter !! 17%nat with
  | Some _ => Err Error.TooManySmcParams
  | None => Ok params
  end.
End SmcParams.
Export (hints) SmcParams.

Module SmcCall.
Record t : Type := mk { id : FunctionId.t; params : SmcParams.t }.

#[export] Instance eq_dec : EqDecision t.
Proof. solve_decision. Defined.

(** [TryFrom<SmcResult> for SmcCall] *)
Definition try_from (result : list Z) : ffa_result t :=
  r0 ← or_panic (result !! 0%nat);
  id ← try_parse_function_id r0;
  params ← SmcParams.try_from_iter (drop 1 result);
  Ok (mk id params).
End SmcCall.
Export (hints) SmcCall.

(** ** The supervisor call *)

Class SmcEnv (W : Type) := smc : Z -> SmcParams.t -> W -> list Z * W.

Class SmcEnvLaws (W : Type) `{SmcEnv W} : Prop := {
  smc_length : forall id p w, length (smc id p w).1 = 18%nat;
  smc_range : forall id p w, Forall (is_u 64) (smc id p w).1;
}.

(** The [Function] trait: an identifier and the conversion into registers;
    [TryFrom<SmcParams>] is the class [FromParams]. *)
Class Function (F : Type) := {
  fn_ID : FunctionId.t;
  fn_try_into : F -> ffa_result SmcParams.t;
}.

Class FromParams (F : Type) := fn_try_from : SmcParams.t -> ffa_result F.

Section Exec.
Context {W : Type} `{SmcEnv W}.

Definition ffa_smc {F} `{Function F} (f : F) : stM W Error.t (list Z) :=
  params ← lift (fn_try_into f);
  call (smc (discr (fn_ID (F := F))) params).

Definition handle_result_simple {T} (result : SmcCall.t)
    (on_success : SmcCall.t -> ffa_result T) : ffa_result T :=
  match SmcCall.id result with
  | FunctionId.Success32 | FunctionId.Success64 | FunctionId.MsgSendDirectReq2 =>
      on_success result
  | FunctionId.Error =>
      c ← try_parse_error_code (SmcParams.x2 (SmcCall.params result));
      Err (Error.ErrorCode c)
  | id => Err (Error.UnexpectedFunctionId id)
  end.

Definition exec_simple {T F} `{Function F} (f : F)
    (on_success : SmcCall.t -> ffa_result T) : stM W Error.t T :=
  raw ← ffa_smc f;
  result ← lift (SmcCall.try_from raw);
  lift (handle_result_simple result on_success).
End Exec.

Definition try_from_smc_call {F} `{Function F} `{FromParams F}
    (smc_call : SmcCall.t) : ffa_result F :=
  if decide (SmcCall.id smc_call = fn_ID (F := F)) then fn_try_from (SmcCall.params smc_call)
  else Err (Error.UnexpectedFunctionId (SmcCall.id smc_call)).

(** ** util.rs *)

Definition combine_low_high_u32 (low high : Z) : Z := Z.lor (Z.shiftl high 32) low.
Definition combine_low_high_u16 (low high : Z) : Z := Z.lor (Z.shiftl high 16) low.

(** ** A scripted environment

    Replays a list of register files; used to evaluate the definitions on
    concrete inputs. *)
Definition Script : Type := list (list Z).

Definition script_regs (r : list Z) : list Z :=
  take 18 ((trunc 64 <$> r) ++ replicate 18 0).

#[export] Instance script_env : SmcEnv Script := fun _ _ w =>
  match w with
  | [] => (replicate 18 0, [])
  | r :: w => (script_regs r, w)
  end.

(** ** Lemmas *)

#[export] Instance script_laws : SmcEnvLaws Script.
Proof.
  split; intros id p [|r w]; unfold smc, script_env; cbn [fst].
  - done.
  - unfold script_regs. solve_len.
  - apply Forall_replicate. split; done.
  - unfold script_regs. apply Forall_take, Forall_app. split.
    + apply Forall_fmap, Forall_true. intros z. by apply trunc_range.
    + apply Forall_replicate. split; done.
Qed.

#[export] Instance error_code_laws : PrimEnumLaws ErrorCode.t.
Proof. solve_prim_enum. Qed.

#[export] Instance function_id_laws : PrimEnumLaws FunctionId.t.
Proof. solve_prim_enum. Qed.

Lemma discr_function_id_range (f : FunctionId.t) : is_u 64 (discr f).
Proof. destruct f; vm_compute; intuition congruence. Qed.

Lemma try_parse_function_id_discr (f : FunctionId.t) :
  try_parse_function_id (discr f) = Ok f.
Proof. unfold try_parse_function_id. by rewrite try_from_primitive_discr. Qed.

Lemma try_from_iter_short l :
  (length l <= 17)%nat ->
  exists p, SmcParams.try_from_iter l = Ok p /\
    SmcParams.to_list p = l ++ replicate (17 - length l) 0.
Proof.
  intros Hl.
  do 18 (destruct l as [|? l]; [eexists; split; reflexivity|]).
  simpl in Hl. lia.
Qed.

Lemma try_from_iter_long l :
  (17 < length l)%nat -> SmcParams.try_from_iter l = Err Error.TooManySmcParams.
Proof.
  intros Hl. unfold SmcParams.try_from_iter.
  destruct (lookup_lt_is_Some_2 l 17 Hl) as [z ->]. done.
Qed.

Lemma try_from_iter_to_list p : SmcParams.try_from_iter (SmcParams.to_list p) = Ok p.
Proof. by destruct p. Qed.

Lemma length_to_list p : length (SmcParams.to_list p) = 17%nat.
Proof. done. Qed.

(** An SMC result that carries a known function identifier always parses. *)
Lemma smc_call_try_from_call (f : FunctionId.t) p :
  SmcCall.try_from (discr f :: SmcParams.to_list p) = Ok (SmcCall.mk f p).
Proof.
  unfold SmcCall.try_from.
  change (drop 1 (discr f :: SmcParams.to_list p)) with (SmcParams.to_list p).
  rewrite try_from_iter_to_list.
  change ((discr f :: SmcParams.to_list p) !! 0%nat) with (Some (discr f)).
  cbn [or_panic mbind outcome_bind]. by rewrite try_parse_function_id_discr.
Qed.

(** The result registers of an SMC, parsed. *)
Lemma smc_result_parses `{SmcEnvLaws W} id p w :
  exists r0 rest ps, (smc id p w).1 = r0 :: rest /\ SmcParams.to_list ps = rest /\
    SmcCall.try_from (smc id p w).1 =
      (f ← try_parse_function_id r0; Ok (SmcCall.mk f ps)).
Proof.
  pose proof (smc_length id p w) as Hlen.
  destruct (smc id p w).1 as [|r0 rest]; [done|]. injection Hlen as Hlen.
  destruct (try_from_iter_short rest) as (ps & Hps & Hl); [lia|].
  rewrite Hlen, Nat.sub_diag, app_nil_r in Hl.
  exists r0, rest, ps. split_and!; [done|done|].
  unfold SmcCall.try_from. cbn [lookup list_lookup or_panic mbind outcome_bind].
  change (drop 1 (r0 :: rest)) with rest. rewrite Hps.
  by destruct (try_parse_function_id r0).
Qed.

Lemma exec_simple_unfold `{SmcEnv W} {T} {F} `{Function F} (f : F) p
    (on_success : SmcCall.t -> ffa_result T) w :
  fn_try_into f = Ok p ->
  exec_simple f on_success w =
    (call ← SmcCall.try_from (smc (discr (fn_ID (F := F))) p w).1;
     handle_result_simple call on_success,
     (smc (discr (fn_ID (F := F))) p w).2).
Proof.
  intros Hp. unfold exec_simple, ffa_smc, mbind, stM_bind, lift, call. rewrite Hp.
  destruct (smc _ p w) as [res w']. cbn [fst snd].
  by destruct (SmcCall.try_from res).
Qed.

(** The identifiers [handle_result_simple] takes for success. *)
Definition success_id (f : FunctionId.t) : bool :=
  bool_decide (f ∈ [FunctionId.Success32; FunctionId.Success64; FunctionId.MsgSendDirectReq2]).

(** What [exec_simple] makes of the register file an SMC returned. *)
Definition simple_outcome {T} (r0 r2 : Z) (ok : FunctionId.t -> ffa_result T) : ffa_result T :=
  match try_from_primitive r0 with
  | None => Err (Error.InvalidFunctionId r0)
  | Some f =>
      if success_id f then ok f
      else if decide (f = FunctionId.Error) then
        match try_from_primitive (to_signed 64 r2) with
        | Some c => Err (Error.ErrorCode c)
        | None => Err (Error.InvalidErrorCode (to_signed 64 r2))
        end
      else Err (Error.UnexpectedFunctionId f)
  end.

Lemma simple_outcome_handle {T} r0 ps (on_success : SmcCall.t -> ffa_result T) :
  (f ← try_parse_function_id r0; handle_result_simple (SmcCall.mk f ps) on_success) =
  simple_outcome r0 (SmcParams.x2 ps) (fun id => on_success (SmcCall.mk id ps)).
Proof.
  unfold simple_outcome, try_parse_function_id.
  destruct (try_from_primitive r0) as [[]|]; try reflexivity.
  change (success_id FunctionId.Error) with false. rewrite decide_True by done.
  cbn [mbind outcome_bind]. unfold handle_result_simple, try_parse_error_code.
  cbn [SmcCall.id SmcCall.params]. by destruct (try_from_primitive _).
Qed.

(** An outcome is a success for every continuation or an error for every one. *)
Lemma simple_outcome_cases r0 r2 :
  (exists id, forall T (ok : FunctionId.t -> ffa_result T), simple_outcome r0 r2 ok = ok id) \/
  (exists e, forall T (ok : FunctionId.t -> ffa_result T), simple_outcome r0 r2 ok = Err e).
Proof.
  unfold simple_outcome. destruct (try_from_primitive r0) as [f|]; [|right; eauto].
  destruct (success_id f); [left; eauto|right].
  case_decide; [|eauto]. destruct (try_from_primitive _); eauto.
Qed.

(** The result of the generic execution path, by the registers returned. *)
Lemma exec_simple_result `{SmcEnvLaws W} {T} {F} `{Function F} (f : F) p
    (on_success : SmcCall.t -> ffa_result T) w :
  fn_try_into f = Ok p ->
  exists r0 ps, (smc (discr (fn_ID (F := F))) p w).1 = r0 :: SmcParams.to_list ps /\
    exec_simple f on_success w =
      (simple_outcome r0 (SmcParams.x2 ps) (fun id => on_success (SmcCall.mk id ps)),
       (smc (discr (fn_ID (F := F))) p w).2).
Proof.
  intros Hp. rewrite (exec_simple_unfold f p) by done.
  destruct (smc_result_parses (discr (fn_ID (F := F))) p w)
    as (r0 & rest & ps & Hres & <- & Hcall).
  exists r0, ps. split; [done|]. rewrite Hcall. f_equal.
  rewrite <- (simple_outcome_handle r0 ps on_success).
  by destruct (try_parse_function_id r0).
Qed.

(** ** Properties *)

(** C31: The generic execution path classifies every register file an SMC can
    return: an unknown [x0] is [InvalidFunctionId], the three success
    identifiers hand the parsed call to the continuation, [FFA_ERROR] yields
    the error code of [x2] read as a signed 64-bit number (or
    [InvalidErrorCode]), and any other identifier is
    [UnexpectedFunctionId].  It never panics, and exactly one SMC is made. *)
Theorem exec_simple_classifies `{SmcEnvLaws W} {T} {F} `{Function F} (f : F) p
    (on_success : SmcCall.t -> ffa_result T) w :
  fn_try_into f = Ok p ->
  exists r0 ps, (smc (discr (fn_ID (F := F))) p w).1 = r0 :: SmcParams.to_list ps /\
    exec_simple f on_success w =
      (simple_outcome r0 (SmcParams.x2 ps) (fun id => on_success (SmcCall.mk id ps)),
       (smc (discr (fn_ID (F := F))) p w).2).
Proof. apply exec_simple_result. Qed.

(** [SmcParams::try_from_iter] accepts exactly the iterators of at most 17
    values; it then fills the registers in order and zeroes the rest. *)
Lemma try_from_iter_spec l :
  match SmcParams.try_from_iter l with
  | Ok p => (length l <= 17)%nat /\ SmcParams.to_list p = l ++ replicate (17 - length l) 0
  | Err e => (17 < length l)%nat /\ e = Error.TooManySmcParams
  | Panic | NoFuel => False
  end.
Proof.
  destruct (decide (length l <= 17)%nat) as [Hl|Hl].
  - by destruct (try_from_iter_short l Hl) as (p & -> & ?).
  - rewrite try_from_iter_long by lia. split; [lia|done].
Qed.

(** An error code that the hypervisor returns as a 32-bit value in a
    zero-extended register (the FF-A calling convention of [FFA_ERROR], an
    SMC32 identifier) is never recognised: every negative code is reported as
    [InvalidErrorCode], while the same code sign-extended to 64 bits is
    recognised. *)
Lemma error_code_32bit_not_recognised (c : ErrorCode.t) :
  c <> ErrorCode.Ok ->
  try_parse_error_code (trunc 32 (discr c)) = Err (Error.InvalidErrorCode (trunc 32 (discr c))) /\
  try_parse_error_code (trunc 64 (discr c)) = Ok c.
Proof. destruct c; intros Hc; try done; split; reflexivity. Qed.
