(* ===== verification/FfaMsg.v ===== *)
(** Direct messages: the 112-byte register payload
    ([msg/register_payload.rs]), the register encoding of a direct message
    ([msg/direct_message.rs]) and the request and response wrappers
    ([msg/msg_send_direct_req2.rs], [msg/msg_send_direct_resp2.rs],
    [msg/msg_wait.rs]).

    The [uuid] crate is outside the repository: [UuidOps] lists the operations
    the code calls and [UuidLaws] their documented behaviour; [uuid_model] is
    a concrete instance used to evaluate the definitions. *)
From Stdlib Require Import ZArith Lia.
From S2P Require Import Prelude FfaCore.
#[local] Open Scope Z_scope.

(** ** The [uuid] crate *)

Class UuidOps := {
  Uuid : Type;
  uuid_eq_dec :: EqDecision Uuid;
  uuid_nil : Uuid;
  as_u64_pair : Uuid -> Z * Z;
  from_u64_pair : Z -> Z -> Uuid;
  from_u128_le : Z -> Uuid;
  (** the [uuid!] macro, given the 128-bit number its hex digits write *)
  uuid_lit : Z -> Uuid;
}.

Class UuidLaws `{UuidOps} : Prop := {
  as_u64_pair_range u : is_u 64 (as_u64_pair u).1 /\ is_u 64 (as_u64_pair u).2;
  from_as_u64_pair u : from_u64_pair (as_u64_pair u).1 (as_u64_pair u).2 = u;
  as_from_u64_pair hi lo : is_u 64 hi -> is_u 64 lo ->
    as_u64_pair (from_u64_pair hi lo) = (hi, lo);
  as_from_u128_le v : is_u 128 v ->
    as_u64_pair (from_u128_le v) = (bswap64 (trunc 64 v), bswap64 (Z.shiftr v 64));
  as_uuid_lit v : is_u 128 v ->
    as_u64_pair (uuid_lit v) = (Z.shiftr v 64, trunc 64 v);
}.

(** ** Register payload *)

Definition PAYLOAD_LEN : nat := 14 * 8.

Record DirectMessagePayload : Type := { payload_bytes : list Z }.

#[export] Instance payload_eq_dec : EqDecision DirectMessagePayload.
Proof. solve_decision. Defined.

(** [for (i, byte) in iter.enumerate() { payload[i] = byte; }] *)
Fixpoint fill_from {E} (payload : list Z) (i : nat) (iter : list Z) : outcome E (list Z) :=
  match iter with
  | [] => Ok payload
  | byte :: iter =>
      if decide (i < length payload)%nat then fill_from (<[i := byte]> payload) (S i) iter
      else Panic
  end.

Definition payload_from_iter {E} (iter : list Z) : outcome E DirectMessagePayload :=
  bytes ← fill_from (replicate PAYLOAD_LEN 0) 0 iter;
  Ok {| payload_bytes := bytes |}.

Definition u8_at {E} (p : DirectMessagePayload) (byte_offset : nat) : outcome E Z :=
  or_panic (payload_bytes p !! byte_offset).

Definition payload_slice {E} (p : DirectMessagePayload) (a b : nat) : outcome E (list Z) :=
  or_panic (get_slice (payload_bytes p) a b).

Definition u16_at {E} (p : DirectMessagePayload) (byte_offset : nat) : outcome E Z :=
  b ← payload_slice p byte_offset (byte_offset + 2); Ok (from_le_bytes b).

Definition u32_at {E} (p : DirectMessagePayload) (byte_offset : nat) : outcome E Z :=
  b ← payload_slice p byte_offset (byte_offset + 4); Ok (from_le_bytes b).

Definition u64_at {E} (p : DirectMessagePayload) (byte_offset : nat) : outcome E Z :=
  b ← payload_slice p byte_offset (byte_offset + 8); Ok (from_le_bytes b).

Definition register_at {E} (p : DirectMessagePayload) (index : nat) : outcome E Z :=
  u64_at p (index * 8).

Definition registers_iter (p : DirectMessagePayload) : list Z :=
  from_le_bytes <$> chunks_exact 8 (payload_bytes p).

(** [payload.get(a..b)] *)
Definition payload_get (p : DirectMessagePayload) (a b : nat) : option (list Z) :=
  get_slice (payload_bytes p) a b.

(** The type [[u8; 112]]. *)
Definition payload_wf (p : DirectMessagePayload) : Prop :=
  length (payload_bytes p) = PAYLOAD_LEN /\ bytes_ok (payload_bytes p).

(** ** Direct messages *)

Section Messages.
Context `{UuidOps}.

Record DirectMessage : Type := {
  source_id : Z;
  destination_id : Z;
  uuid : Uuid;
  payload : DirectMessagePayload;
}.

#[export] Instance direct_message_eq_dec : EqDecision DirectMessage.
Proof. solve_decision. Defined.

(** [TryFrom<DirectMessage> for SmcParams] *)
Definition direct_message_into_params (msg : DirectMessage) : ffa_result SmcParams.t :=
  let '(uuid_high, uuid_low) := as_u64_pair (uuid msg) in
  SmcParams.try_from_iter
    ([combine_low_high_u16 (destination_id msg) (source_id msg);
      bswap64 uuid_high; bswap64 uuid_low] ++ registers_iter (payload msg)).

(** [TryFrom<SmcParams> for DirectMessage] *)
Definition direct_message_from_params (value : SmcParams.t) : ffa_result DirectMessage :=
  let destination_id := trunc 16 (Z.land (SmcParams.x1 value) 0xFFFF) in
  let source_id := trunc 16 (Z.shiftr (SmcParams.x1 value) 16) in
  let uuid_high := bswap64 (SmcParams.x2 value) in
  let uuid_low := bswap64 (SmcParams.x3 value) in
  let uuid := from_u64_pair uuid_high uuid_low in
  let payload_regs := drop 3 (SmcParams.to_list value) in
  payload ← payload_from_iter (concat (to_le_bytes 8 <$> payload_regs));
  Ok {| source_id := source_id; destination_id := destination_id;
        uuid := uuid; payload := payload |}.

Definition message_wf (msg : DirectMessage) : Prop :=
  is_u 16 (source_id msg) /\ is_u 16 (destination_id msg) /\ payload_wf (payload msg).

Record MsgSendDirectReq2 : Type := { req_message : DirectMessage }.
Record MsgSendDirectResp2 : Type := { resp_message : DirectMessage }.

#[export] Instance req2_eq_dec : EqDecision MsgSendDirectReq2.
Proof. solve_decision. Defined.
#[export] Instance resp2_eq_dec : EqDecision MsgSendDirectResp2.
Proof. solve_decision. Defined.

Definition req_new (source_id destination_id : Z) (uuid : Uuid) (payload : DirectMessagePayload) :
    MsgSendDirectReq2 :=
  {| req_message := {| source_id := source_id; destination_id := destination_id;
                       uuid := uuid; payload := payload |} |}.

Definition resp_new (source_id destination_id : Z) (uuid : Uuid) (data : DirectMessagePayload) :
    MsgSendDirectResp2 :=
  {| resp_message := {| source_id := source_id; destination_id := destination_id;
                        uuid := uuid; payload := data |} |}.

(** The response goes back to the sender, under the same service UUID. *)
Definition from_req_with_payload (req : MsgSendDirectReq2) (payload : DirectMessagePayload) :
    MsgSendDirectResp2 :=
  resp_new (destination_id (req_message req)) (source_id (req_message req))
    (uuid (req_message req)) payload.

Definition req_payload (req : MsgSendDirectReq2) : DirectMessagePayload := payload (req_message req).
Definition resp_payload (resp : MsgSendDirectResp2) : DirectMessagePayload := payload (resp_message resp).

#[export] Instance req2_function : Function MsgSendDirectReq2 := {|
  fn_ID := FunctionId.MsgSendDirectReq2;
  fn_try_into := fun req => direct_message_into_params (req_message req);
|}.

#[export] Instance req2_from_params : FromParams MsgSendDirectReq2 := fun value =>
  msg ← direct_message_from_params value; Ok {| req_message := msg |}.

#[export] Instance resp2_function : Function MsgSendDirectResp2 := {|
  fn_ID := FunctionId.MsgSendDirectResp2;
  fn_try_into := fun resp => direct_message_into_params (resp_message resp);
|}.

#[export] Instance resp2_from_params : FromParams MsgSendDirectResp2 := fun value =>
  msg ← direct_message_from_params value; Ok {| resp_message := msg |}.

Section Exec.
Context {W : Type} `{SmcEnv W}.

Definition exec_req2 (req : MsgSendDirectReq2) : stM W Error.t SmcCall.t :=
  exec_simple req Ok.

Definition exec_resp2 (resp : MsgSendDirectResp2) : stM W Error.t SmcCall.t :=
  exec_simple resp Ok.
End Exec.
End Messages.

(** [MsgWait] carries no data in either direction. *)
Inductive MsgWait : Type := MsgWait_new.

#[export] Instance msg_wait_function : Function MsgWait := {|
  fn_ID := FunctionId.MsgWait;
  fn_try_into := fun _ => Ok SmcParams.default;
|}.

#[export] Instance msg_wait_from_params : FromParams MsgWait := fun _ => Ok MsgWait_new.

Definition exec_msg_wait {W} `{SmcEnv W} : stM W Error.t SmcCall.t := exec_simple MsgWait_new Ok.

(** ** A concrete [uuid] *)

(** Words of [n] bits, least significant first. *)
Fixpoint word (n : nat) : Type :=
  match n with O => unit | S n => bool * word n end.

Fixpoint word_of_Z (n : nat) (z : Z) : word n :=
  match n with O => tt | S n => (Z.odd z, word_of_Z n (Z.div2 z)) end.

Fixpoint word_to_Z (n : nat) : word n -> Z :=
  match n with
  | O => fun _ => 0
  | S n => fun w => Z.b2z w.1 + 2 * word_to_Z n w.2
  end.

#[export] Instance word_eq_dec n : EqDecision (word n).
Proof. induction n; cbn; solve_decision. Defined.

Definition uuid_model : UuidOps := {|
  Uuid := word 64 * word 64;
  uuid_nil := (word_of_Z 64 0, word_of_Z 64 0);
  as_u64_pair u := (word_to_Z 64 u.1, word_to_Z 64 u.2);
  from_u64_pair hi lo := (word_of_Z 64 hi, word_of_Z 64 lo);
  from_u128_le v :=
    (word_of_Z 64 (bswap64 (trunc 64 v)), word_of_Z 64 (bswap64 (Z.shiftr v 64)));
  uuid_lit v := (word_of_Z 64 (Z.shiftr v 64), word_of_Z 64 (trunc 64 v));
|}.

Lemma word_to_Z_range n (w : word n) : is_u (Z.of_nat n) (word_to_Z n w).
Proof.
  induction n as [|n IH]; [split; done|]. destruct w as [b w]. cbn [word_to_Z fst snd].
  specialize (IH w). unfold is_u in *. rewrite Nat2Z.inj_succ, Z.pow_succ_r by lia.
  destruct b; cbn [Z.b2z]; lia.
Qed.

Lemma word_to_of_Z n z : is_u (Z.of_nat n) z -> word_to_Z n (word_of_Z n z) = z.
Proof.
  revert z. induction n as [|n IH]; intros z Hz; [cbn in *; unfold is_u in Hz; cbn in Hz; lia|].
  cbn [word_of_Z word_to_Z fst snd]. unfold is_u in Hz.
  rewrite Nat2Z.inj_succ, Z.pow_succ_r in Hz by lia.
  pose proof (Z.div2_odd z). rewrite IH; [lia|]. unfold is_u.
  rewrite Z.div2_div. split; [apply Z.div_pos; lia|apply Z.div_lt_upper_bound; lia].
Qed.

Lemma word_of_to_Z n (w : word n) : word_of_Z n (word_to_Z n w) = w.
Proof.
  induction n as [|n IH]; [by destruct w|]. destruct w as [b w]. cbn [word_to_Z word_of_Z fst snd].
  f_equal.
  - rewrite Z.odd_add_mul_2. by destruct b.
  - replace (Z.div2 (Z.b2z b + 2 * word_to_Z n w)) with (word_to_Z n w); [apply IH|].
    rewrite Z.div2_div, Z.mul_comm, Z.div_add by lia. by destruct b.
Qed.

#[export] Instance uuid_model_laws : UuidLaws (H := uuid_model).
Proof.
  split; cbn [as_u64_pair from_u64_pair from_u128_le uuid_lit uuid_model fst snd Uuid].
  - intros u. split; apply (word_to_Z_range 64).
  - intros [hi lo]. cbn [fst snd]. by rewrite !word_of_to_Z.
  - intros hi lo Hh Hl. by rewrite !word_to_of_Z.
  - intros v Hv. by rewrite !word_to_of_Z by apply bswap64_range.
  - intros v Hv. rewrite !word_to_of_Z; [done|apply trunc_range; lia|].
    by apply (shiftr_range 64 64).
Qed.

(** ** Payload lemmas *)

Lemma fill_from_ok {E} buf i iter :
  (i + length iter <= length buf)%nat ->
  fill_from (E := E) buf i iter = Ok (blit buf i iter).
Proof.
  revert buf i. induction iter as [|b iter IH]; intros buf i Hl; simpl in Hl |- *.
  - unfold blit. cbn [app length]. by rewrite Nat.add_0_r, take_drop.
  - rewrite decide_True by lia. rewrite IH by (rewrite length_insert; lia). f_equal.
    unfold blit. rewrite insert_take_drop by lia.
    rewrite take_app_ge by (rewrite length_take; lia).
    rewrite length_take, Nat.min_l by lia.
    replace (S i - i)%nat with 1%nat by lia. cbn [take].
    rewrite drop_app_ge by (rewrite length_take; lia).
    rewrite length_take, Nat.min_l by lia.
    replace (S i + length iter - i)%nat with (S (length iter)) by lia.
    cbn [drop length]. rewrite drop_drop, <- app_assoc, take_0. cbn [app]. do 4 f_equal. lia.
Qed.

Lemma fill_from_panic {E} buf i iter :
  (i <= length buf)%nat -> (length buf < i + length iter)%nat ->
  fill_from (E := E) buf i iter = Panic.
Proof.
  revert buf i. induction iter as [|b iter IH]; intros buf i Hi Hl; simpl in Hl |- *; [lia|].
  case_decide; [|done]. apply IH; rewrite length_insert; lia.
Qed.

Lemma payload_from_iter_ok {E} iter :
  (length iter <= PAYLOAD_LEN)%nat ->
  payload_from_iter (E := E) iter =
    Ok {| payload_bytes := iter ++ replicate (PAYLOAD_LEN - length iter) 0 |}.
Proof.
  intros Hl. unfold payload_from_iter. rewrite fill_from_ok by done.
  cbn [mbind outcome_bind]. unfold blit. cbn [take app].
  by rewrite drop_replicate.
Qed.

Lemma payload_from_iter_wf {E} iter p :
  bytes_ok iter -> payload_from_iter (E := E) iter = Ok p -> payload_wf p.
Proof.
  intros Hb Hp. destruct (decide (length iter <= PAYLOAD_LEN)%nat) as [Hl|Hl].
  - rewrite payload_from_iter_ok in Hp by done. simplify_eq. split; cbn [payload_bytes].
    + rewrite length_app, length_replicate. lia.
    + apply Forall_app. auto with odp.
  - unfold payload_from_iter in Hp. by rewrite fill_from_panic in Hp by (rewrite length_replicate; lia).
Qed.

Lemma payload_slice_ok {E} p a b :
  payload_wf p -> (a <= b <= PAYLOAD_LEN)%nat ->
  payload_slice (E := E) p a b = Ok (slice (payload_bytes p) a b).
Proof. intros [Hl _] ?. unfold payload_slice. by rewrite get_slice_Some by lia. Qed.

Lemma u8_at_ok {E} p i :
  payload_wf p -> (i < PAYLOAD_LEN)%nat ->
  exists b, u8_at (E := E) p i = Ok b /\ is_byte b /\ payload_bytes p !! i = Some b.
Proof.
  intros [Hl Hb] Hi. destruct (lookup_lt_is_Some_2 (payload_bytes p) i) as [b Hlk]; [lia|].
  exists b. unfold u8_at. rewrite Hlk. split_and!; try done.
  by eapply Forall_lookup_1 in Hb.
Qed.

Lemma u64_at_ok {E} p i :
  payload_wf p -> (i + 8 <= PAYLOAD_LEN)%nat ->
  exists v, u64_at (E := E) p i = Ok v /\ is_u 64 v.
Proof.
  intros Hp Hi. unfold u64_at. rewrite payload_slice_ok by (done || lia).
  eexists. split; [done|]. destruct Hp as [Hl Hb].
  apply (from_le_range_n 8); [rewrite length_slice; lia|done|by apply Forall_slice].
Qed.

Lemma register_at_ok {E} p i :
  payload_wf p -> (i < 14)%nat ->
  exists v, register_at (E := E) p i = Ok v /\ is_u 64 v.
Proof. intros. apply u64_at_ok; [done|]. unfold PAYLOAD_LEN. lia. Qed.

Lemma registers_iter_spec p :
  payload_wf p ->
  concat (to_le_bytes 8 <$> registers_iter p) = payload_bytes p /\
  length (registers_iter p) = 14%nat /\
  Forall (is_u 64) (registers_iter p).
Proof. intros [Hl Hb]. by apply bytes_of_words. Qed.

(** The register payload of a list of 64-bit words is those words. *)
Lemma registers_iter_of_words {E} ws :
  length ws = 14%nat -> Forall (is_u 64) ws ->
  exists p, payload_from_iter (E := E) (concat (to_le_bytes 8 <$> ws)) = Ok p /\
    registers_iter p = ws /\ payload_wf p.
Proof.
  intros Hl Hws.
  assert (length (concat (to_le_bytes 8 <$> ws)) = PAYLOAD_LEN) as Hc.
  { do 15 (destruct ws as [|? ws]; [by simplify_eq/=|]). done. }
  eexists. rewrite payload_from_iter_ok by lia. split; [done|].
  rewrite Hc, Nat.sub_diag, app_nil_r. split; [by apply words_of_bytes|].
  split; [done|]. cbn [payload_bytes]. clear Hl Hc.
  induction Hws; [constructor|]. apply Forall_app. auto with odp.
Qed.

(** A payload written from at most 14 words reads back as the words and zeroes. *)
Lemma payload_of_words {E} ws :
  (length ws <= 14)%nat -> Forall (is_u 64) ws ->
  exists p, payload_from_iter (E := E) (concat (to_le_bytes 8 <$> ws)) = Ok p /\
    registers_iter p = ws ++ replicate (14 - length ws) 0 /\ payload_wf p.
Proof.
  intros Hl Hws.
  assert (length (concat (to_le_bytes 8 <$> ws)) = length ws * 8)%nat as Hlen.
  { clear Hl. induction Hws as [|w ws _ _ IH]; [done|].
    rewrite fmap_cons. cbn [concat length]. rewrite length_app, length_to_le_bytes, IH. lia. }
  assert (length (ws ++ replicate (14 - length ws) 0) = 14%nat) as H14 by solve_len.
  destruct (registers_iter_of_words (E := E) (ws ++ replicate (14 - length ws) 0)) as (p & Hp & Hr & Hwf);
    [done| |].
  { apply Forall_app. split; [done|]. apply Forall_replicate. split; done. }
  exists p. split_and!; [|done|done]. rewrite <- Hp. clear Hp.
  rewrite fmap_app, concat_app.
  assert (concat (to_le_bytes 8 <$> replicate (14 - length ws) 0) =
    replicate ((14 - length ws) * 8) 0) as ->.
  { generalize (14 - length ws)%nat. intros k. induction k as [|k IH]; [done|].
    cbn [replicate]. rewrite fmap_cons. cbn [concat]. by rewrite IH. }
  rewrite !payload_from_iter_ok; unfold PAYLOAD_LEN;
    rewrite ?length_app, ?length_replicate, Hlen; [|lia..].
  do 2 f_equal. rewrite <- app_assoc, <- replicate_add. do 2 f_equal. lia.
Qed.

(** ** Direct message lemmas *)

Lemma to_list_first p a b c l :
  SmcParams.to_list p = [a; b; c] ++ l ->
  SmcParams.x1 p = a /\ SmcParams.x2 p = b /\ SmcParams.x3 p = c.
Proof. destruct p. cbn. by injection 1. Qed.

Section MessageLemmas.
Context `{UuidLaws}.

Lemma direct_message_into_ok msg :
  message_wf msg ->
  exists p, direct_message_into_params msg = Ok p /\
    SmcParams.to_list p =
      [combine_low_high_u16 (destination_id msg) (source_id msg);
       bswap64 (as_u64_pair (uuid msg)).1; bswap64 (as_u64_pair (uuid msg)).2]
      ++ registers_iter (payload msg).
Proof.
  intros (Hs & Hd & Hp). unfold direct_message_into_params.
  destruct (as_u64_pair (uuid msg)) as [hi lo]. cbn [fst snd].
  destruct (registers_iter_spec _ Hp) as (_ & Hlen & _).
  destruct (try_from_iter_short
    ([combine_low_high_u16 (destination_id msg) (source_id msg);
      bswap64 hi; bswap64 lo] ++ registers_iter (payload msg))) as (p & Hok & Hl).
  { rewrite length_app, Hlen. simpl. lia. }
  exists p. split; [done|]. rewrite Hl, length_app, Hlen. cbn. by rewrite app_nil_r.
Qed.

Lemma direct_message_from_into msg p :
  message_wf msg -> direct_message_into_params msg = Ok p ->
  direct_message_from_params p = Ok msg.
Proof.
  intros Hwf Hp. destruct (direct_message_into_ok msg Hwf) as (p' & Hp' & Hl).
  assert (p' = p) as -> by congruence. clear Hp Hp'.
  destruct Hwf as (Hs & Hd & Hpl).
  destruct (registers_iter_spec _ Hpl) as (Hcat & Hlen & _).
  assert (payload_from_iter (E := Error.t) (concat (to_le_bytes 8 <$> drop 3 (SmcParams.to_list p)))
    = Ok (payload msg)) as Hpay.
  { rewrite Hl. change (drop 3 ([?a; ?b; ?c] ++ ?l)) with l.
    rewrite Hcat. destruct Hpl as [Hl' _]. rewrite payload_from_iter_ok by lia.
    rewrite Hl', Nat.sub_diag, app_nil_r. by destruct (payload msg). }
  unfold direct_message_from_params. rewrite Hpay. cbn [mbind outcome_bind].
  assert (SmcParams.x1 p = combine_low_high_u16 (destination_id msg) (source_id msg) /\
          SmcParams.x2 p = bswap64 (as_u64_pair (uuid msg)).1 /\
          SmcParams.x3 p = bswap64 (as_u64_pair (uuid msg)).2) as (-> & -> & ->).
  { by apply to_list_first in Hl. }
  destruct (as_u64_pair_range (uuid msg)) as [Hh Hlo].
  rewrite !bswap64_involutive by done. rewrite from_as_u64_pair.
  unfold combine_low_high_u16. rewrite field_high by done.
  rewrite (trunc_small 16 (source_id msg)) by done.
  change 0xFFFF with (Z.ones 16). rewrite trunc_ones, field_low by (done || lia).
  rewrite trunc_small by done. by destruct msg.
Qed.
End MessageLemmas.

(** A register file that a direct message may arrive in. *)
Definition registers_wf (p : SmcParams.t) : Prop :=
  Forall (is_u 64) (SmcParams.to_list p) /\ is_u 32 (SmcParams.x1 p).

Lemma to_list_inj p p' : SmcParams.to_list p = SmcParams.to_list p' -> p = p'.
Proof. destruct p, p'. cbn. intros He. simplify_eq. reflexivity. Qed.

Section CodecLemmas.
Context `{UuidLaws}.

Lemma direct_message_registers msg p :
  message_wf msg -> direct_message_into_params msg = Ok p -> registers_wf p.
Proof.
  intros Hwf Hp. destruct (direct_message_into_ok msg Hwf) as (p' & Hp' & Hl).
  assert (p' = p) as -> by congruence. destruct Hwf as (Hs & Hd & Hpl).
  assert (is_u 32 (combine_low_high_u16 (destination_id msg) (source_id msg))) as H32
    by (apply (field_range 16 16); done).
  split.
  - rewrite Hl. cbn [app].
    apply Forall_cons; split; [by apply (is_u_weaken 32 64)|].
    do 2 (apply Forall_cons; split; [apply bswap64_range|]).
    by destruct (registers_iter_spec _ Hpl) as (_ & _ & ?).
  - by apply to_list_first in Hl as (-> & _).
Qed.

Lemma direct_message_from_ok p :
  registers_wf p ->
  exists msg, direct_message_from_params p = Ok msg /\ message_wf msg /\
    SmcParams.to_list p =
      [combine_low_high_u16 (destination_id msg) (source_id msg);
       bswap64 (as_u64_pair (uuid msg)).1; bswap64 (as_u64_pair (uuid msg)).2]
      ++ registers_iter (payload msg).
Proof.
  intros [Hregs Hx1]. unfold direct_message_from_params.
  assert (SmcParams.to_list p = [SmcParams.x1 p; SmcParams.x2 p; SmcParams.x3 p]
    ++ drop 3 (SmcParams.to_list p)) as Hsplit by done.
  rewrite Hsplit in Hregs. apply Forall_app in Hregs as [Hhd Htl].
  apply Forall_cons in Hhd as [_ Hhd]. apply Forall_cons in Hhd as [H2 Hhd].
  apply Forall_cons in Hhd as [H3 _].
  destruct (registers_iter_of_words (E := Error.t) (drop 3 (SmcParams.to_list p)))
    as (pl & Hpl & Hri & Hwf); [done|done|].
  rewrite Hpl. cbn [mbind outcome_bind]. eexists. split; [done|].
  split; [split_and!; [apply trunc_range; lia|apply trunc_range; lia|done]|].
  cbn [source_id destination_id uuid payload]. rewrite Hri, Hsplit at 1. f_equal.
  rewrite as_from_u64_pair by apply bswap64_range. cbn [fst snd].
  rewrite !bswap64_involutive by done. f_equal.
  unfold combine_low_high_u16. change 0xFFFF with (Z.ones 16).
  rewrite trunc_ones, trunc_trunc by lia.
  rewrite (trunc_small 16 (Z.shiftr _ _)) by (apply (shiftr_range 16 16); done || lia).
  symmetry. apply field_split. lia.
Qed.
End CodecLemmas.

(** A multi-byte read of [n] bytes at [i]. *)
Lemma payload_read {E} p i n :
  payload_wf p ->
  (b ← payload_slice p i (i + n); Ok (from_le_bytes b)) =
    if decide (i + n <= PAYLOAD_LEN)%nat
    then @Ok E Z (from_le_bytes (slice (payload_bytes p) i (i + n))) else Panic.
Proof.
  intros Hp. case_decide as Hi.
  - by rewrite payload_slice_ok by (done || lia).
  - unfold payload_slice, get_slice. destruct Hp as [-> _].
    by rewrite decide_False by lia.
Qed.

Lemma register_at_registers {E} p i :
  payload_wf p -> register_at (E := E) p i = or_panic (registers_iter p !! i).
Proof.
  intros [Hl Hb]. unfold register_at, u64_at, payload_slice, registers_iter.
  destruct (split_pieces 8 14 (payload_bytes p) Hl) as (ls & Hls & Hlen & Hf).
  rewrite Hls, chunks_exact_concat by (done || lia). rewrite <- Hls.
  rewrite list_lookup_fmap. destruct (ls !! i) as [c|] eqn:Hi.
  - pose proof (lookup_lt_Some _ _ _ Hi). unfold PAYLOAD_LEN in Hl.
    rewrite get_slice_Some by lia. cbn [or_panic fmap option_fmap option_map mbind outcome_bind].
    by rewrite Hls, (slice_concat 8 i ls c).
  - apply lookup_ge_None in Hi. unfold get_slice, PAYLOAD_LEN in *.
    by rewrite decide_False by lia.
Qed.

(** ** A concrete message *)

Definition sample_message : DirectMessage (H := uuid_model) := {|
  source_id := 0x8001; destination_id := 0x0002;
  uuid := uuid_lit (UuidOps := uuid_model) 0x330c1273fde5475798195b6539037502;
  payload := {| payload_bytes := Z.of_nat <$> seq 1 112 |};
|}.

Lemma sample_message_wf : message_wf (H := uuid_model) sample_message.
Proof.
  split_and!; [split; done..|]. split; [done|].
  apply Forall_fmap, Forall_seq. intros i Hi. unfold is_byte, is_u, compose.
  change (2 ^ 8) with 256. lia.
Qed.

(** ** Properties *)

(** C1: The register encoding of direct messages is a bijection between
    well-formed messages and register files of 64-bit values whose [x1] fits
    in 32 bits: decoding an encoded message gives the message back and
    encoding a decoded register file gives the register file back.  Decoding
    never fails. *)
Theorem direct_message_codec `{UuidLaws} :
  (forall msg, message_wf msg ->
     exists p, direct_message_into_params msg = Ok p /\ registers_wf p /\
       direct_message_from_params p = Ok msg) /\
  (forall p, registers_wf p ->
     exists msg, direct_message_from_params p = Ok msg /\ message_wf msg /\
       direct_message_into_params msg = Ok p).
Proof.
  split.
  - intros msg Hwf. destruct (direct_message_into_ok msg Hwf) as (p & Hp & Hl).
    exists p. split_and!; [done| |by apply direct_message_from_into].
    by apply direct_message_registers with msg.
  - intros p Hp. destruct (direct_message_from_ok p Hp) as (msg & Hmsg & Hwf & Hl).
    exists msg. split_and!; [done|done|].
    destruct (direct_message_into_ok msg Hwf) as (p' & Hp' & Hl').
    rewrite Hp'. f_equal. apply to_list_inj. by rewrite Hl', Hl.
Qed.

Lemma direct_message_codec_witness :
  exists p, direct_message_into_params (H := uuid_model) sample_message = Ok p /\
    SmcParams.x1 p = 0x80010002 /\
    direct_message_from_params (H := uuid_model) p = Ok sample_message.
Proof.
  destruct (proj1 (direct_message_codec (H := uuid_model)) sample_message sample_message_wf)
    as (p & Hp & _ & Hf).
  exists p. split_and!; [exact Hp| |exact Hf].
  vm_compute in Hp. injection Hp as <-. reflexivity.
Defined.

(** C35: The accessors of the 112-byte payload return exactly the bytes they
    name, little-endian, and panic exactly when the access leaves the buffer;
    [register_at] agrees with the registers the payload is sent in, and
    building a payload zero-pads up to 112 bytes and panics beyond. *)
Theorem payload_accessors {E} p i :
  payload_wf p ->
  let read n := if decide (i + n <= PAYLOAD_LEN)%nat
                then @Ok E Z (from_le_bytes (slice (payload_bytes p) i (i + n))) else Panic in
  u8_at p i = read 1%nat /\ u16_at p i = read 2%nat /\
  u32_at p i = read 4%nat /\ u64_at p i = read 8%nat /\
  register_at (E := E) p i = or_panic (registers_iter p !! i) /\
  payload_from_iter (E := E) (concat (to_le_bytes 8 <$> registers_iter p)) = Ok p /\
  (forall iter, (PAYLOAD_LEN < length iter)%nat -> payload_from_iter (E := E) iter = Panic).
Proof.
  intros Hp read. split_and!.
  - destruct (decide (i < PAYLOAD_LEN)%nat) as [Hi|Hi].
    + destruct (u8_at_ok (E := E) p i Hp Hi) as (b & -> & _ & Hlk). unfold read.
      rewrite decide_True by lia. unfold slice. rewrite (drop_S _ b) by done.
      replace (i + 1 - i)%nat with 1%nat by lia.
      rewrite firstn_cons, take_0. cbn [from_le_bytes]. by rewrite Z.mul_0_r, Z.add_0_r.
    + unfold read, u8_at. rewrite decide_False by lia.
      rewrite lookup_ge_None_2; [done|]. destruct Hp as [-> _]. lia.
  - by apply payload_read.
  - by apply payload_read.
  - by apply payload_read.
  - by apply register_at_registers.
  - destruct (registers_iter_spec p Hp) as (-> & _). destruct Hp as [Hl _].
    rewrite payload_from_iter_ok by lia. rewrite Hl, Nat.sub_diag, app_nil_r. by destruct p.
  - intros iter Hi. unfold payload_from_iter.
    rewrite fill_from_panic; [done|lia|]. by rewrite length_replicate.
Qed.

Lemma payload_accessors_witness :
  u32_at (E := Error.t) (payload (H := uuid_model) sample_message) 4 = Ok 0x08070605 /\
  u32_at (E := Error.t) (payload (H := uuid_model) sample_message) 109 = Panic.
Proof.
  destruct (payload_accessors (E := Error.t) (payload (H := uuid_model) sample_message) 4
    (proj2 (proj2 sample_message_wf))) as (_ & _ & H4 & _).
  destruct (payload_accessors (E := Error.t) (payload (H := uuid_model) sample_message) 109
    (proj2 (proj2 sample_message_wf))) as (_ & _ & H109 & _).
  split; [rewrite H4|rewrite H109]; reflexivity.
Defined.
