(* ===== verification/FfaFunctions.v ===== *)
(** The FF-A functions of [odp-ffa/src/function/]: for each its fields, its
    register encoding ([TryInto<SmcParams>]), the decoding where the code has
    one ([TryFrom<SmcParams>]) and [exec]. *)
From Stdlib Require Import ZArith Lia.
From S2P Require Import Prelude FfaCore.
#[local] Open Scope Z_scope.

(** [((high as u64) << 16) | (low as u64)] *)
Definition pack16 (high low : Z) : Z := Z.lor (Z.shiftl high 16) low.

(** ** features.rs *)

Module Features.
Record t : Type := { feature_id : Z; input_properties : Z }.

#[export] Instance function : Function t := {|
  fn_ID := FunctionId.Features;
  fn_try_into f := Ok (SmcParams.with_default (feature_id f) (input_properties f) 0 0);
|}.

#[export] Instance from_params : FromParams t := fun value =>
  Ok {| feature_id := SmcParams.x1 value; input_properties := SmcParams.x2 value |}.

Record FeaturesResult : Type := { interface_properties : Z }.

Definition exec {W} `{SmcEnv W} (f : t) : stM W Error.t FeaturesResult :=
  exec_simple f (fun result =>
    Ok {| interface_properties := SmcParams.x2 (SmcCall.params result) |}).

Definition wf (f : t) : Prop := is_u 64 (feature_id f) /\ is_u 64 (input_properties f).
End Features.

(** ** id_get.rs *)

Module IdGet.
Inductive t : Type := IdGet.

#[export] Instance function : Function t := {|
  fn_ID := FunctionId.IdGet;
  fn_try_into _ := Ok SmcParams.default;
|}.

Record IdGetResult : Type := { id : Z }.

Definition exec {W} `{SmcEnv W} (f : t) : stM W Error.t IdGetResult :=
  exec_simple f (fun result => Ok {| id := trunc 16 (SmcParams.x2 (SmcCall.params result)) |}).
End IdGet.

(** ** interrupt.rs *)

Module Interrupt.
Record t : Type := { endpoint_id : Z; vcpu_id : Z; interrupt_id : Z }.

#[export] Instance function : Function t := {|
  fn_ID := FunctionId.Interrupt;
  fn_try_into f :=
    Ok (SmcParams.with_default (pack16 (endpoint_id f) (vcpu_id f)) (interrupt_id f) 0 0);
|}.

Definition exec {W} `{SmcEnv W} (f : t) : stM W Error.t unit := exec_simple f (fun _ => Ok tt).
End Interrupt.

(** ** mem_retrieve_req.rs *)

Module MemRetrieveReq.
Record t : Type := { total_length : Z; frag_length : Z; tx_address : Z; page_count : Z }.

Definition new : t :=
  {| total_length := 0x40; frag_length := 0x40; tx_address := 0; page_count := 0 |}.

#[export] Instance function : Function t := {|
  fn_ID := FunctionId.MemRetrieveReq;
  fn_try_into f :=
    Ok (SmcParams.with_default (total_length f) (frag_length f) (tx_address f) (page_count f));
|}.

#[export] Instance from_params : FromParams t := fun value =>
  Ok {| total_length := SmcParams.x1 value; frag_length := SmcParams.x2 value;
        tx_address := SmcParams.x3 value; page_count := SmcParams.x4 value |}.

Definition exec {W} `{SmcEnv W} (f : t) : stM W Error.t SmcCall.t := exec_simple f Ok.

Definition wf (f : t) : Prop :=
  is_u 64 (total_length f) /\ is_u 64 (frag_length f) /\
  is_u 64 (tx_address f) /\ is_u 64 (page_count f).
End MemRetrieveReq.

(** ** notification_bind.rs *)

Module NotificationBindFlags.
Inductive t : Type := Global_ | PerVCpu.

#[export] Instance enum : PrimEnum t := {|
  discr f := match f with Global_ => 0 | PerVCpu => 1 end;
  variants := [Global_; PerVCpu];
|}.
End NotificationBindFlags.
Export (hints) NotificationBindFlags.

Module NotificationBind.
Record t : Type := {
  sender_id : Z; receiver_id : Z;
  flags : NotificationBindFlags.t; notification_bitmap : Z;
}.

#[export] Instance function : Function t := {|
  fn_ID := FunctionId.NotificationBind;
  fn_try_into f :=
    let bitmap_low := Z.land (notification_bitmap f) 0xffffffff in
    let bitmap_high := Z.shiftr (notification_bitmap f) 32 in
    Ok (SmcParams.with_default (pack16 (sender_id f) (receiver_id f))
          (discr (flags f)) bitmap_low bitmap_high);
|}.

Definition exec {W} `{SmcEnv W} (f : t) : stM W Error.t unit := exec_simple f (fun _ => Ok tt).
End NotificationBind.

(** ** notification_get.rs *)

Module NotificationGet.
Record t : Type := { receiver_cpu_id : Z; receiver_endpoint_id : Z; flags : Z }.

#[export] Instance function : Function t := {|
  fn_ID := FunctionId.NotificationGet;
  fn_try_into f :=
    Ok (SmcParams.with_default (pack16 (receiver_cpu_id f) (receiver_endpoint_id f)) (flags f) 0 0);
|}.

#[export] Instance from_params : FromParams t := fun value =>
  Ok {| receiver_cpu_id := trunc 16 (Z.shiftr (SmcParams.x1 value) 16);
        receiver_endpoint_id := trunc 16 (Z.land (SmcParams.x1 value) 0xFFFF);
        flags := trunc 32 (SmcParams.x2 value) |}.

Record Response : Type := {
  sp_notifications_bitmap : Z; vm_notifications_bitmap : Z; fw_notifications_bitmap : Z;
}.

Definition response_of (p : SmcParams.t) : Response :=
  {| sp_notifications_bitmap :=
       combine_low_high_u32 (trunc 32 (SmcParams.x2 p)) (trunc 32 (SmcParams.x3 p));
     vm_notifications_bitmap :=
       combine_low_high_u32 (trunc 32 (SmcParams.x4 p)) (trunc 32 (SmcParams.x5 p));
     fw_notifications_bitmap :=
       combine_low_high_u32 (trunc 32 (SmcParams.x6 p)) (trunc 32 (SmcParams.x7 p)) |}.

Definition exec {W} `{SmcEnv W} (f : t) : stM W Error.t Response :=
  exec_simple f (fun result => Ok (response_of (SmcCall.params result))).

Definition wf (f : t) : Prop :=
  is_u 16 (receiver_cpu_id f) /\ is_u 16 (receiver_endpoint_id f) /\ is_u 32 (flags f).
End NotificationGet.

(** ** notification_set.rs *)

Module NotificationSet.
Record t : Type := { sender_id : Z; receiver_id : Z; flags : Z; notification_bitmap : Z }.

#[export] Instance function : Function t := {|
  fn_ID := FunctionId.NotificationSet;
  fn_try_into f :=
    let bitmap_low := Z.land (notification_bitmap f) 0xffffffff in
    let bitmap_high := Z.shiftr (notification_bitmap f) 32 in
    Ok (SmcParams.with_default (pack16 (sender_id f) (receiver_id f)) (flags f)
          bitmap_low bitmap_high);
|}.

#[export] Instance from_params : FromParams t := fun value =>
  Ok {| sender_id := trunc 16 (Z.shiftr (SmcParams.x1 value) 16);
        receiver_id := trunc 16 (Z.land (SmcParams.x1 value) 0xFFFF);
        flags := trunc 32 (SmcParams.x2 value);
        notification_bitmap :=
          Z.lor (trunc 64 (Z.shiftl (SmcParams.x4 value) 32))
                (Z.land (SmcParams.x3 value) 0xFFFFFFFF) |}.

Definition exec {W} `{SmcEnv W} (f : t) : stM W Error.t unit := exec_simple f (fun _ => Ok tt).

Definition wf (f : t) : Prop :=
  is_u 16 (sender_id f) /\ is_u 16 (receiver_id f) /\ is_u 32 (flags f) /\
  is_u 64 (notification_bitmap f).
End NotificationSet.

(** ** rxtx.rs *)

Module RxTxMap.
Record t : Type := { tx_address : Z; rx_address : Z; page_count : Z }.

#[export] Instance function : Function t := {|
  fn_ID := FunctionId.RxTxMap;
  fn_try_into f := Ok (SmcParams.with_default (tx_address f) (rx_address f) (page_count f) 0);
|}.

#[export] Instance from_params : FromParams t := fun value =>
  Ok {| tx_address := SmcParams.x1 value; rx_address := SmcParams.x2 value;
        page_count := trunc 32 (SmcParams.x3 value) |}.

Definition exec {W} `{SmcEnv W} (f : t) : stM W Error.t unit := exec_simple f (fun _ => Ok tt).

Definition wf (f : t) : Prop :=
  is_u 64 (tx_address f) /\ is_u 64 (rx_address f) /\ is_u 32 (page_count f).
End RxTxMap.

(** ** msg_send2.rs *)

Module MsgSend2.
Record t : Type := { sender_id : Z; flags : Z }.

#[export] Instance function : Function t := {|
  fn_ID := FunctionId.MsgSend2;
  fn_try_into f :=
    Ok (SmcParams.with_default (Z.shiftl (sender_id f) 16) (flags f) 0 0);
|}.

#[export] Instance from_params : FromParams t := fun value =>
  Ok {| sender_id := trunc 16 (Z.shiftr (SmcParams.x1 value) 16);
        flags := trunc 32 (SmcParams.x2 value) |}.

Definition exec {W} `{SmcEnv W} (f : t) : stM W Error.t unit := exec_simple f (fun _ => Ok tt).

Definition wf (f : t) : Prop := is_u 16 (sender_id f) /\ is_u 32 (flags f).
End MsgSend2.

(** ** yld.rs *)

Module Yield.
Record t : Type := { vcpu_id : Z; endpoint_id : Z; timeout : Z }.

Definition new (timeout : Z) : t := {| vcpu_id := 0; endpoint_id := 0; timeout := timeout |}.

#[export] Instance function : Function t := {|
  fn_ID := FunctionId.MsgYield;
  fn_try_into f :=
    Ok (SmcParams.with_default (pack16 (endpoint_id f) (vcpu_id f))
          (trunc 32 (timeout f)) (Z.shiftr (timeout f) 32) 0);
|}.

#[export] Instance from_params : FromParams t := fun value =>
  Ok {| vcpu_id := trunc 16 (Z.land (SmcParams.x1 value) 0xFFFF);
        endpoint_id := trunc 16 (Z.land (Z.shiftr (SmcParams.x1 value) 16) 0xFFFF);
        timeout := Z.lor (trunc 64 (Z.shiftl (SmcParams.x3 value) 32)) (SmcParams.x2 value) |}.

Definition exec {W} `{SmcEnv W} (f : t) : stM W Error.t unit := exec_simple f (fun _ => Ok tt).

Definition wf (f : t) : Prop :=
  is_u 16 (vcpu_id f) /\ is_u 16 (endpoint_id f) /\ is_u 64 (timeout f).
End Yield.

(** ** version.rs *)

Module Version.
Record t : Type := { major : Z; minor : Z }.

Definition FFA_VERSION_MAJOR : Z := 1.
Definition FFA_VERSION_MINOR : Z := 2.

Definition new : t :=
  {| major := trunc 16 FFA_VERSION_MAJOR; minor := trunc 16 FFA_VERSION_MINOR |}.

#[export] Instance function : Function t := {|
  fn_ID := FunctionId.Version;
  fn_try_into f := Ok (SmcParams.with_default (pack16 (major f) (minor f)) 0 0 0);
|}.

#[export] Instance from_params : FromParams t := fun value =>
  Ok {| major := trunc 16 (Z.shiftr (SmcParams.x1 value) 16);
        minor := trunc 16 (Z.land (SmcParams.x1 value) 0xFFFF) |}.

(** [FFA_VERSION] answers in [x0]; bit 31 marks an error. *)
Definition exec {W} `{SmcEnv W} (f : t) : stM W Error.t t :=
  result ← ffa_smc f;
  r0 ← lift (or_panic (result !! 0%nat));
  if decide (Z.land r0 (Z.shiftl 1 31) = 0)
  then mret {| major := trunc 16 (Z.shiftr r0 16); minor := trunc 16 (Z.land r0 0xffff) |}
  else lift (Err (Error.InvalidFunctionId r0)).

Definition wf (f : t) : Prop := is_u 16 (major f) /\ is_u 16 (minor f).
End Version.

Export (hints) Features IdGet Interrupt MemRetrieveReq NotificationBind NotificationGet
  NotificationSet RxTxMap MsgSend2 Yield Version.

(** ** Lemmas *)

(** Decoding the registers a value was encoded into gives the value back. *)
Definition roundtrips {F} `{Function F} `{FromParams F} (f : F) : Prop :=
  exists p, fn_try_into f = Ok p /\ fn_try_from p = Ok f.

Lemma pack16_high h l : is_u 16 h -> is_u 16 l -> trunc 16 (Z.shiftr (pack16 h l) 16) = h.
Proof. intros. unfold pack16. rewrite field_high by done. by apply trunc_small. Qed.

Lemma pack16_low h l : is_u 16 l -> trunc 16 (Z.land (pack16 h l) 0xFFFF) = l.
Proof.
  intros. change 0xFFFF with (Z.ones 16). rewrite trunc_ones, trunc_trunc by lia.
  unfold pack16. by apply field_low.
Qed.

Lemma pack16_high_masked h l :
  is_u 16 h -> is_u 16 l -> trunc 16 (Z.land (Z.shiftr (pack16 h l) 16) 0xFFFF) = h.
Proof.
  intros. change 0xFFFF with (Z.ones 16). rewrite trunc_ones, trunc_trunc by lia.
  by apply pack16_high.
Qed.

(** The high half, shifted back into place. *)
Lemma high_half z : is_u 64 z -> trunc 64 (Z.shiftl (Z.shiftr z 32) 32) = Z.shiftl (Z.shiftr z 32) 32.
Proof.
  intros Hz. apply trunc_small.
  replace (Z.shiftl (Z.shiftr z 32) 32) with (Z.lor (Z.shiftl (Z.shiftr z 32) 32) 0)
    by apply Z.lor_0_r.
  apply (field_range 32 32); [lia| |unfold is_u; lia].
  by apply (shiftr_range 32 32).
Qed.

Lemma halves_masked z :
  is_u 64 z ->
  Z.lor (trunc 64 (Z.shiftl (Z.shiftr z 32) 32)) (Z.land (Z.land z 0xffffffff) 0xFFFFFFFF) = z.
Proof.
  intros Hz. rewrite high_half by done.
  change 0xffffffff with (Z.ones 32). rewrite !trunc_ones, trunc_trunc by lia.
  apply field_split. lia.
Qed.

Lemma halves z :
  is_u 64 z -> Z.lor (trunc 64 (Z.shiftl (Z.shiftr z 32) 32)) (trunc 32 z) = z.
Proof. intros Hz. rewrite high_half by done. apply field_split. lia. Qed.

(** Unfolds one encoding and its decoding and rewrites with the field lemmas. *)
Ltac solve_roundtrip :=
  let f := fresh in
  intros f; destruct f; intros Hwf; hnf in Hwf; cbn in Hwf; destruct_and?;
  eexists; (split; [reflexivity|]); lazy -[Z.lor Z.land Z.shiftl Z.shiftr trunc pack16];
  repeat first
    [ rewrite pack16_high by done | rewrite pack16_low by done
    | rewrite pack16_high_masked by done | rewrite halves_masked by done
    | rewrite halves by done | rewrite trunc_small by done ];
  reflexivity.

Lemma features_roundtrip f : Features.wf f -> roundtrips f.
Proof. revert f. solve_roundtrip. Qed.

Lemma mem_retrieve_req_roundtrip f : MemRetrieveReq.wf f -> roundtrips f.
Proof. revert f. solve_roundtrip. Qed.

Lemma notification_get_roundtrip f : NotificationGet.wf f -> roundtrips f.
Proof. revert f. solve_roundtrip. Qed.

Lemma notification_set_roundtrip f : NotificationSet.wf f -> roundtrips f.
Proof. revert f. solve_roundtrip. Qed.

Lemma rxtx_map_roundtrip f : RxTxMap.wf f -> roundtrips f.
Proof. revert f. solve_roundtrip. Qed.

Lemma yield_roundtrip f : Yield.wf f -> roundtrips f.
Proof. revert f. solve_roundtrip. Qed.

Lemma version_roundtrip f : Version.wf f -> roundtrips f.
Proof. revert f. solve_roundtrip. Qed.

Lemma msg_send2_roundtrip f : MsgSend2.wf f -> roundtrips f.
Proof.
  destruct f as [s fl]. intros [Hs Hf]. eexists. split; [reflexivity|].
  lazy -[Z.shiftl Z.shiftr trunc].
  rewrite Z.shiftr_shiftl_l, Z.shiftl_0_r, !trunc_small by (done || lia). done.
Qed.

(** ** Properties *)

(** C36: Every FF-A function that has both directions encodes without loss:
    decoding the registers a value in range was encoded into gives the value
    back, for all eight such functions. *)
Theorem function_encodings_roundtrip :
  (forall f, Features.wf f -> roundtrips f) /\
  (forall f, MemRetrieveReq.wf f -> roundtrips f) /\
  (forall f, NotificationGet.wf f -> roundtrips f) /\
  (forall f, NotificationSet.wf f -> roundtrips f) /\
  (forall f, RxTxMap.wf f -> roundtrips f) /\
  (forall f, MsgSend2.wf f -> roundtrips f) /\
  (forall f, Yield.wf f -> roundtrips f) /\
  (forall f, Version.wf f -> roundtrips f).
Proof.
  split_and!; auto using features_roundtrip, mem_retrieve_req_roundtrip,
    notification_get_roundtrip, notification_set_roundtrip, rxtx_map_roundtrip,
    msg_send2_roundtrip, yield_roundtrip, version_roundtrip.
Qed.

(** [Version::exec] makes one [FFA_VERSION] call and reads the answer out of
    [x0]: with bit 31 clear it is the version in the two halves of the low
    word, otherwise the whole of [x0] is reported as an error; it never panics. *)
Lemma version_exec_spec `{SmcEnvLaws W} (v : Version.t) w :
  exists r0 rest,
    (smc (discr FunctionId.Version)
       (SmcParams.with_default (pack16 (Version.major v) (Version.minor v)) 0 0 0) w).1
      = r0 :: rest /\
    (Version.exec v w).1 =
      if Z.testbit r0 31 then Err (Error.InvalidFunctionId r0)
      else Ok {| Version.major := trunc 16 (Z.shiftr r0 16); Version.minor := trunc 16 r0 |}.
Proof.
  unfold Version.exec, ffa_smc, mbind, stM_bind, lift, call.
  cbn [fn_try_into fn_ID Version.function].
  set (p := SmcParams.with_default _ 0 0 0).
  pose proof (smc_length (discr FunctionId.Version) p w) as Hlen.
  destruct (smc (discr FunctionId.Version) p w) as [[|r0 rest] w']; [done|].
  exists r0, rest. split; [done|]. cbn [lookup list_lookup or_panic].
  rewrite land_single_bit by lia. change 0xffff with (Z.ones 16).
  rewrite trunc_ones, trunc_trunc by lia.
  by destruct (Z.testbit r0 31).
Qed.

Lemma exec_simple_classifies_witness :
  exec_simple (W := Script) (Features.Build_t 1 2) Ok [[0xC4000061; 7]] =
    (Ok (SmcCall.mk FunctionId.Success64 (SmcParams.with_default 7 0 0 0)), []).
Proof.
  assert (fn_try_into (Features.Build_t 1 2) = Ok (SmcParams.with_default 1 2 0 0)) as Hp
    by reflexivity.
  destruct (exec_simple_classifies (W := Script) (Features.Build_t 1 2)
    (SmcParams.with_default 1 2 0 0) Ok [[0xC4000061; 7]] Hp) as (r0 & ps & Hr & He).
  rewrite He. destruct ps. vm_compute in Hr. injection Hr as <-. subst. reflexivity.
Defined.
