(* ===== verification/Console.v ===== *)
(** The FF-A console ([odp-ffa/src/function/console.rs]): a byte string is cut
    into [ConsoleLog] calls of at most 128 characters, eight characters to a
    register.  [Recorded W] is the environment [W] with a log of the SMCs it
    received; it lets theorems speak of what was sent.

    [core::fmt] is outside the model: [print] takes the string pieces that
    [write_fmt] hands to [write_str]. *)
From Stdlib Require Import ZArith Lia.
From S2P Require Import Prelude FfaCore.
#[local] Open Scope Z_scope.

(** ** Recording environments *)

Definition Recorded (W : Type) : Type := list (Z * SmcParams.t) * W.

#[export] Instance recorded_env {W} `{SmcEnv W} : SmcEnv (Recorded W) := fun id p lw =>
  let '(result, w') := smc id p lw.2 in (result, (lw.1 ++ [(id, p)], w')).

(** ** Console *)

Definition FFA_MAX_CHAR_COUNT : nat := 128.

Record Console : Type := { console_bytes : list Z }.

Definition console_new (bytes : list Z) : Console * list Z :=
  let mid := (FFA_MAX_CHAR_COUNT `min` length bytes)%nat in
  ({| console_bytes := take mid bytes |}, drop mid bytes).

(** [buf[..len].copy_from_slice(&c[..len]); u64::from_le_bytes(buf)] *)
Definition chunk_to_u64 (c : list Z) : Z :=
  let len := (8 `min` length c)%nat in
  from_le_bytes (blit (replicate 8 0) 0 (take len c)).

Definition console_into_params (c : Console) : ffa_result SmcParams.t :=
  let char_data_iter := chunk_to_u64 <$> chunks 8 (console_bytes c) in
  SmcParams.try_from_iter (Z.of_nat (length (console_bytes c)) :: char_data_iter).

#[export] Instance console_function : Function Console := {|
  fn_ID := FunctionId.ConsoleLog;
  fn_try_into := console_into_params;
|}.

(** [core::fmt::Error] *)
Inductive FmtError : Type := fmt_Error.

Section Writer.
Context {W : Type} `{SmcEnv W}.

Definition console_exec (c : Console) : stM W Error.t unit :=
  match console_bytes c with
  | [] => mret tt
  | _ => exec_simple c (fun _ => Ok tt)
  end.

Fixpoint write_str_loop (fuel : nat) (s : list Z) : stM W FmtError unit :=
  match fuel, s with
  | _, [] => mret tt
  | O, _ => lift NoFuel
  | S fuel, _ =>
      let '(console, remaining) := console_new s in
      _ ← st_map_err (fun _ => fmt_Error) (console_exec console);
      write_str_loop fuel remaining
  end.

(** [ConsoleWriter::write_str]; each round removes a character at least. *)
Definition write_str (s : list Z) : stM W FmtError unit := write_str_loop (length s) s.

(** [ConsoleWriter.write_fmt(args)] on the pieces of [args]. *)
Fixpoint write_fmt (pieces : list (list Z)) : stM W FmtError unit :=
  match pieces with
  | [] => mret tt
  | s :: pieces => _ ← write_str s; write_fmt pieces
  end.

Definition print (pieces : list (list Z)) : stM W Error.t unit := st_unwrap (write_fmt pieces).
End Writer.

(** What the receiver of a [ConsoleLog] call reads: [x1] characters out of
    [x2..x17]. *)
Definition console_chars (p : SmcParams.t) : list Z :=
  take (Z.to_nat (SmcParams.x1 p))
    (concat (to_le_bytes 8 <$> drop 1 (SmcParams.to_list p))).

(** A call the writer may make: a [ConsoleLog] of 1 to 128 characters. *)
Definition console_call_ok (c : Z * SmcParams.t) : Prop :=
  c.1 = discr FunctionId.ConsoleLog /\ 1 <= SmcParams.x1 c.2 <= 128.

(** ** Lemmas *)

Lemma chunk_to_u64_bytes c :
  bytes_ok c -> (length c <= 8)%nat ->
  to_le_bytes 8 (chunk_to_u64 c) = c ++ replicate (8 - length c) 0.
Proof.
  intros Hb Hl. unfold chunk_to_u64. rewrite Nat.min_r by done.
  rewrite firstn_all. unfold blit. cbn [take app Nat.add].
  rewrite drop_replicate.
  assert (length (c ++ replicate (8 - length c) 0) = 8%nat) as H8 by solve_len.
  rewrite <- H8 at 1. apply to_le_from_le, Forall_app. auto with odp.
Qed.

Lemma chunks_step {A} n (l : list A) :
  (0 < n)%nat -> l <> [] -> chunks n l = take n l :: chunks n (drop n l).
Proof.
  intros Hn Hl. destruct l as [|x l]; [done|]. unfold chunks at 1.
  cbn [length chunks_fuel]. f_equal.
  apply chunks_fuel_enough; rewrite ?length_drop; cbn [length]; lia.
Qed.

(** The packed characters start with the string and are zero after it. *)
Lemma packed_chars l :
  bytes_ok l ->
  exists k, concat (to_le_bytes 8 <$> (chunk_to_u64 <$> chunks 8 l)) = l ++ replicate k 0.
Proof.
  remember (length l) as n eqn:Hn. revert l Hn.
  induction (lt_wf n) as [n _ IH]. intros l -> Hb.
  destruct (decide (l = [])) as [->|Hne]; [by exists 0%nat|].
  rewrite chunks_step by (done || lia). rewrite !fmap_cons. cbn [concat].
  destruct (decide (length l <= 8)%nat) as [Hs|Hs].
  - rewrite firstn_all2, skipn_all2 by done. rewrite chunks_nil.
    cbn [fmap list_fmap concat]. rewrite app_nil_r.
    rewrite chunk_to_u64_bytes by done. eauto.
  - destruct (IH (length (drop 8 l))) with (l := drop 8 l) as [k Hk];
      [rewrite length_drop; lia|done|by apply Forall_drop|].
    rewrite Hk, chunk_to_u64_bytes; [|by apply Forall_take|rewrite length_take; lia].
    rewrite length_take, Nat.min_l by lia. cbn [Nat.sub replicate].
    rewrite app_nil_r, app_assoc, take_drop. eauto.
Qed.

Lemma console_into_params_ok bytes :
  bytes_ok bytes -> (length bytes <= FFA_MAX_CHAR_COUNT)%nat ->
  exists p, console_into_params {| console_bytes := bytes |} = Ok p /\
    SmcParams.x1 p = Z.of_nat (length bytes) /\ console_chars p = bytes.
Proof.
  intros Hb Hl. unfold console_into_params. cbn [console_bytes].
  set (ws := chunk_to_u64 <$> chunks 8 bytes).
  assert (length ws <= 16)%nat as Hws.
  { unfold ws. rewrite length_fmap. apply length_chunks; [lia|].
    unfold FFA_MAX_CHAR_COUNT in Hl. lia. }
  destruct (try_from_iter_short (Z.of_nat (length bytes) :: ws)) as (p & Hp & Hpl).
  { simpl. lia. }
  exists p. split; [done|].
  assert (SmcParams.x1 p = Z.of_nat (length bytes)) as Hx1.
  { destruct p. cbn in Hpl |- *. by injection Hpl. }
  split; [done|]. unfold console_chars. rewrite Hx1, Nat2Z.id, Hpl.
  change (drop 1 ((?a :: ws) ++ ?r)) with (ws ++ r). rewrite fmap_app, concat_app.
  destruct (packed_chars bytes Hb) as [k Hk]. fold ws in Hk. rewrite Hk.
  rewrite <- app_assoc, take_app_length'; done.
Qed.

Lemma recorded_smc `{SmcEnv W} id p (lw : Recorded W) :
  smc id p lw = let '(result, w') := smc id p lw.2 in (result, (lw.1 ++ [(id, p)], w')).
Proof. done. Qed.

Section WriterLemmas.
Context {W : Type} `{SmcEnvLaws W}.
Implicit Types (lw : Recorded W).

(** One call: it is logged whatever the environment answers, and the result
    is a value or an error. *)
Lemma recorded_exec_simple {F} `{Function F} (f : F) p lw :
  fn_try_into f = Ok p ->
  exists w', (exec_simple f (fun _ => Ok tt) lw).2
      = (lw.1 ++ [(discr (fn_ID (F := F)), p)], w') /\
    ((exec_simple f (fun _ => Ok tt) lw).1 = Ok tt \/
     exists e, (exec_simple f (fun _ => Ok tt) lw).1 = Err e).
Proof.
  intros Hp. unfold exec_simple, ffa_smc, mbind, stM_bind, lift, call.
  rewrite Hp, recorded_smc.
  pose proof (smc_length (discr (fn_ID (F := F))) p lw.2) as Hlen.
  destruct (smc (discr fn_ID) p lw.2) as [res w'] eqn:Hsmc. cbn [fst] in Hlen.
  exists w'. destruct res as [|r0 res]; [done|]. cbn [length] in Hlen.
  unfold SmcCall.try_from. cbn [lookup list_lookup or_panic mbind outcome_bind drop].
  unfold try_parse_function_id.
  destruct (try_from_primitive r0) as [id|]; cbn [mbind outcome_bind]; [|split; eauto].
  destruct (try_from_iter_short (drop 0 res)) as (p' & Hp' & _); [rewrite drop_0; lia|].
  rewrite Hp'. cbn [mbind outcome_bind].
  unfold handle_result_simple. destruct id; cbn; try (split; eauto; fail).
  unfold try_parse_error_code. destruct (try_from_primitive _); cbn; split; eauto.
Qed.

Lemma console_exec_recorded bytes lw :
  bytes_ok bytes -> (0 < length bytes <= FFA_MAX_CHAR_COUNT)%nat ->
  exists c w', (console_exec {| console_bytes := bytes |} lw).2 = (lw.1 ++ [c], w') /\
    console_call_ok c /\ console_chars c.2 = bytes /\
    ((console_exec {| console_bytes := bytes |} lw).1 = Ok tt \/
     exists e, (console_exec {| console_bytes := bytes |} lw).1 = Err e).
Proof.
  intros Hb Hl. destruct (console_into_params_ok bytes Hb) as (p & Hp & Hx & Hc); [lia|].
  assert (fn_try_into {| console_bytes := bytes |} = Ok p) as Hp' by exact Hp.
  destruct (recorded_exec_simple {| console_bytes := bytes |} p lw Hp') as (w' & Hw & Hr).
  exists (discr FunctionId.ConsoleLog, p), w'. unfold console_exec.
  destruct bytes as [|b bytes]; [simpl in Hl; lia|]. cbn [console_bytes].
  split_and!; try done. split; [done|]. cbn [fst snd]. rewrite Hx.
  unfold FFA_MAX_CHAR_COUNT in Hl. lia.
Qed.

Lemma write_str_loop_spec fuel s lw :
  bytes_ok s -> (length s <= fuel)%nat ->
  exists calls w', (write_str_loop fuel s lw).2 = (lw.1 ++ calls, w') /\
    Forall console_call_ok calls /\
    concat (console_chars ∘ snd <$> calls) `prefix_of` s /\
    (((write_str_loop fuel s lw).1 = Ok tt /\ concat (console_chars ∘ snd <$> calls) = s) \/
     (write_str_loop fuel s lw).1 = Err fmt_Error).
Proof.
  revert s lw. induction fuel as [|fuel IH]; intros s [log w] Hb Hl.
  { destruct s; [|simpl in Hl; lia]. exists [], w. rewrite app_nil_r. cbn.
    split_and!; auto. }
  destruct s as [|b s].
  { exists [], w. rewrite app_nil_r. cbn. split_and!; auto. }
  cbn [write_str_loop]. set (str := b :: s) in *. unfold console_new.
  set (mid := (FFA_MAX_CHAR_COUNT `min` length str)%nat).
  assert (0 < length str)%nat as Hpos by (unfold str; simpl; lia).
  assert (0 < mid <= FFA_MAX_CHAR_COUNT)%nat as Hmid
    by (unfold mid, FFA_MAX_CHAR_COUNT; lia).
  assert (length (take mid str) = mid) as Htake.
  { rewrite length_take. unfold mid. lia. }
  destruct (console_exec_recorded (take mid str) (log, w)) as (c & w1 & Hst & Hc & Hch & Hr).
  { by apply Forall_take. } { lia. }
  unfold mbind, stM_bind, st_map_err. fold mid. revert Hst Hr.
  destruct (console_exec _ _) as [r lw1].
  cbn [fst snd]. intros -> Hr.
  destruct Hr as [-> | [e ->]]; cbn [map_err].
  - destruct (IH (drop mid str) (log ++ [c], w1)) as (calls & w' & Hw' & Hok & Hpre & Hres).
    { by apply Forall_drop. } { rewrite length_drop. lia. }
    exists (c :: calls), w'. rewrite Hw'. cbn [fst]. rewrite <- app_assoc.
    cbn [app fmap list_fmap concat].
    change ((console_chars ∘ snd) c) with (console_chars c.2). rewrite Hch.
    split_and!; [done|by constructor| |].
    + rewrite <- (take_drop mid str) at 2. by apply prefix_app.
    + destruct Hres as [[Hok' Hall]|Herr]; [left|by right].
      split; [done|]. by rewrite Hall, take_drop.
  - exists [c], w1. cbn [fst snd fmap list_fmap concat].
    change ((console_chars ∘ snd) c) with (console_chars c.2). rewrite Hch, app_nil_r.
    split_and!; [done|by constructor|apply prefix_take|by right].
Qed.
End WriterLemmas.

(** ** Properties *)

(** C33: [write_str] always terminates and delivers the whole string or reports
    a formatting error: the calls it makes are [ConsoleLog] calls of 1 to 128
    characters, the characters the hypervisor reads out of them are, in order,
    a prefix of the string, and when it returns [Ok] they are the string. *)
Theorem write_str_delivers `{SmcEnvLaws W} s (lw : Recorded W) :
  bytes_ok s ->
  exists calls w', (write_str s lw).2 = (lw.1 ++ calls, w') /\
    Forall console_call_ok calls /\
    concat (console_chars ∘ snd <$> calls) `prefix_of` s /\
    ((write_str s lw).1 = Ok tt /\ concat (console_chars ∘ snd <$> calls) = s \/
     (write_str s lw).1 = Err fmt_Error).
Proof. intros Hs. by apply write_str_loop_spec. Qed.

Definition sample_log : Recorded Script := ([], [[0x84000061]; [0x84000061]]).

Lemma write_str_delivers_witness :
  exists calls w', (write_str (replicate 200 65) sample_log).2 = (calls, w') /\
    concat (console_chars ∘ snd <$> calls) = replicate 200 65.
Proof.
  assert (bytes_ok (replicate 200 65)) as Hb by (apply Forall_replicate; split; done).
  destruct (write_str_delivers (replicate 200 65) sample_log Hb)
    as (calls & w' & Hw & _ & _ & [[_ Hc]|He]); [|vm_compute in He; discriminate].
  exists calls, w'. split; [exact Hw|exact Hc].
Defined.
