(* ===== verification/Diagnostics.v ===== *)
(** Diagnostics: the two [SpLogger]s ([ec-service-lib/src/sp_logger.rs],
    [odp-ffa/src/function/console.rs]) and the panic handlers
    ([platform/*/src/baremetal/panic.rs]).  A log record is what the [log]
    crate hands the logger: the level's text, the module path and the pieces of
    the arguments.  A panic in the handler's own report calls the handler
    again. *)
From Stdlib Require Import ZArith Lia.
From S2P Require Import Prelude FfaCore Console.
#[local] Open Scope Z_scope.

(** The bytes of a literal. *)
Definition str (s : string) : list Z :=
  (fun b => Z.of_N (Byte.to_N b)) <$> String.list_byte_of_string s.
Arguments str s%_string.

Record LogRecord : Type := mkRecord {
  level : list Z; module_path : option (list Z); args : list (list Z) }.

(** [format_args!("{:<5} - {} - {}", level, module_path, args)]: the level is
    filled up to five columns, blank by blank. *)
Definition line_pieces (record : LogRecord) : list (list Z) :=
  [level record] ++ replicate (5 - length (level record)) (str " ") ++ [str " - "] ++
  [default (str "unknown") (module_path record)] ++ [str " - "] ++ args record.

Section Loggers.
Context {W : Type} `{SmcEnv W}.

(** [println!] *)
Definition println (pieces : list (list Z)) : stM W Error.t unit :=
  _ ← print pieces; print [[10]].

Definition enabled (record : LogRecord) : bool := true.

(** [SpLogger::log] of [ec_service_lib], which the partitions install, and of
    [odp_ffa], which ends no line. *)
Definition sp_logger_log (record : LogRecord) : stM W Error.t unit :=
  if enabled record then println (line_pieces record) else mret tt.
Definition ffa_logger_log (record : LogRecord) : stM W Error.t unit :=
  if enabled record then print (line_pieces record) else mret tt.

(** ** The panic handler *)

(** Where a panicking partition stays: in the loop at the handler's end, or in
    the loop that a second entry runs into. *)
Inductive Stopped : Type := Reported | Reentered.

(** [panic_prevent_reenter]: [None] when it returns. *)
Definition panic_prevent_reenter : stM (bool * W) Error.t (option Stopped) :=
  '(PANIC_IN_PROGRESS, _) ← get_st;
  if negb PANIC_IN_PROGRESS then _ ← modify_fst (fun _ => true); mret None
  else mret (Some Reentered).

(** [report info] is the [error!] record of a panic; [nested] the panic inside
    the report.  Each entry of the handler takes one unit of fuel. *)
Fixpoint panic {I} (report : I -> LogRecord) (nested : I) (fuel : nat) (info : I) :
    stM (bool * W) Error.t Stopped :=
  match fuel with
  | O => lift NoFuel
  | S fuel =>
      stopped ← panic_prevent_reenter;
      match stopped with
      | Some s => mret s
      | None => fun bw =>
          match on_snd (sp_logger_log (report info)) bw with
          | (Ok _, bw) => (Ok Reported, bw)
          | (_, bw) => panic report nested fuel nested bw
          end
      end
  end.
End Loggers.

(** [PanicInfo]: where it happened and the message's pieces.  The line and
    column are decimal numbers, whose text [core::fmt] makes. *)
Record PanicInfo : Type := mkPanic {
  location : option (list Z * list Z * list Z); message : list (list Z) }.

Definition panic_report (module_path : list Z) (info : PanicInfo) : LogRecord :=
  let '(location, line, column) := default (str "???", str "0", str "0") (location info) in
  mkRecord (str "ERROR") (Some module_path)
    ([str "Kernel panic!" ++ [10; 10] ++ str "Panic location:" ++ [10] ++ str "      File '";
      location; str "', line "; line; str ", column "; column; [10; 10]] ++ message info).

(** ** Lemmas *)

(** The characters of a list of calls. *)
Definition delivered (calls : list (Z * SmcParams.t)) : list Z :=
  concat (console_chars ∘ snd <$> calls).

Lemma delivered_app calls calls' : delivered (calls ++ calls') = delivered calls ++ delivered calls'.
Proof. unfold delivered. by rewrite fmap_app, concat_app. Qed.

Section Delivery.
Context {W : Type} `{SmcEnvLaws W}.

(** [m] sends a prefix of [text] in calls that are in order, all of it if it
    succeeds, and otherwise ends as [failed] says. *)
Definition sends {E A} (m : stM (Recorded W) E A) (text : list Z) (failed : outcome E A -> Prop) : Prop :=
  forall lw, exists calls w', (m lw).2 = (lw.1 ++ calls, w') /\
    Forall console_call_ok calls /\ delivered calls `prefix_of` text /\
    ((exists a, (m lw).1 = Ok a) /\ delivered calls = text \/ failed (m lw).1).

Lemma sends_ret {E A} (a : A) failed : sends (E := E) (mret a) [] failed.
Proof.
  intros [l w]. exists [], w. rewrite app_nil_r. split_and!; auto. by left; split; [exists a|].
Qed.

Lemma sends_bind {E A B} (m : stM (Recorded W) E A) (k : A -> stM (Recorded W) E B) text text'
    (failed : outcome E A -> Prop) (failed' : outcome E B -> Prop) :
  sends m text failed -> (forall a, sends (k a) text' failed') ->
  (forall r, failed r -> match r with
     | Ok _ => False | Err e => failed' (Err e) | Panic => failed' Panic | NoFuel => failed' NoFuel end) ->
  sends (m ≫= k) (text ++ text') failed'.
Proof.
  intros Hm Hk Hf lw. destruct (Hm lw) as (calls & w & Hw & Hc & Hp & Hr).
  unfold mbind, stM_bind. destruct (m lw) as [r lw']. cbn [fst snd] in *. subst lw'.
  destruct Hr as [[[a ->] Hall]|Hfail].
  - destruct (Hk a (lw.1 ++ calls, w)) as (calls' & w' & Hw' & Hc' & Hp' & Hr').
    exists (calls ++ calls'), w'. rewrite Hw', delivered_app, Hall. cbn [fst]. rewrite <- app_assoc.
    split_and!; [done|by apply Forall_app|by apply prefix_app|].
    destruct Hr' as [[Ha ->]|?]; [by left|by right].
  - apply Hf in Hfail. exists calls, w.
    destruct r; cbn [fst snd]; split_and!; try done; try (by apply prefix_app_r); by right.
Qed.

Lemma write_str_sends s : bytes_ok s -> sends (write_str s) s (fun r => r = Err fmt_Error).
Proof.
  intros Hs lw. destruct (write_str_loop_spec (length s) s lw Hs (le_n _))
    as (calls & w' & Hw & Hc & Hp & Hr).
  exists calls, w'. split_and!; try done. destruct Hr as [[Hr Hall]|Hr]; [left|by right].
  split; [by exists tt|done].
Qed.

Lemma write_fmt_sends pieces :
  Forall (fun s => bytes_ok s) pieces ->
  sends (write_fmt pieces) (concat pieces) (fun r => r = Err fmt_Error).
Proof.
  induction 1 as [|s pieces Hs _ IH]; cbn [write_fmt concat]; [apply sends_ret|].
  eapply sends_bind; [by apply write_str_sends|by intros|]. by intros r ->.
Qed.

(** Printing sends the text or panics. *)
Lemma print_sends pieces :
  Forall (fun s => bytes_ok s) pieces ->
  sends (print pieces) (concat pieces) (fun r => r = Panic).
Proof.
  intros Hp lw. destruct (write_fmt_sends pieces Hp lw) as (calls & w' & Hw & Hc & Hpre & Hr).
  exists calls, w'. unfold print, st_unwrap. destruct (write_fmt pieces lw) as [r lw'].
  cbn [fst snd] in *. subst lw'.
  destruct Hr as [[[a ->] Hall]| ->]; cbn [fst snd]; split_and!; try done; [left|by right].
  split; [by exists a|done].
Qed.

Lemma println_sends pieces :
  Forall (fun s => bytes_ok s) pieces ->
  sends (println pieces) (concat pieces ++ [10]) (fun r => r = Panic).
Proof.
  intros Hp. eapply sends_bind; [by apply print_sends| |by intros r ->].
  intros _. apply (print_sends [[10]]). repeat constructor; done.
Qed.
End Delivery.

(** ** Records *)

Definition record_ok (record : LogRecord) : Prop :=
  bytes_ok (level record) /\ bytes_ok (default [] (module_path record)) /\
  Forall (fun s => bytes_ok s) (args record).

(** The line of a record. *)
Definition log_line (record : LogRecord) : list Z :=
  level record ++ replicate (5 - length (level record)) 32 ++ str " - " ++
  default (str "unknown") (module_path record) ++ str " - " ++ concat (args record).

Lemma line_pieces_concat record : concat (line_pieces record) = log_line record.
Proof.
  unfold line_pieces, log_line. rewrite !concat_app. cbn [concat]. rewrite !app_nil_r.
  f_equal. f_equal. induction (5 - length (level record))%nat; cbn; by f_equal.
Qed.

Lemma line_pieces_ok record :
  record_ok record -> Forall (fun s => bytes_ok s) (line_pieces record).
Proof.
  intros (Hl & Hm & Ha). assert (forall s, bool_decide (bytes_ok (str s)) = true -> bytes_ok (str s))
    as Hstr by (intros s; apply bool_decide_eq_true).
  unfold line_pieces. rewrite !Forall_app, !Forall_singleton.
  repeat (split; [first [exact Hl | by apply Hstr | by apply Forall_replicate, Hstr
                        | destruct (module_path record); [exact Hm|by apply Hstr]]|]).
  exact Ha.
Qed.

Section Report.
Context {W : Type} `{SmcEnvLaws W}.

Lemma sp_logger_sends record :
  record_ok record ->
  sends (W := W) (sp_logger_log record) (log_line record ++ [10]) (fun r => r = Panic).
Proof.
  intros Hr. unfold sp_logger_log. cbn [enabled]. rewrite <- line_pieces_concat.
  by apply println_sends, line_pieces_ok.
Qed.

(** A second entry stops at once. *)
Lemma panic_reenters {I} (report : I -> LogRecord) nested fuel info (lw : Recorded W) :
  panic report nested (S fuel) info (true, lw) = (Ok Reentered, (true, lw)).
Proof. reflexivity. Qed.

Lemma panic_once {I} (report : I -> LogRecord) nested fuel info (lw : Recorded W) :
  (2 <= fuel)%nat -> record_ok (report info) ->
  exists s calls w', panic report nested fuel info (false, lw) = (Ok s, (true, (lw.1 ++ calls, w'))) /\
    Forall console_call_ok calls /\
    delivered calls `prefix_of` log_line (report info) ++ [10] /\
    (s = Reported -> delivered calls = log_line (report info) ++ [10]).
Proof.
  intros Hf Hr. destruct fuel as [|[|fuel]]; [lia..|].
  destruct (sp_logger_sends (report info) Hr lw) as (calls & w' & Hw & Hc & Hp & Hres).
  cbn [panic]. unfold panic_prevent_reenter, mbind, stM_bind, get_st, modify_fst, on_snd. cbn [fst snd negb mret stM_ret].
  destruct (sp_logger_log (report info) lw) as [r lw']. cbn [fst snd] in Hw, Hres. subst lw'.
  destruct Hres as [[[[] ->] Hall]| ->].
  - exists Reported, calls, w'. by split_and!.
  - exists Reentered, calls, w'. by split_and!.
Qed.
End Report.

(** ** Properties *)

(** C34: A panic is reported at most once and the partition then stands still.
    The first entry of the handler sends the report, one log line with the
    place and the message, to the console, in calls of at most 128 characters;
    if a call fails the report stops there, the panic of the report enters the
    handler again, and that entry sends nothing.  Either way the handler comes
    to rest, after two entries at most, and it says [Reported] only if the whole
    line was delivered.  Any later panic sends nothing. *)
Theorem panic_reports_once {W} `{SmcEnvLaws W} module nested fuel info (lw : Recorded W) :
  (2 <= fuel)%nat -> record_ok (panic_report module info) ->
  exists s calls w',
    panic (panic_report module) nested fuel info (false, lw) =
      (Ok s, (true, (lw.1 ++ calls, w'))) /\
    Forall console_call_ok calls /\
    delivered calls `prefix_of` log_line (panic_report module info) ++ [10] /\
    (s = Reported -> delivered calls = log_line (panic_report module info) ++ [10]) /\
    forall info', panic (panic_report module) nested fuel info' (true, (lw.1 ++ calls, w')) =
      (Ok Reentered, (true, (lw.1 ++ calls, w'))).
Proof.
  intros Hf Hr. destruct (panic_once (panic_report module) nested fuel info lw Hf Hr)
    as (s & calls & w' & Hp & Hc & Hpre & Hs).
  exists s, calls, w'. split_and!; try done. intros info'. destruct fuel; [lia|]. apply panic_reenters.
Qed.

(** A console that takes everything. *)
Definition silent_console : Recorded Script := ([], replicate 100 [0x84000061]).
Definition sample_panic : PanicInfo := mkPanic (Some (str "main.rs", str "48", str "5")) [str "unreachable"].

Lemma panic_reports_once_witness :
  (panic (panic_report (str "qemu_sp")) sample_panic 2 sample_panic (false, silent_console)).1 = Ok Reported /\
  exists calls w',
    (panic (panic_report (str "qemu_sp")) sample_panic 2 sample_panic (false, silent_console)).2 =
      (true, (calls, w')) /\
    delivered calls = str "ERROR - qemu_sp - Kernel panic!" ++ [10; 10] ++ str "Panic location:" ++ [10] ++
      str "      File 'main.rs', line 48, column 5" ++ [10; 10] ++ str "unreachable" ++ [10].
Proof.
  assert (record_ok (panic_report (str "qemu_sp") sample_panic)) as Hok
    by (split_and!; apply (bool_decide_unpack _); vm_compute; exact I).
  destruct (panic_reports_once (str "qemu_sp") sample_panic 2 sample_panic silent_console (le_n 2) Hok)
    as (s & calls & w' & Hp & _ & _ & Hs & _).
  assert ((panic (panic_report (str "qemu_sp")) sample_panic 2 sample_panic (false, silent_console)).1
    = Ok Reported) as Hrep by (vm_compute; reflexivity).
  split; [exact Hrep|]. rewrite Hp in Hrep |- *. injection Hrep as ->.
  exists calls, w'. split; [reflexivity|]. rewrite Hs by done. vm_compute. reflexivity.
Defined.
