(* ===== verification/MsgLoop.v ===== *)
(** Services and the message loop ([ec-service-lib/src/service.rs],
    [message_handler.rs], [lib.rs] and the request parser of
    [services/mod.rs]).

    [Service W S] is the trait [Service]: a UUID, a name and the handler, which
    works on the service's state [S] and on the world [W] it shares with the
    rest of the partition (the SMC environment, devices).  [ServiceLaws] is
    what every service promises to the loop: on a well-formed request it
    returns, without panicking, either an error or a well-formed reply to the
    sender, and keeps its invariant.  [HandlerNode] is the linked list of
    services; its laws follow from those of its services. *)
From Stdlib Require Import ZArith Lia.
From S2P Require Import Prelude FfaCore FfaMsg FfaFunctions.
#[local] Open Scope Z_scope.

(** The SMC environment is the second component of a service's world. *)
#[export] Instance pair_env {S W} `{SmcEnv W} : SmcEnv (S * W) := fun id p sw =>
  let '(result, w') := smc id p sw.2 in (result, (sw.1, w')).

(** ** parse_ffa_request (services/mod.rs)

    The bytes of the request that follow the command byte; [size] is
    [size_of::<T>()] and the typed view of the bytes is [zerocopy]'s
    [ref_from_bytes], which for the [repr(C, packed)] requests of the services
    reads the fields in order. *)
Definition parse_ffa_request (size : nat) (payload : DirectMessagePayload) : option (list Z) :=
  let start := 1%nat in
  payload_get payload start (start + size).

(** ** The list of services (message_handler.rs) *)

Inductive HandlerNodeTerminal : Type := Terminal.

Record HandlerNodeInner (S N : Type) : Type := Inner { service : S; next : N }.
Arguments Inner {S N} service next.
Arguments service {S N}.
Arguments next {S N}.

Record MessageHandler (N : Type) : Type := { node : N }.
Arguments Build_MessageHandler {N} node.
Arguments node {N}.

Section Loop.
Context `{UuidOps}.

(** ** Service (service.rs) *)

Class Service (W S : Type) := {
  svc_UUID : Uuid;
  svc_NAME : string;
  ffa_msg_send_direct_req2 : MsgSendDirectReq2 -> stM (S * W) Error.t MsgSendDirectResp2;
}.

(** The trait's default handler. *)
Definition handler_unimplemented {S W} (msg : MsgSendDirectReq2) :
    stM (S * W) Error.t MsgSendDirectResp2 :=
  lift (Err (Error.UnexpectedFunctionId FunctionId.MsgSendDirectReq2)).

(** [resp] answers [req]: it goes back to the sender, from the receiver, under
    the same service UUID. *)
Definition replies_to (req : MsgSendDirectReq2) (resp : MsgSendDirectResp2) : Prop :=
  source_id (resp_message resp) = destination_id (req_message req) /\
  destination_id (resp_message resp) = source_id (req_message req) /\
  uuid (resp_message resp) = uuid (req_message req) /\
  payload_wf (resp_payload resp).

(** What the loop may rely on after a handler has run. *)
Definition handled {St} (inv : St -> Prop) (req : MsgSendDirectReq2)
    (r : outcome Error.t MsgSendDirectResp2 * St) : Prop :=
  inv r.2 /\
  match r.1 with
  | Ok resp => replies_to req resp
  | Err _ => True
  | Panic | NoFuel => False
  end.

Class ServiceLaws (W S : Type) `{Service W S} := {
  svc_inv : S -> Prop;
  svc_handled req s w : message_wf (req_message req) -> svc_inv s ->
    handled (svc_inv ∘ fst) req (ffa_msg_send_direct_req2 (W := W) req (s, w));
}.

(** ** Handler nodes (message_handler.rs) *)

Class HandlerNode (W N : Type) := {
  handle : MsgSendDirectReq2 -> stM (N * W) Error.t MsgSendDirectResp2;
  node_uuids : list Uuid;
}.

#[export] Instance terminal_node {W} : HandlerNode W HandlerNodeTerminal := {|
  handle _ := lift (Err (Error.Other "Unknown UUID"));
  node_uuids := [];
|}.

Definition inner_handle {W S N} `{Service W S} `{HandlerNode W N} (msg : MsgSendDirectReq2) :
    stM (HandlerNodeInner S N * W) Error.t MsgSendDirectResp2 := fun nw =>
  let '(n, w) := nw in
  if decide (svc_UUID (W := W) (S := S) = uuid (req_message msg)) then
    let '(r, (s', w')) := ffa_msg_send_direct_req2 msg (service n, w) in
    (r, (Inner s' (next n), w'))
  else
    let '(r, (n', w')) := handle msg (next n, w) in
    (r, (Inner (service n) n', w')).

#[export] Instance inner_node {W S N} `{Service W S} `{HandlerNode W N} :
    HandlerNode W (HandlerNodeInner S N) := {|
  handle := inner_handle;
  node_uuids := svc_UUID (W := W) (S := S) :: node_uuids (W := W) (N := N);
|}.

Definition handler_new : MessageHandler HandlerNodeTerminal := {| node := Terminal |}.

Definition append {S N} (self : MessageHandler N) (service : S) :
    MessageHandler (HandlerNodeInner S N) :=
  {| node := Inner service (node self) |}.

(** What a chain of services promises to the loop. *)
Class HandlerNodeLaws (W N : Type) `{HandlerNode W N} := {
  node_inv : N -> Prop;
  node_handled req n w : message_wf (req_message req) -> node_inv n ->
    handled (node_inv ∘ fst) req (handle (W := W) req (n, w));
  node_unknown req n w : uuid (req_message req) ∉ node_uuids (W := W) (N := N) ->
    handle (W := W) req (n, w) = (Err (Error.Other "Unknown UUID"), (n, w));
}.

(** ** The loop (lib.rs) *)

Section MsgLoop.
Context {W : Type} `{SmcEnv W}.

(** One round: the message that is answered, the message that comes back. *)
Definition msg_loop_round
    (handler : MsgSendDirectReq2 -> stM W Error.t MsgSendDirectResp2)
    (before_handle_message : MsgSendDirectReq2 -> stM W Error.t unit)
    (msg : SmcCall.t) : stM W Error.t SmcCall.t :=
  match try_from_smc_call msg : ffa_result MsgSendDirectReq2 with
  | Ok request =>
      _ ← before_handle_message request;
      r ← attempt (handler request);
      match r with
      | inl response => exec_resp2 response
      | inr e => exec_msg_wait
      end
  | Err _ => exec_msg_wait
  | Panic => lift Panic
  | NoFuel => lift NoFuel
  end.

(** [loop { .. }]: [fuel] rounds. *)
Fixpoint msg_loop_from handler before_handle_message (fuel : nat) (msg : SmcCall.t) :
    stM W Error.t unit :=
  match fuel with
  | O => lift NoFuel
  | S fuel =>
      msg ← msg_loop_round handler before_handle_message msg;
      msg_loop_from handler before_handle_message fuel msg
  end.

Definition msg_loop handler before_handle_message (fuel : nat) : stM W Error.t unit :=
  msg ← exec_msg_wait;
  msg_loop_from handler before_handle_message fuel msg.
End MsgLoop.

Definition run_message_loop {W N} `{SmcEnv W} `{HandlerNode W N} (fuel : nat) :
    stM (N * W) Error.t unit :=
  msg_loop handle (fun _ => mret tt) fuel.
End Loop.

(** ** HafEcService (lib.rs) *)

Inductive HafEcError : Type := HafEc_Ok | HafEc_InvalidParameters.

Record HafEcService : Type := {
  tx_buffer_base : Z; rx_buffer_base : Z; rxtx_page_count : Z;
}.

Definition haf_new : HafEcService :=
  {| tx_buffer_base := 0; rx_buffer_base := 0; rxtx_page_count := 0 |}.

Definition map_rxtx_buffers {W} `{SmcEnv W} (tx_base rx_base page_count : Z) :
    stM W Error.t HafEcError :=
  r ← attempt (RxTxMap.exec (RxTxMap.Build_t tx_base rx_base page_count));
  match r with
  | inl _ => mret HafEc_Ok
  | inr _ => mret HafEc_InvalidParameters
  end.

(** ** Lemmas *)

Lemma parse_ffa_request_ok size p :
  payload_wf p -> (1 + size <= PAYLOAD_LEN)%nat ->
  parse_ffa_request size p = Some (slice (payload_bytes p) 1 (1 + size)).
Proof.
  intros [Hl _] Hs. unfold parse_ffa_request, payload_get.
  rewrite get_slice_Some by lia. done.
Qed.

Section LoopLemmas.
Context `{UuidOps}.

#[export] Instance terminal_laws {W} : HandlerNodeLaws W HandlerNodeTerminal.
Proof. refine {| node_inv := fun _ => True |}; [intros; split; done|done]. Defined.

#[export] Instance inner_laws {W S N} `{!Service W S} `{!ServiceLaws W S}
    `{!HandlerNode W N} `{!HandlerNodeLaws W N} :
    HandlerNodeLaws W (HandlerNodeInner S N).
Proof.
  refine {| node_inv := fun n : HandlerNodeInner S N => svc_inv (service n) /\ node_inv (next n) |}.
  - intros req [s n] w Hreq [Hs Hn]. cbn. unfold inner_handle. case_decide as Hu.
    + pose proof (svc_handled req s w Hreq Hs) as Hh. cbn [service next].
      destruct (ffa_msg_send_direct_req2 req (s, w)) as [r [s' w']].
      destruct Hh as [Hi Hr]. by split; [split|].
    + pose proof (node_handled req n w Hreq Hn) as Hh. cbn [service next].
      destruct (handle req (n, w)) as [r [n' w']].
      destruct Hh as [Hi Hr]. by split; [split|].
  - intros req [s n] w Hu. cbn in Hu |- *. apply not_elem_of_cons in Hu as [Hs Hn].
    unfold inner_handle. rewrite decide_False by congruence. cbn [service next].
    by rewrite node_unknown by done.
Defined.

Lemma from_req_replies req p :
  payload_wf p -> replies_to req (from_req_with_payload req p).
Proof. intros. by split_and!. Qed.

(** A handler that always answers. *)
Lemma handled_ok {St} (inv : St -> Prop) req p st :
  payload_wf p -> inv st -> handled inv req (Ok (from_req_with_payload req p), st).
Proof. intros. split; [done|by apply from_req_replies]. Qed.

Lemma handled_err {St} (inv : St -> Prop) req e st : inv st -> handled inv req (Err e, st).
Proof. by split. Qed.

Lemma on_snd_handled {S W} (inv : S -> Prop) req (m : stM W Error.t MsgSendDirectResp2) s w :
  st_settles (replies_to req) m -> inv s -> handled (inv ∘ fst) req (on_snd m (s, w)).
Proof.
  intros Hm Hs. unfold on_snd. specialize (Hm w). cbn [fst snd].
  by destruct (m w) as [[]?].
Qed.
End LoopLemmas.

#[export] Hint Resolve from_req_replies handled_ok handled_err : odp.

(** An SMC whose answer is not a success, as [exec_simple] reports it. *)
Definition smc_failure {W} `{SmcEnv W} (e : Error.t) : Prop :=
  exists id p (w : W) r0 ps, (smc id p w).1 = r0 :: SmcParams.to_list ps /\
    simple_outcome r0 (SmcParams.x2 ps) (fun _ => Ok tt) = Err e.

(** A call the loop can be handed: 64-bit registers. *)
Definition call_wf (c : SmcCall.t) : Prop :=
  Forall (is_u 64) (SmcParams.to_list (SmcCall.params c)).

#[export] Instance pair_laws {S W} `{SmcEnvLaws W} : SmcEnvLaws (S * W).
Proof.
  split; intros id p [s w]; unfold smc at 1, pair_env; cbn [fst snd].
  - pose proof (smc_length id p w) as Hl. by destruct (smc id p w).
  - pose proof (smc_range id p w) as Hl. by destruct (smc id p w).
Qed.

Lemma pair_smc {S W} `{SmcEnv W} id p (s : S) (w : W) :
  smc id p (s, w) = ((smc id p w).1, (s, (smc id p w).2)).
Proof. unfold smc at 1, pair_env. cbn [fst snd]. by destruct (smc id p w). Qed.

(** A simple call either returns a well-formed call or reports the failure of
    its SMC. *)
Lemma exec_simple_call `{SmcEnvLaws W} {F} `{Function F} (f : F) p w :
  fn_try_into f = Ok p ->
  (exec_simple f Ok w).2 = (smc (discr (fn_ID (F := F))) p w).2 /\
  ((exists c, (exec_simple f Ok w).1 = Ok c /\ call_wf c) \/
   (exists e, (exec_simple f Ok w).1 = Err e /\ smc_failure (W := W) e)).
Proof.
  intros Hp.
  destruct (smc_result_parses (discr (fn_ID (F := F))) p w) as (r0 & ? & ps & Hr & <- & Hc).
  pose proof (smc_range (discr (fn_ID (F := F))) p w) as Hrange.
  rewrite Hr in Hrange. apply Forall_cons in Hrange as [_ Hrange].
  rewrite (exec_simple_unfold f p) by done. split; [done|]. cbn [fst]. rewrite Hc.
  assert ((f0 ← try_parse_function_id r0;
           handle_result_simple (SmcCall.mk f0 ps) Ok) =
          simple_outcome r0 (SmcParams.x2 ps) (fun id => Ok (SmcCall.mk id ps))) as Ho.
  { by apply simple_outcome_handle. }
  replace (_ ≫= _) with (simple_outcome r0 (SmcParams.x2 ps) (fun id => Ok (SmcCall.mk id ps)))
    by (rewrite <- Ho; by destruct (try_parse_function_id r0)).
  destruct (simple_outcome_cases r0 (SmcParams.x2 ps)) as [(id & Hok)|(e & He)].
  - left. exists (SmcCall.mk id ps). by rewrite Hok.
  - right. exists e. split; [apply He|].
    exists (discr (fn_ID (F := F))), p, w, r0, ps. by rewrite He.
Qed.

Lemma exec_msg_wait_world {N} `{SmcEnvLaws W} (n : N) (w : W) :
  (exec_msg_wait (n, w)).2 = (n, (smc (discr FunctionId.MsgWait) SmcParams.default w).2).
Proof.
  assert (fn_try_into MsgWait_new = Ok SmcParams.default) as Hp by done.
  destruct (exec_simple_call MsgWait_new SmcParams.default (n, w) Hp) as [Hs _].
  unfold exec_msg_wait. by rewrite Hs, pair_smc.
Qed.

Section Robustness.
Context `{UuidOps}.

Lemma direct_message_from_wf p :
  Forall (is_u 64) (SmcParams.to_list p) ->
  exists msg, direct_message_from_params p = Ok msg /\ message_wf msg.
Proof.
  intros Hp. unfold direct_message_from_params.
  destruct (registers_iter_of_words (E := Error.t) (drop 3 (SmcParams.to_list p)))
    as (pl & Hpl & _ & Hwf); [done|by apply Forall_drop|].
  rewrite Hpl. cbn [mbind outcome_bind]. eexists. split; [done|].
  split_and!; [apply trunc_range; lia|apply trunc_range; lia|done].
Qed.

Lemma request_of_call c :
  call_wf c ->
  (exists req, (try_from_smc_call c : ffa_result MsgSendDirectReq2) = Ok req /\
     message_wf (req_message req)) \/
  (try_from_smc_call c : ffa_result MsgSendDirectReq2)
    = Err (Error.UnexpectedFunctionId (SmcCall.id c)).
Proof.
  intros Hc. unfold try_from_smc_call. case_decide; [|by right]. left.
  destruct (direct_message_from_wf _ Hc) as (msg & Hmsg & Hwf).
  exists {| req_message := msg |}. unfold fn_try_from, req2_from_params. rewrite Hmsg. split; [reflexivity|exact Hwf].
Qed.

Lemma replies_wf req resp :
  message_wf (req_message req) -> replies_to req resp -> message_wf (resp_message resp).
Proof.
  intros (Hs & Hd & _) (Hs' & Hd' & _ & Hp). unfold message_wf. rewrite Hs', Hd'. done.
Qed.

Lemma resp_params resp :
  message_wf (resp_message resp) ->
  exists p, fn_try_into resp = Ok p /\ direct_message_into_params (resp_message resp) = Ok p.
Proof. intros Hwf. destruct (direct_message_into_ok _ Hwf) as (p & Hp & _). eauto. Qed.

Section Node.
Context {W N} `{!SmcEnv W} `{!SmcEnvLaws W} `{!HandlerNode W N} `{!HandlerNodeLaws W N}.

(** The ways a step of the loop can end. *)
Definition step_ok {A} (good : A -> Prop) (r : outcome Error.t A * (N * W)) : Prop :=
  node_inv (W := W) r.2.1 /\
  ((exists a, r.1 = Ok a /\ good a) \/
   (exists e, r.1 = Err e /\ smc_failure (W := N * W) e)).

Lemma exec_simple_step {F} `{Function F} (f : F) p n (w : W) :
  fn_try_into f = Ok p -> node_inv (W := W) n ->
  step_ok call_wf (exec_simple f Ok (n, w)).
Proof.
  intros Hp Hn. destruct (exec_simple_call f p (n, w) Hp) as [Hst Hr].
  split; [by rewrite Hst, pair_smc|done].
Qed.

Lemma exec_msg_wait_step n (w : W) :
  node_inv (W := W) n -> step_ok call_wf (exec_msg_wait (n, w)).
Proof. intros. by apply (exec_simple_step MsgWait_new SmcParams.default). Qed.

Lemma msg_loop_round_step msg n (w : W) :
  call_wf msg -> node_inv (W := W) n ->
  step_ok call_wf (msg_loop_round handle (fun _ => mret tt) msg (n, w)).
Proof.
  intros Hmsg Hn. unfold msg_loop_round.
  destruct (request_of_call msg Hmsg) as [(req & -> & Hreq)|Hnot];
    [|rewrite Hnot; by apply exec_msg_wait_step].
  unfold mbind, stM_bind, attempt, mret, stM_ret.
  pose proof (node_handled req n w Hreq Hn) as [Hi Hr].
  destruct (handle req (n, w)) as [r [n' w']]. cbn in Hi, Hr.
  destruct r as [resp|e| |]; [| |done|done]; [|by apply exec_msg_wait_step].
  destruct (resp_params resp) as (p & Hp & _); [by eapply replies_wf|].
  by apply (exec_simple_step resp p).
Qed.

Lemma msg_loop_from_step fuel msg n (w : W) :
  call_wf msg -> node_inv (W := W) n ->
  let r := msg_loop_from handle (fun _ => mret tt) fuel msg (n, w) in
  r.1 = NoFuel \/ step_ok (fun _ => False) r.
Proof.
  revert msg n w. induction fuel as [|fuel IH]; intros msg n w Hmsg Hn; [by left|].
  cbn [msg_loop_from]. unfold mbind, stM_bind.
  destruct (msg_loop_round_step msg n w Hmsg Hn) as [Hi Hr].
  destruct (msg_loop_round _ _ msg (n, w)) as [r [n' w']]. cbn [fst snd] in Hi, Hr.
  destruct Hr as [(c & -> & Hc)|(e & -> & He)]; [by apply IH|].
  right. split; [done|right]. eauto.
Qed.

(** The loop runs on or ends with the failure of one of its own calls. *)
Lemma run_message_loop_ends fuel n (w : W) :
  node_inv (W := W) n ->
  (run_message_loop fuel (n, w)).1 = NoFuel \/
  exists e, (run_message_loop fuel (n, w)).1 = Err e /\ smc_failure (W := N * W) e /\
    node_inv (W := W) (run_message_loop fuel (n, w)).2.1.
Proof.
  intros Hn. unfold run_message_loop, msg_loop, mbind, stM_bind.
  destruct (exec_msg_wait_step n w Hn) as [Hi Hr].
  destruct (exec_msg_wait (n, w)) as [r [n' w']]. cbn [fst snd] in Hi, Hr.
  destruct Hr as [(c & -> & Hc)|(e & -> & He)]; [|right; eauto].
  destruct (msg_loop_from_step fuel c n' w' Hc Hi) as [?|[Hi' [(? & _ & [])|(e & He & Hf)]]];
    [by left|right]. eauto.
Qed.
End Node.
End Robustness.

(** ** A concrete chain

    The mock service of the tests of message_handler.rs: it echoes the first
    register and adds a marker. *)
Inductive MockServiceA : Type := MockA.

#[export] Instance mock_a {W} : Service (H := uuid_model) W MockServiceA := {|
  svc_UUID := uuid_lit (UuidOps := uuid_model) 0xaaaaaaaaaaaaaaaaaaaaaaaaaaaaaaaa;
  svc_NAME := "MockA";
  ffa_msg_send_direct_req2 msg :=
    input ← lift (register_at (req_payload (H := uuid_model) msg) 0);
    payload ← lift (payload_from_iter (concat (to_le_bytes 8 <$> [input; 0xAA])));
    mret (from_req_with_payload (H := uuid_model) msg payload);
|}.

#[export] Instance mock_a_laws {W} : ServiceLaws (H := uuid_model) W MockServiceA.
Proof.
  refine {| svc_inv := fun _ : MockServiceA => True |}. intros req s w Hreq _.
  cbn [ffa_msg_send_direct_req2 mock_a]. unfold mbind, stM_bind, lift, mret, stM_ret.
  destruct (register_at_ok (E := Error.t) (req_payload (H := uuid_model) req) 0)
    as (v & -> & Hv); [apply Hreq|lia|].
  rewrite payload_from_iter_ok by (vm_compute; lia).
  apply handled_ok; [|done]. eapply (payload_from_iter_wf (E := Error.t));
    [|apply payload_from_iter_ok; vm_compute; lia].
  cbn [fmap list_fmap concat]. apply Forall_app. split; [auto with odp|].
  apply Forall_app. auto with odp.
Defined.

Definition mock_chain : MessageHandler (HandlerNodeInner MockServiceA HandlerNodeTerminal) :=
  append handler_new MockA.

(** A request for [MockA] whose first register is 42, and one for no service,
    as the hypervisor hands them over. *)
Definition mock_request : list Z :=
  [0xC400008D; 0x00018001; 0xaaaaaaaaaaaaaaaa; 0xaaaaaaaaaaaaaaaa; 42].
Definition unknown_request : list Z :=
  [0xC400008D; 0x00018001; 0xcccccccccccccccc; 0xcccccccccccccccc; 42].

Definition mock_call : SmcCall.t :=
  SmcCall.mk FunctionId.MsgSendDirectReq2
    (SmcParams.mk 0x00018001 0xaaaaaaaaaaaaaaaa 0xaaaaaaaaaaaaaaaa 42 0 0 0 0 0 0 0 0 0 0 0 0 0).

Lemma mock_call_wf : call_wf mock_call.
Proof. apply (bool_decide_unpack _). vm_compute. exact I. Qed.

(** A service of the chain answers the call. *)
Definition answered (c : SmcCall.t) : bool :=
  match try_from_smc_call c : ffa_result (MsgSendDirectReq2 (H := uuid_model)) with
  | Ok req => is_ok (handle (W := Script) req (node mock_chain, [])).1
  | _ => false
  end.

Lemma mock_answered : answered mock_call = true.
Proof. vm_compute. reflexivity. Qed.

Lemma mock_chain_inv : node_inv (H := uuid_model) (W := Script) (node mock_chain).
Proof. split; exact I. Qed.

(** ** Properties *)

(** C10: The message loop is robust: over any chain of services that keep their
    promises, and whatever the hypervisor answers, it never panics and never
    returns [Ok]; a request that no service knows, a message that is not a
    request and a service that answers with an error all keep it running.  It
    stops only with the error of a failed SMC of its own. *)
Theorem message_loop_robust `{UuidOps} {W N} `{!SmcEnv W} `{!SmcEnvLaws W}
    `{!HandlerNode W N} `{!HandlerNodeLaws W N} fuel n (w : W) :
  node_inv (W := W) n ->
  (run_message_loop fuel (n, w)).1 = NoFuel \/
  exists e, (run_message_loop fuel (n, w)).1 = Err e /\ smc_failure (W := N * W) e /\
    node_inv (W := W) (run_message_loop fuel (n, w)).2.1.
Proof. apply run_message_loop_ends. Qed.

(** C16: One round, seen from the hypervisor: a direct request that a service
    answers is followed by exactly one [FFA_MSG_SEND_DIRECT_RESP2], whose
    registers decode to the service's reply to that request; everything else
    (an unknown service, a failing service, a message that is not a request)
    is followed by [FFA_MSG_WAIT]. *)
Theorem msg_loop_round_answers `{UuidLaws} {W N} `{!SmcEnv W} `{!SmcEnvLaws W}
    `{!HandlerNode W N} `{!HandlerNodeLaws W N} msg n (w : W) :
  call_wf msg -> node_inv (W := W) n ->
  (exists req resp p n' w',
     (try_from_smc_call msg : ffa_result MsgSendDirectReq2) = Ok req /\
     handle (W := W) req (n, w) = (Ok resp, (n', w')) /\ replies_to req resp /\
     direct_message_from_params p = Ok (resp_message resp) /\
     (msg_loop_round handle (fun _ => mret tt) msg (n, w)).2 =
       (n', (smc (discr FunctionId.MsgSendDirectResp2) p w').2)) \/
  (exists n' w',
     ((exists req e, (try_from_smc_call msg : ffa_result MsgSendDirectReq2) = Ok req /\
         handle (W := W) req (n, w) = (Err e, (n', w'))) \/
      (SmcCall.id msg <> FunctionId.MsgSendDirectReq2 /\ (n', w') = (n, w))) /\
     (msg_loop_round handle (fun _ => mret tt) msg (n, w)).2 =
       (n', (smc (discr FunctionId.MsgWait) SmcParams.default w').2)).
Proof.
  intros Hmsg Hn. unfold msg_loop_round.
  destruct (request_of_call msg Hmsg) as [(req & Hreq & Hwf)|Hreq]; rewrite Hreq.
  - unfold mbind, stM_bind, attempt, mret, stM_ret.
    pose proof (node_handled req n w Hwf Hn) as [Hi Hr].
    destruct (handle req (n, w)) as [r [n' w']] eqn:Hh. cbn [fst snd] in Hi, Hr.
    destruct r as [resp|e| |]; [| |done|done].
    + left. assert (message_wf (resp_message resp)) as Hrwf by (by eapply replies_wf).
      destruct (resp_params resp Hrwf) as (p & Hp & Hp').
      exists req, resp, p, n', w'. split_and!; try done; try apply Hr.
      * by apply direct_message_from_into.
      * unfold exec_resp2. destruct (exec_simple_call resp p (n', w') Hp) as [-> _].
        by rewrite pair_smc.
    + right. exists n', w'. split; [left; eauto|].
      apply exec_msg_wait_world.
  - right. exists n, w. split.
    + right. split; [|done]. intros Hid. unfold try_from_smc_call in Hreq.
      rewrite decide_True in Hreq by done.
      destruct (direct_message_from_wf _ Hmsg) as (m & Hm & _).
      unfold fn_try_from, req2_from_params in Hreq. rewrite Hm in Hreq. discriminate Hreq.
    + apply exec_msg_wait_world.
Qed.

Lemma message_loop_robust_witness :
  (run_message_loop (H := uuid_model) (W := Script) 4
     (node mock_chain, [mock_request; unknown_request; [0x84000061]; [0x84000060; 0; 0xfffffffffffffffa]])).1
  = Err (Error.ErrorCode ErrorCode.Denied) /\
  exists e, Err e = Err (E := Error.t) (A := unit) (Error.ErrorCode ErrorCode.Denied) /\
    smc_failure (W := HandlerNodeInner MockServiceA HandlerNodeTerminal * Script) e.
Proof.
  split; [vm_compute; reflexivity|].
  destruct (message_loop_robust (H := uuid_model) (W := Script) 4 (node mock_chain)
    [mock_request; unknown_request; [0x84000061]; [0x84000060; 0; 0xfffffffffffffffa]]
    mock_chain_inv) as [Hn|(e & He & Hf & _)]; [vm_compute in Hn; discriminate|].
  exists e. split; [|exact Hf]. vm_compute in He. exact (eq_sym He).
Defined.

Lemma msg_loop_round_answers_witness :
  exists p w', SmcCall.try_from (script_regs mock_request) = Ok mock_call /\
    (msg_loop_round (handle (H := uuid_model) (W := Script)) (fun _ => mret tt) mock_call
       (node mock_chain, [])).2
      = (node mock_chain, (smc (discr FunctionId.MsgSendDirectResp2) p w').2).
Proof.
  destruct (msg_loop_round_answers (H := uuid_model) (W := Script) mock_call (node mock_chain) []
    mock_call_wf mock_chain_inv)
    as [(req & resp & p & n' & w' & _ & Hh & _ & _ & Hw)|(n' & w' & [(req & e & Hq & Hh)|[Hid _]] & _)].
  - exists p, w'. split; [vm_compute; reflexivity|]. destruct n' as [[] []]. exact Hw.
  - exfalso. pose proof mock_answered as Ha. unfold answered in Ha.
    rewrite Hq in Ha. apply (f_equal (fun r => is_ok r.1)) in Hh.
    exact (Bool.diff_true_false (eq_trans (eq_sym Ha) Hh)).
  - exfalso. apply Hid. reflexivity.
Defined.
