(* ===== verification/Notify.v ===== *)
(** The notification service ([ec-service-lib/src/services/notify.rs]).

    [Notify] holds up to 16 service entries of 64 mappings each and a bitmap of
    the notification ids in use.  A request carries up to seven
    (cookie, id, type) tuples; the handlers work on copies of the tables and
    write them back when every tuple was accepted.  A loop that returns early
    with a status is a loop in [outcome ErrorCode.t]; [Panic] is an index out of
    range, a failed [unwrap] or an oversized shift. *)
From Stdlib Require Import ZArith Lia.
From S2P Require Import Prelude FfaCore FfaMsg MsgLoop.
#[local] Open Scope Z_scope.

Definition NOTIFY_MAX_SERVICES : nat := 16.
Definition NOTIFY_MAX_MAPPINGS : nat := 64.
Definition NOTIFY_MAX_TUPLES_PER_REQ : nat := 7.
Definition MESSAGE_INFO_DIR_RESP : Z := 0x100.
Definition NOTIFY_COUNT_REG : nat := 6.
Definition NOTIFY_TUPLE_BASE_REG : nat := 7.
Definition NOTIFY_COUNT_MASK : Z := 0x1ff.
Definition NOTIFY_COOKIE_SHIFT : Z := 32.
Definition NOTIFY_ID_SHIFT : Z := 23.
Definition NOTIFY_ID_MASK : Z := 0x1ff.
Definition NOTIFY_TYPE_PER_VCPU_BIT : Z := 0x1.

Module MessageID.
Inductive t : Type := Add | Remove | Setup | Destroy | Assign | Unassign.

#[export] Instance eq_dec : EqDecision t.
Proof. solve_decision. Defined.

#[export] Instance enum : PrimEnum t := {|
  discr m := match m with
    | Add => 0 | Remove => 1 | Setup => 2 | Destroy => 3 | Assign => 4 | Unassign => 5 end;
  variants := [Add; Remove; Setup; Destroy; Assign; Unassign];
|}.
End MessageID.
Export (hints) MessageID.

Module NotifyType.
Inductive t : Type := Global_ | PerVcpu.

#[export] Instance eq_dec : EqDecision t.
Proof. solve_decision. Defined.
End NotifyType.
Export (hints) NotifyType.

(** (cookie, id, type) *)
Abbreviation tuple := (Z * Z * NotifyType.t)%type.

Definition extract_tuple (value : Z) : tuple :=
  let cookie := trunc 32 (Z.shiftr value NOTIFY_COOKIE_SHIFT) in
  let id := trunc 16 (Z.land (Z.shiftr value NOTIFY_ID_SHIFT) NOTIFY_ID_MASK) in
  let ntype := if decide (Z.land value NOTIFY_TYPE_PER_VCPU_BIT <> 0)
               then NotifyType.PerVcpu else NotifyType.Global_ in
  (cookie, id, ntype).

(** [MessageInfo::message_id]: bits 0 to 2. *)
Definition message_id (msg_info : Z) : option MessageID.t :=
  try_from_primitive (trunc 8 (Z.land msg_info 7)).

Record NfyMapping : Type := mkMapping {
  cookie : Z; id : Z; ntype : NotifyType.t; map_src_id : Z; map_in_use : bool;
}.

#[export] Instance mapping_eq_dec : EqDecision NfyMapping.
Proof. solve_decision. Defined.

Definition mapping_default : NfyMapping := mkMapping 0 0 NotifyType.Global_ 0 false.

Definition nfy_bitmask (id : Z) : option Z :=
  if decide (id < 64) then Some (Z.shiftl 1 id) else None.

Section Notify.
Context `{UuidOps}.

Record NotifyReq : Type := mkReq {
  src_id : Z;
  sender_uuid : Uuid;
  receiver_uuid : Uuid;
  msg_info : Z;
  count : Z;
  notifications : list tuple;
}.

(** [From<MsgSendDirectReq2> for NotifyReq] *)
Definition notify_req_from (msg : MsgSendDirectReq2) : outcome Error.t NotifyReq :=
  let payload := req_payload msg in
  let reg i := register_at payload i in
  r1 ← reg 1%nat; r2 ← reg 2%nat; r3 ← reg 3%nat; r4 ← reg 4%nat;
  msg_info ← reg 5%nat;
  c ← reg NOTIFY_COUNT_REG;
  let count := Z.min (Z.land c NOTIFY_COUNT_MASK) (Z.of_nat NOTIFY_MAX_TUPLES_PER_REQ) in
  tuples ← mapM (fun i => v ← reg (NOTIFY_TUPLE_BASE_REG + i)%nat; Ok (extract_tuple v))
             (seq 0 (Z.to_nat count));
  Ok {| src_id := source_id (req_message msg);
        sender_uuid := from_u128_le (Z.lor (Z.shiftl r2 64) r1);
        receiver_uuid := from_u128_le (Z.lor (Z.shiftl r4 64) r3);
        msg_info := msg_info; count := count;
        notifications := tuples ++
          replicate (NOTIFY_MAX_TUPLES_PER_REQ - Z.to_nat count) (0, 0, NotifyType.Global_) |}.

(** [req.notifications.iter().take(req.count as usize)] *)
Definition req_tuples (req : NotifyReq) : list tuple :=
  take (Z.to_nat (count req)) (notifications req).

Record NfySetupRsp : Type := mkRsp {
  rsp_reserved : Z;
  rsp_sender_uuid : Uuid;
  rsp_receiver_uuid : Uuid;
  rsp_msg_info : Z;
  rsp_status : ErrorCode.t;
}.

#[export] Instance rsp_eq_dec : EqDecision NfySetupRsp.
Proof. solve_decision. Defined.

(** [From<NfySetupRsp> for DirectMessagePayload] *)
Definition rsp_payload_regs (rsp : NfySetupRsp) : list Z :=
  [rsp_reserved rsp;
   (as_u64_pair (rsp_sender_uuid rsp)).1; (as_u64_pair (rsp_sender_uuid rsp)).2;
   (as_u64_pair (rsp_receiver_uuid rsp)).1; (as_u64_pair (rsp_receiver_uuid rsp)).2;
   rsp_msg_info rsp; trunc 64 (discr (rsp_status rsp))].

Definition rsp_payload (rsp : NfySetupRsp) : outcome Error.t DirectMessagePayload :=
  payload_from_iter (concat (to_le_bytes 8 <$> rsp_payload_regs rsp)).

Definition respond (msg_id : MessageID.t) (req : NotifyReq) (status : ErrorCode.t) : NfySetupRsp :=
  {| rsp_reserved := 0; rsp_sender_uuid := sender_uuid req;
     rsp_receiver_uuid := receiver_uuid req;
     rsp_msg_info := MESSAGE_INFO_DIR_RESP + discr msg_id; rsp_status := status |}.

(** ** The tables *)

Record NfyEntry : Type := mkEntry {
  service_uuid : Uuid;
  entry_in_use : bool;
  mappings : list NfyMapping;
}.

#[export] Instance entry_eq_dec : EqDecision NfyEntry.
Proof. solve_decision. Defined.

Definition entry_default : NfyEntry :=
  mkEntry uuid_nil false (replicate NOTIFY_MAX_MAPPINGS mapping_default).

Record Notify : Type := mkNotify { entries : list NfyEntry; global_bitmap : Z }.

#[export] Instance notify_eq_dec : EqDecision Notify.
Proof. solve_decision. Defined.

Definition notify_new : Notify := mkNotify (replicate NOTIFY_MAX_SERVICES entry_default) 0.

Definition nfy_find_entry (self : Notify) (uuid : Uuid) : option nat :=
  position (fun entry => service_uuid entry = uuid /\ entry_in_use entry = true) (entries self).

Definition nfy_find_empty_slot (self : Notify) : option nat :=
  position (fun entry => entry_in_use entry = false) (entries self).

Definition find_or_create_entry (self : Notify) (uuid : Uuid) : option nat * Notify :=
  match nfy_find_entry self uuid with
  | Some index => (Some index, self)
  | None =>
      match nfy_find_empty_slot self with
      | None => (None, self)
      | Some empty =>
          (Some empty,
           mkNotify (<[empty := mkEntry uuid true (replicate NOTIFY_MAX_MAPPINGS mapping_default)]>
                       (entries self)) (global_bitmap self))
      end
  end.

(** A mapping that serves [c]. *)
Definition matches (c : Z) (m : NfyMapping) : Prop := map_in_use m = true /\ cookie m = c.

#[export] Instance matches_dec c m : Decision (matches c m).
Proof. unfold matches. apply _. Defined.

Definition nfy_find_matching_cookie (es : list NfyEntry) (entry_index : nat) (c : Z) :
    outcome ErrorCode.t (option nat) :=
  if decide (NOTIFY_MAX_SERVICES <= entry_index)%nat then Ok None
  else
    entry ← or_panic (es !! entry_index);
    Ok (position (matches c) (mappings entry)).

(** [entries[i].mappings[j]], read and written. *)
Definition get_mapping {E} (es : list NfyEntry) (i j : nat) : outcome E NfyMapping :=
  entry ← or_panic (es !! i);
  or_panic (mappings entry !! j).

Definition set_mapping (es : list NfyEntry) (i j : nat) (m : NfyMapping) : list NfyEntry :=
  alter (fun e => mkEntry (service_uuid e) (entry_in_use e) (<[j := m]> (mappings e))) i es.

(** The tables that a handler works on. *)
Definition Tables : Type := list NfyEntry * Z.

Definition tables (self : Notify) : Tables := (entries self, global_bitmap self).
Definition of_tables (t : Tables) : Notify := mkNotify t.1 t.2.

(** [self.entries] stays as it was while the copies [temp] change. *)
Definition register_tuple (self : list NfyEntry) (entry_index : nat) (src : Z) (t : tuple)
    (temp : Tables) : outcome ErrorCode.t Tables :=
  let '(c, i, ty) := t in
  let '(temp_entries, temp_bitmask) := temp in
  found ← nfy_find_matching_cookie self entry_index c;
  match found with
  | Some _ => Err ErrorCode.InvalidParameters
  | None =>
      match nfy_bitmask i with
      | None => Err ErrorCode.InvalidParameters
      | Some bit =>
          if decide (Z.land temp_bitmask bit <> 0) then Err ErrorCode.InvalidParameters
          else
            entry ← or_panic (temp_entries !! entry_index);
            match position (fun m => map_in_use m = false) (mappings entry) with
            | None => Err ErrorCode.NoMemory
            | Some j =>
                Ok (set_mapping temp_entries entry_index j (mkMapping c i ty src true),
                    Z.lor temp_bitmask bit)
            end
      end
  end.

Definition unregister_tuple (self : list NfyEntry) (entry_index : nat) (src : Z) (t : tuple)
    (temp : Tables) : outcome ErrorCode.t Tables :=
  let '(c, i, ty) := t in
  let '(temp_entries, temp_bitmask) := temp in
  found ← nfy_find_matching_cookie self entry_index c;
  match found with
  | None => Err ErrorCode.InvalidParameters
  | Some j =>
      m ← get_mapping temp_entries entry_index j;
      if decide (id m <> i) then Err ErrorCode.InvalidParameters
      else if decide (ntype m <> ty) then Err ErrorCode.InvalidParameters
      else if decide (map_src_id m <> src) then Err ErrorCode.InvalidParameters
      else
        bit ← or_panic (nfy_bitmask (id m));
        Ok (set_mapping temp_entries entry_index j mapping_default,
            Z.land temp_bitmask (unot 64 bit))
  end.

(** The validation pass of [nfy_assign] on the simulated bitmap. *)
Definition assign_check (self : list NfyEntry) (entry_index : nat) (t : tuple)
    (sim_bitmap : Z) : outcome ErrorCode.t Z :=
  let '(c, i, _) := t in
  found ← nfy_find_matching_cookie self entry_index c;
  match found with
  | None => Err ErrorCode.InvalidParameters
  | Some j =>
      m ← get_mapping self entry_index j;
      let sim_bitmap :=
        match nfy_bitmask (id m) with
        | Some old_bit => Z.land sim_bitmap (unot 64 old_bit)
        | None => sim_bitmap
        end in
      match nfy_bitmask i with
      | None => Err ErrorCode.InvalidParameters
      | Some new_bit =>
          if decide (Z.land sim_bitmap new_bit <> 0) then Err ErrorCode.InvalidParameters
          else Ok (Z.lor sim_bitmap new_bit)
      end
  end.

(** The mutation pass of [nfy_assign]; the lookup is unwrapped. *)
Definition assign_apply (entry_index : nat) (t : tuple) (es : list NfyEntry) :
    outcome ErrorCode.t (list NfyEntry) :=
  let '(c, i, ty) := t in
  found ← nfy_find_matching_cookie es entry_index c;
  j ← or_panic found;
  m ← get_mapping es entry_index j;
  Ok (set_mapping es entry_index j (mkMapping (cookie m) i ty (map_src_id m) (map_in_use m))).

Definition unassign_check (self : list NfyEntry) (entry_index : nat) (t : tuple) (_ : unit) :
    outcome ErrorCode.t unit :=
  let '(c, _, _) := t in
  found ← nfy_find_matching_cookie self entry_index c;
  match found with None => Err ErrorCode.InvalidParameters | Some _ => Ok tt end.

Definition unassign_apply (entry_index : nat) (t : tuple) (temp : Tables) :
    outcome ErrorCode.t Tables :=
  let '(c, _, _) := t in
  let '(es, bitmap) := temp in
  found ← nfy_find_matching_cookie es entry_index c;
  j ← or_panic found;
  m ← get_mapping es entry_index j;
  let bitmap :=
    match nfy_bitmask (id m) with
    | Some bit => Z.land bitmap (unot 64 bit)
    | None => bitmap
    end in
  Ok (set_mapping es entry_index j
        (mkMapping (cookie m) 0 NotifyType.Global_ (map_src_id m) (map_in_use m)), bitmap).

(** A [for] loop over the tuples that may return early. *)
Fixpoint for_each {S} (body : tuple -> S -> outcome ErrorCode.t S) (ts : list tuple) (s : S) :
    outcome ErrorCode.t S :=
  match ts with
  | [] => Ok s
  | t :: ts => s ← body t s; for_each body ts s
  end.

(** The tables are written back only when the loops ran to the end. *)
Definition commit (self : Notify) (r : outcome ErrorCode.t Tables) :
    outcome Error.t (ErrorCode.t * Notify) :=
  match r with
  | Ok t => Ok (ErrorCode.Ok, of_tables t)
  | Err c => Ok (c, self)
  | Panic => Panic
  | NoFuel => NoFuel
  end.

Definition nfy_register_mapping (self : Notify) (entry_index : nat) (req : NotifyReq) :
    outcome Error.t (ErrorCode.t * Notify) :=
  if decide (NOTIFY_MAX_SERVICES <= entry_index)%nat
  then Ok (ErrorCode.InvalidParameters, self)
  else commit self
    (for_each (register_tuple (entries self) entry_index (src_id req)) (req_tuples req)
       (tables self)).

Definition nfy_unregister_mapping (self : Notify) (entry_index : nat) (req : NotifyReq) :
    outcome Error.t (ErrorCode.t * Notify) :=
  if decide (NOTIFY_MAX_SERVICES <= entry_index)%nat
  then Ok (ErrorCode.InvalidParameters, self)
  else commit self
    (for_each (unregister_tuple (entries self) entry_index (src_id req)) (req_tuples req)
       (tables self)).

(** [!(1..=NOTIFY_MAX_TUPLES_PER_REQ as u8).contains(&req.count)] *)
Definition count_ok (req : NotifyReq) : bool :=
  bool_decide (1 <= count req <= Z.of_nat NOTIFY_MAX_TUPLES_PER_REQ).

(** The common body of [nfy_setup] and [nfy_add]. *)
Definition register_request (msg_id : MessageID.t) (self : Notify) (req : NotifyReq) :
    outcome Error.t (NfySetupRsp * Notify) :=
  if negb (count_ok req) then Ok (respond msg_id req ErrorCode.InvalidParameters, self)
  else
    match find_or_create_entry self (receiver_uuid req) with
    | (None, self) => Ok (respond msg_id req ErrorCode.NoMemory, self)
    | (Some entry_index, self) =>
        '(res, self) ← nfy_register_mapping self entry_index req;
        Ok (respond msg_id req res, self)
    end.

Definition nfy_setup := register_request MessageID.Setup.
Definition nfy_add := register_request MessageID.Add.

(** The common body of [nfy_destroy] and [nfy_remove]. *)
Definition unregister_request (msg_id : MessageID.t) (self : Notify) (req : NotifyReq) :
    outcome Error.t (NfySetupRsp * Notify) :=
  match nfy_find_entry self (receiver_uuid req) with
  | None => Ok (respond msg_id req ErrorCode.InvalidParameters, self)
  | Some entry_index =>
      '(res, self) ← nfy_unregister_mapping self entry_index req;
      Ok (respond msg_id req res, self)
  end.

Definition nfy_destroy := unregister_request MessageID.Destroy.
Definition nfy_remove := unregister_request MessageID.Remove.

Definition nfy_assign (self : Notify) (req : NotifyReq) :
    outcome Error.t (NfySetupRsp * Notify) :=
  match nfy_find_entry self (receiver_uuid req) with
  | None => Ok (respond MessageID.Assign req ErrorCode.InvalidParameters, self)
  | Some entry_index =>
      '(res, self) ← commit self
        (sim_bitmap ← for_each (assign_check (entries self) entry_index) (req_tuples req)
                        (global_bitmap self);
         es ← for_each (assign_apply entry_index) (req_tuples req) (entries self);
         Ok (es, sim_bitmap));
      Ok (respond MessageID.Assign req res, self)
  end.

Definition nfy_unassign (self : Notify) (req : NotifyReq) :
    outcome Error.t (NfySetupRsp * Notify) :=
  match nfy_find_entry self (receiver_uuid req) with
  | None => Ok (respond MessageID.Unassign req ErrorCode.InvalidParameters, self)
  | Some entry_index =>
      '(res, self) ← commit self
        (_ ← for_each (unassign_check (entries self) entry_index) (req_tuples req) tt;
         for_each (unassign_apply entry_index) (req_tuples req) (tables self));
      Ok (respond MessageID.Unassign req res, self)
  end.

Definition notify_dispatch (m : MessageID.t) (self : Notify) (req : NotifyReq) :
    outcome Error.t (NfySetupRsp * Notify) :=
  match m with
  | MessageID.Setup => nfy_setup self req
  | MessageID.Destroy => nfy_destroy self req
  | MessageID.Add => nfy_add self req
  | MessageID.Remove => nfy_remove self req
  | MessageID.Assign => nfy_assign self req
  | MessageID.Unassign => nfy_unassign self req
  end.

Definition notify_handle {W} (msg : MsgSendDirectReq2) :
    stM (Notify * W) Error.t MsgSendDirectResp2 := fun nw =>
  let '(self, w) := nw in
  match notify_req_from msg with
  | Ok req =>
      match message_id (msg_info req) with
      | None => (Err (Error.Other "Invalid notify message ID"), (self, w))
      | Some m =>
          match notify_dispatch m self req with
          | Ok (rsp, self) =>
              (payload ← rsp_payload rsp; Ok (from_req_with_payload msg payload), (self, w))
          | Err e => (Err e, (self, w))
          | Panic => (Panic, (self, w))
          | NoFuel => (NoFuel, (self, w))
          end
      end
  | Err e => (Err e, (self, w))
  | Panic => (Panic, (self, w))
  | NoFuel => (NoFuel, (self, w))
  end.

#[export] Instance notify_service {W} : Service W Notify := {|
  svc_UUID := uuid_lit 0xe474d87e57314044a727cb3e8cf3c8df;
  svc_NAME := "Notify";
  ffa_msg_send_direct_req2 := notify_handle;
|}.
End Notify.

(** ** Well-formedness *)

Definition mapping_wf (m : NfyMapping) : Prop :=
  is_u 32 (cookie m) /\ 0 <= id m < 64 /\ is_u 16 (map_src_id m).

Definition tuple_wf (t : tuple) : Prop :=
  let '(c, i, _) := t in is_u 32 c /\ is_u 16 i.

Section WellFormed.
Context `{UuidOps}.
Implicit Types (es : list NfyEntry) (e : NfyEntry) (m : NfyMapping).

Definition entry_wf (e : NfyEntry) : Prop :=
  length (mappings e) = NOTIFY_MAX_MAPPINGS /\ Forall mapping_wf (mappings e) /\
  (entry_in_use e = false -> Forall (fun m => map_in_use m = false) (mappings e)).

Definition tables_wf (t : Tables) : Prop :=
  length t.1 = NOTIFY_MAX_SERVICES /\ Forall entry_wf t.1 /\ is_u 64 t.2.

Definition notify_wf (n : Notify) : Prop := tables_wf (tables n).

Definition req_wf (req : NotifyReq) : Prop :=
  is_u 16 (src_id req) /\ Forall tuple_wf (req_tuples req) /\
  0 <= count req <= Z.of_nat NOTIFY_MAX_TUPLES_PER_REQ /\
  length (req_tuples req) = Z.to_nat (count req).

Lemma nfy_bitmask_Some i bit :
  nfy_bitmask i = Some bit <-> i < 64 /\ bit = Z.shiftl 1 i.
Proof.
  unfold nfy_bitmask. case_decide; split.
  - by intros [= <-].
  - by intros [_ ->].
  - done.
  - by intros [? _].
Qed.

Lemma mapping_default_wf : mapping_wf mapping_default.
Proof. split_and!; done. Qed.

Lemma fresh_entry_wf u b : entry_wf (mkEntry u b (replicate NOTIFY_MAX_MAPPINGS mapping_default)).
Proof.
  split_and!; cbn [mappings].
  - apply length_replicate.
  - apply Forall_replicate, mapping_default_wf.
  - intros _. by apply Forall_replicate.
Qed.

(** *** Single accesses *)

Lemma entry_lookup es i :
  length es = NOTIFY_MAX_SERVICES -> (i < NOTIFY_MAX_SERVICES)%nat -> exists e, es !! i = Some e.
Proof. intros Hl Hi. apply lookup_lt_is_Some_2. by rewrite Hl. Qed.

Lemma find_cookie_eq es i c e :
  (i < NOTIFY_MAX_SERVICES)%nat -> es !! i = Some e ->
  nfy_find_matching_cookie es i c = Ok (position (matches c) (mappings e)).
Proof.
  intros Hi He. unfold nfy_find_matching_cookie. rewrite decide_False by lia. by rewrite He.
Qed.

Lemma get_mapping_eq {E} es i j e :
  es !! i = Some e -> @get_mapping _ E es i j = or_panic (mappings e !! j).
Proof. intros He. unfold get_mapping. by rewrite He. Qed.

Lemma set_mapping_lookup es i j m e :
  es !! i = Some e ->
  set_mapping es i j m !! i =
    Some (mkEntry (service_uuid e) (entry_in_use e) (<[j := m]> (mappings e))).
Proof. intros He. unfold set_mapping. by rewrite list_lookup_alter_eq, He. Qed.

Lemma set_mapping_lookup_ne es i j m i' :
  i <> i' -> set_mapping es i j m !! i' = es !! i'.
Proof. intros. unfold set_mapping. by rewrite list_lookup_alter_ne. Qed.

Lemma set_set_mapping es i j m m' :
  set_mapping (set_mapping es i j m) i j m' = set_mapping es i j m'.
Proof.
  apply list_eq. intros k. destruct (decide (i = k)) as [<-|Hne].
  - unfold set_mapping. rewrite !list_lookup_alter_eq. destruct (es !! i) as [e|]; [|done].
    cbn. by rewrite list_insert_insert_eq.
  - by rewrite !set_mapping_lookup_ne.
Qed.

Lemma set_mapping_wf es bm i j m e old :
  tables_wf (es, bm) -> es !! i = Some e -> mappings e !! j = Some old ->
  mapping_wf m -> (map_in_use old = false -> map_in_use m = false \/ entry_in_use e = true) ->
  tables_wf (set_mapping es i j m, bm).
Proof.
  intros (Hl & Hf & Hb) He Hj Hm Hu. cbn [fst snd] in *. split_and!; cbn [fst snd]; [|..|done].
  - unfold set_mapping. by rewrite length_alter.
  - apply Forall_lookup. intros k e' Hk. destruct (decide (i = k)) as [<-|Hne].
    + rewrite (set_mapping_lookup es i j m e He) in Hk. simplify_eq.
      eapply Forall_lookup_1 in Hf as (Hle & Hmw & Hin); [|done].
      split_and!; cbn [mappings entry_in_use].
      * by rewrite length_insert.
      * by apply Forall_insert.
      * intros Hfalse. specialize (Hin Hfalse). apply Forall_insert; [done|].
        destruct Hu as [?|?]; [by eapply Forall_lookup_1 in Hin|done|congruence].
    + rewrite set_mapping_lookup_ne in Hk by done. by eapply Forall_lookup_1 in Hf.
Qed.

Lemma tables_wf_bitmap es bm bm' : tables_wf (es, bm) -> is_u 64 bm' -> tables_wf (es, bm').
Proof. intros (? & ? & ?) ?. by split_and!. Qed.

Lemma bitmap_set bm i : is_u 64 bm -> 0 <= i < 64 -> is_u 64 (Z.lor bm (Z.shiftl 1 i)).
Proof. apply lor_bit_range. Qed.

Lemma bitmap_clear bm b : is_u 64 bm -> 0 <= b < 64 -> is_u 64 (Z.land bm (unot 64 (Z.shiftl 1 b))).
Proof.
  intros Hb Hr. apply land_range_l; [done|]. unfold unot.
  rewrite Z.shiftl_1_l. assert (2 ^ b <= 2 ^ 63) by (apply Z.pow_le_mono_r; lia). lia.
Qed.

(** A reachable mapping of the tables: entry, slot and content. *)
Definition slot (es : list NfyEntry) (i j : nat) (e : NfyEntry) (m : NfyMapping) : Prop :=
  es !! i = Some e /\ mappings e !! j = Some m.

Lemma slot_wf es bm i j e m : tables_wf (es, bm) -> slot es i j e m -> mapping_wf m /\ entry_wf e.
Proof.
  intros (_ & Hf & _) [He Hj]. eapply Forall_lookup_1 in Hf as Hwf; [|done].
  split; [|done]. destruct Hwf as (_ & Hm & _). by eapply Forall_lookup_1 in Hm.
Qed.

(** *** The loop bodies, inverted *)

Lemma find_cookie_total es bm i c :
  tables_wf (es, bm) -> (i < NOTIFY_MAX_SERVICES)%nat ->
  exists e, es !! i = Some e /\
    nfy_find_matching_cookie es i c = Ok (position (matches c) (mappings e)).
Proof.
  intros (Hl & _) Hi. destruct (entry_lookup es i Hl Hi) as [e He].
  exists e. split; [done|]. by apply find_cookie_eq.
Qed.

Lemma position_slot es i e (P : NfyMapping -> Prop) `{forall x, Decision (P x)} j :
  es !! i = Some e -> position P (mappings e) = Some j ->
  exists m, slot es i j e m /\ P m.
Proof. intros He (m & Hm & HP & _)%position_Some. by exists m. Qed.

(** What a registered tuple does to the tables. *)
Definition registers (self : list NfyEntry) (i : nat) (src : Z) (t : tuple) (T T' : Tables) : Prop :=
  exists j e old, slot T.1 i j e old /\ map_in_use old = false /\
    nfy_find_matching_cookie self i t.1.1 = Ok None /\ t.1.2 < 64 /\
    Z.land T.2 (Z.shiftl 1 t.1.2) = 0 /\
    T' = (set_mapping T.1 i j (mkMapping t.1.1 t.1.2 t.2 src true),
          Z.lor T.2 (Z.shiftl 1 t.1.2)).

Lemma register_tuple_settles self bm0 i src t T :
  tables_wf (self, bm0) -> tables_wf T -> (i < NOTIFY_MAX_SERVICES)%nat ->
  settles (registers self i src t T) (register_tuple self i src t T).
Proof.
  destruct t as [[c k] ty], T as [es bm]. intros Hs (Hl & _) Hi.
  cbn -[settles set_mapping nfy_find_matching_cookie].
  destruct (find_cookie_total self bm0 i c Hs Hi) as (e0 & _ & Hf). rewrite Hf.
  cbn [mbind outcome_bind]. destruct (position (matches c) (mappings e0)) eqn:Hp; [done|].
  destruct (nfy_bitmask k) as [bit|] eqn:Hk; [|done].
  apply nfy_bitmask_Some in Hk as [Hk ->]. case_decide as Hz; [done|].
  destruct (entry_lookup es i Hl Hi) as [e He]. rewrite He. cbn [or_panic mbind outcome_bind].
  destruct (position _ (mappings e)) as [j|] eqn:Hj; [|done].
  destruct (position_slot es i e _ j He Hj) as (old & Hslot & Hold).
  exists j, e, old. cbn [fst snd]. rewrite Hf. split_and!; try done.
Qed.

(** What an unregistered tuple does to the tables. *)
Definition unregisters (self : list NfyEntry) (i : nat) (src : Z) (t : tuple) (T T' : Tables) : Prop :=
  exists j e m, slot T.1 i j e m /\
    nfy_find_matching_cookie self i t.1.1 = Ok (Some j) /\
    id m = t.1.2 /\ ntype m = t.2 /\ map_src_id m = src /\
    T' = (set_mapping T.1 i j mapping_default, Z.land T.2 (unot 64 (Z.shiftl 1 (id m)))).

Lemma unregister_tuple_settles self bm0 i src t T :
  tables_wf (self, bm0) -> tables_wf T -> (i < NOTIFY_MAX_SERVICES)%nat ->
  settles (unregisters self i src t T) (unregister_tuple self i src t T).
Proof.
  destruct t as [[c k] ty], T as [es bm]. intros Hs HT Hi. pose proof HT as (Hl & _).
  cbn -[settles set_mapping nfy_find_matching_cookie].
  destruct (find_cookie_total self bm0 i c Hs Hi) as (e0 & He0 & Hf). rewrite Hf.
  cbn [mbind outcome_bind]. destruct (position (matches c) (mappings e0)) as [j|] eqn:Hp; [|done].
  destruct (position_slot self i e0 _ j He0 Hp) as (m0 & Hslot0 & _).
  destruct (slot_wf self bm0 i j e0 m0 Hs Hslot0) as [_ (Hlen0 & _)].
  destruct (entry_lookup es i Hl Hi) as [e He]. rewrite (get_mapping_eq es i j e He).
  pose proof HT as (_ & Hfall & _). eapply Forall_lookup_1 in Hfall as (Hlen & _); [|done].
  destruct (lookup_lt_is_Some_2 (mappings e) j) as [m Hm].
  { rewrite Hlen, <- Hlen0. by eapply lookup_lt_Some, Hslot0. }
  rewrite Hm. cbn [or_panic mbind outcome_bind].
  destruct (slot_wf es bm i j e m HT (conj He Hm)) as [(_ & Hid & _) _].
  repeat (case_decide; [done|]).
  unfold nfy_bitmask. rewrite decide_True by lia. cbn [or_panic mbind outcome_bind].
  exists j, e, m. cbn [fst snd]. rewrite Hf.
  split_and!; try done; by apply dec_stable.
Qed.

(** A mapping found in the tables. *)
Definition found_at es (i j : nat) e m (c : Z) : Prop :=
  slot es i j e m /\ matches c m /\ nfy_find_matching_cookie es i c = Ok (Some j).

Lemma found_inv es bm i c :
  tables_wf (es, bm) -> (i < NOTIFY_MAX_SERVICES)%nat ->
  nfy_find_matching_cookie es i c = Ok None \/ exists j e m, found_at es i j e m c.
Proof.
  intros HT Hi. destruct (find_cookie_total es bm i c HT Hi) as (e & He & Hf). rewrite Hf.
  destruct (position (matches c) (mappings e)) as [j|] eqn:Hp; [right|by left].
  destruct (position_slot es i e _ j He Hp) as (m & Hslot & Hm).
  exists j, e, m. split_and!; [done|done|]. by rewrite Hf.
Qed.

(** Changing the id or the type of a mapping changes no lookup. *)
Lemma find_set_same es i j e m m' i' c :
  slot es i j e m -> (matches c m' <-> matches c m) ->
  nfy_find_matching_cookie (set_mapping es i j m') i' c = nfy_find_matching_cookie es i' c.
Proof.
  intros [He Hj] Hm. unfold nfy_find_matching_cookie. case_decide; [done|].
  destruct (decide (i = i')) as [<-|Hne]; [|by rewrite set_mapping_lookup_ne].
  rewrite (set_mapping_lookup es i j m' e He), He. cbn [or_panic mbind outcome_bind mappings].
  by rewrite (position_insert_iff _ _ _ _ m).
Qed.

Lemma assign_apply_eq es bm i c k ty j e m :
  tables_wf (es, bm) -> found_at es i j e m c ->
  assign_apply i (c, k, ty) es =
    Ok (set_mapping es i j (mkMapping (cookie m) k ty (map_src_id m) (map_in_use m))).
Proof.
  intros HT ((He & Hj) & _ & Hf). unfold assign_apply. rewrite Hf. cbn [or_panic mbind outcome_bind].
  rewrite (get_mapping_eq es i j e He), Hj. done.
Qed.

Lemma unassign_apply_eq es bm i c k ty j e m :
  tables_wf (es, bm) -> found_at es i j e m c ->
  unassign_apply i (c, k, ty) (es, bm) =
    Ok (set_mapping es i j
          (mkMapping (cookie m) 0 NotifyType.Global_ (map_src_id m) (map_in_use m)),
        Z.land bm (unot 64 (Z.shiftl 1 (id m)))).
Proof.
  intros HT ((He & Hj) & _ & Hf). unfold unassign_apply. rewrite Hf. cbn [or_panic mbind outcome_bind].
  rewrite (get_mapping_eq es i j e He), Hj. cbn [or_panic mbind outcome_bind].
  destruct (slot_wf es bm i j e m HT (conj He Hj)) as [(_ & Hid & _) _].
  unfold nfy_bitmask. by rewrite decide_True by lia.
Qed.

Lemma assign_check_eq es bm i c k ty j e m b :
  tables_wf (es, bm) -> found_at es i j e m c ->
  assign_check es i (c, k, ty) b =
    (let b := Z.land b (unot 64 (Z.shiftl 1 (id m))) in
     match nfy_bitmask k with
     | None => Err ErrorCode.InvalidParameters
     | Some new_bit =>
         if decide (Z.land b new_bit <> 0) then Err ErrorCode.InvalidParameters
         else Ok (Z.lor b new_bit)
     end).
Proof.
  intros HT ((He & Hj) & _ & Hf). unfold assign_check. rewrite Hf. cbn [or_panic mbind outcome_bind].
  rewrite (get_mapping_eq es i j e He), Hj. cbn [or_panic mbind outcome_bind].
  destruct (slot_wf es bm i j e m HT (conj He Hj)) as [(_ & Hid & _) _].
  assert (nfy_bitmask (id m) = Some (Z.shiftl 1 (id m))) as -> by (apply nfy_bitmask_Some; lia).
  done.
Qed.

Lemma check_none es i c k ty b :
  nfy_find_matching_cookie es i c = Ok None ->
  assign_check es i (c, k, ty) b = Err ErrorCode.InvalidParameters /\
  unassign_check es i (c, k, ty) tt = Err ErrorCode.InvalidParameters.
Proof. intros Hf. unfold assign_check, unassign_check. by rewrite Hf. Qed.

Lemma unassign_check_found es i j e m c k ty :
  found_at es i j e m c -> unassign_check es i (c, k, ty) tt = Ok tt.
Proof. intros (_ & _ & Hf). unfold unassign_check. by rewrite Hf. Qed.

(** *** Loops *)

Lemma for_each_settles {S} (I : S -> Prop) body ts s :
  I s -> (forall t s, t ∈ ts -> I s -> settles I (body t s)) -> settles I (for_each body ts s).
Proof.
  revert s. induction ts as [|t ts IH]; intros s Hs Hb; [done|]. cbn [for_each].
  assert (settles I (body t s)) as Ht by (apply Hb; [apply list_elem_of_here|done]).
  destruct (body t s) as [s'|?| |]; cbn in Ht |- *; try done.
  apply IH; [done|]. intros. apply Hb; [by apply list_elem_of_further|done].
Qed.

(** The entry that a handler works on. *)
Definition entry_live es (i : nat) : Prop := exists e, es !! i = Some e /\ entry_in_use e = true.

Lemma entry_live_set es i j m i' : entry_live es i' -> entry_live (set_mapping es i j m) i'.
Proof.
  intros (e & He & Hu). destruct (decide (i = i')) as [<-|Hne].
  - eexists. split; [apply (set_mapping_lookup es i j m e He)|done].
  - exists e. by rewrite set_mapping_lookup_ne.
Qed.

(** The invariant of the loops that change the tables. *)
Definition loop_inv (i : nat) (T : Tables) : Prop := tables_wf T /\ entry_live T.1 i.

Lemma registers_wf_step self i src t T T' :
  is_u 16 src -> tuple_wf t -> loop_inv i T -> registers self i src t T T' -> loop_inv i T'.
Proof.
  destruct t as [[c k] ty], T as [es bm].
  intros Hsrc [Hc Hk] [HT Hlive] (j & e & old & [He Hj] & Hold & _ & Hk64 & _ & ->).
  cbn [fst snd] in *. split; [|by apply entry_live_set].
  apply tables_wf_bitmap with bm.
  - eapply set_mapping_wf; [done..| |].
    + split_and!; try done; apply Hk.
    + intros _. right. destruct Hlive as (e' & He' & Hu). congruence.
  - apply bitmap_set; [apply HT|]. split; [apply Hk|done].
Qed.

Lemma unregisters_wf_step self i src t T T' :
  loop_inv i T -> unregisters self i src t T T' -> loop_inv i T'.
Proof.
  destruct T as [es bm]. intros [HT Hlive] (j & e & m & [He Hj] & _ & _ & _ & _ & ->).
  cbn [fst snd] in *. split; [|by apply entry_live_set].
  destruct (slot_wf es bm i j e m HT (conj He Hj)) as [(_ & Hid & _) _].
  apply tables_wf_bitmap with bm.
  - eapply set_mapping_wf; [done..|apply mapping_default_wf|by left].
  - apply bitmap_clear; [apply HT|done].
Qed.

Lemma set_ids_wf es bm i j e m c k ty :
  loop_inv i (es, bm) -> found_at es i j e m c -> 0 <= k < 64 ->
  loop_inv i (set_mapping es i j (mkMapping (cookie m) k ty (map_src_id m) (map_in_use m)), bm).
Proof.
  intros [HT Hlive] ([He Hj] & [Hin Hc] & _) Hk. split; [|by apply entry_live_set].
  destruct (slot_wf es bm i j e m HT (conj He Hj)) as [(Hck & _ & Hs) _].
  eapply set_mapping_wf; [done..| |]; [|congruence].
  split_and!; try done; apply Hk.
Qed.

(** *** Handlers *)

Implicit Types (n : Notify).

Lemma find_entry_Some n u i :
  notify_wf n -> nfy_find_entry n u = Some i ->
  (i < NOTIFY_MAX_SERVICES)%nat /\ entry_live (entries n) i.
Proof.
  intros (Hl & _) (e & He & [_ Hu] & _)%position_Some. split; [|by exists e].
  cbn in Hl. rewrite <- Hl. by eapply lookup_lt_Some.
Qed.

Lemma insert_fresh_wf n i u :
  notify_wf n -> notify_wf (mkNotify
    (<[i := mkEntry u true (replicate NOTIFY_MAX_MAPPINGS mapping_default)]> (entries n))
    (global_bitmap n)).
Proof.
  intros (Hl & Hf & Hb). split_and!; cbn in *; [|..|done].
  - by rewrite length_insert.
  - apply Forall_insert; [done|apply fresh_entry_wf].
Qed.

Lemma find_or_create_wf n u :
  notify_wf n ->
  match find_or_create_entry n u with
  | (Some i, n') => notify_wf n' /\ (i < NOTIFY_MAX_SERVICES)%nat /\ entry_live (entries n') i
  | (None, n') => n' = n
  end.
Proof.
  intros Hn. unfold find_or_create_entry.
  destruct (nfy_find_entry n u) as [i|] eqn:Hf; [by destruct (find_entry_Some n u i Hn Hf)|].
  destruct (nfy_find_empty_slot n) as [i|] eqn:He; [|done].
  apply position_Some in He as (e & He & _).
  assert (i < length (entries n))%nat as Hi by (by eapply lookup_lt_Some).
  split_and!; [by apply insert_fresh_wf|by destruct Hn as (<- & _)|].
  eexists. split; [by apply list_lookup_insert_eq|done].
Qed.

Lemma commit_settles n r :
  notify_wf n -> settles tables_wf r -> settles (fun x => notify_wf x.2) (commit n r).
Proof. destruct r as [[es bm]|?| |]; cbn; auto. Qed.

Lemma mapping_update_wf n i req :
  notify_wf n -> req_wf req -> (i < NOTIFY_MAX_SERVICES)%nat -> entry_live (entries n) i ->
  settles (fun x => notify_wf x.2) (nfy_register_mapping n i req) /\
  settles (fun x => notify_wf x.2) (nfy_unregister_mapping n i req).
Proof.
  intros Hn (Hsrc & Hts & _) Hi Hlive.
  unfold nfy_register_mapping, nfy_unregister_mapping. rewrite !decide_False by lia.
  split; apply commit_settles; try done;
    (eapply settles_mono; [apply (for_each_settles (loop_inv i)); [done|]|by intros ? _ [? _]]);
    intros t T Ht [HT Hl].
  - eapply settles_mono; [by eapply (register_tuple_settles _ (global_bitmap n))|].
    intros T' _ Hr. eapply registers_wf_step; [done| |done..].
    rewrite Forall_forall in Hts. by apply Hts.
  - eapply settles_mono; [by eapply (unregister_tuple_settles _ (global_bitmap n))|].
    intros T' _ Hr. by eapply unregisters_wf_step.
Qed.

(** The passes of [nfy_assign]. *)
Lemma assign_check_settles es bm i ts b :
  tables_wf (es, bm) -> (i < NOTIFY_MAX_SERVICES)%nat -> Forall tuple_wf ts -> is_u 64 b ->
  settles (fun b' => is_u 64 b' /\
      Forall (fun t => t.1.2 < 64 /\ exists j e m, found_at es i j e m t.1.1) ts)
    (for_each (assign_check es i) ts b).
Proof.
  intros HT Hi Hts. revert b. induction Hts as [|[[c k] ty] ts [Hc Hk] Hts IH]; intros b Hb; [by split|].
  cbn [for_each]. destruct (found_inv es bm i c HT Hi) as [Hf|(j & e & m & Hf)].
  { by rewrite (proj1 (check_none es i c k ty b Hf)). }
  rewrite (assign_check_eq es bm i c k ty j e m b HT Hf). cbv zeta.
  destruct (slot_wf es bm i j e m HT (proj1 Hf)) as [(_ & Hid & _) _].
  destruct (nfy_bitmask k) as [bit|] eqn:Hbit; [|done].
  apply nfy_bitmask_Some in Hbit as [Hk64 ->]. case_decide; [done|]. cbn [mbind outcome_bind].
  eapply settles_mono; [apply IH|].
  - apply bitmap_set; [by apply bitmap_clear|]. split; [apply Hk|done].
  - intros b' _ [Hb' Hall]. split; [done|]. constructor; [|done]. cbn [fst snd]. eauto 10.
Qed.

Lemma assign_apply_settles es bm i ts :
  loop_inv i (es, bm) -> (i < NOTIFY_MAX_SERVICES)%nat -> Forall tuple_wf ts ->
  Forall (fun t => t.1.2 < 64 /\ exists j e m, found_at es i j e m t.1.1) ts ->
  exists es', for_each (assign_apply i) ts es = Ok es' /\ loop_inv i (es', bm).
Proof.
  intros HI Hi Hts. revert es HI.
  induction Hts as [|[[c k] ty] ts [Hc Hk] Hts IH]; intros es HI Hall; [by exists es|].
  apply Forall_cons in Hall as [[Hk64 (j & e & m & Hf)] Hall]. cbn [fst snd] in *.
  cbn [for_each]. rewrite (assign_apply_eq es bm i c k ty j e m (proj1 HI) Hf).
  cbn [mbind outcome_bind].
  assert (loop_inv i (set_mapping es i j (mkMapping (cookie m) k ty (map_src_id m) (map_in_use m)), bm))
    as HI'.
  { eapply set_ids_wf; [done..|]. split; [apply Hk|done]. }
  apply IH; [done|]. eapply Forall_impl; [exact Hall|]. intros t [? (j' & e' & m' & Hf')].
  split; [done|].
  destruct (found_inv _ bm i t.1.1 (proj1 HI') Hi) as [Hn|]; [exfalso|done].
  rewrite (find_set_same es i j e m) in Hn by (apply Hf || done).
  destruct Hf' as (_ & _ & Hf'). congruence.
Qed.

Lemma unassign_check_settles es bm i ts :
  tables_wf (es, bm) -> (i < NOTIFY_MAX_SERVICES)%nat ->
  settles (fun _ => Forall (fun t => exists j e m, found_at es i j e m t.1.1) ts)
    (for_each (unassign_check es i) ts tt).
Proof.
  intros HT Hi. induction ts as [|[[c k] ty] ts IH]; [by constructor|].
  cbn [for_each]. destruct (found_inv es bm i c HT Hi) as [Hf|(j & e & m & Hf)].
  { by rewrite (proj2 (check_none es i c k ty 0 Hf)). }
  rewrite (unassign_check_found es i j e m c k ty Hf). cbn [mbind outcome_bind].
  eapply settles_mono; [apply IH|]. intros ? _ Hall. constructor; [|done]. eauto.
Qed.

Lemma unassign_apply_settles es bm i ts :
  loop_inv i (es, bm) -> (i < NOTIFY_MAX_SERVICES)%nat ->
  Forall (fun t => exists j e m, found_at es i j e m t.1.1) ts ->
  exists T', for_each (unassign_apply i) ts (es, bm) = Ok T' /\ loop_inv i T'.
Proof.
  revert es bm. induction ts as [|[[c k] ty] ts IH]; intros es bm HI Hi Hall.
  { by exists (es, bm). }
  apply Forall_cons in Hall as [(j & e & m & Hf) Hall]. cbn [for_each fst snd] in *.
  rewrite (unassign_apply_eq es bm i c k ty j e m (proj1 HI) Hf). cbn [mbind outcome_bind].
  destruct (slot_wf es bm i j e m (proj1 HI) (proj1 Hf)) as [(_ & Hid & _) _].
  set (es' := set_mapping es i j _). set (bm' := Z.land bm _).
  assert (loop_inv i (es', bm')) as HI'.
  { destruct (set_ids_wf es bm i j e m c 0 NotifyType.Global_ HI Hf) as [HT' Hl']; [done|].
    split; [|done]. apply tables_wf_bitmap with bm; [done|].
    apply bitmap_clear; [apply HI|done]. }
  apply IH; [done..|]. eapply Forall_impl; [exact Hall|]. intros t (j' & e' & m' & Hf').
  destruct (found_inv es' bm' i t.1.1 (proj1 HI') Hi) as [Hn|]; [exfalso|done].
  unfold es' in Hn. rewrite (find_set_same es i j e m) in Hn by (apply Hf || done).
  destruct Hf' as (_ & _ & Hf'). congruence.
Qed.

Lemma dispatch_wf mid n req :
  notify_wf n -> req_wf req -> settles (fun x => notify_wf x.2) (notify_dispatch mid n req).
Proof.
  intros Hn Hreq.
  assert (forall id, settles (fun x => notify_wf x.2) (register_request id n req)) as Hreg.
  { intros i. unfold register_request. destruct (count_ok req); [|done]. cbn [negb].
    pose proof (find_or_create_wf n (receiver_uuid req) Hn) as Hf.
    destruct (find_or_create_entry n (receiver_uuid req)) as [[k|] n']; [|by subst].
    destruct Hf as (Hn' & Hk & Hlive).
    destruct (mapping_update_wf n' k req Hn' Hreq Hk Hlive) as [Hr _].
    by destruct (nfy_register_mapping n' k req) as [[c n'']|?| |]. }
  assert (forall id, settles (fun x => notify_wf x.2) (unregister_request id n req)) as Hunreg.
  { intros i. unfold unregister_request.
    destruct (nfy_find_entry n (receiver_uuid req)) as [k|] eqn:Hf; [|done].
    destruct (find_entry_Some n _ k Hn Hf) as [Hk Hlive].
    destruct (mapping_update_wf n k req Hn Hreq Hk Hlive) as [_ Hr].
    by destruct (nfy_unregister_mapping n k req) as [[c n'']|?| |]. }
  destruct mid; cbn [notify_dispatch]; unfold nfy_add, nfy_setup, nfy_destroy, nfy_remove; try done.
  - unfold nfy_assign. destruct (nfy_find_entry n _) as [k|] eqn:Hf; [|done].
    destruct (find_entry_Some n _ k Hn Hf) as [Hk Hlive].
    pose proof (assign_check_settles (entries n) (global_bitmap n) k (req_tuples req)
      (global_bitmap n) Hn Hk (proj1 (proj2 Hreq)) (proj2 (proj2 Hn))) as Hc.
    destruct (for_each (assign_check _ _) _ _) as [b|?| |]; cbn [mbind outcome_bind]; try done.
    destruct Hc as [Hb Hall].
    destruct (assign_apply_settles (entries n) b k (req_tuples req)) as (es' & -> & HI & _);
      [|done|apply Hreq|done|done].
    split; [|done]. by apply tables_wf_bitmap with (global_bitmap n).
  - unfold nfy_unassign. destruct (nfy_find_entry n _) as [k|] eqn:Hf; [|done].
    destruct (find_entry_Some n _ k Hn Hf) as [Hk Hlive].
    pose proof (unassign_check_settles (entries n) (global_bitmap n) k (req_tuples req) Hn Hk) as Hc.
    destruct (for_each (unassign_check _ _) _ _) as [[]|?| |]; cbn [mbind outcome_bind]; try done.
    destruct (unassign_apply_settles (entries n) (global_bitmap n) k (req_tuples req))
      as ([es' bm'] & Hap & HI & _); [done..|].
    unfold tables. rewrite Hap. done.
Qed.

Lemma extract_tuple_wf v : tuple_wf (extract_tuple v).
Proof. split; apply trunc_range; lia. Qed.

(** The registers a request is read from. *)
Definition reg (msg : MsgSendDirectReq2) (i : nat) : Z :=
  default 0 (registers_iter (req_payload msg) !! i).

Lemma reg_ok msg i :
  message_wf (req_message msg) -> (i < 14)%nat ->
  register_at (req_payload msg) i = @Ok Error.t Z (reg msg i) /\ is_u 64 (reg msg i).
Proof.
  intros (_ & _ & Hp) Hi. unfold reg. rewrite register_at_registers by done.
  destruct (registers_iter_spec _ Hp) as (_ & Hl & Hr).
  destruct (lookup_lt_is_Some_2 (registers_iter (req_payload msg)) i) as [v Hv];
    [unfold req_payload; lia|].
  unfold req_payload in *. rewrite Hv. split; [done|]. by eapply Forall_lookup_1 in Hr.
Qed.

(** The tuple count that the low nine bits of [x6] announce, at most seven. *)
Definition reg_count (msg : MsgSendDirectReq2) : Z :=
  Z.min (Z.land (reg msg NOTIFY_COUNT_REG) NOTIFY_COUNT_MASK) (Z.of_nat NOTIFY_MAX_TUPLES_PER_REQ).

Lemma notify_req_from_ok msg :
  message_wf (req_message msg) ->
  exists req, notify_req_from msg = Ok req /\ req_wf req /\
    src_id req = source_id (req_message msg) /\ count req = reg_count msg /\
    sender_uuid req = from_u128_le (Z.lor (Z.shiftl (reg msg 2) 64) (reg msg 1)) /\
    receiver_uuid req = from_u128_le (Z.lor (Z.shiftl (reg msg 4) 64) (reg msg 3)) /\
    msg_info req = reg msg 5 /\
    req_tuples req = (fun i => extract_tuple (reg msg (7 + i))) <$> seq 0 (Z.to_nat (reg_count msg)).
Proof.
  intros Hmsg. unfold notify_req_from.
  rewrite !(fun i Hi => proj1 (reg_ok msg i Hmsg Hi)) by (unfold NOTIFY_COUNT_REG; lia).
  cbn [mbind outcome_bind]. cbv zeta. fold (reg_count msg). set (cnt := reg_count msg).
  assert (0 <= cnt <= 7) as Hcnt.
  { unfold cnt, reg_count, NOTIFY_MAX_TUPLES_PER_REQ.
    pose proof (Z.land_nonneg (reg msg NOTIFY_COUNT_REG) NOTIFY_COUNT_MASK) as [_ Hn].
    assert (0 <= Z.land (reg msg NOTIFY_COUNT_REG) NOTIFY_COUNT_MASK)
      by (apply Hn; by right). lia. }
  assert (mapM (fun i => v ← register_at (req_payload msg) (NOTIFY_TUPLE_BASE_REG + i);
      Ok (extract_tuple v)) (seq 0 (Z.to_nat cnt)) =
    @Ok Error.t _ ((fun i => extract_tuple (reg msg (7 + i))) <$> seq 0 (Z.to_nat cnt))) as Hm.
  { apply mapM_fmap_ok. apply Forall_seq. intros i Hi.
    unfold NOTIFY_TUPLE_BASE_REG. by rewrite (proj1 (reg_ok msg (7 + i) Hmsg ltac:(lia))). }
  rewrite Hm. cbn [mbind outcome_bind]. eexists. split; [done|].
  set (ts := _ <$> seq 0 (Z.to_nat cnt)).
  assert (length ts = Z.to_nat cnt) as Hlen by (unfold ts; by rewrite length_fmap, length_seq).
  assert (take (Z.to_nat cnt) (ts ++ replicate (NOTIFY_MAX_TUPLES_PER_REQ - Z.to_nat cnt)
    (0, 0, NotifyType.Global_)) = ts) as Htake by (by rewrite <- Hlen, take_app_length).
  split_and!; try done.
  split_and!; unfold req_tuples; cbn [src_id count notifications]; rewrite ?Htake; try done;
    [apply Hmsg| |lia|unfold NOTIFY_MAX_TUPLES_PER_REQ; lia].
  apply Forall_fmap, Forall_true. intros i. apply extract_tuple_wf.
Qed.

Lemma commit_no_err n r (er : Error.t) : commit n r <> Err er.
Proof. by destruct r. Qed.

Lemma dispatch_no_err mid n req (er : Error.t) : notify_dispatch mid n req <> Err er.
Proof.
  assert (forall mid r er', (forall er : Error.t, r <> Err er) ->
    ('(res, self) ← r; Ok (respond mid req res, self)) <> @Err Error.t (NfySetupRsp * Notify) er') as Hb.
  { intros mid' r er' Hr. destruct r as [[c n0]|e0| |]; try done. by destruct (Hr e0). }
  destruct mid; cbn [notify_dispatch]; unfold nfy_add, nfy_setup, nfy_destroy, nfy_remove,
    register_request, unregister_request, nfy_assign, nfy_unassign.
  all: repeat (case_match; try done); apply Hb; intros e'; try apply commit_no_err.
  all: unfold nfy_register_mapping, nfy_unregister_mapping; case_decide; [done|apply commit_no_err].
Qed.

Lemma bind_respond mid req (r : outcome Error.t (ErrorCode.t * Notify)) rsp n' :
  ('(res, self) ← r; Ok (respond mid req res, self)) = Ok (rsp, n') ->
  exists c, r = Ok (c, n') /\ rsp = respond mid req c.
Proof. destruct r as [[c n]|e| |]; cbn; intros He; simplify_eq. eauto. Qed.

Lemma dispatch_respond mid n req rsp n' :
  notify_dispatch mid n req = Ok (rsp, n') -> exists c, rsp = respond mid req c.
Proof.
  assert (forall mid, register_request mid n req = Ok (rsp, n') -> exists c, rsp = respond mid req c).
  { intros mid'. unfold register_request. destruct (count_ok req); cbn [negb].
    - destruct (find_or_create_entry n _) as [[k|] n0].
      + intros (c & _ & ->)%bind_respond. eauto.
      + intros [= <- _]. eauto.
    - intros [= <- _]. eauto. }
  assert (forall mid, unregister_request mid n req = Ok (rsp, n') -> exists c, rsp = respond mid req c).
  { intros mid'. unfold unregister_request. destruct (nfy_find_entry n _) as [k|].
    - intros (c & _ & ->)%bind_respond. eauto.
    - intros [= <- _]. eauto. }
  destruct mid; cbn [notify_dispatch]; eauto; [unfold nfy_assign|unfold nfy_unassign];
    (destruct (nfy_find_entry n _) as [k|]; [intros (c & _ & ->)%bind_respond; eauto|]);
    intros [= <- _]; eauto.
Qed.

(** The response registers of a status. *)
Lemma rsp_payload_ok rsp :
  UuidLaws -> is_u 64 (rsp_msg_info rsp) -> is_u 64 (rsp_reserved rsp) ->
  exists p, rsp_payload rsp = Ok p /\ payload_wf p /\
    registers_iter p = rsp_payload_regs rsp ++ replicate 7 0.
Proof.
  intros HU Hi Hr. unfold rsp_payload.
  destruct (payload_of_words (E := Error.t) (rsp_payload_regs rsp)) as (p & Hp & Hregs & Hwf).
  - unfold rsp_payload_regs. cbn [length]. lia.
  - destruct (as_u64_pair_range (rsp_sender_uuid rsp)), (as_u64_pair_range (rsp_receiver_uuid rsp)).
    repeat (apply Forall_cons; split; [done|]).
    apply Forall_cons; split; [apply trunc_range; lia|constructor].
  - exists p. split; [exact Hp|]. split; [exact Hwf|]. rewrite Hregs. reflexivity.
Qed.

Lemma respond_regs mid msg req c :
  UuidLaws -> message_wf (req_message msg) -> 
  sender_uuid req = from_u128_le (Z.lor (Z.shiftl (reg msg 2) 64) (reg msg 1)) ->
  receiver_uuid req = from_u128_le (Z.lor (Z.shiftl (reg msg 4) 64) (reg msg 3)) ->
  rsp_payload_regs (respond mid req c) =
    [0; bswap64 (reg msg 1); bswap64 (reg msg 2); bswap64 (reg msg 3); bswap64 (reg msg 4);
     0x100 + discr mid; trunc 64 (discr c)].
Proof.
  intros HU Hmsg Hs Hr. unfold rsp_payload_regs.
  cbn [respond rsp_reserved rsp_sender_uuid rsp_receiver_uuid rsp_msg_info rsp_status].
  pose proof (fun i Hi => proj2 (reg_ok msg i Hmsg Hi)) as Hreg.
  rewrite Hs, Hr, !as_from_u128_le by
    (apply (field_range 64 64); [done|apply Hreg; lia|apply Hreg; lia]).
  cbn [fst snd]. rewrite !field_low, !field_high by (apply Hreg; lia). done.
Qed.
End WellFormed.

Lemma message_id_None v : message_id v = None <-> 6 <= Z.land v 7.
Proof.
  unfold message_id.
  assert (0 <= Z.land v 7 < 8) as Hr.
  { change 7 with (Z.ones 3). rewrite trunc_ones by lia. by apply trunc_range. }
  rewrite trunc_small by (unfold is_u; lia). generalize dependent (Z.land v 7). intros k Hk.
  assert (k = 0 \/ k = 1 \/ k = 2 \/ k = 3 \/ k = 4 \/ k = 5 \/ k = 6 \/ k = 7) as Hc by lia.
  destruct_or! Hc; subst; vm_compute; split; congruence.
Qed.

(** ** The service's promise to the loop *)

Lemma notify_new_wf `{UuidOps} : notify_wf notify_new.
Proof.
  split_and!; cbn [tables notify_new entries global_bitmap fst snd].
  - apply length_replicate.
  - apply Forall_replicate, fresh_entry_wf.
  - split; done.
Qed.

Section Service.
Context `{UuidLaws}.

(** The effect of a request, from registers to registers. *)
Definition notify_effect (msg : MsgSendDirectReq2) (n n' : Notify)
    (result : outcome Error.t MsgSendDirectResp2) : Prop :=
  (6 <= Z.land (reg msg 5) 7 /\ n' = n /\ result = Err (Error.Other "Invalid notify message ID")) \/
  (exists req mid c p,
     notify_req_from msg = Ok req /\ message_id (reg msg 5) = Some mid /\
     notify_dispatch mid n req = Ok (respond mid req c, n') /\
     result = Ok (from_req_with_payload msg p) /\ payload_wf p /\
     registers_iter p =
       [0; bswap64 (reg msg 1); bswap64 (reg msg 2); bswap64 (reg msg 3); bswap64 (reg msg 4);
        0x100 + discr mid; trunc 64 (discr c)] ++ replicate 7 0).

Lemma notify_handle_effect {W} msg n (w : W) :
  message_wf (req_message msg) -> notify_wf n ->
  exists result n', notify_handle msg (n, w) = (result, (n', w)) /\ notify_wf n' /\
    notify_effect msg n n' result.
Proof.
  intros Hmsg Hn.
  destruct (notify_req_from_ok msg Hmsg) as (req & Hreq & Hwf & _ & _ & Hs & Hr & Hinfo & _).
  unfold notify_handle. rewrite Hreq, Hinfo.
  destruct (message_id (reg msg 5)) as [mid|] eqn:Hmid.
  - pose proof (dispatch_wf mid n req Hn Hwf) as Hd.
    destruct (notify_dispatch mid n req) as [[rsp n']|e| |] eqn:Hdisp; try done.
    + destruct (dispatch_respond mid n req rsp n' Hdisp) as [c ->].
      destruct (rsp_payload_ok (respond mid req c) _) as (p & Hp & Hpwf & Hregs);
        [by destruct mid|done|].
      rewrite Hp. cbn [mbind outcome_bind]. do 2 eexists. split_and!; [done|done|].
      right. exists req, mid, c, p. rewrite Hregs, (respond_regs mid msg req c) by done.
      split_and!; [exact Hreq|exact Hmid|exact Hdisp|reflexivity|exact Hpwf|reflexivity].
    + do 2 eexists. split_and!; [done|done|]. exfalso. by destruct (dispatch_no_err mid n req e).
  - do 2 eexists. split_and!; [done|done|left]. apply message_id_None in Hmid. done.
Qed.

#[export] Instance notify_laws {W} : ServiceLaws W Notify.
Proof.
  refine {| svc_inv := notify_wf |}. intros req n w Hreq Hn. cbn [ffa_msg_send_direct_req2 notify_service].
  destruct (notify_handle_effect req n w Hreq Hn) as (result & n' & -> & Hn' & He).
  split; [done|]. destruct He as [(_ & _ & ->)|(? & ? & ? & p & _ & _ & _ & -> & Hp & _)]; [done|].
  by apply from_req_replies.
Defined.
End Service.
