(* ===== verification/NotifySpec.v ===== *)
(** What the notification service promises: the abstract view of the tables
    (for a service UUID and a cookie, the mapping registered), the invariants
    that tie the bitmap to the mappings, and the proof that every request with
    distinct cookies acts on the view as its specification says or leaves it
    alone.  The last part states what happens when the cookies of a request
    are not distinct or the id is 0. *)
From Stdlib Require Import ZArith Lia.
From S2P Require Import Prelude FfaCore FfaMsg MsgLoop Notify.
#[local] Open Scope Z_scope.

Section Spec.
Context `{UuidOps}.
Implicit Types (es : list NfyEntry) (e : NfyEntry) (m : NfyMapping) (T : Tables).

(** ** Live mappings and invariants *)

Definition live es (i j : nat) m : Prop := exists e, slot es i j e m /\ map_in_use m = true.

(** No two live mappings of an entry share a cookie. *)
Definition unique_cookies es : Prop := forall i j j' m m',
  live es i j m -> live es i j' m' -> cookie m = cookie m' -> j = j'.

(** For every id but 0: the bit is set exactly when a live mapping has the id,
    and then only one has it. *)
Definition exact T : Prop := forall b, 1 <= b < 64 ->
  (Z.testbit T.2 b = true <-> exists i j m, live T.1 i j m /\ id m = b) /\
  (forall i j m i' j' m', live T.1 i j m -> live T.1 i' j' m' ->
     id m = b -> id m' = b -> i = i' /\ j = j').

(** The mapping that serves cookie [c] in entry [i]. *)
Definition view es (i : nat) (c : Z) : option NfyMapping :=
  e ← es !! i; snd <$> list_find (matches c) (mappings e).

(** ** Changing one slot *)

Lemma live_set es i j e old m i' j' m' :
  slot es i j e old ->
  live (set_mapping es i j m) i' j' m' <->
    (i' = i /\ j' = j /\ m' = m /\ map_in_use m = true) \/
    (~ (i' = i /\ j' = j) /\ live es i' j' m').
Proof.
  intros [He Hj]. unfold live, slot. destruct (decide (i = i')) as [<-|Hne].
  - rewrite (set_mapping_lookup es i j m e He). split.
    + intros (e' & [[= <-] Hj'] & Hu). cbn [mappings] in Hj'.
      apply list_lookup_insert_Some in Hj' as [(-> & -> & _)|[Hne Hj']]; [by left|right].
      split; [by intros [_ ->]|]. by exists e.
    + intros [(_ & -> & -> & Hu)|[Hne (e' & [[= <-]%(eq_trans (eq_sym He)) Hj'] & Hu)]];
        (eexists; split; [split; [done|]|done]); cbn [mappings].
      * apply list_lookup_insert_eq. by eapply lookup_lt_Some.
      * rewrite list_lookup_insert_ne; [done|]. intros ->. by apply Hne.
  - rewrite set_mapping_lookup_ne by done. split; [right|].
    + split; [by intros [-> _]|done].
    + intros [(-> & _)|[_ ?]]; done.
Qed.

Lemma live_slot es i j e m : slot es i j e m -> map_in_use m = true -> live es i j m.
Proof. intros. by exists e. Qed.

Lemma live_same es i j m e old : slot es i j e old -> live es i j m -> m = old.
Proof. intros [He Hj] (e' & [He' Hj'] & _). congruence. Qed.

Lemma unique_set es i j e old m :
  unique_cookies es -> slot es i j e old ->
  (map_in_use m = true -> forall j' m', live es i j' m' -> cookie m' = cookie m -> j' = j) ->
  unique_cookies (set_mapping es i j m).
Proof.
  intros Hu Hs Hm a b b' x y.
  rewrite !(live_set es i j e old m) by done.
  intros [(-> & -> & -> & Hin)|[Hn Hx]] [(Ha & -> & -> & Hin')|[Hn' Hy]] Hc; try done.
  - symmetry. by eapply Hm.
  - subst a. by eapply Hm.
  - by eapply Hu.
Qed.

Lemma list_find_matches es i c e j m :
  unique_cookies es -> slot es i j e m -> matches c m ->
  list_find (matches c) (mappings e) = Some (j, m).
Proof.
  intros Hu [He Hj] [Hin Hc]. apply list_find_Some. split_and!; [done|done|].
  intros j' m' Hj' Hlt [Hin' Hc'].
  assert (j' = j) by (eapply (Hu i j' j m' m); [by exists e|by exists e|congruence]). lia.
Qed.

Lemma view_spec es i c m :
  unique_cookies es -> view es i c = Some m <-> exists j, live es i j m /\ cookie m = c.
Proof.
  intros Hu. unfold view. split.
  - destruct (es !! i) as [e|] eqn:He; [|done]. cbn [mbind option_bind].
    intros ([j m'] & Hf & ->)%fmap_Some. apply list_find_Some in Hf as (Hj & [Hin Hc] & _).
    exists j. split; [|done]. by exists e.
  - intros (j & (e & Hs & Hin) & Hc). pose proof Hs as [-> _]. cbn [mbind option_bind].
    by rewrite (list_find_matches es i c e j m).
Qed.

Lemma view_set es i j e old m i' c :
  slot es i j e old -> unique_cookies es -> unique_cookies (set_mapping es i j m) ->
  view (set_mapping es i j m) i' c =
    if decide (i' = i) then
      if decide (matches c m) then Some m
      else if decide (matches c old) then None else view es i c
    else view es i' c.
Proof.
  intros Hs Hu Hu'. case_decide as Hi; subst.
  - case_decide as Hm; [|case_decide as Ho].
    + apply view_spec; [done|]. exists j. split; [|apply Hm].
      apply (live_set es i j e old m); [done|]. left. by split_and!; [..|apply Hm].
    + apply eq_None_not_Some. intros [m' (j' & Hl & Hc)%view_spec]; [|done].
      apply (live_set es i j e old m) in Hl as [(_ & -> & -> & Hin)|[Hn Hl]]; [|..|done].
      { by apply Hm. }
      apply Hn. split; [done|]. destruct Ho as [Hin Hc'].
      eapply (Hu i j' j m' old); [done|by eapply live_slot|congruence].
    + destruct Hs as [He Hj]. unfold view.
      rewrite (set_mapping_lookup es i j m e He), He. cbn [mbind option_bind mappings].
      rewrite position_insert_ne; [done|done|]. intros y Hy. by simplify_eq.
  - unfold view. by rewrite set_mapping_lookup_ne.
Qed.

(** ** The bitmap *)

Lemma exact_bit0 es bm bm' :
  (forall b, 1 <= b < 64 -> Z.testbit bm b = Z.testbit bm' b) ->
  exact (es, bm) -> exact (es, bm').
Proof. intros Hb Hex b Hr. cbn [fst snd]. rewrite <- Hb by done. by apply Hex. Qed.

(** A live mapping is removed and its bit cleared. *)
Lemma exact_release es bm i j e old m :
  exact (es, bm) -> slot es i j e old -> map_in_use old = true -> map_in_use m = false ->
  0 <= id old < 64 ->
  exact (set_mapping es i j m, Z.land bm (unot 64 (Z.shiftl 1 (id old)))).
Proof.
  intros Hex Hs Hold Hm Hid b Hb. specialize (Hex b Hb) as [Hiff Huniq]. cbn [fst snd] in *.
  setoid_rewrite (live_set es i j e old m); [|done..].
  rewrite Z.land_spec, testbit_unot by lia. split.
  - rewrite andb_true_iff, Hiff, bool_decide_eq_true. split.
    + intros [(i' & j' & m' & Hl & Hm') Hne]. exists i', j', m'. split; [right|done].
      split; [|done]. intros [-> ->]. rewrite (live_same es i j m' e old) in Hm' by done. done.
    + intros (i' & j' & m' & [(_ & _ & -> & ?)|[Hn Hl]] & Hm'); [congruence|].
      split; [eauto|]. intros ->.
      destruct (Huniq i' j' m' i j old); [done|by eapply live_slot|done..|]. by apply Hn.
  - intros i1 j1 m1 i2 j2 m2 [(_ & _ & -> & ?)|[_ H1]] [(_ & _ & -> & ?)|[_ H2]];
      try congruence. by apply Huniq.
Qed.

(** A free slot is claimed for an id whose bit is clear; for id 0 the bit does
    not matter. *)
Lemma exact_claim es bm i j e old m :
  exact (es, bm) -> slot es i j e old -> map_in_use old = false -> map_in_use m = true ->
  0 <= id m < 64 -> id m = 0 \/ Z.testbit bm (id m) = false ->
  exact (set_mapping es i j m, Z.lor bm (Z.shiftl 1 (id m))).
Proof.
  intros Hex Hs Hold Hm Hid Hbit b Hb. specialize (Hex b Hb) as [Hiff Huniq]. cbn [fst snd] in *.
  setoid_rewrite (live_set es i j e old m); [|done..].
  rewrite Z.lor_spec, testbit_bit by lia.
  assert (forall i' j' m', live es i' j' m' -> ~ (i' = i /\ j' = j)) as Hfree.
  { intros i' j' m' Hl [-> ->]. rewrite (live_same es i j m' e old) in Hl by done.
    destruct Hl as (? & _ & ?). congruence. }
  assert (id m = b -> forall i' j' m', live es i' j' m' -> id m' <> b) as Hnone.
  { intros Hb' i' j' m' Hl Hm'. destruct Hbit as [?|Hbit]; [lia|].
    rewrite Hb' in Hbit. rewrite (proj2 Hiff) in Hbit; [done|eauto]. }
  split.
  - rewrite orb_true_iff, Hiff, bool_decide_eq_true. split.
    + intros [(i' & j' & m' & Hl & Hm')|Hbm]; [exists i', j', m'|exists i, j, m; by auto 10].
      split; [right|done]. split; [by eapply Hfree|done].
    + intros (i' & j' & m' & [(_ & _ & -> & ?)|[_ Hl]] & Hm'); [by right|left; eauto].
  - intros i1 j1 m1 i2 j2 m2 [(-> & -> & -> & _)|[_ H1]] [(-> & -> & -> & _)|[_ H2]] Hm1 Hm2;
      [done|exfalso; by eapply Hnone..|by eapply Huniq].
Qed.

(** ** One tuple at a time *)

(** A relation applied tuple by tuple. *)
Fixpoint steps {S} (R : tuple -> S -> S -> Prop) (ts : list tuple) (s s' : S) : Prop :=
  match ts with
  | [] => s' = s
  | t :: ts => exists s1, R t s s1 /\ steps R ts s1 s'
  end.

Abbreviation cookies ts := ((fun t : tuple => t.1.1) <$> ts).

Definition step_register (i : nat) (src : Z) (t : tuple) T T' : Prop :=
  registers T.1 i src t T T'.

Definition step_unregister (i : nat) (src : Z) (t : tuple) T T' : Prop :=
  exists j e m, found_at T.1 i j e m t.1.1 /\
    id m = t.1.2 /\ ntype m = t.2 /\ map_src_id m = src /\
    T' = (set_mapping T.1 i j mapping_default, Z.land T.2 (unot 64 (Z.shiftl 1 (id m)))).

Definition step_assign (i : nat) (src : Z) (t : tuple) T T' : Prop :=
  exists j e m, found_at T.1 i j e m t.1.1 /\ t.1.2 < 64 /\
    let bm := Z.land T.2 (unot 64 (Z.shiftl 1 (id m))) in
    Z.land bm (Z.shiftl 1 t.1.2) = 0 /\
    T' = (set_mapping T.1 i j (mkMapping (cookie m) t.1.2 t.2 (map_src_id m) (map_in_use m)),
          Z.lor bm (Z.shiftl 1 t.1.2)).

Definition step_unassign (i : nat) (src : Z) (t : tuple) T T' : Prop :=
  exists j e m, found_at T.1 i j e m t.1.1 /\
    T' = (set_mapping T.1 i j
            (mkMapping (cookie m) 0 NotifyType.Global_ (map_src_id m) (map_in_use m)),
          Z.land T.2 (unot 64 (Z.shiftl 1 (id m)))).

(** Lookups of other cookies are not affected by a change of one slot. *)
Lemma find_set_ne es i j e old m i' c :
  slot es i j e old -> ~ matches c old -> ~ matches c m ->
  nfy_find_matching_cookie (set_mapping es i j m) i' c = nfy_find_matching_cookie es i' c.
Proof.
  intros [He Hj] Ho Hm. unfold nfy_find_matching_cookie. case_decide; [done|].
  destruct (decide (i = i')) as [<-|Hne]; [|by rewrite set_mapping_lookup_ne].
  rewrite (set_mapping_lookup es i j m e He), He. cbn [or_panic mbind outcome_bind mappings].
  unfold position. rewrite position_insert_ne; [done|done|]. intros y Hy. by simplify_eq.
Qed.

Lemma found_at_set_ne es i j e old m j' e' m' c :
  slot es i j e old -> ~ matches c old -> ~ matches c m ->
  found_at es i j' e' m' c ->
  exists e'', found_at (set_mapping es i j m) i j' e'' m' c.
Proof.
  intros Hs Ho Hm ([He' Hj'] & Hmt & Hf). pose proof Hs as [He Hj].
  assert (e' = e) as -> by congruence. assert (j <> j') by congruence.
  eexists. split_and!; [split; [by apply set_mapping_lookup|]|done|].
  - cbn [mappings]. by rewrite list_lookup_insert_ne.
  - by rewrite (find_set_ne es i j e old).
Qed.

Lemma found_functional es i j e m j' e' m' c :
  found_at es i j e m c -> found_at es i j' e' m' c -> j = j' /\ e = e' /\ m = m'.
Proof.
  intros ([He Hj] & _ & Hf) ([He' Hj'] & _ & Hf').
  assert (e = e') by congruence. assert (j = j') by congruence. subst.
  split_and!; congruence.
Qed.

Lemma matches_functional c c' m : matches c m -> matches c' m -> c = c'.
Proof. intros [_ <-] [_ <-]. done. Qed.

Lemma cookies_cons_ne (t : tuple) ts t' :
  NoDup (cookies (t :: ts)) -> t' ∈ ts -> t'.1.1 <> t.1.1.
Proof.
  intros [Hn _]%NoDup_cons Ht He. apply Hn, list_elem_of_fmap. by exists t'.
Qed.

Lemma register_steps self bm0 i src ts T T' :
  tables_wf (self, bm0) -> loop_inv i T -> (i < NOTIFY_MAX_SERVICES)%nat -> is_u 16 src ->
  Forall tuple_wf ts -> NoDup (cookies ts) ->
  (forall t, t ∈ ts -> nfy_find_matching_cookie self i t.1.1 = nfy_find_matching_cookie T.1 i t.1.1) ->
  for_each (register_tuple self i src) ts T = Ok T' ->
  steps (step_register i src) ts T T'.
Proof.
  intros Hself HI Hi Hsrc Hts. revert T HI.
  induction Hts as [|t ts Ht Hts IH]; intros T HI Hnd Hag Hrun; [by injection Hrun|].
  cbn [for_each steps] in Hrun |- *.
  pose proof (register_tuple_settles self bm0 i src t T Hself (proj1 HI) Hi) as Hst.
  destruct (register_tuple self i src t T) as [T1|?| |]; try done. cbn in Hrun, Hst.
  exists T1. assert (registers T.1 i src t T T1) as Hr.
  { unfold registers in Hst |- *. rewrite <- Hag by apply list_elem_of_here. done. }
  split; [done|]. apply IH; [by eapply registers_wf_step|by apply NoDup_cons in Hnd as [_ ?]| |done].
  intros t' Ht'. rewrite Hag by (by apply list_elem_of_further).
  pose proof (cookies_cons_ne t ts t' Hnd Ht') as Hne.
  destruct Hr as (j & e & old & Hs & Ho & _ & _ & _ & ->). cbn [fst].
  rewrite (find_set_ne T.1 i j e old); [done|done|..]; intros [Hin Hc]; [congruence|].
  by cbn in Hc.
Qed.

Lemma unregister_steps self bm0 i src ts T T' :
  tables_wf (self, bm0) -> loop_inv i T -> (i < NOTIFY_MAX_SERVICES)%nat ->
  NoDup (cookies ts) ->
  (forall t, t ∈ ts -> nfy_find_matching_cookie self i t.1.1 = nfy_find_matching_cookie T.1 i t.1.1) ->
  for_each (unregister_tuple self i src) ts T = Ok T' ->
  steps (step_unregister i src) ts T T'.
Proof.
  intros Hself HI Hi. revert T HI.
  induction ts as [|t ts IH]; intros T HI Hnd Hag Hrun; [by injection Hrun|].
  cbn [for_each steps] in Hrun |- *.
  pose proof (unregister_tuple_settles self bm0 i src t T Hself (proj1 HI) Hi) as Hst.
  destruct (unregister_tuple self i src t T) as [T1|?| |]; try done. cbn in Hrun, Hst.
  exists T1. assert (step_unregister i src t T T1) as Hr.
  { destruct Hst as (j & e & m & Hs & Hf & Hid & Hty & Hsr & ->).
    rewrite Hag in Hf by apply list_elem_of_here. exists j, e, m.
    split_and!; try done. destruct T as [es bm].
    destruct (found_inv es bm i t.1.1 (proj1 HI) Hi) as [Hn|(j' & e' & m' & Hf')];
      cbn [fst] in *; [congruence|].
    pose proof Hf' as ([He' Hj'] & _ & Hf''). destruct Hs as [He Hj].
    assert (e' = e) as -> by congruence. assert (j' = j) as -> by congruence.
    by assert (m' = m) as -> by congruence. }
  split; [done|]. apply IH; [by eapply unregisters_wf_step|by apply NoDup_cons in Hnd as [_ ?]| |done].
  intros t' Ht'. rewrite Hag by (by apply list_elem_of_further).
  pose proof (cookies_cons_ne t ts t' Hnd Ht') as Hne.
  destruct Hr as (j & e & m & (Hs & Hm & _) & _ & _ & _ & ->). cbn [fst].
  rewrite (find_set_ne T.1 i j e m); [done|done|..]; [|by intros [? _]].
  intros Hm'. by destruct (Hne (matches_functional _ _ _ Hm' Hm)).
Qed.

Lemma assign_steps self bm0 i src ts es b es' b' :
  tables_wf (self, bm0) -> loop_inv i (es, bm0) -> (i < NOTIFY_MAX_SERVICES)%nat ->
  Forall tuple_wf ts -> NoDup (cookies ts) ->
  (forall t, t ∈ ts -> exists j e e' m, found_at self i j e m t.1.1 /\ found_at es i j e' m t.1.1) ->
  for_each (assign_check self i) ts b = Ok b' ->
  for_each (assign_apply i) ts es = Ok es' ->
  steps (step_assign i src) ts (es, b) (es', b').
Proof.
  intros Hself HI Hi Hts. revert es b HI.
  induction Hts as [|[[c k] ty] ts [Hc Hk] Hts IH]; intros es b HI Hnd Hag Hchk Happ.
  { cbn in *. congruence. }
  destruct (Hag (c, k, ty)) as (j & e & e' & m & Hf & Hf'); [apply list_elem_of_here|].
  cbn [for_each steps fst snd] in *.
  rewrite (assign_check_eq self bm0 i c k ty j e m b Hself Hf) in Hchk. cbv zeta in Hchk.
  rewrite (assign_apply_eq es bm0 i c k ty j e' m (proj1 HI) Hf') in Happ.
  destruct (nfy_bitmask k) as [bit|] eqn:Hbit; [|done].
  apply nfy_bitmask_Some in Hbit as [Hk64 ->]. case_decide as Hz; [done|].
  cbn [mbind outcome_bind] in Hchk, Happ.
  eexists. split; [exists j, e', m; by split_and!|]. cbn [fst snd].
  apply IH; [|by apply NoDup_cons in Hnd as [_ ?]| |done|done].
  - eapply set_ids_wf; [done..|]. split; [apply Hk|done].
  - intros t' Ht'. destruct (Hag t') as (j1 & e1 & e1' & m1 & Hg & Hg'); [by apply list_elem_of_further|].
    pose proof (cookies_cons_ne (c, k, ty) ts t' Hnd Ht') as Hne.
    destruct Hf' as (Hs' & Hm & _).
    destruct (found_at_set_ne es i j e' m
      (mkMapping (cookie m) k ty (map_src_id m) (map_in_use m)) j1 e1' m1 t'.1.1 Hs') as [e2 Hf2];
      [|..|done|by exists j1, e1, e2, m1].
    + intros Hm'. by destruct (Hne (matches_functional _ _ _ Hm' Hm)).
    + intros [Hin' Hc']. cbn in Hc'. destruct Hm as [_ Hc'']. cbn in Hne. congruence.
Qed.

Lemma unassign_steps i src ts T T' :
  loop_inv i T -> (i < NOTIFY_MAX_SERVICES)%nat ->
  for_each (unassign_apply i) ts T = Ok T' ->
  steps (step_unassign i src) ts T T'.
Proof.
  revert T. induction ts as [|[[c k] ty] ts IH]; intros [es bm] HI Hi Hrun; [by injection Hrun|].
  cbn [for_each steps] in *.
  destruct (found_inv es bm i c (proj1 HI) Hi) as [Hn|(j & e & m & Hf)].
  { assert (unassign_apply i (c, k, ty) (es, bm) = Panic) as Hp
      by (unfold unassign_apply; by rewrite Hn).
    by rewrite Hp in Hrun. }
  rewrite (unassign_apply_eq es bm i c k ty j e m (proj1 HI) Hf) in Hrun.
  cbn [mbind outcome_bind] in Hrun. eexists. split; [by exists j, e, m|].
  apply IH; [|done|done].
  destruct (slot_wf es bm i j e m (proj1 HI) (proj1 Hf)) as [(_ & Hid & _) _].
  destruct (set_ids_wf es bm i j e m c 0 NotifyType.Global_ HI Hf) as [HT' Hl']; [done|].
  split; [|done]. apply tables_wf_bitmap with bm; [done|].
  apply bitmap_clear; [apply HI|done].
Qed.

(** ** The abstract effect of a request *)

(** What a request does to the mapping of a cookie it names. *)
Definition abs_step (mid : MessageID.t) (src : Z) (t : tuple) (v : option NfyMapping) :
    option NfyMapping :=
  let '(c, i, ty) := t in
  match mid with
  | MessageID.Setup | MessageID.Add => Some (mkMapping c i ty src true)
  | MessageID.Destroy | MessageID.Remove => None
  | MessageID.Assign =>
      (fun m => mkMapping (cookie m) i ty (map_src_id m) (map_in_use m)) <$> v
  | MessageID.Unassign =>
      (fun m => mkMapping (cookie m) 0 NotifyType.Global_ (map_src_id m) (map_in_use m)) <$> v
  end.

(** What a request that succeeds found under a cookie it names: nothing to
    register over, exactly the registration it removes (cookie, id, type and
    owner), something to assign to. *)
Definition abs_allows (mid : MessageID.t) (src : Z) (t : tuple) (v : option NfyMapping) : Prop :=
  let '(c, i, ty) := t in
  match mid with
  | MessageID.Setup | MessageID.Add => v = None
  | MessageID.Destroy | MessageID.Remove => v = Some (mkMapping c i ty src true)
  | MessageID.Assign | MessageID.Unassign => is_Some v
  end.

(** The tuple of the request that names [c]. *)
Definition tuple_for (ts : list tuple) (c : Z) : option tuple :=
  snd <$> list_find (fun t => t.1.1 = c) ts.

(** UUIDs and use of the entries, which no tuple changes. *)
Definition shape es : list (Uuid * bool) := (fun e => (service_uuid e, entry_in_use e)) <$> es.

Definition inv (i : nat) T : Prop := loop_inv i T /\ exact T /\ unique_cookies T.1.

(** One tuple: it was allowed, the invariants are kept and the view changes as
    specified. *)
Definition step_ok (i : nat) (P : tuple -> option NfyMapping -> Prop)
    (f : tuple -> option NfyMapping -> option NfyMapping) (t : tuple) T T' : Prop :=
  P t (view T.1 i t.1.1) /\ inv i T' /\ shape T'.1 = shape T.1 /\
  forall i' c, view T'.1 i' c =
    if decide (i' = i /\ c = t.1.1) then f t (view T.1 i c) else view T.1 i' c.

Lemma shape_set es i j m : shape (set_mapping es i j m) = shape es.
Proof.
  apply list_eq. intros k. unfold shape. rewrite !list_lookup_fmap.
  unfold set_mapping. destruct (decide (i = k)) as [<-|].
  - rewrite list_lookup_alter_eq. by destruct (es !! i).
  - by rewrite list_lookup_alter_ne.
Qed.

Lemma shape_find_entry es b es' b' u :
  shape es = shape es' ->
  nfy_find_entry (mkNotify es b) u = nfy_find_entry (mkNotify es' b') u.
Proof.
  intros Hs. unfold nfy_find_entry, position. cbn [entries].
  assert (forall l, fst <$> list_find (fun e => service_uuid e = u /\ entry_in_use e = true) l =
    fst <$> list_find (fun p : Uuid * bool => p.1 = u /\ p.2 = true) (shape l)) as Hsh.
  { intros l. unfold shape. rewrite list_find_fmap. unfold compose. cbn [fst snd].
    by destruct (list_find _ l) as [[]|]. }
  by rewrite !Hsh, Hs.
Qed.

Lemma find_none_live es bm i c j m :
  tables_wf (es, bm) -> (i < NOTIFY_MAX_SERVICES)%nat ->
  nfy_find_matching_cookie es i c = Ok None -> live es i j m -> cookie m <> c.
Proof.
  intros HT Hi Hf (e & [He Hj] & Hin) Hc.
  rewrite (find_cookie_eq es i c e Hi He) in Hf. injection Hf as Hp.
  apply position_None in Hp. eapply Forall_lookup_1 in Hp; [|done]. by destruct Hp.
Qed.

Lemma found_live es i j e m c :
  unique_cookies es -> found_at es i j e m c ->
  slot es i j e m /\ map_in_use m = true /\ cookie m = c /\ view es i c = Some m.
Proof.
  intros Hu (Hs & [Hin Hc] & _). split_and!; try done.
  apply view_spec; [done|]. exists j. split; [by eapply live_slot|done].
Qed.

(** A found mapping is replaced by a live mapping with the same cookie, or freed. *)
Lemma replace_found T bm' i j e m m' t P (f : tuple -> option NfyMapping -> option NfyMapping) :
  inv i T -> found_at T.1 i j e m t.1.1 -> P t (Some m) ->
  (map_in_use m' = true -> cookie m' = cookie m) ->
  loop_inv i (set_mapping T.1 i j m', bm') -> exact (set_mapping T.1 i j m', bm') ->
  f t (Some m) = (if map_in_use m' then Some m' else None) ->
  step_ok i P f t T (set_mapping T.1 i j m', bm').
Proof.
  intros (HI & Hex & Hu) Hf Hp Hm' HI' Hex' Hft.
  destruct (found_live T.1 i j e m t.1.1 Hu Hf) as (Hs & Hin & Hc & Hv).
  assert (unique_cookies (set_mapping T.1 i j m')) as Hu'.
  { eapply unique_set; [done..|]. intros Hin' j' x Hx Hcx. rewrite (Hm' Hin') in Hcx.
    eapply (Hu i j' j x m); [done|by eapply live_slot|done]. }
  split; [by rewrite Hv|]. split; [by split_and!|]. split; [apply shape_set|].
  intros i' c. cbn [fst]. rewrite (view_set T.1 i j e m m' i' c) by done.
  destruct (decide (i' = i)) as [->|Hi]; [|rewrite decide_False; [done|by intros [? _]]].
  destruct (decide (matches c m')) as [[Hin' Hc']|Hn].
  - rewrite decide_True by (rewrite <- Hc', <- Hc, Hm'; done).
    assert (c = t.1.1) as -> by (rewrite <- Hc', Hm', Hc; done). by rewrite Hv, Hft, Hin'.
  - destruct (decide (matches c m)) as [[_ Hcm]|Hn'].
    + assert (c = t.1.1) as -> by congruence. rewrite decide_True by done.
      rewrite Hv, Hft. destruct (map_in_use m') eqn:Hin'; [|done].
      destruct Hn. split; [done|]. by rewrite Hm'.
    + rewrite decide_False; [done|]. intros [_ ->]. by destruct Hn'.
Qed.

Lemma step_register_ok i src t T T' mid :
  mid = MessageID.Setup \/ mid = MessageID.Add ->
  (i < NOTIFY_MAX_SERVICES)%nat -> is_u 16 src -> tuple_wf t -> inv i T ->
  step_register i src t T T' -> step_ok i (abs_allows mid src) (abs_step mid src) t T T'.
Proof.
  intros Hmid Hi Hsrc Ht (HI & Hex & Hu) Hr.
  assert (loop_inv i T') as HI' by (by eapply registers_wf_step).
  destruct Hr as (j & e & old & Hs & Ho & Hf & Hk & Hz & ->).
  destruct t as [[c k] ty]. destruct T as [es bm]. cbn [fst snd] in *. destruct Ht as [Hc [Hk0 _]].
  set (m := mkMapping c k ty src true) in *.
  assert (forall j' x, live es i j' x -> cookie x <> c) as Hfree
    by (intros; by eapply find_none_live; [apply HI|..]).
  assert (unique_cookies (set_mapping es i j m)) as Hu'.
  { eapply unique_set; [done..|]. intros _ j' x Hx Hcx. by destruct (Hfree j' x). }
  split.
  { assert (view es i c = None) as Hnone.
    { apply eq_None_not_Some. intros [x (j' & Hx & Hcx)%view_spec]; [|done]. by destruct (Hfree j' x). }
    cbn [fst snd]. rewrite Hnone. by destruct Hmid as [-> | ->]. }
  split; [split_and!; try done|split; [apply shape_set|]].
  - eapply exact_claim; try done. right. apply land_bit_zero; done.
  - intros i' c'. cbn [fst snd]. rewrite (view_set es i j e old m i' c') by done.
    destruct (decide (i' = i)) as [->|Hne]; [|rewrite decide_False; [done|by intros [? _]]].
    destruct (decide (matches c' m)) as [[_ <-]|Hn].
    + rewrite decide_True by done. by destruct Hmid as [-> | ->].
    + rewrite decide_False by (intros [? _]; congruence).
      rewrite decide_False; [done|]. intros [_ ->]. by destruct Hn.
Qed.

Lemma step_unregister_ok i src t T T' mid :
  mid = MessageID.Destroy \/ mid = MessageID.Remove ->
  inv i T -> step_unregister i src t T T' -> step_ok i (abs_allows mid src) (abs_step mid src) t T T'.
Proof.
  intros Hmid HT (j & e & m & Hf & Hid & Hty & Hsr & ->). pose proof HT as (HI & Hex & Hu).
  destruct (found_live T.1 i j e m t.1.1 Hu Hf) as (Hs & Hin & Hc & _). destruct T as [es bm].
  destruct (slot_wf es bm i j e m (proj1 HI) Hs) as [(_ & Hidr & _) _]. cbn [fst snd] in *.
  eapply (replace_found (es, bm)); [done..| |done| | |].
  - destruct t as [[c k] ty], m. cbn in *. subst. by destruct Hmid as [-> | ->].
  - split; [|apply entry_live_set, HI]. apply tables_wf_bitmap with bm.
    + destruct Hs. eapply set_mapping_wf; [apply HI|done..|apply mapping_default_wf|by left].
    + apply bitmap_clear; [apply HI|done].
  - by eapply exact_release.
  - destruct t as [[c k] ty]. by destruct Hmid as [-> | ->].
Qed.

(** Ids are changed by a release followed by a claim. *)
Lemma exact_move es bm i j e m m' :
  exact (es, bm) -> slot es i j e m -> map_in_use m = true -> map_in_use m' = true ->
  0 <= id m < 64 -> 0 <= id m' < 64 ->
  id m' = 0 \/ Z.testbit (Z.land bm (unot 64 (Z.shiftl 1 (id m)))) (id m') = false ->
  exact (set_mapping es i j m',
    Z.lor (Z.land bm (unot 64 (Z.shiftl 1 (id m)))) (Z.shiftl 1 (id m'))).
Proof.
  intros Hex Hs Hin Hin' Hid Hid' Hb.
  rewrite <- (set_set_mapping es i j mapping_default m').
  eapply (exact_claim _ _ i j _ mapping_default);
    [by eapply (exact_release es bm i j e m mapping_default)| |done..].
  split; [by apply set_mapping_lookup, Hs|]. cbn [mappings].
  apply list_lookup_insert_eq. by eapply lookup_lt_Some, Hs.
Qed.

Lemma step_assign_ok i src t T T' :
  tuple_wf t -> inv i T -> step_assign i src t T T' ->
  step_ok i (abs_allows MessageID.Assign src) (abs_step MessageID.Assign src) t T T'.
Proof.
  intros Ht HT (j & e & m & Hf & Hk & Hz & ->). pose proof HT as (HI & Hex & Hu).
  destruct (found_live T.1 i j e m t.1.1 Hu Hf) as (Hs & Hin & Hc & _). destruct T as [es bm].
  destruct (slot_wf es bm i j e m (proj1 HI) Hs) as [(_ & Hid & _) _].
  destruct t as [[c k] ty]. cbn [fst snd] in *. destruct Ht as [_ [Hk0 _]].
  eapply (replace_found (es, bm)); [done..|by eexists|done| | |].
  - destruct (set_ids_wf es bm i j e m c k ty HI Hf) as [HT' Hl']; [done|].
    split; [|done]. apply tables_wf_bitmap with bm; [done|].
    apply bitmap_set; [apply bitmap_clear; [apply HI|done]|done].
  - eapply (exact_move es bm i j e m); try done. right. by apply land_bit_zero.
  - cbn. by rewrite Hin.
Qed.

Lemma step_unassign_ok i src t T T' :
  inv i T -> step_unassign i src t T T' ->
  step_ok i (abs_allows MessageID.Unassign src) (abs_step MessageID.Unassign src) t T T'.
Proof.
  intros HT (j & e & m & Hf & ->). pose proof HT as (HI & Hex & Hu).
  destruct (found_live T.1 i j e m t.1.1 Hu Hf) as (Hs & Hin & Hc & _). destruct T as [es bm].
  destruct (slot_wf es bm i j e m (proj1 HI) Hs) as [(_ & Hid & _) _].
  destruct t as [[c k] ty]. cbn [fst snd] in *.
  eapply (replace_found (es, bm)); [done..|by eexists|done| | |].
  - destruct (set_ids_wf es bm i j e m c 0 NotifyType.Global_ HI Hf) as [HT' Hl']; [done|].
    split; [|done]. apply tables_wf_bitmap with bm; [done|].
    apply bitmap_clear; [apply HI|done].
  - eapply exact_bit0; [|eapply (exact_move es bm i j e m); try done; by left].
    intros b Hb. cbn [id]. rewrite Z.lor_spec, (testbit_bit 0) by lia.
    rewrite bool_decide_false by lia. apply orb_false_r.
  - cbn. by rewrite Hin.
Qed.

(** *** Whole requests *)

Lemma tuple_for_cons t ts c :
  tuple_for (t :: ts) c = if decide (t.1.1 = c) then Some t else tuple_for ts c.
Proof.
  unfold tuple_for. cbn [list_find]. case_decide; [done|].
  by destruct (list_find _ ts) as [[]|].
Qed.

Lemma tuple_for_None ts c : c ∉ cookies ts -> tuple_for ts c = None.
Proof.
  intros Hn. unfold tuple_for. rewrite (proj2 (list_find_None _ _)); [done|].
  apply Forall_forall. intros t Ht He. apply Hn, list_elem_of_fmap. by exists t.
Qed.

Lemma steps_ok_all (R : tuple -> Tables -> Tables -> Prop) i P f ts T T' :
  (forall t T T', t ∈ ts -> inv i T -> R t T T' -> step_ok i P f t T T') ->
  NoDup (cookies ts) -> inv i T -> steps R ts T T' ->
  Forall (fun t => P t (view T.1 i t.1.1)) ts /\ inv i T' /\ shape T'.1 = shape T.1 /\
  forall i' c, view T'.1 i' c =
    if decide (i' = i) then
      match tuple_for ts c with Some t => f t (view T.1 i c) | None => view T.1 i c end
    else view T.1 i' c.
Proof.
  revert T. induction ts as [|t ts IH]; intros T HR Hnd HT Hst; cbn [steps] in Hst.
  { subst. split_and!; try done. intros i' c. by case_decide; subst. }
  destruct Hst as (T1 & Hr & Hst).
  destruct (HR t T T1 ltac:(apply list_elem_of_here) HT Hr) as (Hp & HT1 & Hsh1 & Hv1).
  apply NoDup_cons in Hnd as [Hn Hnd].
  destruct (IH T1) as (Hps & HT' & Hsh' & Hv'); [|done|done|done|].
  { intros. apply HR; [by apply list_elem_of_further|done..]. }
  split_and!; [|done|congruence|].
  { constructor; [exact Hp|]. rewrite Forall_forall in Hps |- *. intros x Hx. specialize (Hps x Hx).
    rewrite Hv1, decide_False in Hps; [exact Hps|]. intros [_ Hc]. apply Hn. rewrite <- Hc.
    apply list_elem_of_fmap. by exists x. } intros i' c. rewrite Hv', tuple_for_cons.
  destruct (decide (i' = i)) as [->|Hne].
  - rewrite !Hv1. destruct (decide (t.1.1 = c)) as [<-|Hne].
    + rewrite tuple_for_None by done. by rewrite decide_True.
    + rewrite (decide_False (P := i = i /\ c = t.1.1)) by (intros [_ ?]; congruence).
      done.
  - rewrite Hv1, decide_False; [done|]. by intros [? _].
Qed.

(** ** The service state *)

Implicit Types (n : Notify).

Definition notify_inv n : Prop :=
  notify_wf n /\ exact (tables n) /\ unique_cookies (entries n).

(** The mapping registered for a service and a cookie. *)
Definition notify_view n (u : Uuid) (c : Z) : option NfyMapping :=
  i ← nfy_find_entry n u; view (entries n) i c.

Lemma entry_free_not_live es bm i j e m :
  tables_wf (es, bm) -> es !! i = Some e -> entry_in_use e = false -> ~ live es i j m.
Proof.
  intros (_ & Hf & _) He Hu (e' & [He' Hj] & Hin). cbn in *.
  eapply Forall_lookup_1 in Hf as (_ & _ & Hn); [|done].
  assert (e' = e) as -> by congruence. eapply Forall_lookup_1 in Hn; [|done..]. congruence.
Qed.

Lemma fresh_not_live es i u b j m :
  ~ live (<[i := mkEntry u b (replicate NOTIFY_MAX_MAPPINGS mapping_default)]> es) i j m.
Proof.
  intros (e & [He Hj] & Hin). apply list_lookup_insert_Some in He as [(_ & <- & _)|[? _]]; [|done].
  cbn [mappings] in Hj. apply lookup_replicate in Hj as [-> _]. done.
Qed.

Lemma live_insert_fresh es bm k e u i j m :
  tables_wf (es, bm) -> es !! k = Some e -> entry_in_use e = false ->
  live (<[k := mkEntry u true (replicate NOTIFY_MAX_MAPPINGS mapping_default)]> es) i j m <->
  live es i j m.
Proof.
  intros HT He Hu. destruct (decide (k = i)) as [<-|Hne].
  - split; intros Hl; exfalso; [by eapply fresh_not_live|by eapply entry_free_not_live].
  - unfold live, slot. by setoid_rewrite list_lookup_insert_ne; [|done..].
Qed.

Lemma notify_new_inv : notify_inv notify_new.
Proof.
  assert (forall i j m, ~ live (entries notify_new) i j m) as Hn.
  { intros i j m (e & [He Hj] & Hin). cbn [notify_new entries] in He.
    apply lookup_replicate in He as [-> _]. cbn [entry_default mappings] in Hj.
    apply lookup_replicate in Hj as [-> _]. done. }
  split_and!; [apply notify_new_wf| |].
  - intros b Hb. cbn [tables fst snd]. split.
    + cbn [notify_new global_bitmap]. rewrite Z.bits_0. split; [done|].
      intros (i & j & m & Hl & _). by destruct (Hn i j m).
    + intros i j m i' j' m' Hl. by destruct (Hn i j m).
  - intros i j j' m m' Hl. by destruct (Hn i j m).
Qed.

Lemma find_entry_uuid n u i :
  nfy_find_entry n u = Some i ->
  exists e, entries n !! i = Some e /\ service_uuid e = u /\ entry_in_use e = true.
Proof. intros (e & He & [Hu Hi] & _)%position_Some. eauto. Qed.

Lemma find_or_create_view n u i n' :
  notify_inv n -> find_or_create_entry n u = (Some i, n') ->
  notify_inv n' /\ loop_inv i (tables n') /\ (i < NOTIFY_MAX_SERVICES)%nat /\
  nfy_find_entry n' u = Some i /\ global_bitmap n' = global_bitmap n /\
  forall u' c, notify_view n' u' c = notify_view n u' c.
Proof.
  intros (Hwf & Hex & Hu) Hf.
  pose proof (find_or_create_wf n u Hwf) as Hc. rewrite Hf in Hc. destruct Hc as (Hwf' & Hi & Hlive).
  unfold find_or_create_entry in Hf. destruct (nfy_find_entry n u) as [k|] eqn:Hk.
  { simplify_eq. split_and!; done. }
  destruct (nfy_find_empty_slot n) as [k|] eqn:He; [|done]. simplify_eq.
  apply position_Some in He as (e & He & Hfree & _).
  pose proof (fun a j m => live_insert_fresh (entries n) (global_bitmap n) i e u a j m Hwf He Hfree)
    as Hl.
  set (fresh := mkEntry u true _) in *.
  assert (nfy_find_entry (mkNotify (<[i := fresh]> (entries n)) (global_bitmap n)) u = Some i) as Hfe.
  { apply position_insert_new; [done|done|by eapply lookup_lt_Some]. }
  split; [split; [done|split]|].
  - intros b Hb. destruct (Hex b Hb) as [H1 H2]. cbn [tables fst snd entries global_bitmap] in *.
    split; [by setoid_rewrite Hl|]. intros a j m a' j' m'. rewrite !Hl. apply H2.
  - cbn [entries]. intros a j j' m m'. rewrite !Hl. apply Hu.
  - split; [by split|]. split; [done|]. split; [done|]. split; [done|]. intros u' c. unfold notify_view. destruct (decide (u' = u)) as [->|Hne].
    + rewrite Hfe, Hk. cbn [mbind option_bind entries].
      apply eq_None_not_Some. intros [m (j & Hlv & _)%view_spec].
      * by eapply fresh_not_live.
      * intros a j j' x x'. rewrite !Hl. apply Hu.
    + assert (nfy_find_entry (mkNotify (<[i := fresh]> (entries n)) (global_bitmap n)) u' =
        nfy_find_entry n u') as ->.
      { unfold nfy_find_entry, position. cbn [entries].
        rewrite position_insert_ne; [done|by intros [? _]|].
        intros y Hy [_ ?]. congruence. }
      destruct (nfy_find_entry n u') as [k|] eqn:Hk'; [|done]. cbn [mbind option_bind entries].
      destruct (find_entry_uuid n u' k Hk') as (e' & He' & _ & Hin').
      unfold view. rewrite list_lookup_insert_ne; [done|]. intros ->. congruence.
Qed.

(** *** Early returns carry an error *)

Lemma for_each_err {S} body ts (s : S) c :
  (forall t s c, body t s = Err c -> c <> ErrorCode.Ok) ->
  for_each body ts s = Err c -> c <> ErrorCode.Ok.
Proof.
  intros Hb. revert s. induction ts as [|t ts IH]; intros s Hr; [done|]. cbn [for_each] in Hr.
  destruct (body t s) as [s'|c'| |] eqn:Hbt; cbn in Hr; simplify_eq; eauto.
Qed.

Lemma find_cookie_no_err es i c er : nfy_find_matching_cookie es i c <> Err er.
Proof. unfold nfy_find_matching_cookie. case_decide; [done|]. by destruct (es !! i). Qed.

(** Finds the early return that produced an error. *)
Ltac solve_early_return :=
  repeat (first
    [ progress cbn [mbind outcome_bind or_panic] in *
    | progress simplify_eq
    | match goal with
      | Hr : context [nfy_find_matching_cookie ?es ?i ?c] |- _ =>
          pose proof (find_cookie_no_err es i c);
          destruct (nfy_find_matching_cookie es i c) as [[?|]|?| |]
      | Hr : context [or_panic ?o] |- _ => destruct o
      | Hr : context [match ?x with _ => _ end] |- _ => destruct x eqn:?
      end ]); try done;
  try match goal with Hn : forall er, Err _ <> Err er |- _ => by destruct (Hn _ eq_refl) end.

Lemma register_tuple_err self i src t T c :
  register_tuple self i src t T = Err c -> c <> ErrorCode.Ok.
Proof. unfold register_tuple. destruct t as [[? ?] ?], T. intros Hr. solve_early_return. Qed.

Lemma unregister_tuple_err self i src t T c :
  unregister_tuple self i src t T = Err c -> c <> ErrorCode.Ok.
Proof.
  unfold unregister_tuple, get_mapping. destruct t as [[? ?] ?], T. intros Hr. solve_early_return.
Qed.

Lemma assign_check_err self i t b c : assign_check self i t b = Err c -> c <> ErrorCode.Ok.
Proof.
  unfold assign_check, get_mapping. destruct t as [[? ?] ?]. intros Hr. solve_early_return.
Qed.

Lemma unassign_check_err self i t s c : unassign_check self i t s = Err c -> c <> ErrorCode.Ok.
Proof. unfold unassign_check. destruct t as [[? ?] ?]. intros Hr. solve_early_return. Qed.

Lemma commit_inv n r c n' :
  commit n r = Ok (c, n') ->
  (exists T, r = Ok T /\ c = ErrorCode.Ok /\ n' = of_tables T) \/ (r = Err c /\ n' = n).
Proof. destruct r as [T|c'| |]; cbn; intros; simplify_eq; eauto 10. Qed.

(** The view after a request with status [c]. *)
Definition abs_request (mid : MessageID.t) (req : NotifyReq) (c : ErrorCode.t)
    (v : Uuid -> Z -> option NfyMapping) (u : Uuid) (k : Z) : option NfyMapping :=
  if decide (c = ErrorCode.Ok /\ u = receiver_uuid req) then
    match tuple_for (req_tuples req) k with
    | Some t => abs_step mid (src_id req) t (v u k)
    | None => v u k
    end
  else v u k.

Definition distinct_cookies (req : NotifyReq) : Prop := NoDup (cookies (req_tuples req)).

(** What a handler guarantees about the state it leaves. *)
Definition request_ok mid req n c n' : Prop :=
  notify_inv n' /\ (c <> ErrorCode.Ok -> global_bitmap n' = global_bitmap n) /\
  (c = ErrorCode.Ok ->
   Forall (fun t => abs_allows mid (src_id req) t (notify_view n (receiver_uuid req) t.1.1)) (req_tuples req)) /\
  forall u k, notify_view n' u k = abs_request mid req c (notify_view n) u k.

Lemma request_refused mid req n c : notify_inv n -> c <> ErrorCode.Ok -> request_ok mid req n c n.
Proof.
  intros Hn Hc. split_and!; [done..|]. intros u k. unfold abs_request.
  rewrite decide_False; [done|]. by intros [? _].
Qed.

Lemma request_done mid req n i (R : tuple -> Tables -> Tables -> Prop) T' :
  notify_inv n -> loop_inv i (tables n) -> nfy_find_entry n (receiver_uuid req) = Some i ->
  distinct_cookies req ->
  (forall t T T', t ∈ req_tuples req -> inv i T -> R t T T' ->
     step_ok i (abs_allows mid (src_id req)) (abs_step mid (src_id req)) t T T') ->
  steps R (req_tuples req) (tables n) T' ->
  request_ok mid req n ErrorCode.Ok (of_tables T').
Proof.
  intros (Hwf & Hex & Hu) HI Hfe Hnd HR Hst.
  destruct (steps_ok_all R i (abs_allows mid (src_id req)) (abs_step mid (src_id req)) (req_tuples req)
    (tables n) T') as (Hall & ((HT' & Hl') & Hex' & Hu') & Hsh & Hv); [done|done|by split_and!|done|].
  destruct T' as [es' bm']. split_and!; [by split_and!|done| |].
  { intros _. unfold notify_view. rewrite Hfe. exact Hall. } intros u k.
  change (of_tables (es', bm')) with (mkNotify es' bm').
  unfold notify_view, abs_request. cbn [fst snd entries] in *.
  rewrite (shape_find_entry es' bm' (entries n) (global_bitmap n) u) by done.
  change (mkNotify (entries n) (global_bitmap n)) with (of_tables (tables n)).
  assert (of_tables (tables n) = n) as -> by (by destruct n).
  destruct (decide (u = receiver_uuid req)) as [->|Hne].
  - rewrite decide_True by done. rewrite Hfe. cbn [mbind option_bind].
    rewrite Hv, decide_True by done. done.
  - rewrite decide_False by (by intros [_ ?]).
    destruct (nfy_find_entry n u) as [i'|] eqn:Hfe'; [|done]. cbn [mbind option_bind].
    rewrite Hv, decide_False; [done|]. intros ->.
    destruct (find_entry_uuid n u i Hfe') as (e & He & <- & _).
    destruct (find_entry_uuid n (receiver_uuid req) i Hfe) as (e' & He' & Hne' & _). congruence.
Qed.

Lemma found_of_view es bm i c m :
  tables_wf (es, bm) -> (i < NOTIFY_MAX_SERVICES)%nat -> unique_cookies es ->
  view es i c = Some m -> exists j e, found_at es i j e m c.
Proof.
  intros HT Hi Hu Hv. apply view_spec in Hv as (j & (e & Hs & Hin) & Hc); [|done].
  exists j, e. split_and!; [done|done|].
  rewrite (find_cookie_eq es i c e Hi (proj1 Hs)). unfold position.
  by rewrite (list_find_matches es i c e j m).
Qed.

Lemma register_request_refines mid msg_id n req c n' :
  mid = MessageID.Setup \/ mid = MessageID.Add ->
  notify_inv n -> req_wf req -> distinct_cookies req ->
  register_request msg_id n req = Ok (respond msg_id req c, n') ->
  request_ok mid req n c n'.
Proof.
  intros Hmid Hn Hreq Hnd. unfold register_request. destruct (count_ok req); cbn [negb].
  2: { intros [= <- <-]. by apply request_refused. }
  destruct (find_or_create_entry n (receiver_uuid req)) as [[i|] n1] eqn:Hf.
  2: { pose proof (find_or_create_wf n (receiver_uuid req) (proj1 Hn)) as He. rewrite Hf in He.
       subst. intros [= <- <-]. by apply request_refused. }
  destruct (find_or_create_view n _ i n1 Hn Hf) as (Hn1 & HI & Hi & Hfe & Hbm & Hv).
  intros (c' & Hr & [= <-])%bind_respond. unfold nfy_register_mapping in Hr.
  rewrite decide_False in Hr by lia.
  apply commit_inv in Hr as [(T & Hr & -> & ->)|[Hr ->]].
  - assert (request_ok mid req n1 ErrorCode.Ok (of_tables T)) as (Ha & _ & Hal & Hc).
    { eapply (request_done mid req n1 i (step_register i (src_id req))); try done.
      - intros t T0 T1 Ht. apply step_register_ok; try done; [apply Hreq|].
        destruct Hreq as (_ & Hts & _). rewrite Forall_forall in Hts. by apply Hts.
      - eapply register_steps; try done; apply Hreq || apply Hn1. }
    split_and!; [done|done| |].
    { intros Hok. eapply Forall_impl; [by apply Hal|]. cbv beta. intros t. by rewrite Hv. }
    intros u k. rewrite Hc. unfold abs_request. by rewrite Hv.
  - apply for_each_err in Hr; [|intros *; apply register_tuple_err].
    split_and!; [done|done|done|]. intros u k. unfold abs_request.
    rewrite decide_False by (by intros [? _]). apply Hv.
Qed.

Lemma unregister_request_refines mid msg_id n req c n' :
  mid = MessageID.Destroy \/ mid = MessageID.Remove ->
  notify_inv n -> req_wf req -> distinct_cookies req ->
  unregister_request msg_id n req = Ok (respond msg_id req c, n') ->
  request_ok mid req n c n'.
Proof.
  intros Hmid Hn Hreq Hnd. unfold unregister_request.
  destruct (nfy_find_entry n (receiver_uuid req)) as [i|] eqn:Hf.
  2: { intros [= <- <-]. by apply request_refused. }
  destruct (find_entry_Some n _ i (proj1 Hn) Hf) as [Hi Hlive].
  intros (c' & Hr & [= <-])%bind_respond. unfold nfy_unregister_mapping in Hr.
  rewrite decide_False in Hr by lia.
  apply commit_inv in Hr as [(T & Hr & -> & ->)|[Hr ->]].
  - eapply (request_done mid req n i (step_unregister i (src_id req))); try done.
    + split; [apply Hn|done].
    + intros t T0 T1 _. by apply step_unregister_ok.
    + eapply unregister_steps; try done; [apply Hn|]. split; [apply Hn|done].
  - apply for_each_err in Hr; [|intros *; apply unregister_tuple_err].
    by apply request_refused.
Qed.

Lemma assign_refines n req c n' :
  notify_inv n -> req_wf req -> distinct_cookies req ->
  nfy_assign n req = Ok (respond MessageID.Assign req c, n') ->
  request_ok MessageID.Assign req n c n'.
Proof.
  intros Hn Hreq Hnd. unfold nfy_assign.
  destruct (nfy_find_entry n (receiver_uuid req)) as [i|] eqn:Hf.
  2: { intros [= <- <-]. by apply request_refused. }
  destruct (find_entry_Some n _ i (proj1 Hn) Hf) as [Hi Hlive].
  intros (c' & Hr & [= <-])%bind_respond.
  assert (loop_inv i (entries n, global_bitmap n)) as HI by (split; [apply Hn|done]).
  pose proof (assign_check_settles (entries n) (global_bitmap n) i (req_tuples req)
    (global_bitmap n) (proj1 HI) Hi (proj1 (proj2 Hreq)) (proj2 (proj2 (proj1 HI)))) as Hchk.
  destruct (for_each (assign_check (entries n) i) (req_tuples req) (global_bitmap n))
    as [b|er| |] eqn:Hc; try done; cbn [mbind outcome_bind] in Hr.
  - destruct Hchk as [_ Hall].
    destruct (assign_apply_settles (entries n) (global_bitmap n) i (req_tuples req) HI Hi
      (proj1 (proj2 Hreq)) Hall) as (es' & Hap & _).
    rewrite Hap in Hr. cbn [mbind outcome_bind commit] in Hr. simplify_eq.
    eapply (request_done _ req n i (step_assign i (src_id req))); try done.
    + intros t T0 T1 Ht. apply step_assign_ok.
      destruct Hreq as (_ & Hts & _). rewrite Forall_forall in Hts. by apply Hts.
    + eapply assign_steps; try done; [apply HI|apply Hreq|].
      intros t Ht. rewrite Forall_forall in Hall. destruct (Hall t Ht) as (_ & j & e & m & ?).
      by exists j, e, e, m.
  - cbn [commit] in Hr. simplify_eq. apply for_each_err in Hc; [|intros *; apply assign_check_err].
    by apply request_refused.
Qed.

Lemma unassign_refines n req c n' :
  notify_inv n -> req_wf req -> distinct_cookies req ->
  nfy_unassign n req = Ok (respond MessageID.Unassign req c, n') ->
  request_ok MessageID.Unassign req n c n'.
Proof.
  intros Hn Hreq Hnd. unfold nfy_unassign.
  destruct (nfy_find_entry n (receiver_uuid req)) as [i|] eqn:Hf.
  2: { intros [= <- <-]. by apply request_refused. }
  destruct (find_entry_Some n _ i (proj1 Hn) Hf) as [Hi Hlive].
  intros (c' & Hr & [= <-])%bind_respond.
  assert (loop_inv i (tables n)) as HI by (split; [apply Hn|done]).
  destruct (for_each (unassign_check (entries n) i) (req_tuples req) tt)
    as [[]|er| |] eqn:Hc; cbn [mbind outcome_bind] in Hr; try done.
  - apply commit_inv in Hr as [(T & Hr & -> & ->)|[Hr ->]].
    + eapply (request_done _ req n i (step_unassign i (src_id req))); try done.
      * intros t T0 T1 _. by apply step_unassign_ok.
      * by eapply unassign_steps.
    + exfalso. pose proof (unassign_check_settles (entries n) (global_bitmap n) i (req_tuples req)
        (proj1 HI) Hi) as Hs. rewrite Hc in Hs.
      destruct (unassign_apply_settles (entries n) (global_bitmap n) i (req_tuples req) HI Hi Hs)
        as (T' & Hap & _).
      change (entries n, global_bitmap n) with (tables n) in Hap. congruence.
  - cbn [commit] in Hr. simplify_eq. apply for_each_err in Hc; [|intros *; apply unassign_check_err].
    by apply request_refused.
Qed.
End Spec.

(** ** Concrete requests *)

#[local] Existing Instance uuid_model.

Definition svc_a : Uuid := uuid_lit 0x25cb5207ac36427daaef3aa78877d27e.
Definition svc_b : Uuid := uuid_lit 0x31f56da7593c4d72a4b38fc7171ac073.

Definition sample_req (receiver : Uuid) (ts : list tuple) : NotifyReq :=
  {| src_id := 1; sender_uuid := uuid_nil; receiver_uuid := receiver; msg_info := 0;
     count := Z.of_nat (length ts);
     notifications := ts ++ replicate (7 - length ts) (0, 0, NotifyType.Global_) |}.

(** The state after a list of requests, when all of them succeed. *)
Fixpoint run_requests (n : Notify) (l : list (MessageID.t * NotifyReq)) : option Notify :=
  match l with
  | [] => Some n
  | (mid, req) :: l =>
      match notify_dispatch mid n req with
      | Ok (rsp, n') => if decide (rsp_status rsp = ErrorCode.Ok) then run_requests n' l else None
      | _ => None
      end
  end.

(** A live mapping with content [m] in slot [(i, j)], as a test. *)
Definition live_at (n : Notify) (i j : nat) (m : NfyMapping) : bool :=
  match entries n !! i with
  | Some e => bool_decide (mappings e !! j = Some m) && map_in_use m
  | None => false
  end.

Lemma live_at_live n i j m : live_at n i j m = true -> live (entries n) i j m.
Proof.
  unfold live_at. destruct (entries n !! i) as [e|] eqn:He; [|done].
  intros [Hb Hu]%andb_true_iff. apply bool_decide_eq_true in Hb. by exists e.
Qed.

Definition two_tuples : list tuple := [(5, 1, NotifyType.Global_); (6, 2, NotifyType.PerVcpu)].

Lemma two_tuples_wf : req_wf (sample_req svc_a two_tuples) /\
  distinct_cookies (sample_req svc_a two_tuples).
Proof.
  split.
  - split; [split; done|]. split; [|split; [split; done|done]].
    apply Forall_cons; split; [split; split; done|].
    apply Forall_cons; split; [split; split; done|constructor].
  - apply (bool_decide_unpack _). vm_compute. exact I.
Qed.

(** The state that a list of requests leads to. *)
Definition after (l : list (MessageID.t * NotifyReq)) : Notify :=
  default notify_new (run_requests notify_new l).

Lemma run_after l : bool_decide (is_Some (run_requests notify_new l)) = true ->
  run_requests notify_new l = Some (after l).
Proof. intros [n Hn]%bool_decide_eq_true. unfold after. by rewrite Hn. Qed.

Definition setup_requests : list (MessageID.t * NotifyReq) :=
  [(MessageID.Setup, sample_req svc_a two_tuples)].

Lemma run_setup : notify_dispatch MessageID.Setup notify_new (sample_req svc_a two_tuples) =
  Ok (respond MessageID.Setup (sample_req svc_a two_tuples) ErrorCode.Ok, after setup_requests).
Proof. apply (bool_decide_unpack _). vm_compute. exact I. Qed.

(** All live mappings have id [k], as a test. *)
Definition all_ids (n : Notify) (k : Z) : bool :=
  forallb (fun e => forallb (fun m => negb (map_in_use m) || (id m =? k)) (mappings e)) (entries n).

Lemma all_ids_live n k i j m : all_ids n k = true -> live (entries n) i j m -> id m = k.
Proof.
  intros Ha (e & [He Hj] & Hin). unfold all_ids in Ha. rewrite forallb_forall in Ha.
  specialize (Ha e (proj1 (list_elem_of_In _ _) (list_elem_of_lookup_2 _ _ _ He))).
  rewrite forallb_forall in Ha.
  specialize (Ha m (proj1 (list_elem_of_In _ _) (list_elem_of_lookup_2 _ _ _ Hj))).
  rewrite Hin in Ha. by apply Z.eqb_eq in Ha.
Qed.

Definition repeated_setup : list (MessageID.t * NotifyReq) :=
  [(MessageID.Setup, sample_req svc_a [(5, 1, NotifyType.Global_); (5, 2, NotifyType.Global_)])].

Definition repeated_assign : list (MessageID.t * NotifyReq) :=
  [(MessageID.Setup, sample_req svc_a [(5, 1, NotifyType.Global_)]);
   (MessageID.Assign, sample_req svc_a [(5, 7, NotifyType.Global_); (5, 8, NotifyType.Global_)])].

Definition unassign_twice : list (MessageID.t * NotifyReq) :=
  [(MessageID.Setup, sample_req svc_a [(5, 0, NotifyType.Global_); (6, 3, NotifyType.Global_)]);
   (MessageID.Unassign, sample_req svc_a [(6, 0, NotifyType.Global_)]);
   (MessageID.Unassign, sample_req svc_a [(6, 0, NotifyType.Global_)]);
   (MessageID.Setup, sample_req svc_b [(9, 0, NotifyType.Global_)])].

(** ** Properties *)

(** C2: Refinement of the notification service: on a state that satisfies the
    invariants, every request whose cookies are distinct either reports an
    error and changes no registration and no bitmap bit, or reports success and
    changes exactly the registrations of the receiver service that it names,
    as the abstract specification of its message id says, and nothing of any
    other service.  A success means that each of its cookies was free to be
    registered, had exactly the registration to be removed (the same id, type
    and owner), or had one to assign to.  The invariants are kept: the tables are well formed, no
    two live mappings of a service share a cookie, and for every id from 1 to
    63 the bitmap bit is set exactly when one live mapping has the id. *)
Theorem notify_refines_spec `{UuidOps} mid (n : Notify) req c n' :
  notify_inv n -> req_wf req -> distinct_cookies req ->
  notify_dispatch mid n req = Ok (respond mid req c, n') ->
  notify_inv n' /\
  (c <> ErrorCode.Ok -> global_bitmap n' = global_bitmap n) /\
  (c = ErrorCode.Ok ->
   Forall (fun t => abs_allows mid (src_id req) t (notify_view n (receiver_uuid req) t.1.1)) (req_tuples req)) /\
  forall u k, notify_view n' u k = abs_request mid req c (notify_view n) u k.
Proof.
  intros Hn Hreq Hnd. destruct mid; cbn [notify_dispatch].
  - apply register_request_refines; auto.
  - apply unregister_request_refines; auto.
  - apply register_request_refines; auto.
  - apply unregister_request_refines; auto.
  - by apply assign_refines.
  - by apply unassign_refines.
Qed.

Lemma notify_refines_spec_witness :
  notify_inv (after setup_requests) /\
  notify_view (after setup_requests) svc_a 6 = Some (mkMapping 6 2 NotifyType.PerVcpu 1 true).
Proof.
  destruct (notify_refines_spec MessageID.Setup notify_new (sample_req svc_a two_tuples)
    ErrorCode.Ok (after setup_requests) notify_new_inv (proj1 two_tuples_wf) (proj2 two_tuples_wf) run_setup)
    as (Hinv & _ & _ & Hv).
  split; [exact Hinv|]. rewrite Hv. vm_compute. reflexivity.
Defined.

(** C32: The notification handler, from registers to registers: on a
    well-formed request and state it never panics, and either rejects an
    unknown message id (bits 0 to 2 of register 5 being 6 or 7) without
    touching the state, or answers with the response message id in register 5
    and the status in register 6; registers 1 to 4 of the response are the
    request's with their bytes reversed. *)
Theorem notify_handler_responds `{UuidLaws} {W} msg (n : Notify) (w : W) :
  message_wf (req_message msg) -> notify_wf n ->
  exists result n', notify_handle msg (n, w) = (result, (n', w)) /\ notify_wf n' /\
    notify_effect msg n n' result.
Proof. apply notify_handle_effect. Qed.

Lemma notify_handler_responds_witness :
  exists result n', notify_handle (req_new 2 1 svc_a (payload sample_message)) (notify_new, tt)
    = (result, (n', tt)) /\ notify_wf n'.
Proof.
  destruct (notify_handler_responds (req_new 2 1 svc_a (payload sample_message)) notify_new tt)
    as (result & n' & Hh & Hwf & _).
  - split; [split; done|]. split; [split; done|]. apply sample_message_wf.
  - apply notify_new_wf.
  - exists result, n'. split; [exact Hh|exact Hwf].
Defined.

(** The conflict check of a registration looks the cookies up in the old
    tables only: one Setup request that names the same cookie twice with two
    ids succeeds and leaves two live mappings with that cookie; one Assign
    request that names a cookie twice succeeds and leaves a bitmap bit set
    that no mapping owns.  Both states violate the invariants, so the
    distinctness the refinement theorem asks for cannot be dropped. *)
Lemma notify_repeated_cookies_break_invariants :
  (exists n, run_requests notify_new repeated_setup = Some n /\ ~ unique_cookies (entries n)) /\
  (exists n, run_requests notify_new repeated_assign = Some n /\ ~ exact (tables n)).
Proof.
  split.
  - exists (after repeated_setup). split; [by apply run_after; vm_compute|]. intros Hu.
    assert (0%nat = 1%nat); [|done].
    eapply (Hu 0%nat 0%nat 1%nat (mkMapping 5 1 NotifyType.Global_ 1 true)
      (mkMapping 5 2 NotifyType.Global_ 1 true)); [..|done];
      apply live_at_live; vm_compute; reflexivity.
  - exists (after repeated_assign). split; [by apply run_after; vm_compute|]. intros Hex.
    destruct (Hex 7) as [[Hbit _] _]; [lia|].
    destruct Hbit as (i & j & m & Hl & Hm); [vm_compute; reflexivity|].
    rewrite (all_ids_live (after repeated_assign) 8 i j m) in Hm; [done| |done].
    vm_compute. reflexivity.
Qed.

(** Unassign leaves the mapping live with id 0 without claiming bit 0, and
    a later Unassign (or Assign) of the same mapping clears bit 0 although
    another mapping owns it: after two Unassign requests a second service can
    register id 0 that the first one still holds. *)
Lemma notify_id0_shared :
  exists n, run_requests notify_new unassign_twice = Some n /\
    notify_view n svc_a 5 = Some (mkMapping 5 0 NotifyType.Global_ 1 true) /\
    notify_view n svc_b 9 = Some (mkMapping 9 0 NotifyType.Global_ 1 true).
Proof.
  exists (after unassign_twice). split; [by apply run_after; vm_compute|].
  split; vm_compute; reflexivity.
Qed.
