(* ===== verification/EcRelay.v ===== *)
(** The ODP-over-MCTP relay ([ec-service-lib/src/services/ec_relay.rs]): the
    ODP header, the fixed-size body parsers, the serial transport and the
    request/response round trip with its envelope checks.

    Outside the repository and therefore parameters: the UART behind
    [embedded_io] ([UartIo]) and the [mctp_rs] crate ([MctpOps]).  [Relay] is
    the interface the services use; [RelayLaws] is its promise to them. *)
From Stdlib Require Import ZArith Lia.
From S2P Require Import Prelude.
#[local] Open Scope Z_scope.

Definition ODP_MESSAGE_TYPE : Z := 0x7D.

(** ** Errors *)

Module EcRelayError.
Inductive t : Type :=
  | TransportWrite
  | TransportRead
  | TransportReadTimeout
  | MctpSerialize (s : string)
  | MctpDecode (s : string)
  | MctpRecvIncomplete
  | UnexpectedMessageType
  | UnexpectedOdpService
  | OdpHeaderParse (s : string)
  | UnexpectedOdpRequest
  | Remote (code : Z)
  | BodyTooShort
  | BodyTooLong.

#[export] Instance eq_dec : EqDecision t.
Proof. solve_decision. Defined.
End EcRelayError.
Export (hints) EcRelayError.

Abbreviation relay_result := (outcome EcRelayError.t).

(** ** Header and bodies *)

Definition build_odp_header (is_request : bool) (service_id message_id : Z) : list Z :=
  let raw := if is_request then Z.lor 0 (Z.shiftl 1 25) else 0 in
  let raw := Z.lor raw (Z.shiftl service_id 16) in
  let raw := Z.lor raw (Z.land message_id 0x7FFF) in
  to_be_bytes 4 raw.

Definition parse_odp_header (bytes : list Z) : outcome string (bool * Z * bool * Z) :=
  if decide (length bytes < 4)%nat then Err "OdpHeader buffer < 4 bytes"
  else
    let raw := from_be_bytes (take 4 bytes) in
    let is_request := bool_decide (Z.land raw (Z.shiftl 1 25) <> 0) in
    let service_id := trunc 8 (Z.land (Z.shiftr raw 16) 0xFF) in
    let is_error := bool_decide (Z.land raw (Z.shiftl 1 15) <> 0) in
    let message_id := trunc 16 (Z.land raw 0x7FFF) in
    Ok (is_request, service_id, is_error, message_id).

Definition take_array (n : nat) (body : list Z) : relay_result (list Z * list Z) :=
  if decide (n <= length body)%nat then Ok (take n body, drop n body)
  else Err EcRelayError.BodyTooShort.

Definition take_exact_array (n : nat) (body : list Z) : relay_result (list Z) :=
  '(exact, rest) ← take_array n body;
  match rest with
  | [] => Ok exact
  | _ => Err EcRelayError.BodyTooLong
  end.

(** ** The [mctp_rs] crate *)

(** [MctpPacketError]; the payloads the relay does not look at are left out. *)
Inductive MctpPacketError : Type :=
  | HeaderParseError (s : string)
  | SerializeError (s : string)
  | CommandParseError (s : string)
  | MediumError
  | ProtocolError
  | UnsupportedMessageType.

Definition mctp_error_str (e : MctpPacketError) : string :=
  match e with
  | HeaderParseError s => s
  | SerializeError s => s
  | CommandParseError s => s
  | MediumError => "medium error"
  | ProtocolError => "protocol error"
  | UnsupportedMessageType => "unsupported message type"
  end.

Record MctpReplyContext : Type := {
  source_endpoint_id : Z;
  destination_endpoint_id : Z;
  packet_sequence_number : Z;
  message_tag : Z;
}.

Definition serial_reply_context (src dst : Z) : MctpReplyContext :=
  {| source_endpoint_id := src; destination_endpoint_id := dst;
     packet_sequence_number := 0; message_tag := 0 |}.

(** A writer into a buffer of the given length. *)
Abbreviation serializer := (nat -> outcome MctpPacketError (list Z)).

(** [impl MctpMessageHeaderTrait for OdpRawHeader] *)
Definition odp_header_serialize (h : list Z) : serializer := fun buffer_len =>
  if decide (buffer_len < 4)%nat then Err (SerializeError "buffer too small for odp raw header")
  else Ok h.

Definition odp_header_deserialize (buffer : list Z) : outcome MctpPacketError (list Z * list Z) :=
  if decide (length buffer < 4)%nat then Err (HeaderParseError "buffer too small for odp raw header")
  else Ok (take 4 buffer, drop 4 buffer).

(** [impl MctpMessageTrait for OdpRawMessage] *)
Definition odp_message_serialize (b : list Z) : serializer := fun buffer_len =>
  if decide (buffer_len < length b)%nat then Err (SerializeError "buffer too small for odp raw body")
  else Ok b.

Definition odp_message_deserialize (h buffer : list Z) : outcome MctpPacketError (list Z) := Ok buffer.

(** [MctpPacketContext::<MctpSerialMedium>]: [serialize_packet] with the message
    type, header and body writers and the length of the transmit buffer gives
    the packets its iterator yields; [deserialize_packet] with the assembly
    buffer gives the message type and body of a completed message. *)
Class MctpOps := {
  SP_EID : Z;
  EC_EID : Z;
  serialize_packet : MctpReplyContext -> Z -> serializer -> serializer -> nat ->
    MctpPacketError + list (MctpPacketError + list Z);
  deserialize_packet : list Z -> list Z ->
    (MctpPacketError + option (Z * list Z)) * list Z;
}.

(** ** Transports *)

(** [embedded_io::ErrorKind] and [ReadExactError], as far as the code tells them apart. *)
Inductive IoErrorKind : Type := TimedOut | OtherKind.
Inductive ReadExactError : Type := UnexpectedEof | OtherError (k : IoErrorKind).

(** [write_all] and a one-byte [read_exact] of an [embedded_io] UART. *)
Class UartIo (U : Type) := {
  write_all : list Z -> stM U IoErrorKind unit;
  read_byte : stM U ReadExactError Z;
}.

(** [send_packet], and [recv_framed_packet] into a buffer of the given length,
    which returns the bytes it put at the start of the buffer. *)
Class OdpTransport (T : Type) := {
  send_packet : list Z -> stM T EcRelayError.t unit;
  recv_framed_packet : nat -> stM T EcRelayError.t (list Z);
}.

Record MctpSerialTransport (U : Type) : Type := mkTransport { uart : U }.
Arguments mkTransport {U} uart.
Arguments uart {U}.

Definition SERIAL_END_FLAG : Z := 0x7E.

Section Serial.
Context {U : Type} `{UartIo U}.

(** A UART operation on the transport's UART. *)
Definition on_uart {E A} (m : stM U E A) : stM (MctpSerialTransport U) E A := fun t =>
  let '(a, u) := m (uart t) in (a, mkTransport u).

Definition serial_send_packet (packet : list Z) : stM (MctpSerialTransport U) EcRelayError.t unit :=
  st_map_err (fun _ => EcRelayError.TransportWrite) (on_uart (write_all packet)).

Definition read_error (e : ReadExactError) : EcRelayError.t :=
  match e with
  | OtherError TimedOut => EcRelayError.TransportReadTimeout
  | _ => EcRelayError.TransportRead
  end.

Definition serial_read_byte : stM (MctpSerialTransport U) EcRelayError.t Z :=
  st_map_err read_error (on_uart read_byte).

(** The loop of [recv_framed_packet] with [room] bytes of the buffer left. *)
Fixpoint recv_loop (room : nat) (filled : list Z) :
    stM (MctpSerialTransport U) EcRelayError.t (list Z) :=
  match room with
  | O => lift (Err EcRelayError.MctpRecvIncomplete)
  | S room =>
      byte ← serial_read_byte;
      let filled := filled ++ [byte] in
      if decide (byte = SERIAL_END_FLAG) then mret filled else recv_loop room filled
  end.

#[export] Instance serial_transport : OdpTransport (MctpSerialTransport U) := {|
  send_packet := serial_send_packet;
  recv_framed_packet buf_len := recv_loop buf_len [];
|}.
End Serial.

(** ** The relay *)

Record OdpResponse : Type := {
  resp_is_request : bool;
  resp_service_id : Z;
  resp_is_error : bool;
  resp_message_id : Z;
  resp_body : list Z;
}.

(** The trait [Relay] over the world [W] that holds the shared channel. *)
Class Relay (W : Type) := invoke : forall R : Type,
  list Z -> list Z -> (OdpResponse -> relay_result R) -> stM W EcRelayError.t R.

Section RelayDefs.
Context {W : Type} `{Relay W}.

Definition check_response {R} (service_id expected_response_message_id : Z)
    (parse_body : list Z -> relay_result R) (response : OdpResponse) : relay_result R :=
  if resp_is_request response then Err EcRelayError.UnexpectedOdpRequest
  else if decide (resp_service_id response <> service_id) then Err EcRelayError.UnexpectedOdpService
  else if resp_is_error response then Err (EcRelayError.Remote (resp_message_id response))
  else if decide (resp_message_id response <> expected_response_message_id)
  then Err EcRelayError.UnexpectedOdpService
  else parse_body (resp_body response).

Definition invoke_request_with_response_id {R} (service_id request_message_id
    expected_response_message_id : Z) (request_body : list Z)
    (parse_body : list Z -> relay_result R) : stM W EcRelayError.t R :=
  let request_header := build_odp_header true service_id request_message_id in
  invoke R request_header request_body
    (check_response service_id expected_response_message_id parse_body).

Definition invoke_request {R} (service_id message_id : Z) (request_body : list Z)
    (parse_body : list Z -> relay_result R) : stM W EcRelayError.t R :=
  invoke_request_with_response_id service_id message_id message_id request_body parse_body.
End RelayDefs.

Record EcRelay (T : Type) : Type := mkRelay { transport : T; assembly_buf : list Z }.
Arguments mkRelay {T} transport assembly_buf.
Arguments transport {T}.
Arguments assembly_buf {T}.

Definition relay_new {T} (transport : T) : EcRelay T := mkRelay transport (replicate 128 0).

Section EcRelayInvoke.
Context `{MctpOps} {T : Type} `{OdpTransport T}.

(** A transport operation on the relay's transport. *)
Definition on_transport {A} (m : stM T EcRelayError.t A) : stM (EcRelay T) EcRelayError.t A :=
  fun r => let '(a, t) := m (transport r) in (a, mkRelay t (assembly_buf r)).

(** [while let Some(pkt) = state.next() { send_packet(pkt?)? }] *)
Fixpoint send_packets (pkts : list (MctpPacketError + list Z)) :
    stM (EcRelay T) EcRelayError.t unit :=
  match pkts with
  | [] => mret tt
  | inl e :: _ => lift (Err (EcRelayError.MctpSerialize (mctp_error_str e)))
  | inr pkt :: pkts => _ ← on_transport (send_packet pkt); send_packets pkts
  end.

(** [deserialize_packet] into the assembly buffer. *)
Definition strip_packet (packet : list Z) : stM (EcRelay T) EcRelayError.t (option (Z * list Z)) :=
  fun r =>
    let '(res, buf) := deserialize_packet (assembly_buf r) packet in
    (match res with
     | inl e => Err (EcRelayError.MctpDecode (mctp_error_str e))
     | inr m => Ok m
     end, mkRelay (transport r) buf).

(** What is done with a completed message. *)
Definition parse_message {R} (parse_response : OdpResponse -> relay_result R)
    (message : Z * list Z) : relay_result R :=
  let '(message_type, body) := message in
  if decide (message_type <> ODP_MESSAGE_TYPE) then Err EcRelayError.UnexpectedMessageType
  else if decide (length body < 4)%nat then Err EcRelayError.BodyTooShort
  else
    '(is_request, service_id, is_error, message_id) ←
      map_err EcRelayError.OdpHeaderParse (parse_odp_header body);
    parse_response {| resp_is_request := is_request; resp_service_id := service_id;
      resp_is_error := is_error; resp_message_id := message_id; resp_body := drop 4 body |}.

Definition relay_invoke (R : Type) (request_header request_body : list Z)
    (parse_response : OdpResponse -> relay_result R) : stM (EcRelay T) EcRelayError.t R :=
  pkts ← lift (match serialize_packet (serial_reply_context SP_EID EC_EID) ODP_MESSAGE_TYPE
                      (odp_header_serialize request_header)
                      (odp_message_serialize request_body) 128 with
               | inl e => Err (EcRelayError.MctpSerialize (mctp_error_str e))
               | inr pkts => Ok pkts
               end);
  _ ← send_packets pkts;
  rx_packet ← on_transport (recv_framed_packet 256);
  m ← strip_packet rx_packet;
  message ← lift (ok_or EcRelayError.MctpRecvIncomplete m);
  lift (parse_message parse_response message).

#[export] Instance ec_relay : Relay (EcRelay T) := relay_invoke.
End EcRelayInvoke.

(** ** Laws of the interfaces *)

(** The driver answers, and bytes read from a UART are bytes. *)
Class UartIoLaws (U : Type) `{UartIo U} : Prop := {
  write_all_settles p : st_settles (fun _ => True) (write_all (U := U) p);
  read_byte_settles : st_settles is_byte (read_byte (U := U));
}.

Class OdpTransportLaws (T : Type) `{OdpTransport T} : Prop := {
  send_settles : forall p, st_settles (fun _ => True) (send_packet (T := T) p);
  recv_settles : forall n, st_settles (fun l => (length l <= n)%nat /\ bytes_ok l)
    (recv_framed_packet (T := T) n);
}.

(** The body of a completed message is made of bytes. *)
Class MctpLaws `{MctpOps} : Prop :=
  mctp_body_bytes : forall buf p ty body,
    (deserialize_packet buf p).1 = inr (Some (ty, body)) -> bytes_ok body.

Definition response_wf (r : OdpResponse) : Prop :=
  is_u 8 (resp_service_id r) /\ is_u 15 (resp_message_id r) /\ bytes_ok (resp_body r).

(** What the services rely on: a round trip ends with the parser's value or an
    error, the parser only sees well-formed responses, and its value is passed
    on as it is. *)
Class RelayLaws (W : Type) `{Relay W} : Prop := {
  relay_settles R (Q : R -> Prop) h b parse :
    (forall r, response_wf r -> settles Q (parse r)) -> st_settles Q (invoke (W := W) R h b parse);
  relay_map R R' (f : R -> R') h b parse parse' (w : W) :
    (forall r, response_wf r -> parse' r = (x ← parse r; Ok (f x))) ->
    invoke R' h b parse' w =
      let '(r, w') := invoke R h b parse w in ((x ← r; Ok (f x)), w');
}.

(** ** Lemmas *)

Lemma header_raw b sid mid :
  is_u 8 sid -> is_u 16 mid ->
  let raw := Z.lor (Z.lor (if b : bool then Z.lor 0 (Z.shiftl 1 25) else 0) (Z.shiftl sid 16))
               (Z.land mid 0x7FFF) in
  raw = (Z.b2z b * 512 + sid) * 2 ^ 16 + trunc 15 mid.
Proof.
  intros Hs Hm raw. unfold raw. change 0x7FFF with (Z.ones 15). rewrite trunc_ones by lia.
  assert (is_u 16 (trunc 15 mid)) as Ht.
  { apply (is_u_weaken 15); [apply trunc_range; lia|lia]. }
  replace (if b then Z.lor 0 (Z.shiftl 1 25) else 0) with (Z.shiftl (Z.shiftl (Z.b2z b) 9) 16)
    by by destruct b.
  rewrite <- Z.shiftl_lor, lor_shiftl_add by done. f_equal. f_equal.
  rewrite lor_shiftl_add by (apply (is_u_weaken 8); [done|lia]). done.
Qed.

Lemma parse_odp_header_fields bytes :
  (4 <= length bytes)%nat -> bytes_ok bytes ->
  exists b sid err mid, parse_odp_header bytes = Ok (b, sid, err, mid) /\ is_u 8 sid /\ is_u 15 mid.
Proof.
  intros Hl Hb. unfold parse_odp_header. rewrite decide_False by lia.
  do 4 eexists. split; [done|]. split; [apply trunc_range; lia|].
  change 0x7FFF with (Z.ones 15). rewrite trunc_ones by lia.
  rewrite trunc_small; [apply trunc_range; lia|].
  apply (is_u_weaken 15); [apply trunc_range; lia|lia].
Qed.

Lemma take_array_settles n body :
  bytes_ok body ->
  settles (fun x => length x.1 = n /\ bytes_ok x.1 /\ bytes_ok x.2 /\ body = x.1 ++ x.2)
    (take_array n body).
Proof.
  intros Hb. unfold take_array. case_decide; [|done]. cbn. split_and!.
  - rewrite length_take. lia.
  - by apply Forall_take.
  - by apply Forall_drop.
  - by rewrite take_drop.
Qed.

Lemma take_exact_array_settles n body :
  bytes_ok body ->
  settles (fun x => x = body /\ length x = n /\ bytes_ok x) (take_exact_array n body).
Proof.
  intros Hb. unfold take_exact_array. eapply settles_bind; [by apply take_array_settles|].
  intros [h [|z rest]] (Hl & Hh & _ & ->); cbn in *; [|done]. by rewrite app_nil_r.
Qed.

Section Laws.

Lemma relay_request_settles {W} `{RelayLaws W} {R} (Q : R -> Prop) sid mid expected body parse :
  (forall b, bytes_ok b -> settles Q (parse b)) ->
  st_settles Q (invoke_request_with_response_id (W := W) sid mid expected body parse).
Proof.
  intros Hp. apply relay_settles. intros r (_ & _ & Hb). unfold check_response.
  repeat (case_match; [done|]). by apply Hp.
Qed.

Lemma relay_request_map {W} `{RelayLaws W} {R R'} (f : R -> R') sid mid expected body parse parse'
    (w : W) :
  (forall b, bytes_ok b -> parse' b = (x ← parse b; Ok (f x))) ->
  invoke_request_with_response_id sid mid expected body parse' w =
    let '(r, w') := invoke_request_with_response_id sid mid expected body parse w in
    ((x ← r; Ok (f x)), w').
Proof.
  intros Hp. apply relay_map. intros r (_ & _ & Hb). unfold check_response.
  repeat (case_match; [done|]). by apply Hp.
Qed.

Lemma on_uart_settles {U E A} (Q : A -> Prop) (m : stM U E A) :
  st_settles Q m -> st_settles Q (on_uart m).
Proof. intros Hm t. unfold on_uart. specialize (Hm (uart t)). by destruct (m (uart t)). Qed.

#[export] Instance serial_laws {U} `{UartIoLaws U} : OdpTransportLaws (MctpSerialTransport U).
Proof.
  split.
  - intros p. apply st_settles_map_err, on_uart_settles, write_all_settles.
  - intros n. cbn [recv_framed_packet serial_transport].
    assert (forall room filled, bytes_ok filled ->
      st_settles (fun l => (length l <= length filled + room)%nat /\ bytes_ok l)
        (recv_loop (U := U) room filled)) as Hl; [|by apply (Hl n [])].
    induction room as [|room IH]; intros filled Hf; cbn [recv_loop]; [by apply st_settles_lift|].
    apply st_settles_bind with is_byte.
    + apply st_settles_map_err, on_uart_settles, read_byte_settles.
    + intros b Hb. assert (bytes_ok (filled ++ [b])) as Hfb by (apply Forall_app; auto).
      case_decide.
      * apply st_settles_ret. split; [rewrite length_app; simpl; lia|done].
      * eapply st_settles_mono; [by apply IH|]. intros l [Hl ?]. rewrite length_app in Hl.
        simpl in Hl. split; [lia|done].
Qed.

Context `{MctpLaws} {T : Type} `{OdpTransportLaws T}.

Lemma on_transport_settles {A} (Q : A -> Prop) (m : stM T EcRelayError.t A) :
  st_settles Q m -> st_settles Q (on_transport m).
Proof. intros Hm r. unfold on_transport. specialize (Hm (transport r)). by destruct (m _). Qed.

Lemma send_packets_settles pkts : st_settles (fun _ => True) (send_packets (T := T) pkts).
Proof.
  induction pkts as [|[e|p] pkts IH]; cbn [send_packets];
    [by apply st_settles_ret|by apply st_settles_lift|].
  eapply st_settles_bind; [apply on_transport_settles, send_settles|]. by intros.
Qed.

Lemma parse_message_settles {R} (Q : R -> Prop) parse m :
  bytes_ok m.2 -> (forall r, response_wf r -> settles Q (parse r)) -> settles Q (parse_message parse m).
Proof.
  destruct m as [ty body]. intros Hb Hp. unfold parse_message. case_decide; [done|].
  case_decide as Hl; [done|].
  destruct (parse_odp_header_fields body) as (b & sid & err & mid & -> & Hs & Hm); [lia|done|].
  cbn. apply Hp. split_and!; [done|done|by apply Forall_drop].
Qed.

Lemma strip_settles frame :
  st_settles (fun m => match m with Some x => bytes_ok x.2 | None => True end)
    (strip_packet (T := T) frame).
Proof.
  intros r. unfold strip_packet.
  pose proof (fun ty body => mctp_body_bytes (assembly_buf r) frame ty body) as Hm.
  destruct (deserialize_packet (assembly_buf r) frame) as [[e|[[ty body]|]] buf]; cbn in *; eauto.
Qed.

Lemma parse_message_map {R R'} (f : R -> R') parse parse' m :
  bytes_ok m.2 -> (forall r, response_wf r -> parse' r = (x ← parse r; Ok (f x))) ->
  parse_message parse' m = (x ← parse_message parse m; Ok (f x)).
Proof.
  destruct m as [ty body]. intros Hb Hp. unfold parse_message. case_decide; [done|].
  case_decide as Hl; [done|].
  destruct (parse_odp_header_fields body) as (b & sid & err & mid & -> & Hs & Hm); [lia|done|].
  cbn [map_err mbind outcome_bind]. apply Hp. split_and!; [done|done|by apply Forall_drop].
Qed.

#[export] Instance ec_relay_laws : RelayLaws (EcRelay T).
Proof.
  split.
  - intros R Q h b parse Hp. unfold invoke, ec_relay, relay_invoke.
    apply st_settles_bind with (fun _ => True); [apply st_settles_lift; by case_match|]. intros pkts _.
    eapply st_settles_bind; [apply send_packets_settles|]. intros _ _.
    eapply st_settles_bind; [apply on_transport_settles, recv_settles|]. intros frame _.
    eapply st_settles_bind; [apply strip_settles|]. intros m Hm.
    eapply st_settles_bind with (fun x => bytes_ok x.2); [apply st_settles_lift; by destruct m|].
    intros x Hx. apply st_settles_lift. by apply parse_message_settles.
  - intros R R' f h b parse parse' w Hp. unfold invoke, ec_relay, relay_invoke, mbind, stM_bind, lift.
    destruct (match serialize_packet _ _ _ _ _ with inl _ => _ | inr _ => _ end) as [pkts|e| |]; try done.
    destruct (send_packets pkts w) as [[[]|e| |] w1]; try done.
    destruct (on_transport _ w1) as [[frame|e| |] w2]; try done.
    pose proof (strip_settles frame w2) as Hm.
    destruct (strip_packet frame w2) as [[[m|]|e| |] w3]; try done. cbn [ok_or fst] in *.
    by rewrite (parse_message_map f parse parse').
Qed.
End Laws.

(** Successive bytes read from a UART. *)
Inductive reads `{UartIo U} : U -> list Z -> U -> Prop :=
  | reads_nil u : reads u [] u
  | reads_cons u b u1 bs u2 :
      read_byte u = (Ok b, u1) -> reads u1 bs u2 -> reads u (b :: bs) u2.

(** How a framed read may end, after the bytes [bs] and with the UART at [u]. *)
Definition frame_end `{UartIo U} (n : nat) (bs : list Z) (u : U) (r : relay_result (list Z))
    (u' : U) : Prop :=
  (exists body, r = Ok bs /\ bs = body ++ [SERIAL_END_FLAG] /\ (SERIAL_END_FLAG ∉ body) /\
     (length bs <= n)%nat /\ u' = u) \/
  ((SERIAL_END_FLAG ∉ bs) /\
   ((r = Err EcRelayError.MctpRecvIncomplete /\ length bs = n /\ u' = u) \/
    (exists e, read_byte u = (Err e, u') /\ (length bs < n)%nat /\ r = Err (read_error e)))).

Lemma recv_loop_spec `{UartIoLaws U} room filled (t : MctpSerialTransport U) :
  exists bs u, reads (uart t) bs u /\
    ((exists body, (recv_loop room filled t).1 = Ok (filled ++ bs) /\
        bs = body ++ [SERIAL_END_FLAG] /\ (SERIAL_END_FLAG ∉ body) /\ (length bs <= room)%nat /\
        uart (recv_loop room filled t).2 = u) \/
     ((SERIAL_END_FLAG ∉ bs) /\ frame_end room bs u (recv_loop room filled t).1
        (uart (recv_loop room filled t).2))).
Proof.
  revert filled t. induction room as [|room IH]; intros filled t; cbn [recv_loop].
  { exists [], (uart t). split; [constructor|right]. split; [apply not_elem_of_nil|].
    right. split; [apply not_elem_of_nil|]. by left. }
  unfold mbind, stM_bind, serial_read_byte, st_map_err, on_uart.
  pose proof (read_byte_settles (uart t)) as Hs.
  destruct (read_byte (uart t)) as [[b|e| |] u] eqn:Hr; try done; cbn [map_err]; clear Hs.
  2: { exists [], (uart t). split; [constructor|right]. split; [apply not_elem_of_nil|].
    right. split; [apply not_elem_of_nil|right]. exists e. rewrite Hr.
    split_and!; done || (cbn; lia). }
  - case_decide as Hb.
    + subst b. exists [SERIAL_END_FLAG], u. split; [by eapply reads_cons, reads_nil|left].
      exists []. split_and!; try done; [apply not_elem_of_nil|cbn; lia].
    + destruct (IH (filled ++ [b]) (mkTransport u)) as (bs & u' & Hreads & Hend).
      exists (b :: bs), u'. split; [by eapply reads_cons|].
      assert (forall l, SERIAL_END_FLAG ∉ l -> SERIAL_END_FLAG ∉ b :: l) as Hnin
        by (intros l Hl; apply not_elem_of_cons; split; congruence).
      destruct Hend as [(body & Ho & -> & Hn & Hlen & Hu)|[Hn Hend]].
      * left. exists (b :: body). rewrite Ho, <- app_assoc. split_and!; try done; [by apply Hnin|cbn in *; lia].
      * right. split; [by apply Hnin|]. destruct Hend as [(body & _ & -> & _)|[_ Hend]].
        { exfalso. apply Hn, elem_of_app. right. by apply list_elem_of_here. }
        right. split; [by apply Hnin|].
        destruct Hend as [(Ho & Hl & Hu)|(e & He & Hl & Ho)].
        -- left. split_and!; [done|by cbn; rewrite Hl|done].
        -- right. exists e. split_and!; [done|cbn; lia|done].
Qed.

(** ** Concrete environments

    A UART that replays read results and records what is written, and an MCTP
    framing that puts the message type in front and the END flag behind. *)
Record StreamUart : Type := mkStream { incoming : list (ReadExactError + Z); sent : list Z }.

#[export] Instance stream_uart : UartIo StreamUart := {|
  write_all p u := (Ok tt, mkStream (incoming u) (sent u ++ p));
  read_byte u :=
    match incoming u with
    | [] => (Err (OtherError TimedOut), u)
    | inr b :: l => (Ok (trunc 8 b), mkStream l (sent u))
    | inl e :: l => (Err e, mkStream l (sent u))
    end;
|}.

#[export] Instance stream_uart_laws : UartIoLaws StreamUart.
Proof.
  split; [by intros p u|]. intros [[|[e|b] l] s]; cbn; try done. by apply trunc_range.
Qed.

Definition mctp_model : MctpOps := {|
  SP_EID := 8;
  EC_EID := 9;
  serialize_packet ctx ty hdr body len :=
    match hdr len with
    | Ok h => match body (len - length h)%nat with
              | Ok b => inr [inr (ty :: h ++ b ++ [SERIAL_END_FLAG])]
              | Err e => inl e
              | _ => inl ProtocolError
              end
    | Err e => inl e
    | _ => inl ProtocolError
    end;
  deserialize_packet buf p :=
    (match trunc 8 <$> p with
     | ty :: rest => inr (Some (ty, take (length rest - 1) rest))
     | [] => inl ProtocolError
     end, buf);
|}.

#[export] Instance mctp_model_laws : MctpLaws (H := mctp_model).
Proof.
  intros buf [|ty0 p] ty body; cbn; intros Hd; simplify_eq.
  apply Forall_take, Forall_fmap, Forall_true. intros b. by apply trunc_range.
Qed.

(** ** Properties *)

(** C37: The ODP header is encoded without loss: parsing the four bytes built
    for a request or response, whatever follows them, gives the request flag,
    the service id, a clear error flag and the low 15 bits of the message id. *)
Theorem odp_header_roundtrip b sid mid rest :
  is_u 8 sid -> is_u 16 mid ->
  length (build_odp_header b sid mid) = 4%nat /\
  parse_odp_header (build_odp_header b sid mid ++ rest) = Ok (b, sid, false, trunc 15 mid).
Proof.
  intros Hs Hm.
  assert (length (build_odp_header b sid mid) = 4%nat) as H4 by apply length_to_be_bytes.
  split; [done|].
  unfold parse_odp_header. rewrite decide_False by (rewrite length_app; lia).
  rewrite take_app_length' by done.
  unfold build_odp_header. cbv zeta. rewrite header_raw by done.
  assert (is_u 15 (trunc 15 mid)) as Ht by (apply trunc_range; lia).
  generalize dependent (trunc 15 mid). intros m Ht. unfold is_u in *.
  assert (0 <= Z.b2z b * 512 + sid < 1024) as Hh by (destruct b; cbn; lia).
  rewrite from_be_to_be by (unfold is_u; lia).
  set (raw := (Z.b2z b * 512 + sid) * 2 ^ 16 + m).
  assert (raw = Z.lor (Z.shiftl (Z.b2z b * 512 + sid) 16) m) as Hraw
    by (rewrite lor_shiftl_add; [done|unfold is_u; lia]).
  f_equal. f_equal; [f_equal; [f_equal|]|].
  - rewrite (bool_decide_ext _ (Z.testbit raw 25 = true)) by
      (rewrite land_bit_zero by done; destruct (Z.testbit raw 25); split; congruence).
    rewrite Hraw, Z.lor_spec, Z.shiftl_spec by done. change (25 - 16) with 9.
    rewrite (testbit_high m 15) by (unfold is_u; lia). rewrite orb_false_r.
    replace (Z.b2z b * 512 + sid) with (Z.lor (Z.shiftl (Z.b2z b) 9) sid) by
      (rewrite lor_shiftl_add; [done|unfold is_u; lia]).
    rewrite Z.lor_spec, Z.shiftl_spec by done.
    rewrite (testbit_high sid 8) by (unfold is_u; lia). by destruct b.
  - change 0xFF with (Z.ones 8). rewrite trunc_ones, trunc_trunc by lia.
    rewrite Hraw, field_high by (unfold is_u; lia).
    replace (Z.b2z b * 512 + sid) with (Z.lor (Z.shiftl (Z.b2z b * 2) 8) sid) by
      (rewrite lor_shiftl_add; [lia|done]).
    by apply field_low.
  - rewrite (bool_decide_ext _ (Z.testbit raw 15 = true)) by
      (rewrite land_bit_zero by done; destruct (Z.testbit raw 15); split; congruence).
    rewrite Hraw, Z.lor_spec, Z.shiftl_spec by done.
    rewrite (Z.testbit_neg_r _ (15 - 16)) by lia.
    by rewrite (testbit_high m 15) by (unfold is_u; lia).
  - change 0x7FFF with (Z.ones 15). rewrite trunc_ones by lia.
    assert (trunc 15 raw = m) as ->; [|by apply trunc_small; unfold is_u; lia].
    unfold raw, trunc. replace ((Z.b2z b * 512 + sid) * 2 ^ 16 + m)
      with (m + (Z.b2z b * 512 + sid) * 2 * 2 ^ 15) by lia.
    rewrite Z_mod_plus_full. by apply Z.mod_small.
Qed.

Lemma odp_header_roundtrip_witness :
  parse_odp_header (build_odp_header true 0x08 2 ++ [0]) = Ok (true, 0x08, false, 2).
Proof.
  assert (is_u 8 0x08) as Hs by (split; done). assert (is_u 16 2) as Hm by (split; done).
  exact (proj2 (odp_header_roundtrip true 0x08 2 [0] Hs Hm)).
Defined.

(** C29: A framed read takes bytes from the UART one at a time and in order, up
    to and including the first END flag: it returns exactly those bytes, or
    reports an incomplete frame after filling the buffer without an END flag,
    or the class of the first failing read.  It reads at most the buffer's
    length, so it terminates. *)
Theorem recv_framed_packet_spec `{UartIoLaws U} n (t : MctpSerialTransport U) :
  exists bs u, reads (uart t) bs u /\
    frame_end n bs u (recv_framed_packet n t).1 (uart (recv_framed_packet n t).2).
Proof.
  destruct (recv_loop_spec n [] t) as (bs & u & Hr & [(body & Ho & Hb & Hn & Hl & Hu)|[_ He]]).
  - exists bs, u. split; [done|left]. exists body. split_and!; done.
  - by exists bs, u.
Qed.

Lemma recv_framed_packet_spec_witness :
  let t := mkTransport (mkStream [inr 1; inr 0x7E; inr 5] []) in
  (recv_framed_packet 4 t).1 = Ok [1; 0x7E] /\
  exists bs u, reads (uart t) bs u /\
    frame_end 4 bs u (recv_framed_packet 4 t).1 (uart (recv_framed_packet 4 t).2).
Proof. intros t. split; [reflexivity|]. apply (recv_framed_packet_spec 4 t). Defined.

(** The fixed-size body parser accepts exactly the bodies of the expected
    length, and then returns them unchanged; shorter and longer bodies are
    told apart. *)
Lemma take_exact_array_iff n body :
  take_exact_array n body =
    if decide (length body = n) then Ok body
    else if decide (length body < n)%nat then Err EcRelayError.BodyTooShort
    else Err EcRelayError.BodyTooLong.
Proof.
  unfold take_exact_array, take_array.
  repeat case_decide; cbn [mbind outcome_bind]; try done; try lia.
  - rewrite drop_ge, take_ge by lia. done.
  - destruct (drop n body) eqn:Hd; [|done].
    apply (f_equal length) in Hd. rewrite length_drop in Hd. simpl in Hd. lia.
Qed.

(** C18: Envelope: the relay hands a body to the caller's parser only out of a
    complete message of the ODP type whose header says response, the service
    asked for, no error and the expected message id; an error response of
    that service is reported as [Remote] with its code; everything else is
    one of the framing errors. *)
Theorem relay_accepts_iff {R} sid mid (parse : list Z -> relay_result R) ty body :
  let r := parse_message (check_response sid mid parse) (ty, body) in
  (forall v, r = Ok v <->
     ty = ODP_MESSAGE_TYPE /\ parse_odp_header body = Ok (false, sid, false, mid) /\
     parse (drop 4 body) = Ok v) /\
  ((exists code, ty = ODP_MESSAGE_TYPE /\ parse_odp_header body = Ok (false, sid, true, code) /\
      r = Err (EcRelayError.Remote code)) \/
   (ty = ODP_MESSAGE_TYPE /\ parse_odp_header body = Ok (false, sid, false, mid) /\
      r = parse (drop 4 body)) \/
   r = Err EcRelayError.UnexpectedMessageType \/ r = Err EcRelayError.BodyTooShort \/
   r = Err EcRelayError.UnexpectedOdpRequest \/ r = Err EcRelayError.UnexpectedOdpService).
Proof.
  cbv zeta. unfold parse_message. case_decide as Hty.
  { split; [intros v; split; [done|by intros [-> _]]|by auto]. }
  case_decide as Hl.
  { split; [|by auto]. intros v. split; [done|]. intros (_ & Hp & _).
    unfold parse_odp_header in Hp. by rewrite decide_True in Hp. }
  assert (exists b s e m, parse_odp_header body = Ok (b, s, e, m)) as (b & s & e & m & Hp).
  { unfold parse_odp_header. rewrite decide_False by done. eauto. }
  rewrite Hp. cbn [map_err mbind outcome_bind]. unfold check_response.
  cbn [resp_is_request resp_service_id resp_is_error resp_message_id resp_body].
  destruct b; [split; [intros v; split; [done|by intros (_ & ? & _)]|by auto 10]|].
  case_decide as Hs; [split; [intros v; split; [done|intros (_ & ? & _); congruence]|by auto 10]|].
  subst s.
  destruct e; [split; [intros v; split; [done|by intros (_ & ? & _)]|left; eauto]|].
  case_decide as Hm; [split; [intros v; split; [done|intros (_ & ? & _); congruence]|by auto 10]|].
  subst m. split; [|by auto].
  intros v. split; [by auto|by intros (_ & _ & ?)].
Qed.
