(* ===== verification/RelayClient.v ===== *)
(** What the relayed services ([Thermal], [Battery], [TimeAlarm]) share: the
    fixed-size response parsers, replies that start with given bytes, and the
    lemmas that turn a typed round trip into the round trip of the raw body. *)
From Stdlib Require Import ZArith Lia.
From S2P Require Import Prelude FfaCore FfaMsg MsgLoop EcRelay.
#[local] Open Scope Z_scope.

(** [let v = take_exact_array::<4>(body)?; Ok(u32::from_le_bytes(v))] *)
Definition parse_u32_response (body : list Z) : relay_result Z :=
  v ← take_exact_array 4 body;
  Ok (from_le_bytes v).

(** [take_exact_array::<0>(body).map(|_| ())] *)
Definition parse_unit_response (body : list Z) : relay_result unit :=
  _ ← take_exact_array 0 body;
  Ok tt.

(** A payload that starts with [l] and is zero beyond. *)
Definition padded (l : list Z) : DirectMessagePayload :=
  {| payload_bytes := l ++ replicate (PAYLOAD_LEN - length l) 0 |}.

(** The round trip of a raw body of exactly [n] bytes. *)
Definition raw_round_trip {W} `{Relay W} (sid mid expected : Z) (body : list Z) (n : nat) :
    stM W EcRelayError.t (list Z) :=
  invoke_request_with_response_id sid mid expected body (take_exact_array n).

(** ** Lemmas *)

Lemma padded_wf l : (length l <= PAYLOAD_LEN)%nat -> bytes_ok l -> payload_wf (padded l).
Proof.
  intros Hl Hb. split; cbn [padded payload_bytes]; [solve_len|].
  apply Forall_app. auto with odp.
Qed.

Lemma payload_from_iter_padded {E} l :
  (length l <= PAYLOAD_LEN)%nat -> payload_from_iter (E := E) l = Ok (padded l).
Proof. apply payload_from_iter_ok. Qed.

Section RoundTrip.
Context {W : Type} `{RelayLaws W}.

Lemma raw_round_trip_settles sid mid expected body n :
  st_settles (fun l => length l = n /\ bytes_ok l) (raw_round_trip (W := W) sid mid expected body n).
Proof.
  apply relay_request_settles. intros b Hb.
  eapply settles_mono; [by apply take_exact_array_settles|]. by intros ? _ (_ & ? & ?).
Qed.

(** A typed round trip is the raw one, its bytes converted. *)
Lemma typed_round_trip {R} (f : list Z -> R) sid mid expected body n
    (parse : list Z -> relay_result R) (w : W) :
  (forall b, bytes_ok b -> parse b = (x ← take_exact_array n b; Ok (f x))) ->
  invoke_request_with_response_id sid mid expected body parse w =
    let '(r, w') := raw_round_trip sid mid expected body n w in ((x ← r; Ok (f x)), w').
Proof. apply relay_request_map. Qed.

(** A typed round trip with the service's own error type, in terms of a round
    trip that keeps the bytes. *)
Lemma invoke_mapped {E A R} (wrap : EcRelayError.t -> E) (f : A -> R) (Q : A -> Prop)
    sid mid expected body (base : list Z -> relay_result A) (parse : list Z -> relay_result R) (w : W) :
  (forall b, bytes_ok b -> parse b = (x ← base b; Ok (f x))) ->
  (forall b, bytes_ok b -> settles Q (base b)) ->
  exists r w', invoke_request_with_response_id sid mid expected body base w = (r, w') /\
    settles Q r /\
    st_map_err wrap (invoke_request_with_response_id sid mid expected body parse) w =
      (map_err wrap (x ← r; Ok (f x)), w').
Proof.
  intros Hp Hb. pose proof (relay_request_settles Q sid mid expected body base Hb w) as Hs.
  unfold st_map_err. rewrite (relay_request_map f sid mid expected body base parse w Hp).
  destruct (invoke_request_with_response_id sid mid expected body base w) as [r w'].
  by exists r, w'.
Qed.

Lemma invoke_raw {E R} (wrap : EcRelayError.t -> E) (f : list Z -> R) sid mid expected body n parse
    (w : W) :
  (forall b, bytes_ok b -> parse b = (x ← take_exact_array n b; Ok (f x))) ->
  exists r w', raw_round_trip sid mid expected body n w = (r, w') /\
    settles (fun l => length l = n /\ bytes_ok l) r /\
    st_map_err wrap (invoke_request_with_response_id sid mid expected body parse) w =
      (map_err wrap (x ← r; Ok (f x)), w').
Proof.
  intros Hp. apply invoke_mapped; [done|]. intros b Hb.
  eapply settles_mono; [by apply take_exact_array_settles|]. by intros ? _ (_ & ? & ?).
Qed.

(** The request body of [n] bytes behind the command byte. *)
Lemma request_slice `{UuidOps} msg n :
  payload_wf (req_payload msg) -> (1 + n <= PAYLOAD_LEN)%nat ->
  exists l, parse_ffa_request n (req_payload msg) = Some l /\
    l = slice (payload_bytes (req_payload msg)) 1 (1 + n) /\ bytes_ok l /\ length l = n.
Proof.
  intros Hp Hn. eexists. split; [by apply parse_ffa_request_ok|]. split; [done|].
  destruct Hp as [Hl Hb]. split; [by apply Forall_slice|]. rewrite length_slice; lia.
Qed.
End RoundTrip.

(** Bytes of a bounded number, for replies. *)
Lemma from_le_padded {E} n body :
  bytes_ok body -> length body = n -> (n <= PAYLOAD_LEN)%nat ->
  payload_from_iter (E := E) (to_le_bytes n (from_le_bytes body)) = Ok (padded body).
Proof.
  intros Hb <- Hl. rewrite to_le_from_le by done. by apply payload_from_iter_padded.
Qed.

Lemma u8_at_lookup {E} p i b :
  payload_bytes p !! i = Some b -> u8_at (E := E) p i = Ok b.
Proof. intros Hb. unfold u8_at. by rewrite Hb. Qed.

Lemma payload_lookup p i :
  payload_wf p -> (i < PAYLOAD_LEN)%nat -> exists b, payload_bytes p !! i = Some b /\ is_byte b.
Proof.
  intros Hp Hi. destruct (u8_at_ok (E := unit) p i Hp Hi) as (b & _ & Hb & Hl). by exists b.
Qed.

(** Splitting off fixed-size pieces is reading one exact body. *)
Lemma take_array_exact n m body :
  ('(h, rest) ← take_array n body; l ← take_exact_array m rest; Ok (h, l)) =
  (l ← take_exact_array (n + m) body; Ok (take n l, drop n l)).
Proof.
  rewrite !take_exact_array_iff. unfold take_array.
  destruct (decide (n <= length body)%nat) as [Hn|Hn]; cbn [mbind outcome_bind].
  - rewrite take_exact_array_iff, length_drop. repeat case_decide; try lia; done.
  - repeat case_decide; try lia; done.
Qed.

(** ** A concrete EC

    A relay over the replayed UART that has received one response frame, and a
    request message with a given payload. *)
#[local] Existing Instance mctp_model.
#[local] Existing Instance uuid_model.

Definition ec_frame (sid mid : Z) (body : list Z) : list Z :=
  ODP_MESSAGE_TYPE :: build_odp_header false sid mid ++ body ++ [SERIAL_END_FLAG].

Abbreviation EcWorld := (EcRelay (MctpSerialTransport StreamUart)).

Definition ec_world (frame : list Z) : EcWorld :=
  relay_new (mkTransport (mkStream (inr <$> frame) [])).

#[export] Instance ec_world_relay : Relay EcWorld := ec_relay.

#[export] Instance ec_world_laws : RelayLaws EcWorld.
Proof. apply ec_relay_laws. Qed.

Definition sample_request (l : list Z) : MsgSendDirectReq2 :=
  req_new 2 1 uuid_nil (padded l).

(** Any sender. *)
Lemma sample_request_wf_from source l :
  bool_decide (is_u 16 source /\ (length l <= PAYLOAD_LEN)%nat /\ bytes_ok l) = true ->
  message_wf (req_message (req_new source 1 uuid_nil (padded l))).
Proof.
  intros (Hs & Hl & Hb)%bool_decide_eq_true. split; [exact Hs|]. split; [split; done|].
  by apply padded_wf.
Qed.

Lemma sample_request_wf l :
  bool_decide ((length l <= PAYLOAD_LEN)%nat /\ bytes_ok l) = true ->
  message_wf (req_message (sample_request l)).
Proof.
  intros [Hl Hb]%bool_decide_eq_true. split; [split; done|]. split; [split; done|].
  by apply padded_wf.
Qed.

(** The payload of a reply. *)
Definition reply_bytes {W} (r : outcome Error.t MsgSendDirectResp2 * W) : option (list Z) :=
  match r.1 with Ok resp => Some (payload_bytes (resp_payload resp)) | _ => None end.

Definition reply_error {W} (r : outcome Error.t MsgSendDirectResp2 * W) : option Error.t :=
  match r.1 with Err e => Some e | _ => None end.
