(* ===== verification/Thermal.v ===== *)
(** The thermal service ([ec-service-lib/src/services/thermal.rs]): six
    commands relayed to the EC.  The property shows the service to be a
    transparent relay: the EC receives the bytes of the request that follow
    the command byte, and the reply carries the EC's body or a status word. *)
From Stdlib Require Import ZArith Lia.
From S2P Require Import Prelude FfaCore FfaMsg MsgLoop EcRelay RelayClient.
#[local] Open Scope Z_scope.

Definition THERMAL_SERVICE_ID : Z := 0x09.

Module ThermalCommand.
Inductive t : Type := GetTmp | SetThrs | GetThrs | SetScp | GetVar | SetVar.

#[export] Instance enum : PrimEnum t := {|
  discr c := match c with
    | GetTmp => 1 | SetThrs => 2 | GetThrs => 3 | SetScp => 4 | GetVar => 5 | SetVar => 6 end;
  variants := [GetTmp; SetThrs; GetThrs; SetScp; GetVar; SetVar];
|}.
End ThermalCommand.
Export (hints) ThermalCommand.

Inductive ThermalError : Type := ThermalError_Relay (e : EcRelayError.t) | ThermalError_UnexpectedResponse.

(** ** Request bodies

    [FromBytes]/[IntoBytes] views of [repr(C)] structs of alignment one: the
    fields in order, little-endian. *)
Record SetThresholdRequest : Type := {
  thr_instance_id : Z; thr_timeout : Z; thr_low : Z; thr_high : Z;
}.

Definition SetThresholdRequest_ref_from_bytes (l : list Z) : SetThresholdRequest := {|
  thr_instance_id := from_le_bytes (slice l 0 1);
  thr_timeout := from_le_bytes (slice l 1 5);
  thr_low := from_le_bytes (slice l 5 9);
  thr_high := from_le_bytes (slice l 9 13);
|}.

Definition SetThresholdRequest_as_bytes (r : SetThresholdRequest) : list Z :=
  to_le_bytes 1 (thr_instance_id r) ++ to_le_bytes 4 (thr_timeout r) ++
  to_le_bytes 4 (thr_low r) ++ to_le_bytes 4 (thr_high r).

Record SetCoolingPolicyRequest : Type := {
  scp_instance_id : Z; policy_id : Z; acoustic_lim : Z; power_lim : Z;
}.

Definition SetCoolingPolicyRequest_ref_from_bytes (l : list Z) : SetCoolingPolicyRequest := {|
  scp_instance_id := from_le_bytes (slice l 0 1);
  policy_id := from_le_bytes (slice l 1 5);
  acoustic_lim := from_le_bytes (slice l 5 9);
  power_lim := from_le_bytes (slice l 9 13);
|}.

Definition SetCoolingPolicyRequest_as_bytes (r : SetCoolingPolicyRequest) : list Z :=
  to_le_bytes 1 (scp_instance_id r) ++ to_le_bytes 4 (policy_id r) ++
  to_le_bytes 4 (acoustic_lim r) ++ to_le_bytes 4 (power_lim r).

Record GetVariableRequest : Type := {
  getvar_instance_id : Z; getvar_len : Z; getvar_uuid : list Z;
}.

Definition GetVariableRequest_ref_from_bytes (l : list Z) : GetVariableRequest := {|
  getvar_instance_id := from_le_bytes (slice l 0 1);
  getvar_len := from_le_bytes (slice l 1 3);
  getvar_uuid := slice l 3 19;
|}.

Definition GetVariableRequest_as_bytes (r : GetVariableRequest) : list Z :=
  to_le_bytes 1 (getvar_instance_id r) ++ to_le_bytes 2 (getvar_len r) ++ getvar_uuid r.

Record SetVariableRequest : Type := {
  setvar_instance_id : Z; setvar_len : Z; setvar_uuid : list Z; setvar_value : Z;
}.

Definition SetVariableRequest_ref_from_bytes (l : list Z) : SetVariableRequest := {|
  setvar_instance_id := from_le_bytes (slice l 0 1);
  setvar_len := from_le_bytes (slice l 1 3);
  setvar_uuid := slice l 3 19;
  setvar_value := from_le_bytes (slice l 19 23);
|}.

Definition SetVariableRequest_as_bytes (r : SetVariableRequest) : list Z :=
  to_le_bytes 1 (setvar_instance_id r) ++ to_le_bytes 2 (setvar_len r) ++ setvar_uuid r ++
  to_le_bytes 4 (setvar_value r).

Definition LOCAL_ERROR_SENTINEL : Z := 0xFFFFFFFF.
Definition INVALID_PARAMETER_STATUS : Z := 1.
Definition VARIABLE_VALUE_LEN : Z := 4.

Definition scalar_payload {E} (value : Z) : outcome E DirectMessagePayload :=
  payload_from_iter (to_le_bytes 4 value).

Definition setter_status (result : unit + ThermalError) : Z :=
  match result with
  | inl _ => 0
  | inr (ThermalError_Relay (EcRelayError.Remote code)) => code
  | inr _ => LOCAL_ERROR_SENTINEL
  end.

Definition threshold_payload {E} (timeout low high : Z) : outcome E DirectMessagePayload :=
  payload_from_iter (to_le_bytes 4 timeout ++ to_le_bytes 4 low ++ to_le_bytes 4 high).

(** ** Round trips *)

Section Thermal.
Context `{UuidOps} {W : Type} `{Relay W}.

(** The service holds a reference to the relay, which is part of the world. *)
Inductive Thermal : Type := Thermal_new.

Definition get_temperature (instance_id : Z) : stM W ThermalError Z :=
  st_map_err ThermalError_Relay
    (invoke_request THERMAL_SERVICE_ID (discr ThermalCommand.GetTmp) [instance_id]
       (fun body => temp ← take_exact_array 4 body; Ok (from_le_bytes temp))).

Definition set_threshold (request : SetThresholdRequest) : stM W ThermalError unit :=
  st_map_err ThermalError_Relay
    (invoke_request THERMAL_SERVICE_ID (discr ThermalCommand.SetThrs)
       (SetThresholdRequest_as_bytes request) parse_unit_response).

Definition get_threshold (instance_id : Z) : stM W ThermalError (Z * Z * Z) :=
  st_map_err ThermalError_Relay
    (invoke_request THERMAL_SERVICE_ID (discr ThermalCommand.GetThrs) [instance_id]
       (fun body =>
          '(timeout, body) ← take_array 4 body;
          '(low, body) ← take_array 4 body;
          high ← take_exact_array 4 body;
          Ok (from_le_bytes timeout, from_le_bytes low, from_le_bytes high))).

Definition set_scp (request : SetCoolingPolicyRequest) : stM W ThermalError unit :=
  st_map_err ThermalError_Relay
    (invoke_request THERMAL_SERVICE_ID (discr ThermalCommand.SetScp)
       (SetCoolingPolicyRequest_as_bytes request) parse_unit_response).

Definition get_var (request : GetVariableRequest) : stM W ThermalError Z :=
  st_map_err ThermalError_Relay
    (invoke_request THERMAL_SERVICE_ID (discr ThermalCommand.GetVar)
       (GetVariableRequest_as_bytes request)
       (fun body => value ← take_exact_array 4 body; Ok (from_le_bytes value))).

Definition set_var (request : SetVariableRequest) : stM W ThermalError unit :=
  st_map_err ThermalError_Relay
    (invoke_request THERMAL_SERVICE_ID (discr ThermalCommand.SetVar)
       (SetVariableRequest_as_bytes request) parse_unit_response).

(** [Ok(from_req_with_payload(&msg, payload))] *)
Definition respond_with (msg : MsgSendDirectReq2) (payload : outcome Error.t DirectMessagePayload) :
    stM W Error.t MsgSendDirectResp2 :=
  p ← lift payload;
  mret (from_req_with_payload msg p).

Definition thermal_command (msg : MsgSendDirectReq2) (command : ThermalCommand.t) :
    stM W Error.t MsgSendDirectResp2 :=
  match command with
  | ThermalCommand.GetTmp =>
      instance_id ← lift (u8_at (req_payload msg) 1);
      value ← st_unwrap_or LOCAL_ERROR_SENTINEL (get_temperature instance_id);
      respond_with msg (scalar_payload value)
  | ThermalCommand.SetThrs =>
      status ← match parse_ffa_request 13 (req_payload msg) with
               | Some l =>
                   r ← attempt (set_threshold (SetThresholdRequest_ref_from_bytes l));
                   mret (setter_status r)
               | None => mret LOCAL_ERROR_SENTINEL
               end;
      respond_with msg (scalar_payload status)
  | ThermalCommand.GetThrs =>
      instance_id ← lift (u8_at (req_payload msg) 1);
      r ← attempt (get_threshold instance_id);
      match r with
      | inl (timeout, low, high) => respond_with msg (threshold_payload timeout low high)
      | inr _ => respond_with msg
          (threshold_payload LOCAL_ERROR_SENTINEL LOCAL_ERROR_SENTINEL LOCAL_ERROR_SENTINEL)
      end
  | ThermalCommand.SetScp =>
      status ← match parse_ffa_request 13 (req_payload msg) with
               | Some l =>
                   r ← attempt (set_scp (SetCoolingPolicyRequest_ref_from_bytes l));
                   mret (setter_status r)
               | None => mret LOCAL_ERROR_SENTINEL
               end;
      respond_with msg (scalar_payload status)
  | ThermalCommand.GetVar =>
      value ← match parse_ffa_request 19 (req_payload msg) with
              | Some l =>
                  let request := GetVariableRequest_ref_from_bytes l in
                  if decide (getvar_len request = VARIABLE_VALUE_LEN)
                  then st_unwrap_or LOCAL_ERROR_SENTINEL (get_var request)
                  else mret LOCAL_ERROR_SENTINEL
              | None => mret LOCAL_ERROR_SENTINEL
              end;
      respond_with msg (scalar_payload value)
  | ThermalCommand.SetVar =>
      status ← match parse_ffa_request 23 (req_payload msg) with
               | Some l =>
                   let request := SetVariableRequest_ref_from_bytes l in
                   if decide (setvar_len request = VARIABLE_VALUE_LEN)
                   then r ← attempt (set_var request); mret (setter_status r)
                   else mret INVALID_PARAMETER_STATUS
               | None => mret LOCAL_ERROR_SENTINEL
               end;
      respond_with msg (scalar_payload status)
  end.

Definition thermal_handle (msg : MsgSendDirectReq2) : stM W Error.t MsgSendDirectResp2 :=
  cmd ← lift (u8_at (req_payload msg) 0);
  match try_from_primitive cmd with
  | None => lift (Err (Error.Other "Unknown Thermal Command"))
  | Some command => thermal_command msg command
  end.

#[export] Instance thermal_service : Service W Thermal := {|
  svc_UUID := uuid_lit 0x31f56da7593c4d72a4b38fc7171ac073;
  svc_NAME := "Thermal";
  ffa_msg_send_direct_req2 msg := on_snd (thermal_handle msg);
|}.
End Thermal.

(** ** The transparent relay *)

(** Lengths of the request and response bodies on the EC side. *)
Definition req_len (c : ThermalCommand.t) : nat :=
  match c with
  | ThermalCommand.GetTmp | ThermalCommand.GetThrs => 1
  | ThermalCommand.SetThrs | ThermalCommand.SetScp => 13
  | ThermalCommand.GetVar => 19
  | ThermalCommand.SetVar => 23
  end.

Definition rsp_len (c : ThermalCommand.t) : nat :=
  match c with
  | ThermalCommand.GetTmp | ThermalCommand.GetVar => 4
  | ThermalCommand.GetThrs => 12
  | _ => 0
  end.

Definition is_setter (c : ThermalCommand.t) : bool := bool_decide (rsp_len c = 0%nat).

Definition sentinel (n : nat) : list Z := replicate n 0xFF.

(** The reply to the outcome of the round trip: the EC's body, or for a setter
    0, or the remote error code, or the sentinel. *)
Definition thermal_reply (c : ThermalCommand.t) (r : relay_result (list Z)) : list Z :=
  match r with
  | Ok body => if is_setter c then replicate 4 0 else body
  | Err (EcRelayError.Remote code) =>
      if is_setter c then to_le_bytes 4 code else sentinel (rsp_len c)
  | _ => if is_setter c then sentinel 4 else sentinel (rsp_len c)
  end.

(** The variable commands carry their length in bytes 2 and 3. *)
Definition length_rejected (c : ThermalCommand.t) (p : list Z) : bool :=
  match c with
  | ThermalCommand.GetVar | ThermalCommand.SetVar =>
      bool_decide (from_le_bytes (slice p 2 4) <> VARIABLE_VALUE_LEN)
  | _ => false
  end.

Definition rejected_reply (c : ThermalCommand.t) : list Z :=
  match c with ThermalCommand.SetVar => [1; 0; 0; 0] | _ => sentinel 4 end.

Section Reference.
Context `{UuidOps} {W : Type} `{Relay W}.

Definition thermal_reference (msg : MsgSendDirectReq2) : stM W Error.t MsgSendDirectResp2 := fun w =>
  let p := payload_bytes (req_payload msg) in
  match p !! 0%nat ≫= try_from_primitive with
  | None => (Err (Error.Other "Unknown Thermal Command"), w)
  | Some c =>
      if length_rejected c p
      then (Ok (from_req_with_payload msg (padded (rejected_reply c))), w)
      else
        let '(r, w') := raw_round_trip THERMAL_SERVICE_ID (discr c) (discr c)
                          (slice p 1 (1 + req_len c)) (rsp_len c) w in
        (Ok (from_req_with_payload msg (padded (thermal_reply c r))), w')
  end.
End Reference.

(** ** Lemmas *)

#[export] Instance thermal_command_laws : PrimEnumLaws ThermalCommand.t.
Proof. solve_prim_enum. Qed.

(** Writes a struct of fields back as the bytes it was read from. *)
Ltac solve_as_bytes :=
  intros Hb Hl; lazy delta [SetThresholdRequest_as_bytes SetThresholdRequest_ref_from_bytes
    SetCoolingPolicyRequest_as_bytes SetCoolingPolicyRequest_ref_from_bytes
    GetVariableRequest_as_bytes GetVariableRequest_ref_from_bytes
    SetVariableRequest_as_bytes SetVariableRequest_ref_from_bytes]; lazy beta;
  cbn [thr_instance_id thr_timeout thr_low thr_high scp_instance_id policy_id acoustic_lim power_lim
    getvar_instance_id getvar_len getvar_uuid setvar_instance_id setvar_len setvar_uuid setvar_value];
  rewrite ?le_slice by (done || lia);
  rewrite ?slice_app by lia; by apply slice_all.

Lemma SetThresholdRequest_bytes l : bytes_ok l -> length l = 13%nat ->
  SetThresholdRequest_as_bytes (SetThresholdRequest_ref_from_bytes l) = l.
Proof. solve_as_bytes. Qed.

Lemma SetCoolingPolicyRequest_bytes l : bytes_ok l -> length l = 13%nat ->
  SetCoolingPolicyRequest_as_bytes (SetCoolingPolicyRequest_ref_from_bytes l) = l.
Proof. solve_as_bytes. Qed.

Lemma GetVariableRequest_bytes l : bytes_ok l -> length l = 19%nat ->
  GetVariableRequest_as_bytes (GetVariableRequest_ref_from_bytes l) = l.
Proof. solve_as_bytes. Qed.

Lemma SetVariableRequest_bytes l : bytes_ok l -> length l = 23%nat ->
  SetVariableRequest_as_bytes (SetVariableRequest_ref_from_bytes l) = l.
Proof. solve_as_bytes. Qed.

Section ThermalLemmas.
Context `{UuidOps} {W : Type} `{RelayLaws W}.
Implicit Types (msg : MsgSendDirectReq2) (w : W).

Lemma invoke_request_raw {R} (f : list Z -> R) sid mid body n parse w :
  (forall b, bytes_ok b -> parse b = (x ← take_exact_array n b; Ok (f x))) ->
  exists r w', raw_round_trip sid mid mid body n w = (r, w') /\
    settles (fun l => length l = n /\ bytes_ok l) r /\
    st_map_err ThermalError_Relay (invoke_request sid mid body parse) w =
      (map_err ThermalError_Relay (x ← r; Ok (f x)), w').
Proof. apply invoke_raw. Qed.

Lemma get_thrs_parse b :
  ('(timeout, body) ← take_array 4 b;
   '(low, body) ← take_array 4 body;
   high ← take_exact_array 4 body;
   Ok (from_le_bytes timeout, from_le_bytes low, from_le_bytes high)) =
  (x ← take_exact_array 12 b;
   Ok (from_le_bytes (slice x 0 4), from_le_bytes (slice x 4 8), from_le_bytes (slice x 8 12))).
Proof.
  rewrite take_exact_array_iff. unfold take_array.
  destruct (decide (4 <= length b)%nat); cbn [mbind outcome_bind];
    [|repeat case_decide; try done; lia].
  rewrite length_drop. destruct (decide (4 <= length b - 4)%nat); cbn [mbind outcome_bind];
    [|repeat case_decide; try done; lia].
  rewrite take_exact_array_iff, !length_drop.
  repeat case_decide; cbn [mbind outcome_bind]; try done; try lia.
  replace (slice b 8 12) with (drop 4 (drop 4 b)); [reflexivity|].
  unfold slice. rewrite drop_drop, take_ge; [done|]. rewrite length_drop. lia.
Qed.

(** The reply of a settled round trip of a getter of one scalar. *)
Lemma getter_reply msg (c : ThermalCommand.t) (r : relay_result (list Z)) w' :
  rsp_len c = 4%nat -> settles (fun l => length l = 4%nat /\ bytes_ok l) r ->
  respond_with msg
    (scalar_payload (match map_err ThermalError_Relay (x ← r; Ok (from_le_bytes x)) with
                     | Ok v => v | _ => LOCAL_ERROR_SENTINEL end)) w' =
  (Ok (from_req_with_payload msg (padded (thermal_reply c r))), w').
Proof.
  intros Hc Hr. unfold respond_with, scalar_payload, mbind, stM_bind, lift.
  unfold thermal_reply, is_setter. rewrite Hc.
  destruct r as [body|e| |]; cbn in Hr; try done; cbn [map_err mbind outcome_bind].
  - destruct Hr as [Hl Hb]. rewrite from_le_padded; [done|done|done|unfold PAYLOAD_LEN; lia].
  - rewrite payload_from_iter_padded by (rewrite length_to_le_bytes; unfold PAYLOAD_LEN; lia).
    by destruct e.
Qed.

(** The reply of a settled round trip of a setter. *)
Lemma setter_reply msg (c : ThermalCommand.t) (r : relay_result (list Z)) w' :
  rsp_len c = 0%nat -> settles (fun l => length l = 0%nat /\ bytes_ok l) r ->
  respond_with msg
    (scalar_payload (match map_err ThermalError_Relay (_ ← r; Ok tt) with
                     | Ok _ => setter_status (inl tt)
                     | Err e => setter_status (inr e)
                     | _ => 0 end)) w' =
  (Ok (from_req_with_payload msg (padded (thermal_reply c r))), w').
Proof.
  intros Hc Hr. unfold respond_with, scalar_payload, mbind, stM_bind, lift.
  unfold thermal_reply, is_setter. rewrite Hc.
  destruct r as [body|e| |]; cbn in Hr; try done; cbn [map_err mbind outcome_bind];
    rewrite payload_from_iter_padded by (rewrite length_to_le_bytes; unfold PAYLOAD_LEN; lia).
  destruct e; reflexivity.
Qed.

Lemma setter_command {msg} c (m : stM W ThermalError unit) (r : relay_result (list Z)) w w' :
  rsp_len c = 0%nat -> settles (fun l => length l = 0%nat /\ bytes_ok l) r ->
  m w = (map_err ThermalError_Relay (x ← r; Ok tt), w') ->
  (status ← (r ← attempt m; mret (setter_status r));
   respond_with msg (scalar_payload status)) w =
  (Ok (from_req_with_payload msg (padded (thermal_reply c r))), w').
Proof.
  intros Hc Hr Hm. rewrite <- (setter_reply msg c r w' Hc Hr).
  unfold attempt, mbind at 1 2, stM_bind. rewrite Hm.
  by destruct r as [body|e| |].
Qed.

Lemma getter_command {msg} c (m : stM W ThermalError Z) (r : relay_result (list Z)) w w' :
  rsp_len c = 4%nat -> settles (fun l => length l = 4%nat /\ bytes_ok l) r ->
  m w = (map_err ThermalError_Relay (x ← r; Ok (from_le_bytes x)), w') ->
  (value ← st_unwrap_or LOCAL_ERROR_SENTINEL m;
   respond_with msg (scalar_payload value)) w =
  (Ok (from_req_with_payload msg (padded (thermal_reply c r))), w').
Proof.
  intros Hc Hr Hm. rewrite <- (getter_reply msg c r w' Hc Hr).
  unfold st_unwrap_or, mbind at 1, stM_bind. rewrite Hm.
  by destruct r as [body|e| |].
Qed.

Lemma thermal_command_reference msg c b1 w :
  payload_wf (req_payload msg) -> payload_bytes (req_payload msg) !! 1%nat = Some b1 ->
  thermal_command msg c w =
    let p := payload_bytes (req_payload msg) in
    if length_rejected c p
    then (Ok (from_req_with_payload msg (padded (rejected_reply c))), w)
    else
      let '(r, w') := raw_round_trip THERMAL_SERVICE_ID (discr c) (discr c)
                        (slice p 1 (1 + req_len c)) (rsp_len c) w in
      (Ok (from_req_with_payload msg (padded (thermal_reply c r))), w').
Proof.
  intros Hp Hb1. pose proof (slice_one _ _ _ Hb1) as Hs1.
  assert (forall n, (n <= 23)%nat -> (1 + n <= PAYLOAD_LEN)%nat) as Hlen
    by (unfold PAYLOAD_LEN; lia).
  destruct c; cbn [length_rejected req_len rsp_len thermal_command]; cbv zeta.
  - unfold mbind at 1, stM_bind, lift. rewrite (u8_at_lookup _ 1 b1 Hb1).
    destruct (invoke_request_raw from_le_bytes THERMAL_SERVICE_ID (discr ThermalCommand.GetTmp) [b1]
      4 (fun body => temp ← take_exact_array 4 body; Ok (from_le_bytes temp)) w)
      as (r & w' & Hraw & Hr & Hm); [done|].
    change (1 + 1)%nat with 2%nat in *. rewrite Hs1, Hraw. by apply getter_command.
  - destruct (request_slice msg 13 Hp) as (l & -> & -> & Hb & Hl); [by apply Hlen; lia|].
    destruct (invoke_request_raw (fun _ => tt) THERMAL_SERVICE_ID (discr ThermalCommand.SetThrs)
      (slice (payload_bytes (req_payload msg)) 1 (1 + 13)) 0 parse_unit_response w)
      as (r & w' & Hraw & Hr & Hm); [done|].
    rewrite Hraw. apply setter_command; [done|done|].
    unfold set_threshold. by rewrite SetThresholdRequest_bytes.
  - unfold mbind at 1, stM_bind, lift. rewrite (u8_at_lookup _ 1 b1 Hb1).
    destruct (invoke_request_raw
      (fun x => (from_le_bytes (slice x 0 4), from_le_bytes (slice x 4 8), from_le_bytes (slice x 8 12)))
      THERMAL_SERVICE_ID (discr ThermalCommand.GetThrs) [b1] 12 (fun body =>
          '(timeout, body) ← take_array 4 body;
          '(low, body) ← take_array 4 body;
          high ← take_exact_array 4 body;
          Ok (from_le_bytes timeout, from_le_bytes low, from_le_bytes high)) w)
      as (r & w' & Hraw & Hr & Hm); [intros; apply get_thrs_parse|].
    change (1 + 1)%nat with 2%nat in *. rewrite Hs1, Hraw.
    unfold attempt, mbind at 1, stM_bind, get_threshold. rewrite Hm.
    destruct r as [body|e| |]; cbn in Hr; try done; cbn [map_err mbind outcome_bind].
    + destruct Hr as [Hl Hb]. unfold respond_with, threshold_payload, mbind, stM_bind, lift.
      rewrite !le_slice, !slice_app, slice_all by (done || lia).
      rewrite payload_from_iter_padded by (unfold PAYLOAD_LEN; lia). done.
    + unfold respond_with, threshold_payload, mbind, stM_bind, lift.
      rewrite payload_from_iter_padded by
        (rewrite !length_app, !length_to_le_bytes; unfold PAYLOAD_LEN; lia).
      by destruct e.
  - destruct (request_slice msg 13 Hp) as (l & -> & -> & Hb & Hl); [by apply Hlen; lia|].
    destruct (invoke_request_raw (fun _ => tt) THERMAL_SERVICE_ID (discr ThermalCommand.SetScp)
      (slice (payload_bytes (req_payload msg)) 1 (1 + 13)) 0 parse_unit_response w)
      as (r & w' & Hraw & Hr & Hm); [done|].
    rewrite Hraw. apply setter_command; [done|done|].
    unfold set_scp. by rewrite SetCoolingPolicyRequest_bytes.
  - destruct (request_slice msg 19 Hp) as (l & -> & -> & Hb & Hl); [by apply Hlen; lia|].
    cbn [GetVariableRequest_ref_from_bytes getvar_len]. rewrite slice_slice by lia.
    change (1 + 1)%nat with 2%nat. change (1 + 3)%nat with 4%nat.
    destruct (decide (from_le_bytes (slice (payload_bytes (req_payload msg)) 2 4) = VARIABLE_VALUE_LEN))
      as [He|He].
    + rewrite bool_decide_false by (by intros []).
      destruct (invoke_request_raw from_le_bytes THERMAL_SERVICE_ID (discr ThermalCommand.GetVar)
        (slice (payload_bytes (req_payload msg)) 1 (1 + 19)) 4
        (fun body => value ← take_exact_array 4 body; Ok (from_le_bytes value)) w)
        as (r & w' & Hraw & Hr & Hm); [done|].
      rewrite Hraw. apply getter_command; [done|done|].
      unfold get_var. by rewrite GetVariableRequest_bytes.
    + rewrite bool_decide_true by done. reflexivity.
  - destruct (request_slice msg 23 Hp) as (l & -> & -> & Hb & Hl); [by apply Hlen; lia|].
    cbn [SetVariableRequest_ref_from_bytes setvar_len]. rewrite slice_slice by lia.
    change (1 + 1)%nat with 2%nat. change (1 + 3)%nat with 4%nat.
    destruct (decide (from_le_bytes (slice (payload_bytes (req_payload msg)) 2 4) = VARIABLE_VALUE_LEN))
      as [He|He].
    + rewrite bool_decide_false by (by intros []).
      destruct (invoke_request_raw (fun _ => tt) THERMAL_SERVICE_ID (discr ThermalCommand.SetVar)
        (slice (payload_bytes (req_payload msg)) 1 (1 + 23)) 0 parse_unit_response w)
        as (r & w' & Hraw & Hr & Hm); [done|].
      rewrite Hraw. apply setter_command; [done|done|].
      unfold set_var. by rewrite SetVariableRequest_bytes.
    + rewrite bool_decide_true by done. reflexivity.
Qed.

Lemma thermal_handle_reference msg w :
  message_wf (req_message msg) -> thermal_handle msg w = thermal_reference msg w.
Proof.
  intros (_ & _ & Hp). unfold thermal_handle, thermal_reference.
  fold (req_payload msg) in Hp.
  destruct (payload_lookup (req_payload msg) 0 Hp) as (b0 & Hb0 & _); [unfold PAYLOAD_LEN; lia|].
  destruct (payload_lookup (req_payload msg) 1 Hp) as (b1 & Hb1 & _); [unfold PAYLOAD_LEN; lia|].
  rewrite Hb0. unfold mbind at 1, stM_bind, lift. rewrite (u8_at_lookup _ 0 b0 Hb0).
  cbn [mbind option_bind]. destruct (try_from_primitive b0) as [c|]; [|done].
  by apply thermal_command_reference with b1.
Qed.

Lemma thermal_reply_wf c (r : relay_result (list Z)) :
  settles (fun l => length l = rsp_len c /\ bytes_ok l) r ->
  payload_wf (padded (thermal_reply c r)).
Proof.
  intros Hr. assert (forall n, bytes_ok (sentinel n)) as Hs
    by (intros n; apply Forall_replicate; split; done).
  assert (rsp_len c <= 12)%nat as Hc by (destruct c; cbn; lia).
  assert (12 <= PAYLOAD_LEN)%nat as Hp by (unfold PAYLOAD_LEN; lia).
  apply padded_wf; unfold thermal_reply, sentinel in *.
  - destruct r as [l|[]| |]; cbn in Hr; destruct (is_setter c);
      rewrite ?length_to_le_bytes, ?length_replicate; try lia.
  - destruct r as [l|[]| |]; cbn in Hr; destruct (is_setter c);
      try apply Hs; try apply to_le_bytes_ok; try apply bytes_ok_zeros. apply Hr.
Qed.

Lemma rejected_reply_wf c : payload_wf (padded (rejected_reply c)).
Proof.
  assert (length (rejected_reply c) = 4%nat) as Hl by by destruct c.
  apply padded_wf; [unfold PAYLOAD_LEN; lia|].
  destruct c; apply (bool_decide_unpack _); vm_compute; exact I.
Qed.

Lemma thermal_settles msg :
  message_wf (req_message msg) -> st_settles (replies_to msg) (thermal_handle (W := W) msg).
Proof.
  intros Hmsg w. rewrite thermal_handle_reference by done. unfold thermal_reference.
  destruct (_ ≫= _) as [c|]; [|done]. case_match.
  - apply from_req_replies, rejected_reply_wf.
  - pose proof (raw_round_trip_settles THERMAL_SERVICE_ID (discr c) (discr c)
      (slice (payload_bytes (req_payload msg)) 1 (1 + req_len c)) (rsp_len c) w) as Hr.
    destruct (raw_round_trip _ _ _ _ _ w) as [r w']. by apply from_req_replies, thermal_reply_wf.
Qed.

#[export] Instance thermal_laws : ServiceLaws W Thermal.
Proof.
  refine {| svc_inv := fun _ : Thermal => True |}. intros req s w Hreq _.
  apply on_snd_handled; [by apply thermal_settles|done].
Defined.
End ThermalLemmas.

(** ** Properties *)

(** C15: The thermal service is a transparent relay: for every well-formed
    request it behaves as the reference, which forwards the bytes after the
    command byte (1, 13, 19 or 23 of them) to service 9 of the EC under the
    same command id, in one round trip, and answers with the EC's body of 4 or
    12 bytes, or for a setter with 0, the EC's error code, or the sentinel
    0xFFFFFFFF; a variable command whose length field is not 4 is answered
    without a round trip, and an unknown command is an error.  It never
    panics. *)
Theorem thermal_is_transparent `{UuidOps} {W} `{RelayLaws W} msg (w : W) :
  message_wf (req_message msg) -> thermal_handle msg w = thermal_reference msg w.
Proof.
  intros Hmsg. by apply thermal_handle_reference.
Qed.

Definition thermal_world : EcWorld := ec_world (ec_frame 0x09 1 [0xB8; 0x0B; 0; 0]).

Lemma thermal_is_transparent_witness :
  reply_bytes (thermal_handle (H := uuid_model) (sample_request [1; 3]) thermal_world) =
    Some ([0xB8; 0x0B] ++ replicate 110 0).
Proof.
  assert (message_wf (H := uuid_model) (req_message (sample_request [1; 3]))) as Hmsg
    by (apply sample_request_wf; vm_compute; reflexivity).
  rewrite (thermal_is_transparent (H := uuid_model) (sample_request [1; 3]) thermal_world Hmsg).
  vm_compute. reflexivity.
Defined.
