(* ===== verification/TimeAlarm.v ===== *)
(** The time and alarm service ([ec-service-lib/src/services/time_alarm.rs]):
    six commands relayed to the EC, whose response discriminants differ from
    the request's for four of them. *)
From Stdlib Require Import ZArith Lia.
From S2P Require Import Prelude FfaCore FfaMsg MsgLoop EcRelay RelayClient.
#[local] Open Scope Z_scope.

Definition TIME_ALARM_SERVICE_ID : Z := 0x0B.
Definition ACPI_TIMESTAMP_LEN : nat := 16.
Definition INVALID_TIMESTAMP : list Z := replicate ACPI_TIMESTAMP_LEN 0.

Module TimeAlarmCommand.
Inductive t : Type :=
  | GetCapabilities | GetRealTime | GetWakeStatus | SetTimerValue | GetTimerValue
  | GetExpiredTimerPolicy.

#[export] Instance enum : PrimEnum t := {|
  discr c := match c with
    | GetCapabilities => 1 | GetRealTime => 2 | GetWakeStatus => 4 | SetTimerValue => 6
    | GetTimerValue => 7 | GetExpiredTimerPolicy => 9 end;
  variants := [GetCapabilities; GetRealTime; GetWakeStatus; SetTimerValue; GetTimerValue;
    GetExpiredTimerPolicy];
|}.
End TimeAlarmCommand.
Export (hints) TimeAlarmCommand.

Module TimeAlarmResponseDiscriminant.
Inductive t : Type := Capabilities | TimerStatus | WakePolicy | TimerSeconds | OkNoData.

Definition to_u16 (d : t) : Z :=
  match d with
  | Capabilities => 1 | TimerStatus => 3 | WakePolicy => 4 | TimerSeconds => 5 | OkNoData => 6
  end.
End TimeAlarmResponseDiscriminant.

(** ** Request bodies, as little-endian views of the bytes *)

Record TimerRequest : Type := { timer_id : Z }.

Definition TimerRequest_ref_from_bytes (l : list Z) : TimerRequest :=
  {| timer_id := from_le_bytes (slice l 0 4) |}.
Definition TimerRequest_as_bytes (r : TimerRequest) : list Z := to_le_bytes 4 (timer_id r).

Record SetTimerValueRequest : Type := { set_timer_id : Z; seconds : Z }.

Definition SetTimerValueRequest_ref_from_bytes (l : list Z) : SetTimerValueRequest :=
  {| set_timer_id := from_le_bytes (slice l 0 4); seconds := from_le_bytes (slice l 4 8) |}.
Definition SetTimerValueRequest_as_bytes (r : SetTimerValueRequest) : list Z :=
  to_le_bytes 4 (set_timer_id r) ++ to_le_bytes 4 (seconds r).

Definition LOCAL_ERROR_SENTINEL : Z := 0xFFFFFFFF.

Definition scalar_payload {E} (value : Z) : outcome E DirectMessagePayload :=
  payload_from_iter (to_le_bytes 4 value).

Inductive TimeAlarmError : Type := TimeAlarmError_Relay (e : EcRelayError.t).

Definition setter_status (result : unit + TimeAlarmError) : Z :=
  match result with
  | inl _ => 0
  | inr (TimeAlarmError_Relay (EcRelayError.Remote code)) => code
  | inr _ => LOCAL_ERROR_SENTINEL
  end.

Section TimeAlarm.
Context `{UuidOps} {W : Type} `{Relay W}.

Inductive TimeAlarm : Type := TimeAlarm_new.

Definition get_real_time : stM W TimeAlarmError (list Z) :=
  st_map_err TimeAlarmError_Relay
    (invoke_request TIME_ALARM_SERVICE_ID (discr TimeAlarmCommand.GetRealTime) []
       (take_exact_array ACPI_TIMESTAMP_LEN)).

Definition get_capabilities : stM W TimeAlarmError Z :=
  st_map_err TimeAlarmError_Relay
    (invoke_request_with_response_id TIME_ALARM_SERVICE_ID
       (discr TimeAlarmCommand.GetCapabilities)
       (TimeAlarmResponseDiscriminant.to_u16 TimeAlarmResponseDiscriminant.Capabilities)
       [] parse_u32_response).

Definition get_wake_status (request : TimerRequest) : stM W TimeAlarmError Z :=
  st_map_err TimeAlarmError_Relay
    (invoke_request_with_response_id TIME_ALARM_SERVICE_ID
       (discr TimeAlarmCommand.GetWakeStatus)
       (TimeAlarmResponseDiscriminant.to_u16 TimeAlarmResponseDiscriminant.TimerStatus)
       (TimerRequest_as_bytes request) parse_u32_response).

Definition set_timer_value (request : SetTimerValueRequest) : stM W TimeAlarmError unit :=
  st_map_err TimeAlarmError_Relay
    (invoke_request_with_response_id TIME_ALARM_SERVICE_ID
       (discr TimeAlarmCommand.SetTimerValue)
       (TimeAlarmResponseDiscriminant.to_u16 TimeAlarmResponseDiscriminant.OkNoData)
       (SetTimerValueRequest_as_bytes request) parse_unit_response).

Definition get_timer_value (request : TimerRequest) : stM W TimeAlarmError Z :=
  st_map_err TimeAlarmError_Relay
    (invoke_request_with_response_id TIME_ALARM_SERVICE_ID
       (discr TimeAlarmCommand.GetTimerValue)
       (TimeAlarmResponseDiscriminant.to_u16 TimeAlarmResponseDiscriminant.TimerSeconds)
       (TimerRequest_as_bytes request) parse_u32_response).

Definition get_expired_timer_policy (request : TimerRequest) : stM W TimeAlarmError Z :=
  st_map_err TimeAlarmError_Relay
    (invoke_request_with_response_id TIME_ALARM_SERVICE_ID
       (discr TimeAlarmCommand.GetExpiredTimerPolicy)
       (TimeAlarmResponseDiscriminant.to_u16 TimeAlarmResponseDiscriminant.WakePolicy)
       (TimerRequest_as_bytes request) parse_u32_response).

Definition reply_scalar (msg : MsgSendDirectReq2) (value : Z) : stM W Error.t MsgSendDirectResp2 :=
  p ← lift (scalar_payload value);
  mret (from_req_with_payload msg p).

(** [parse_ffa_request(..).map(|request| get(request).unwrap_or(S)).unwrap_or(S)] *)
Definition query_timer (msg : MsgSendDirectReq2) (get : TimerRequest -> stM W TimeAlarmError Z) :
    stM W Error.t Z :=
  match parse_ffa_request 4 (req_payload msg) with
  | Some l => st_unwrap_or LOCAL_ERROR_SENTINEL (get (TimerRequest_ref_from_bytes l))
  | None => mret LOCAL_ERROR_SENTINEL
  end.

Definition time_alarm_command (msg : MsgSendDirectReq2) (command : TimeAlarmCommand.t) :
    stM W Error.t MsgSendDirectResp2 :=
  match command with
  | TimeAlarmCommand.GetCapabilities =>
      value ← st_unwrap_or LOCAL_ERROR_SENTINEL get_capabilities;
      reply_scalar msg value
  | TimeAlarmCommand.GetRealTime =>
      timestamp ← st_unwrap_or INVALID_TIMESTAMP get_real_time;
      p ← lift (payload_from_iter timestamp);
      mret (from_req_with_payload msg p)
  | TimeAlarmCommand.GetWakeStatus =>
      value ← query_timer msg get_wake_status;
      reply_scalar msg value
  | TimeAlarmCommand.SetTimerValue =>
      status ← match parse_ffa_request 8 (req_payload msg) with
               | Some l =>
                   r ← attempt (set_timer_value (SetTimerValueRequest_ref_from_bytes l));
                   mret (setter_status r)
               | None => mret LOCAL_ERROR_SENTINEL
               end;
      reply_scalar msg status
  | TimeAlarmCommand.GetTimerValue =>
      value ← query_timer msg get_timer_value;
      reply_scalar msg value
  | TimeAlarmCommand.GetExpiredTimerPolicy =>
      value ← query_timer msg get_expired_timer_policy;
      reply_scalar msg value
  end.

Definition time_alarm_handle (msg : MsgSendDirectReq2) : stM W Error.t MsgSendDirectResp2 :=
  cmd ← lift (u8_at (req_payload msg) 0);
  match try_from_primitive cmd with
  | None => lift (Err (Error.Other "Unknown TimeAlarm Command"))
  | Some command => time_alarm_command msg command
  end.

#[export] Instance time_alarm_service : Service W TimeAlarm := {|
  svc_UUID := uuid_lit 0x23ea63edb59346eab0278924df88e92f;
  svc_NAME := "TimeAlarm";
  ffa_msg_send_direct_req2 msg := on_snd (time_alarm_handle msg);
|}.
End TimeAlarm.

(** ** The transparent relay *)

(** Response discriminant, request and response lengths of a command. *)
Definition response_id (c : TimeAlarmCommand.t) : Z :=
  match c with
  | TimeAlarmCommand.GetCapabilities => 1
  | TimeAlarmCommand.GetRealTime => 2
  | TimeAlarmCommand.GetWakeStatus => 3
  | TimeAlarmCommand.SetTimerValue => 6
  | TimeAlarmCommand.GetTimerValue => 5
  | TimeAlarmCommand.GetExpiredTimerPolicy => 4
  end.

Definition ta_req_len (c : TimeAlarmCommand.t) : nat :=
  match c with
  | TimeAlarmCommand.GetCapabilities | TimeAlarmCommand.GetRealTime => 0
  | TimeAlarmCommand.SetTimerValue => 8
  | _ => 4
  end.

Definition ta_rsp_len (c : TimeAlarmCommand.t) : nat :=
  match c with
  | TimeAlarmCommand.SetTimerValue => 0
  | TimeAlarmCommand.GetRealTime => 16
  | _ => 4
  end.

(** The reply: the EC's body; for the setter 0, the remote code or the
    sentinel; on failure an all-zero timestamp or the sentinel. *)
Definition time_alarm_reply (c : TimeAlarmCommand.t) (r : relay_result (list Z)) : list Z :=
  match c, r with
  | TimeAlarmCommand.SetTimerValue, Ok _ => replicate 4 0
  | TimeAlarmCommand.SetTimerValue, Err (EcRelayError.Remote code) => to_le_bytes 4 code
  | _, Ok body => body
  | TimeAlarmCommand.GetRealTime, _ => replicate 16 0
  | _, _ => replicate 4 0xFF
  end.

Section Reference.
Context `{UuidOps} {W : Type} `{Relay W}.

Definition time_alarm_reference (msg : MsgSendDirectReq2) : stM W Error.t MsgSendDirectResp2 :=
  fun w =>
  let p := payload_bytes (req_payload msg) in
  match p !! 0%nat ≫= try_from_primitive with
  | None => (Err (Error.Other "Unknown TimeAlarm Command"), w)
  | Some c =>
      let '(r, w') := raw_round_trip TIME_ALARM_SERVICE_ID (discr c) (response_id c)
                        (slice p 1 (1 + ta_req_len c)) (ta_rsp_len c) w in
      (Ok (from_req_with_payload msg (padded (time_alarm_reply c r))), w')
  end.
End Reference.

(** ** Lemmas *)

#[export] Instance time_alarm_command_laws : PrimEnumLaws TimeAlarmCommand.t.
Proof. solve_prim_enum. Qed.

Lemma TimerRequest_bytes l : bytes_ok l -> length l = 4%nat ->
  TimerRequest_as_bytes (TimerRequest_ref_from_bytes l) = l.
Proof.
  intros Hb Hl. unfold TimerRequest_as_bytes. cbn [TimerRequest_ref_from_bytes timer_id].
  rewrite le_slice by (done || lia). by apply slice_all.
Qed.

Lemma SetTimerValueRequest_bytes l : bytes_ok l -> length l = 8%nat ->
  SetTimerValueRequest_as_bytes (SetTimerValueRequest_ref_from_bytes l) = l.
Proof.
  intros Hb Hl. unfold SetTimerValueRequest_as_bytes.
  cbn [SetTimerValueRequest_ref_from_bytes set_timer_id seconds].
  rewrite !le_slice, slice_app by (done || lia). by apply slice_all.
Qed.

Section TimeAlarmLemmas.
Context `{UuidOps} {W : Type} `{RelayLaws W}.
Implicit Types (msg : MsgSendDirectReq2) (w : W).

(** A getter of one scalar: the reply is the EC's four bytes or the sentinel. *)
Lemma scalar_getter msg (m : stM W TimeAlarmError Z) (r : relay_result (list Z)) w w' :
  settles (fun l => length l = 4%nat /\ bytes_ok l) r ->
  m w = (map_err TimeAlarmError_Relay (x ← r; Ok (from_le_bytes x)), w') ->
  (value ← st_unwrap_or LOCAL_ERROR_SENTINEL m; reply_scalar msg value) w =
  (Ok (from_req_with_payload msg
     (padded (match r with Ok body => body | _ => replicate 4 0xFF end))), w').
Proof.
  intros Hr Hm. unfold st_unwrap_or, mbind at 1, stM_bind. rewrite Hm.
  unfold reply_scalar, scalar_payload, mbind, stM_bind, lift.
  destruct r as [body|e| |]; cbn in Hr; [| |contradiction|contradiction];
    cbn [map_err mbind outcome_bind].
  - destruct Hr as [Hl Hb].
    rewrite from_le_padded; [exact eq_refl|exact Hb|exact Hl|unfold PAYLOAD_LEN; lia].
  - rewrite payload_from_iter_padded by (rewrite length_to_le_bytes; unfold PAYLOAD_LEN; lia).
    exact eq_refl.
Qed.

Lemma time_alarm_command_reference msg c w :
  payload_wf (req_payload msg) ->
  time_alarm_command msg c w =
    let '(r, w') := raw_round_trip TIME_ALARM_SERVICE_ID (discr c) (response_id c)
                      (slice (payload_bytes (req_payload msg)) 1 (1 + ta_req_len c)) (ta_rsp_len c) w in
    (Ok (from_req_with_payload msg (padded (time_alarm_reply c r))), w').
Proof.
  intros Hp. assert (4 <= PAYLOAD_LEN - 1)%nat as H4 by (unfold PAYLOAD_LEN; lia).
  assert (forall get mid rid (w : W),
    get = (fun request => st_map_err TimeAlarmError_Relay
      (invoke_request_with_response_id TIME_ALARM_SERVICE_ID mid rid (TimerRequest_as_bytes request)
         parse_u32_response)) ->
    (value ← query_timer msg get; reply_scalar msg value) w =
      let '(r, w') := raw_round_trip TIME_ALARM_SERVICE_ID mid rid
                        (slice (payload_bytes (req_payload msg)) 1 (1 + 4)) 4 w in
      (Ok (from_req_with_payload msg
         (padded (match r with Ok body => body | _ => replicate 4 0xFF end))), w')) as Hquery.
  { intros get mid rid w0 ->. unfold query_timer.
    destruct (request_slice msg 4 Hp) as (l & -> & -> & Hb & Hl); [lia|].
    destruct (invoke_raw TimeAlarmError_Relay from_le_bytes TIME_ALARM_SERVICE_ID mid rid
      (slice (payload_bytes (req_payload msg)) 1 (1 + 4)) 4 parse_u32_response w0)
      as (r & w' & -> & Hr & Hm); [done|].
    apply scalar_getter; [done|]. by rewrite TimerRequest_bytes. }
  destruct c; cbn [time_alarm_command ta_req_len ta_rsp_len response_id].
  - destruct (invoke_raw TimeAlarmError_Relay from_le_bytes TIME_ALARM_SERVICE_ID 1 1
      [] 4 parse_u32_response w) as (r & w' & Hraw & Hr & Hm); [done|].
    change (slice _ 1 (1 + 0)) with (@nil Z). cbn [discr TimeAlarmCommand.enum]. rewrite Hraw.
    rewrite (scalar_getter msg get_capabilities r w w' Hr Hm). by destruct r.
  - destruct (invoke_raw TimeAlarmError_Relay (fun x => x) TIME_ALARM_SERVICE_ID 2 2
      [] 16 (take_exact_array 16) w) as (r & w' & Hraw & Hr & Hm).
    { intros b _. by destruct (take_exact_array 16 b). }
    change (slice _ 1 (1 + 0)) with (@nil Z). cbn [discr TimeAlarmCommand.enum]. rewrite Hraw.
    unfold st_unwrap_or, mbind at 1, stM_bind, get_real_time, invoke_request, ACPI_TIMESTAMP_LEN.
    cbn [discr TimeAlarmCommand.enum]. rewrite Hm. unfold mbind, stM_bind, lift.
    destruct r as [body|e| |]; cbn in Hr; [| |contradiction|contradiction]; cbn [map_err mbind outcome_bind].
    + destruct Hr as [Hl _]. rewrite payload_from_iter_padded by (unfold PAYLOAD_LEN; lia). done.
    + rewrite payload_from_iter_padded by
        (unfold INVALID_TIMESTAMP, ACPI_TIMESTAMP_LEN; rewrite length_replicate; unfold PAYLOAD_LEN; lia).
      done.
  - rewrite (Hquery get_wake_status _ _ w eq_refl).
    destruct (raw_round_trip _ _ _ _ _ w) as [[]?]; reflexivity.
  - destruct (request_slice msg 8 Hp) as (l & -> & -> & Hb & Hl); [unfold PAYLOAD_LEN; lia|].
    destruct (invoke_raw TimeAlarmError_Relay (fun _ => tt) TIME_ALARM_SERVICE_ID 6 6
      (slice (payload_bytes (req_payload msg)) 1 (1 + 8)) 0 parse_unit_response w)
      as (r & w' & Hraw & Hr & Hm); [done|].
    cbn [discr TimeAlarmCommand.enum]. rewrite Hraw.
    unfold attempt, mbind at 1 2, stM_bind, set_timer_value.
    rewrite SetTimerValueRequest_bytes by done. cbn [discr TimeAlarmCommand.enum].
    change (TimeAlarmResponseDiscriminant.to_u16 TimeAlarmResponseDiscriminant.OkNoData) with 6.
    rewrite Hm. unfold reply_scalar, scalar_payload, mret, stM_ret, mbind, stM_bind, lift.
    destruct r as [body|e| |]; cbn in Hr; [| |contradiction|contradiction]; cbn [map_err mbind outcome_bind];
      rewrite payload_from_iter_padded by (rewrite length_to_le_bytes; unfold PAYLOAD_LEN; lia).
    + reflexivity.
    + destruct e; reflexivity.
  - rewrite (Hquery get_timer_value _ _ w eq_refl).
    destruct (raw_round_trip _ _ _ _ _ w) as [[]?]; reflexivity.
  - rewrite (Hquery get_expired_timer_policy _ _ w eq_refl).
    destruct (raw_round_trip _ _ _ _ _ w) as [[]?]; reflexivity.
Qed.

Lemma time_alarm_handle_reference msg w :
  message_wf (req_message msg) -> time_alarm_handle msg w = time_alarm_reference msg w.
Proof.
  intros (_ & _ & Hp). unfold time_alarm_handle, time_alarm_reference.
  fold (req_payload msg) in Hp.
  destruct (payload_lookup (req_payload msg) 0 Hp) as (b0 & Hb0 & _); [unfold PAYLOAD_LEN; lia|].
  rewrite Hb0. unfold mbind at 1, stM_bind, lift. rewrite (u8_at_lookup _ 0 b0 Hb0).
  cbn [mbind option_bind]. destruct (try_from_primitive b0) as [c|]; [|done].
  by apply time_alarm_command_reference.
Qed.

Lemma time_alarm_reply_wf c (r : relay_result (list Z)) :
  settles (fun l => length l = ta_rsp_len c /\ bytes_ok l) r ->
  payload_wf (padded (time_alarm_reply c r)).
Proof.
  intros Hr. assert (bytes_ok (replicate 4 0xFF)) as Hs by (apply Forall_replicate; split; done).
  assert (ta_rsp_len c <= 16)%nat as Hc by (destruct c; cbn; lia).
  assert (16 <= PAYLOAD_LEN)%nat as Hp by (unfold PAYLOAD_LEN; lia).
  apply padded_wf; unfold time_alarm_reply in *.
  - destruct c, r as [l|[]| |]; cbn [settles ta_rsp_len] in Hr;
      rewrite ?length_to_le_bytes, ?length_replicate; lia.
  - destruct c, r as [l|[]| |]; cbn [settles ta_rsp_len] in Hr;
      try exact Hs; try apply to_le_bytes_ok; try apply bytes_ok_zeros; apply Hr.
Qed.

Lemma time_alarm_settles msg :
  message_wf (req_message msg) -> st_settles (replies_to msg) (time_alarm_handle (W := W) msg).
Proof.
  intros Hmsg w. rewrite time_alarm_handle_reference by done. unfold time_alarm_reference.
  destruct (_ ≫= _) as [c|]; [|done].
  pose proof (raw_round_trip_settles TIME_ALARM_SERVICE_ID (discr c) (response_id c)
    (slice (payload_bytes (req_payload msg)) 1 (1 + ta_req_len c)) (ta_rsp_len c) w) as Hr.
  destruct (raw_round_trip _ _ _ _ _ w) as [r w']. by apply from_req_replies, time_alarm_reply_wf.
Qed.

#[export] Instance time_alarm_laws : ServiceLaws W TimeAlarm.
Proof.
  refine {| svc_inv := fun _ : TimeAlarm => True |}. intros req s w Hreq _.
  apply on_snd_handled; [by apply time_alarm_settles|done].
Defined.
End TimeAlarmLemmas.

(** ** Properties *)

(** C19: The time and alarm service is a transparent relay: for every
    well-formed request it behaves as the reference, which forwards the 0, 4 or
    8 bytes after the command byte to service 0x0B under the command's id,
    accepts only the response discriminant the firmware assigns to that command
    (1, 2, 3, 6, 5, 4), and answers with the EC's 4 or 16 bytes; a failed
    query answers the sentinel 0xFFFFFFFF, a failed clock read an all-zero
    timestamp, and the setter 0, the EC's error code or the sentinel. *)
Theorem time_alarm_is_transparent `{UuidOps} {W} `{RelayLaws W} msg (w : W) :
  message_wf (req_message msg) -> time_alarm_handle msg w = time_alarm_reference msg w.
Proof.
  intros Hmsg. by apply time_alarm_handle_reference.
Qed.

(** GetTimerValue: the EC answers message 7 with discriminant 5. *)
Definition timer_world : EcWorld := ec_world (ec_frame 0x0B 5 [0x3C; 0; 0; 0]).

Lemma time_alarm_is_transparent_witness :
  reply_bytes (time_alarm_handle (H := uuid_model) (sample_request [7; 1; 0; 0; 0]) timer_world) =
    Some (0x3C :: replicate 111 0).
Proof.
  assert (message_wf (H := uuid_model) (req_message (sample_request [7; 1; 0; 0; 0]))) as Hmsg
    by (apply sample_request_wf; vm_compute; reflexivity).
  rewrite (time_alarm_is_transparent (H := uuid_model) (sample_request [7; 1; 0; 0; 0]) timer_world Hmsg).
  vm_compute. reflexivity.
Defined.
