(* ===== verification/Battery.v ===== *)
(** The battery service ([ec-service-lib/src/services/battery.rs]): GetBix,
    GetBst and SetBtp relayed to the EC; unlike the thermal and alarm services
    a failed round trip is an FF-A error, not a sentinel in the reply. *)
From Stdlib Require Import ZArith Lia.
From S2P Require Import Prelude FfaCore FfaMsg MsgLoop EcRelay RelayClient.
#[local] Open Scope Z_scope.

Definition BATTERY_SERVICE_ID : Z := 0x08.
Definition BIX_RESPONSE_LEN : nat := 100.

Module BatteryCommand.
Inductive t : Type := GetBix | GetBst | SetBtp.

#[export] Instance enum : PrimEnum t := {|
  discr c := match c with GetBix => 1 | GetBst => 2 | SetBtp => 6 end;
  variants := [GetBix; GetBst; SetBtp];
|}.
End BatteryCommand.
Export (hints) BatteryCommand.

Record BstReturnRaw : Type := {
  battery_state : Z;
  battery_present_rate : Z;
  battery_remaining_capacity : Z;
  battery_present_voltage : Z;
}.

Inductive BatteryError : Type :=
  | BatteryError_Relay (e : EcRelayError.t)
  | UnexpectedResponse.

(** The closure that [get_bst] hands to the relay; bytes after the fourth
    dword are ignored ([let (voltage, _) = take_array(body)?]). *)
Definition parse_bst (body : list Z) : relay_result BstReturnRaw :=
  '(state, body) ← take_array 4 body;
  '(rate, body) ← take_array 4 body;
  '(capacity, body) ← take_array 4 body;
  '(voltage, _) ← take_array 4 body;
  Ok {| battery_state := from_le_bytes state;
        battery_present_rate := from_le_bytes rate;
        battery_remaining_capacity := from_le_bytes capacity;
        battery_present_voltage := from_le_bytes voltage |}.

Definition bst_bytes (bst : BstReturnRaw) : list Z :=
  to_le_bytes 4 (battery_state bst) ++ to_le_bytes 4 (battery_present_rate bst) ++
  to_le_bytes 4 (battery_remaining_capacity bst) ++ to_le_bytes 4 (battery_present_voltage bst).

Definition BST_FAILED : Error.t :=
  Error.Other "Battery: GetBst round-trip failed (transport or wire decode)".
Definition BIX_FAILED : Error.t :=
  Error.Other "Battery: GetBix round-trip failed (transport or wire decode)".
Definition BTP_FAILED : Error.t :=
  Error.Other "Battery: SetBtp round-trip failed (transport or wire decode)".

Section Battery.
Context `{UuidOps} {W : Type} `{Relay W}.

Inductive Battery : Type := Battery_new.

Definition get_bst (battery_id : Z) : stM W BatteryError BstReturnRaw :=
  st_map_err BatteryError_Relay
    (invoke_request BATTERY_SERVICE_ID (discr BatteryCommand.GetBst) [battery_id] parse_bst).

Definition get_bix (battery_id : Z) : stM W BatteryError (list Z) :=
  st_map_err BatteryError_Relay
    (invoke_request BATTERY_SERVICE_ID (discr BatteryCommand.GetBix) [battery_id]
       (take_exact_array BIX_RESPONSE_LEN)).

Definition set_btp (battery_id trip_point : Z) : stM W BatteryError unit :=
  let request := battery_id :: to_le_bytes 4 trip_point in
  st_map_err BatteryError_Relay
    (invoke_request BATTERY_SERVICE_ID (discr BatteryCommand.SetBtp) request parse_unit_response).

Definition battery_command (msg : MsgSendDirectReq2) (command : BatteryCommand.t) (battery_id : Z) :
    stM W Error.t MsgSendDirectResp2 :=
  match command with
  | BatteryCommand.GetBst =>
      r ← attempt (get_bst battery_id);
      match r with
      | inl bst =>
          payload ← lift (payload_from_iter (bst_bytes bst));
          mret (from_req_with_payload msg payload)
      | inr _ => lift (Err BST_FAILED)
      end
  | BatteryCommand.GetBix =>
      bix ← st_map_err (fun _ => BIX_FAILED) (get_bix battery_id);
      payload ← lift (payload_from_iter bix);
      mret (from_req_with_payload msg payload)
  | BatteryCommand.SetBtp =>
      trip_point ← lift (u32_at (req_payload msg) 4);
      _ ← st_map_err (fun _ => BTP_FAILED) (set_btp battery_id trip_point);
      payload ← lift (payload_from_iter []);
      mret (from_req_with_payload msg payload)
  end.

Definition battery_handle (msg : MsgSendDirectReq2) : stM W Error.t MsgSendDirectResp2 :=
  cmd ← lift (u8_at (req_payload msg) 0);
  command ← lift (ok_or (Error.Other "Unknown Battery Command") (try_from_primitive cmd));
  battery_id ← lift (u8_at (req_payload msg) 1);
  battery_command msg command battery_id.

#[export] Instance battery_service : Service W Battery := {|
  svc_UUID := uuid_lit 0x25cb5207ac36427daaef3aa78877d27e;
  svc_NAME := "Battery";
  ffa_msg_send_direct_req2 msg := on_snd (battery_handle msg);
|}.
End Battery.

(** ** The transparent relay *)

(** What is sent: the battery id, and for SetBtp the trip point at bytes 4..8. *)
Definition battery_request (c : BatteryCommand.t) (p : list Z) : list Z :=
  match c with
  | BatteryCommand.SetBtp => slice p 1 2 ++ slice p 4 8
  | _ => slice p 1 2
  end.

(** What is accepted: sixteen bytes and anything after them, exactly a hundred
    bytes, or nothing. *)
Definition battery_response (c : BatteryCommand.t) (body : list Z) : relay_result (list Z) :=
  match c with
  | BatteryCommand.GetBst => '(l, _) ← take_array 16 body; Ok l
  | BatteryCommand.GetBix => take_exact_array 100 body
  | BatteryCommand.SetBtp => take_exact_array 0 body
  end.

Definition battery_error (c : BatteryCommand.t) : Error.t :=
  match c with
  | BatteryCommand.GetBst => BST_FAILED
  | BatteryCommand.GetBix => BIX_FAILED
  | BatteryCommand.SetBtp => BTP_FAILED
  end.

Section Reference.
Context `{UuidOps} {W : Type} `{Relay W}.

Definition battery_round_trip (c : BatteryCommand.t) (p : list Z) : stM W EcRelayError.t (list Z) :=
  invoke_request_with_response_id BATTERY_SERVICE_ID (discr c) (discr c) (battery_request c p)
    (battery_response c).

Definition battery_reference (msg : MsgSendDirectReq2) : stM W Error.t MsgSendDirectResp2 :=
  fun w =>
  let p := payload_bytes (req_payload msg) in
  match p !! 0%nat ≫= try_from_primitive with
  | None => (Err (Error.Other "Unknown Battery Command"), w)
  | Some c =>
      let '(r, w') := battery_round_trip c p w in
      (match r with
       | Ok body => Ok (from_req_with_payload msg (padded body))
       | _ => Err (battery_error c)
       end, w')
  end.
End Reference.

(** ** Lemmas *)

#[export] Instance battery_command_laws : PrimEnumLaws BatteryCommand.t.
Proof. solve_prim_enum. Qed.

Definition battery_rsp_len (c : BatteryCommand.t) : nat :=
  match c with
  | BatteryCommand.GetBst => 16
  | BatteryCommand.GetBix => 100
  | BatteryCommand.SetBtp => 0
  end.

Lemma battery_response_settles c body :
  bytes_ok body ->
  settles (fun l => length l = battery_rsp_len c /\ bytes_ok l) (battery_response c body).
Proof.
  intros Hb. destruct c; cbn [battery_response battery_rsp_len].
  - eapply settles_mono; [by apply take_exact_array_settles|]. by intros ? _ (_ & ? & ?).
  - unfold take_array. case_decide as Hl; [|done]. cbn.
    split; [rewrite length_take; lia|by apply Forall_take].
  - eapply settles_mono; [by apply take_exact_array_settles|]. by intros ? _ (_ & ? & ?).
Qed.

(** Reading four dwords one after the other is reading sixteen bytes. *)
Definition bst_of (l : list Z) : BstReturnRaw := {|
  battery_state := from_le_bytes (slice l 0 4);
  battery_present_rate := from_le_bytes (slice l 4 8);
  battery_remaining_capacity := from_le_bytes (slice l 8 12);
  battery_present_voltage := from_le_bytes (slice l 12 16);
|}.

Lemma parse_bst_of body :
  parse_bst body = (x ← battery_response BatteryCommand.GetBst body; Ok (bst_of x)).
Proof.
  unfold parse_bst. cbn [battery_response]. unfold take_array.
  repeat (let Hd := fresh "Hd" in case_decide as Hd; cbn [mbind outcome_bind];
    rewrite ?length_drop in Hd; try lia; try done).
  rewrite !drop_drop. unfold bst_of, slice. cbn [Nat.add Nat.sub].
  rewrite !skipn_firstn_comm, !take_take. reflexivity.
Qed.

Lemma bst_bytes_of l : bytes_ok l -> length l = 16%nat -> bst_bytes (bst_of l) = l.
Proof.
  intros Hb Hl. unfold bst_bytes.
  cbn [bst_of battery_state battery_present_rate battery_remaining_capacity battery_present_voltage].
  rewrite !le_slice, !slice_app by (done || lia). by apply slice_all.
Qed.


Section BatteryLemmas.
Context `{UuidOps} {W : Type} `{RelayLaws W}.
Implicit Types (msg : MsgSendDirectReq2) (w : W).

Lemma battery_round_trip_settles c p :
  st_settles (fun l => length l = battery_rsp_len c /\ bytes_ok l) (battery_round_trip (W := W) c p).
Proof.
  apply relay_request_settles. intros b Hb. by apply battery_response_settles.
Qed.

Lemma battery_command_reference msg c b1 w :
  payload_wf (req_payload msg) -> payload_bytes (req_payload msg) !! 1%nat = Some b1 ->
  battery_command msg c b1 w =
    let '(r, w') := battery_round_trip c (payload_bytes (req_payload msg)) w in
    (match r with
     | Ok body => Ok (from_req_with_payload msg (padded body))
     | _ => Err (battery_error c)
     end, w').
Proof.
  intros Hp Hb1. assert (100 <= PAYLOAD_LEN)%nat as Hlen by (unfold PAYLOAD_LEN; lia).
  pose proof (battery_round_trip_settles c (payload_bytes (req_payload msg)) w) as Hs.
  pose proof (slice_one _ 1 b1 Hb1) as Hs1. change (1 + 1)%nat with 2%nat in Hs1.
  destruct c; cbn [battery_command].
  - unfold attempt, get_bix, invoke_request, st_map_err, mbind, stM_bind, lift.
    unfold battery_round_trip in *. cbn [battery_request battery_response] in *.
    rewrite Hs1 in *. unfold BIX_RESPONSE_LEN.
    destruct (invoke_request_with_response_id _ _ _ _ _ w) as [[body|e| |] w']; cbn in Hs;
      [|reflexivity|contradiction|contradiction].
    cbn [map_err]. rewrite payload_from_iter_padded by lia. reflexivity.
  - unfold attempt, get_bst, invoke_request, st_map_err, mbind at 1, stM_bind, lift.
    rewrite (relay_request_map bst_of BATTERY_SERVICE_ID _ _ [b1] _ parse_bst w (fun b _ => parse_bst_of b)).
    unfold battery_round_trip in *. cbn [battery_request] in *. rewrite Hs1 in *.
    destruct (invoke_request_with_response_id _ _ _ _ _ w) as [[body|e| |] w'];
      cbn [settles fst battery_rsp_len] in Hs; [|reflexivity|contradiction|contradiction].
    destruct Hs as [Hl Hb]. cbn [map_err mbind outcome_bind]. unfold mbind, stM_bind.
    rewrite bst_bytes_of by done. rewrite payload_from_iter_padded by lia. reflexivity.
  - destruct Hp as [Hpl Hpb].
    unfold u32_at, payload_slice, get_slice, mbind at 1, stM_bind, lift.
    rewrite Hpl, decide_True by (unfold PAYLOAD_LEN; lia). cbn [or_panic mbind outcome_bind].
    unfold attempt, set_btp, invoke_request, st_map_err, mbind at 1, stM_bind.
    rewrite le_slice by (try done; rewrite Hpl; unfold PAYLOAD_LEN; lia).
    rewrite (relay_request_map (fun _ => tt) BATTERY_SERVICE_ID _ _
      (b1 :: _) (take_exact_array 0) parse_unit_response w (fun _ _ => eq_refl)).
    unfold battery_round_trip in *. cbn [battery_request battery_response] in *. rewrite Hs1 in *.
    cbn [app] in *. 
    destruct (invoke_request_with_response_id _ _ _ _ _ w) as [[body|e| |] w'];
      cbn [settles fst battery_rsp_len] in Hs; [|reflexivity|contradiction|contradiction].
    destruct Hs as [Hl Hb]. apply nil_length_inv in Hl as ->. cbn [map_err mbind outcome_bind].
    unfold mbind, stM_bind. rewrite payload_from_iter_padded by (cbn; lia). reflexivity.
Qed.

Lemma battery_handle_reference msg w :
  message_wf (req_message msg) -> battery_handle msg w = battery_reference msg w.
Proof.
  intros (_ & _ & Hp). unfold battery_handle, battery_reference.
  fold (req_payload msg) in Hp.
  destruct (payload_lookup (req_payload msg) 0 Hp) as (b0 & Hb0 & _); [unfold PAYLOAD_LEN; lia|].
  destruct (payload_lookup (req_payload msg) 1 Hp) as (b1 & Hb1 & _); [unfold PAYLOAD_LEN; lia|].
  rewrite Hb0. unfold mbind at 1 2 3, stM_bind, lift.
  rewrite (u8_at_lookup _ 0 b0 Hb0), (u8_at_lookup _ 1 b1 Hb1).
  cbn [mbind option_bind]. destruct (try_from_primitive b0) as [c|]; [|done]. cbn [ok_or].
  by apply battery_command_reference.
Qed.

Lemma battery_settles msg :
  message_wf (req_message msg) -> st_settles (replies_to msg) (battery_handle (W := W) msg).
Proof.
  intros Hmsg w. rewrite battery_handle_reference by done. unfold battery_reference.
  destruct (_ ≫= _) as [c|]; [|done].
  pose proof (battery_round_trip_settles c (payload_bytes (req_payload msg)) w) as Hr.
  destruct (battery_round_trip c _ w) as [[body|e| |] w']; try done.
  apply from_req_replies. destruct Hr as [Hl Hb]. apply padded_wf; [|done].
  rewrite Hl. unfold PAYLOAD_LEN. destruct c; cbn; lia.
Qed.

#[export] Instance battery_laws : ServiceLaws W Battery.
Proof.
  refine {| svc_inv := fun _ : Battery => True |}. intros req s w Hreq _.
  apply on_snd_handled; [by apply battery_settles|done].
Defined.
End BatteryLemmas.

(** ** Properties *)

(** C20: The battery service is a relay that forwards the battery id (and for
    SetBtp the four bytes at payload offset 4) to service 8 of the EC under
    the command's own id and answers with the EC's bytes: the first sixteen
    for GetBst whatever follows them, exactly a hundred for GetBix, none for
    SetBtp; any failure of the round trip is that command's FF-A error and an
    unknown command is rejected without one.  It never panics. *)
Theorem battery_is_transparent `{UuidOps} {W} `{RelayLaws W} msg (w : W) :
  message_wf (req_message msg) -> battery_handle msg w = battery_reference msg w.
Proof.
  intros Hmsg. by apply battery_handle_reference.
Qed.

(** GetBst of battery 0; the EC sends two bytes too many. *)
Definition battery_world : EcWorld :=
  ec_world (ec_frame 0x08 2 [2; 0; 0; 0; 0xE8; 3; 0; 0; 0x88; 0x13; 0; 0; 0x5C; 0x2B; 0; 0; 7; 7]).

Lemma battery_is_transparent_witness :
  reply_bytes (battery_handle (H := uuid_model) (sample_request [2; 0]) battery_world) =
    Some ([2; 0; 0; 0; 0xE8; 3; 0; 0; 0x88; 0x13; 0; 0; 0x5C; 0x2B] ++ replicate 98 0).
Proof.
  assert (message_wf (H := uuid_model) (req_message (sample_request [2; 0]))) as Hmsg
    by (apply sample_request_wf; vm_compute; reflexivity).
  rewrite (battery_is_transparent (H := uuid_model) (sample_request [2; 0]) battery_world Hmsg).
  vm_compute. reflexivity.
Defined.
