(* ===== verification/FwMgmt.v ===== *)
(** The firmware management service ([ec-service-lib/src/services/fw_mgmt.rs])
    and the TPM stub ([tpm_stub.rs]): fixed replies, and the two commands that
    make a secure monitor call of their own. *)
From Stdlib Require Import ZArith Lia.
From S2P Require Import Prelude FfaCore FfaMsg FfaFunctions MsgLoop RelayClient.
#[local] Open Scope Z_scope.

(** ** fw_mgmt.rs *)

Definition EC_CAP_INDIRECT_MSG : Z := 0x0.
Definition EC_CAP_GET_FW_STATE : Z := 0x1.
Definition EC_CAP_GET_SVC_LIST : Z := 0x2.
Definition EC_CAP_GET_BID : Z := 0x3.
Definition EC_CAP_TEST_NFY : Z := 0x4.
Definition EC_CAP_MAP_SHARE : Z := 0x5.

Record FwStateRsp : Type := { fw_version : Z; secure_state : Z; boot_status : Z }.

Definition fw_state_payload {E} (rsp : FwStateRsp) : outcome E DirectMessagePayload :=
  payload_from_iter (to_le_bytes 2 (fw_version rsp) ++ to_le_bytes 1 (secure_state rsp) ++
                     to_le_bytes 1 (boot_status rsp)).

Record ServiceListRsp : Type := {
  status : Z; debug_mask : Z; battery_mask : Z; fan_mask : Z; thermal_mask : Z;
  hid_mask : Z; key_mask : Z;
}.

Definition service_list_payload {E} (rsp : ServiceListRsp) : outcome E DirectMessagePayload :=
  payload_from_iter (to_le_bytes 8 (status rsp) ++ to_le_bytes 2 (debug_mask rsp) ++
                     to_le_bytes 1 (battery_mask rsp) ++ to_le_bytes 1 (fan_mask rsp) ++
                     to_le_bytes 1 (thermal_mask rsp) ++ to_le_bytes 1 (hid_mask rsp) ++
                     to_le_bytes 2 (key_mask rsp)).

Record GetBidRsp : Type := { _status : Z; _bid : Z }.

Definition get_bid_payload {E} (rsp : GetBidRsp) : outcome E DirectMessagePayload :=
  payload_from_iter (to_le_bytes 8 (_status rsp) ++ to_le_bytes 8 (_bid rsp)).

Record GenericRsp : Type := { generic_status : Z }.

Definition generic_payload {E} (rsp : GenericRsp) : outcome E DirectMessagePayload :=
  payload_from_iter (to_le_bytes 8 (generic_status rsp)).

Inductive FwMgmt : Type := FwMgmt_new.

Definition get_fw_state : FwStateRsp :=
  {| fw_version := 0x0100; secure_state := 0x0; boot_status := 0x1 |}.

Definition get_svc_list : ServiceListRsp :=
  {| status := 0x0; debug_mask := 0x1; battery_mask := 0x1; fan_mask := 0x1;
     thermal_mask := 0x1; hid_mask := 0x0; key_mask := 0x7 |}.

Definition get_bid : GetBidRsp := {| _status := 0x0; _bid := 0xdead0001 |}.

Definition process_indirect {E} (unsupported : E) (seq_num rx_buffer tx_buffer : Z) :
    outcome E DirectMessagePayload := Err unsupported.

Section Handler.
Context `{UuidOps} {W : Type} `{SmcEnv W}.

Definition map_share (address len : Z) : stM W Error.t DirectMessagePayload :=
  _ ← MemRetrieveReq.exec MemRetrieveReq.new;
  lift (generic_payload {| generic_status := 0x0 |}).

Definition test_notify (msg : MsgSendDirectReq2) : stM W Error.t DirectMessagePayload :=
  let flags := 0x2 in
  let notification_bitmap := 0x2 in
  _ ← NotificationSet.exec
        {| NotificationSet.sender_id := destination_id (req_message msg);
           NotificationSet.receiver_id := source_id (req_message msg);
           NotificationSet.flags := flags;
           NotificationSet.notification_bitmap := notification_bitmap |};
  lift (generic_payload {| generic_status := 0x0 |}).

Definition fw_mgmt_payload (msg : MsgSendDirectReq2) (cmd : Z) : stM W Error.t DirectMessagePayload :=
  let p := req_payload msg in
  if decide (cmd = EC_CAP_INDIRECT_MSG) then
    seq_num ← lift (u8_at p 1);
    rx ← lift (register_at p 4);
    tx ← lift (register_at p 5);
    lift (process_indirect (Error.Other "process_indirect not supported") seq_num rx tx)
  else if decide (cmd = EC_CAP_GET_FW_STATE) then lift (fw_state_payload get_fw_state)
  else if decide (cmd = EC_CAP_GET_SVC_LIST) then lift (service_list_payload get_svc_list)
  else if decide (cmd = EC_CAP_GET_BID) then lift (get_bid_payload get_bid)
  else if decide (cmd = EC_CAP_TEST_NFY) then test_notify msg
  else if decide (cmd = EC_CAP_MAP_SHARE) then
    address ← lift (register_at p 1);
    len ← lift (register_at p 2);
    map_share address len
  else lift (Err (Error.Other "Unknown FwMgmt Command")).

Definition fw_mgmt_handle (msg : MsgSendDirectReq2) : stM W Error.t MsgSendDirectResp2 :=
  cmd ← lift (u8_at (req_payload msg) 0);
  payload ← fw_mgmt_payload msg cmd;
  mret (from_req_with_payload msg payload).

#[export] Instance fw_mgmt_service : Service W FwMgmt := {|
  svc_UUID := uuid_lit 0x330c1273fde5475798195b6539037502;
  svc_NAME := "FwMgmt";
  ffa_msg_send_direct_req2 msg := on_snd (fw_mgmt_handle msg);
|}.

(** ** tpm_stub.rs *)

Inductive TpmServiceStub : Type := TpmServiceStub_new.

Definition tpm_stub_handle (msg : MsgSendDirectReq2) : stM W Error.t MsgSendDirectResp2 :=
  let payload_regs := [ErrorCode.to_i64 ErrorCode.NotSupported] in
  let payload_bytes_iter := concat (to_le_bytes 8 <$> payload_regs) in
  resp_payload ← lift (payload_from_iter payload_bytes_iter);
  mret (from_req_with_payload msg resp_payload).

#[export] Instance tpm_stub_service : Service W TpmServiceStub := {|
  svc_UUID := uuid_lit 0x17b862a418064faf86b3089a58353861;
  svc_NAME := "Tpm";
  ffa_msg_send_direct_req2 msg := on_snd (tpm_stub_handle msg);
|}.
End Handler.

(** ** What the commands answer *)

(** The registers of an SMC as the result of a call without data. *)
Definition smc_status (regs : list Z) : ffa_result unit :=
  match regs !! 0%nat, regs !! 2%nat with
  | Some r0, Some r2 => simple_outcome r0 r2 (fun _ => Ok tt)
  | _, _ => Panic
  end.

Inductive FwAnswer : Type :=
  | Fixed (body : list Z)
  | AfterSmc (id : FunctionId.t) (params : SmcParams.t)
  | Rejected (reason : string).

(** The answer per command: fixed bytes, eight zero bytes once a secure
    monitor call has succeeded, or an error. *)
Definition fw_answer (cmd src dst : Z) : FwAnswer :=
  match cmd with
  | 0 => Rejected "process_indirect not supported"
  | 1 => Fixed [0; 1; 0; 1]
  | 2 => Fixed (replicate 8 0 ++ [1; 0; 1; 1; 1; 0; 7; 0])
  | 3 => Fixed (replicate 8 0 ++ [0x01; 0x00; 0xad; 0xde; 0; 0; 0; 0])
  | 4 => AfterSmc FunctionId.NotificationSet (SmcParams.with_default (pack16 dst src) 2 2 0)
  | 5 => AfterSmc FunctionId.MemRetrieveReq (SmcParams.with_default 0x40 0x40 0 0)
  | _ => Rejected "Unknown FwMgmt Command"
  end.

Section Reference.
Context `{UuidOps} {W : Type} `{SmcEnv W}.

Definition fw_mgmt_reference (msg : MsgSendDirectReq2) : stM W Error.t MsgSendDirectResp2 :=
  fun w =>
  let m := req_message msg in
  match payload_bytes (req_payload msg) !! 0%nat with
  | None => (Panic, w)
  | Some cmd =>
      match fw_answer cmd (source_id m) (destination_id m) with
      | Fixed body => (Ok (from_req_with_payload msg (padded body)), w)
      | AfterSmc id params =>
          let '(regs, w') := smc (discr id) params w in
          ((_ ← smc_status regs; Ok (from_req_with_payload msg (padded (replicate 8 0)))), w')
      | Rejected reason => (Err (Error.Other reason), w)
      end
  end.
End Reference.

(** ** Lemmas *)

Section Lemmas.
Context `{UuidOps} {W : Type} `{SmcEnvLaws W}.
Implicit Types (msg : MsgSendDirectReq2) (w : W).

(** A simple call whose result is dropped is its SMC and the status. *)
Lemma exec_then {F} `{Function F} {T A B} (f : F) p (ok : SmcCall.t -> T) (a : A) (h : A -> B) w :
  fn_try_into f = Ok p ->
  ((_ ← exec_simple f (fun c => Ok (ok c)); lift (Ok a)) ≫= fun a => mret (h a)) w =
    let '(regs, w') := smc (discr (fn_ID (F := F))) p w in ((_ ← smc_status regs; Ok (h a)), w').
Proof.
  intros Hp. destruct (exec_simple_result f p (fun c => Ok (ok c)) w Hp) as (r0 & ps & Hr & He).
  unfold mbind at 1 2, stM_bind. rewrite He.
  destruct (smc (discr fn_ID) p w) as [regs w']. cbn [fst snd] in *. subst regs.
  unfold smc_status.
  destruct ps. cbn [SmcParams.to_list lookup list_lookup SmcParams.x2].
  destruct (simple_outcome_cases r0 x2) as [(id & Ho)|(e & Ho)]; rewrite !Ho; reflexivity.
Qed.

Lemma smc_status_settles id p w : settles (fun _ => True) (smc_status (smc id p w).1).
Proof.
  destruct (smc_result_parses id p w) as (r0 & rest & ps & -> & <- & _).
  unfold smc_status. destruct ps. cbn [SmcParams.to_list lookup list_lookup].
  destruct (simple_outcome_cases r0 x2) as [(? & Ho)|(? & Ho)]; by rewrite Ho.
Qed.

Lemma fixed_reply msg (r : outcome Error.t DirectMessagePayload) l w :
  r = Ok (padded l) ->
  (lift r ≫= fun payload => mret (from_req_with_payload msg payload)) w =
    (Ok (from_req_with_payload msg (padded l)), w).
Proof. by intros ->. Qed.

Lemma fw_answer_unknown cmd src dst :
  cmd ∉ [0; 1; 2; 3; 4; 5] -> fw_answer cmd src dst = Rejected "Unknown FwMgmt Command".
Proof.
  intros Hc. unfold fw_answer.
  repeat (case_match; try reflexivity); exfalso; apply Hc; set_solver.
Qed.

(** The fixed bodies, evaluated. *)
Lemma payload_from_iter_fixed {E} l l' :
  l = l' -> (length l' <= PAYLOAD_LEN)%nat -> payload_from_iter (E := E) l = Ok (padded l').
Proof. intros ->. apply payload_from_iter_padded. Qed.

Lemma fw_mgmt_handle_reference msg w :
  message_wf (req_message msg) -> fw_mgmt_handle msg w = fw_mgmt_reference msg w.
Proof.
  intros (_ & _ & Hp). fold (req_payload msg) in Hp. unfold fw_mgmt_handle, fw_mgmt_reference.
  destruct (payload_lookup (req_payload msg) 0 Hp) as (cmd & Hc & _); [unfold PAYLOAD_LEN; lia|].
  rewrite Hc. unfold mbind at 1, stM_bind at 1, lift at 1. rewrite (u8_at_lookup _ 0 cmd Hc).
  assert (forall i, (i < 14)%nat -> exists v, register_at (E := Error.t) (req_payload msg) i = Ok v)
    as Hreg by (intros i Hi; destruct (register_at_ok (E := Error.t) (req_payload msg) i Hp Hi)
      as (v & ? & _); eauto).
  unfold fw_mgmt_payload.
  destruct (decide (cmd = EC_CAP_INDIRECT_MSG)) as [->|H0'].
  { destruct (payload_lookup (req_payload msg) 1 Hp) as (b1 & Hb1 & _); [unfold PAYLOAD_LEN; lia|].
    destruct (Hreg 4%nat) as [r4 H4]; [lia|]. destruct (Hreg 5%nat) as [r5 H5]; [lia|].
    unfold mbind, stM_bind, lift. rewrite (u8_at_lookup _ 1 b1 Hb1), H4, H5. reflexivity. }
  destruct (decide (cmd = EC_CAP_GET_FW_STATE)) as [->|H1'].
  { apply fixed_reply, payload_from_iter_fixed; [reflexivity|cbn; unfold PAYLOAD_LEN; lia]. }
  destruct (decide (cmd = EC_CAP_GET_SVC_LIST)) as [->|H2'].
  { apply fixed_reply, payload_from_iter_fixed; [reflexivity|cbn; unfold PAYLOAD_LEN; lia]. }
  destruct (decide (cmd = EC_CAP_GET_BID)) as [->|H3'].
  { apply fixed_reply, payload_from_iter_fixed; [reflexivity|cbn; unfold PAYLOAD_LEN; lia]. }
  assert (generic_payload {| generic_status := 0 |} = @Ok Error.t _ (padded (replicate 8 0))) as Hg
    by (apply payload_from_iter_fixed; [reflexivity|cbn; unfold PAYLOAD_LEN; lia]).
  destruct (decide (cmd = EC_CAP_TEST_NFY)) as [->|H4'].
  { unfold test_notify, NotificationSet.exec. rewrite Hg.
    etransitivity; [by apply (exec_then (F := NotificationSet.t) _ (SmcParams.with_default
      (pack16 (destination_id (req_message msg)) (source_id (req_message msg))) 2 2 0) (fun _ => tt))|reflexivity]. }
  destruct (decide (cmd = EC_CAP_MAP_SHARE)) as [->|H5'].
  { destruct (Hreg 1%nat) as [r1 Hr1]; [lia|]. destruct (Hreg 2%nat) as [r2 Hr2]; [lia|].
    unfold mbind at 1 2 3, stM_bind at 1 2 3, lift at 1 2. rewrite Hr1, Hr2.
    unfold map_share, MemRetrieveReq.exec. rewrite Hg.
    etransitivity; [by apply (exec_then (F := MemRetrieveReq.t) _ (SmcParams.with_default 0x40 0x40 0 0)
      (fun c => c))|reflexivity]. }
  rewrite fw_answer_unknown; [reflexivity|].
  unfold EC_CAP_INDIRECT_MSG, EC_CAP_GET_FW_STATE, EC_CAP_GET_SVC_LIST, EC_CAP_GET_BID,
    EC_CAP_TEST_NFY, EC_CAP_MAP_SHARE in *.
  intros Hin. repeat (apply elem_of_cons in Hin as [->|Hin]; [congruence|]).
  by apply elem_of_nil in Hin.
Qed.

Lemma fw_answer_fixed cmd src dst body :
  fw_answer cmd src dst = Fixed body -> payload_wf (padded body).
Proof.
  unfold fw_answer. intros Hf.
  repeat (case_match; try discriminate); injection Hf as <-;
    (apply padded_wf; [cbn; unfold PAYLOAD_LEN; lia|apply (bool_decide_unpack _); vm_compute; exact I]).
Qed.

Lemma fw_mgmt_settles msg :
  message_wf (req_message msg) -> st_settles (replies_to msg) (fw_mgmt_handle (W := W) msg).
Proof.
  intros Hmsg w. rewrite fw_mgmt_handle_reference by done. unfold fw_mgmt_reference.
  destruct Hmsg as (_ & _ & Hp). fold (req_payload msg) in Hp.
  destruct (payload_lookup (req_payload msg) 0 Hp) as (cmd & -> & _); [unfold PAYLOAD_LEN; lia|].
  destruct (fw_answer cmd _ _) as [body|id ps|] eqn:Ha; [| |done].
  - by apply from_req_replies, (fw_answer_fixed _ _ _ _ Ha).
  - pose proof (smc_status_settles (discr id) ps w) as Hs.
    destruct (smc (discr id) ps w) as [regs w']. cbn [fst] in *.
    destruct (smc_status regs) as [[]|e| |]; try done.
    apply from_req_replies, padded_wf; [cbn; unfold PAYLOAD_LEN; lia|apply bytes_ok_zeros].
Qed.

Lemma tpm_stub_reply msg w :
  tpm_stub_handle (W := W) msg w = (Ok (from_req_with_payload msg (padded (0xFF :: replicate 7 0xFF))), w).
Proof.
  apply fixed_reply, payload_from_iter_fixed; [reflexivity|cbn; unfold PAYLOAD_LEN; lia].
Qed.

#[export] Instance fw_mgmt_laws : ServiceLaws W FwMgmt.
Proof.
  refine {| svc_inv := fun _ : FwMgmt => True |}. intros req s w Hreq _.
  apply on_snd_handled; [by apply fw_mgmt_settles|done].
Defined.

#[export] Instance tpm_stub_laws : ServiceLaws W TpmServiceStub.
Proof.
  refine {| svc_inv := fun _ : TpmServiceStub => True |}. intros req s w Hreq _.
  apply on_snd_handled; [|done]. intros w'. rewrite tpm_stub_reply.
  apply from_req_replies, padded_wf; [cbn; unfold PAYLOAD_LEN; lia|].
  apply (bool_decide_unpack _). vm_compute. exact I.
Defined.
End Lemmas.

(** ** Properties *)

(** C26: The firmware management service answers every well-formed request as
    the table says: fixed bytes for the state, service list and board id; for
    the notification test and the share mapping exactly one secure monitor
    call (setting notification 1 of the requester on behalf of this partition,
    or retrieving the hard-coded 0x40-byte descriptor), its failure passed on
    and its success answered with status 0; indirect messages and unknown
    commands are errors without any call. *)
Theorem fw_mgmt_answers `{UuidOps} `{SmcEnvLaws W} msg (w : W) :
  message_wf (req_message msg) -> fw_mgmt_handle msg w = fw_mgmt_reference msg w.
Proof.
  intros Hmsg. by apply fw_mgmt_handle_reference.
Qed.

(** The notification test, against a monitor that answers "denied". *)
Lemma fw_mgmt_answers_witness :
  reply_error (fw_mgmt_handle (H := uuid_model) (sample_request [4])
    [[0x84000060; 0; 2 ^ 64 - 6]]) = Some (Error.ErrorCode ErrorCode.Denied).
Proof.
  assert (message_wf (H := uuid_model) (req_message (sample_request [4]))) as Hmsg
    by (apply sample_request_wf; vm_compute; reflexivity).
  rewrite (fw_mgmt_answers (H := uuid_model) (W := Script) (sample_request [4])
    [[0x84000060; 0; 2 ^ 64 - 6]] Hmsg).
  vm_compute. reflexivity.
Defined.
