(* ===== verification/Ucsi.v ===== *)
(** The UCSI service ([ec-service-lib/src/services/ucsi.rs]): a stub policy
    manager that answers a 48-byte mailbox in place. *)
From Stdlib Require Import ZArith Lia.
From S2P Require Import Prelude FfaCore FfaMsg MsgLoop RelayClient.
#[local] Open Scope Z_scope.

Definition MAILBOX_LEN : nat := 48.
Definition MAILBOX_PAYLOAD_START : nat := 1.
Definition VERSION_OFFSET : nat := 0.
Definition CCI_OFFSET : nat := 4.
Definition CONTROL_OFFSET : nat := 8.
Definition MESSAGE_IN_OFFSET : nat := 16.
Definition VERSION : Z := 0x0120.
Definition DOORBELL : Z := 0x00.
Definition CONNECTOR_ONE : Z := 1.

Definition OP_GET_CAPABILITY : Z := 0x06.
Definition OP_GET_CONNECTOR_CAPABILITY : Z := 0x07.
Definition OP_GET_CONNECTOR_STATUS : Z := 0x12.

Definition CCI_CAPABILITY : Z := 0x80001000.
Definition CCI_CONNECTOR_CAPABILITY : Z := 0x80000200.
Definition CCI_CONNECTOR_STATUS : Z := 0x80000B00.
Definition CCI_NOT_SUPPORTED : Z := 0x02000000.

Definition CAPABILITY_MESSAGE_IN : list Z :=
  [0x46; 0x40; 0x00; 0x00; 0x01; 0x00; 0x00; 0x00; 0x00; 0x00; 0x20; 0x01; 0x00; 0x03; 0x00; 0x02].
Definition CONNECTOR_CAPABILITY_MESSAGE_IN : list Z := [0x64; 0x03].
Definition CONNECTOR_STATUS_MESSAGE_IN : list Z :=
  [0x00; 0x00; 0x29; 0x20; 0x00; 0x00; 0x00; 0x00; 0x00; 0x00; 0x00].

(** [buf[off..off + n].copy_from_slice(src)]: a panic when the range is out of
    bounds or the lengths differ. *)
Definition copy_range {E} (buf : list Z) (off n : nat) (src : list Z) : outcome E (list Z) :=
  if decide ((off + n <= length buf)%nat /\ length src = n) then Ok (blit buf off src) else Panic.

(** [buf[off..].fill(0)] *)
Definition zero_from {E} (buf : list Z) (off : nat) : outcome E (list Z) :=
  if decide (off <= length buf)%nat then Ok (take off buf ++ replicate (length buf - off) 0)
  else Panic.

(** The [match opcode] with its connector guards. *)
Definition fixture (opcode connector : Z) : Z * list Z :=
  if decide (opcode = OP_GET_CAPABILITY) then (CCI_CAPABILITY, CAPABILITY_MESSAGE_IN)
  else if decide (opcode = OP_GET_CONNECTOR_CAPABILITY /\ connector = CONNECTOR_ONE)
  then (CCI_CONNECTOR_CAPABILITY, CONNECTOR_CAPABILITY_MESSAGE_IN)
  else if decide (opcode = OP_GET_CONNECTOR_STATUS /\ connector = CONNECTOR_ONE)
  then (CCI_CONNECTOR_STATUS, CONNECTOR_STATUS_MESSAGE_IN)
  else (CCI_NOT_SUPPORTED, []).

Section Ucsi.
Context `{UuidOps}.

Inductive Ucsi : Type := Ucsi_new.

Definition ucsi_handle (msg : MsgSendDirectReq2) : ffa_result MsgSendDirectResp2 :=
  let payload := req_payload msg in
  doorbell ← u8_at payload 0;
  if decide (doorbell <> DOORBELL) then Err (Error.Other "UCSI: unexpected doorbell tag") else
  inline ← payload_slice payload MAILBOX_PAYLOAD_START (MAILBOX_PAYLOAD_START + MAILBOX_LEN);
  mailbox ← copy_range (replicate MAILBOX_LEN 0) 0 MAILBOX_LEN inline;
  opcode ← or_panic (mailbox !! CONTROL_OFFSET);
  connector ← or_panic (mailbox !! (CONTROL_OFFSET + 2)%nat);
  let '(cci, message_in) := fixture opcode connector in
  mailbox ← copy_range mailbox VERSION_OFFSET 2 (to_le_bytes 2 VERSION);
  mailbox ← copy_range mailbox CCI_OFFSET 4 (to_le_bytes 4 cci);
  mailbox ← zero_from mailbox MESSAGE_IN_OFFSET;
  mailbox ← copy_range mailbox MESSAGE_IN_OFFSET (length message_in) message_in;
  p ← payload_from_iter mailbox;
  Ok (from_req_with_payload msg p).

#[export] Instance ucsi_service {W} : Service W Ucsi := {|
  svc_UUID := uuid_lit 0x65467f50827f4e4f8770dbf4c3f77f45;
  svc_NAME := "Ucsi";
  ffa_msg_send_direct_req2 msg := lift (ucsi_handle msg);
|}.
End Ucsi.

(** ** The mailbox the caller gets back *)

(** CCI and MESSAGE IN of an operation, byte by byte: GET_CAPABILITY (6), and
    for connector 1 GET_CONNECTOR_CAPABILITY (7) and GET_CONNECTOR_STATUS
    (0x12); "command complete" and the length, or "not supported". *)
Definition ucsi_answer (op conn : Z) : list Z * list Z :=
  if decide (op = 6) then
    ([0; 16; 0; 0x80], [0x46; 0x40; 0; 0; 1; 0; 0; 0; 0; 0; 0x20; 1; 0; 3; 0; 2])
  else if decide (conn = 1) then
    if decide (op = 7) then ([0; 2; 0; 0x80], [0x64; 3])
    else if decide (op = 18) then ([0; 11; 0; 0x80], [0; 0; 0x29; 0x20; 0; 0; 0; 0; 0; 0; 0])
    else ([0; 0; 0; 2], [])
  else ([0; 0; 0; 2], []).

(** Version 1.2, the two reserved bytes and the control field as sent, the
    command's CCI, its message in, and zeros (MESSAGE OUT and the rest of the
    registers included); the caller's bytes are at payload offset 1, the
    reply's at 0. *)
Definition ucsi_reply (p cci message_in : list Z) : list Z :=
  [0x20; 0x01] ++ slice p 3 5 ++ cci ++ slice p 9 17 ++
  message_in ++ replicate (96 - length message_in) 0.

Section Reference.
Context `{UuidOps}.

(** The whole handler. *)
Definition ucsi_reference (msg : MsgSendDirectReq2) : ffa_result MsgSendDirectResp2 :=
  let p := payload_bytes (req_payload msg) in
  match p !! 0%nat, p !! 9%nat, p !! 11%nat with
  | Some tag, Some op, Some conn =>
      if decide (tag = 0) then
        let '(cci, message_in) := ucsi_answer op conn in
        Ok (from_req_with_payload msg {| payload_bytes := ucsi_reply p cci message_in |})
      else Err (Error.Other "UCSI: unexpected doorbell tag")
  | _, _, _ => Panic
  end.

End Reference.

(** ** Lemmas *)

Lemma fixture_length opcode connector :
  (length (fixture opcode connector).2 <= 16)%nat /\ bytes_ok (fixture opcode connector).2.
Proof.
  unfold fixture. repeat case_decide; (split; [cbn; lia|]);
    apply (bool_decide_unpack _); vm_compute; exact I.
Qed.

Lemma fixture_answer op conn :
  ucsi_answer op conn = (to_le_bytes 4 (fixture op conn).1, (fixture op conn).2).
Proof.
  unfold ucsi_answer, fixture, OP_GET_CAPABILITY, OP_GET_CONNECTOR_CAPABILITY, OP_GET_CONNECTOR_STATUS,
    CONNECTOR_ONE.
  repeat case_decide; try reflexivity; exfalso; lia.
Qed.

(** A list of at least [n] elements is its first [n] and a rest. *)
Lemma split_at {A} n (l : list A) :
  (n <= length l)%nat -> exists a b, l = a ++ b /\ length a = n.
Proof.
  intros Hn. exists (take n l), (drop n l). rewrite take_drop, length_take. split; [done|lia].
Qed.

Lemma copy_range_ok {E} buf off n src :
  (off + n <= length buf)%nat -> length src = n ->
  copy_range (E := E) buf off n src = Ok (blit buf off src).
Proof. intros. unfold copy_range. by rewrite decide_True. Qed.

(** The four writes into the mailbox, on its fields. *)
Lemma mailbox_writes {E} v r c k m cci message_in :
  length v = 2%nat -> length r = 2%nat -> length c = 4%nat -> length k = 8%nat ->
  length m = 32%nat -> (length message_in <= 16)%nat ->
  (mailbox ← copy_range (E := E) (v ++ r ++ c ++ k ++ m) VERSION_OFFSET 2 (to_le_bytes 2 VERSION);
   mailbox ← copy_range mailbox CCI_OFFSET 4 (to_le_bytes 4 cci);
   mailbox ← zero_from mailbox MESSAGE_IN_OFFSET;
   copy_range mailbox MESSAGE_IN_OFFSET (length message_in) message_in) =
  Ok ([0x20; 0x01] ++ r ++ to_le_bytes 4 cci ++ k ++ message_in ++
      replicate (32 - length message_in) 0).
Proof.
  intros Hv Hr Hc Hk Hm Hi.
  rewrite copy_range_ok by (try done; rewrite !length_app; unfold VERSION_OFFSET; lia).
  cbn [mbind outcome_bind].
  assert (blit (v ++ r ++ c ++ k ++ m) VERSION_OFFSET (to_le_bytes 2 VERSION) =
          [0x20; 0x01] ++ r ++ c ++ k ++ m) as ->.
  { unfold blit, VERSION_OFFSET. rewrite take_0, drop_app_length' by done. reflexivity. }
  rewrite copy_range_ok by (try apply length_to_le_bytes; rewrite !length_app; unfold CCI_OFFSET; cbn; lia).
  cbn [mbind outcome_bind].
  assert (blit ([0x20; 0x01] ++ r ++ c ++ k ++ m) CCI_OFFSET (to_le_bytes 4 cci) =
          [0x20; 0x01] ++ r ++ to_le_bytes 4 cci ++ k ++ m) as ->.
  { unfold blit. rewrite length_to_le_bytes. unfold CCI_OFFSET.
    rewrite (app_assoc [_; _] r). rewrite (take_app_length' _ _ 4) by (rewrite length_app, Hr; done).
    rewrite (app_assoc (_ ++ r) c), (drop_app_length' _ _ 8) by (rewrite !length_app, Hr, Hc; done).
    by rewrite <- !app_assoc. }
  unfold zero_from. rewrite decide_True by
    (rewrite !length_app, length_to_le_bytes; unfold MESSAGE_IN_OFFSET; cbn; lia).
  cbn [mbind outcome_bind].
  assert (take MESSAGE_IN_OFFSET ([0x20; 0x01] ++ r ++ to_le_bytes 4 cci ++ k ++ m) =
          [0x20; 0x01] ++ r ++ to_le_bytes 4 cci ++ k) as ->.
  { rewrite (app_assoc _ k m), (app_assoc r), (app_assoc [_; _]).
    rewrite (take_app_length' _ m 16); [done|].
    rewrite !length_app, length_to_le_bytes, Hr, Hk. done. }
  assert (length ([0x20; 0x01]%Z ++ r ++ to_le_bytes 4 cci ++ k ++ m) - MESSAGE_IN_OFFSET = 32)%nat
    as -> by (rewrite !length_app, length_to_le_bytes, Hr, Hk, Hm; done).
  assert (length ([0x20; 0x01]%Z ++ r ++ to_le_bytes 4 cci ++ k) = 16)%nat as Hpre
    by (rewrite !length_app, length_to_le_bytes, Hr, Hk; done).
  rewrite copy_range_ok by
    (try done; rewrite length_app, Hpre, length_replicate; unfold MESSAGE_IN_OFFSET; lia).
  f_equal. unfold blit. rewrite (take_app_length' _ _ 16) by done.
  rewrite drop_app, Hpre, drop_ge by (rewrite Hpre; unfold MESSAGE_IN_OFFSET; lia).
  unfold MESSAGE_IN_OFFSET. replace (16 + length message_in - 16)%nat with (length message_in) by lia.
  rewrite drop_replicate. by rewrite <- !app_assoc.
Qed.

Lemma mailbox_fields (p : list Z) :
  (49 <= length p)%nat ->
  slice p 1 49 = slice p 1 3 ++ slice p 3 5 ++ slice p 5 9 ++ slice p 9 17 ++ slice p 17 49.
Proof. intros Hl. by rewrite !slice_app by lia. Qed.

Lemma slice_lookup {A} (l : list A) a b i :
  (a + i < b)%nat -> slice l a b !! i = l !! (a + i)%nat.
Proof. intros Hi. unfold slice. by rewrite lookup_take_lt, lookup_drop by lia. Qed.

Section UcsiLemmas.
Context `{UuidOps}.

Lemma ucsi_handle_mailbox msg op conn :
  payload_wf (req_payload msg) ->
  let p := payload_bytes (req_payload msg) in
  p !! 0%nat = Some DOORBELL -> p !! 9%nat = Some op -> p !! 11%nat = Some conn ->
  ucsi_handle msg =
    Ok (from_req_with_payload msg
      {| payload_bytes := ucsi_reply p (to_le_bytes 4 (fixture op conn).1) (fixture op conn).2 |}).
Proof.
  intros Hp p H0 Hop Hconn. pose proof (fixture_length op conn) as [Hlen Hok].
  unfold ucsi_handle. rewrite (u8_at_lookup _ 0 _ H0). cbn [mbind outcome_bind].
  rewrite decide_False by (intros []; done).
  rewrite payload_slice_ok by (try done; unfold MAILBOX_PAYLOAD_START, MAILBOX_LEN, PAYLOAD_LEN; lia).
  cbn [mbind outcome_bind]. fold p.
  assert (length p = 112%nat) as Hl by apply Hp.
  unfold MAILBOX_PAYLOAD_START, MAILBOX_LEN. change (1 + 48)%nat with 49%nat.
  assert (length (slice p 1 49) = 48%nat) as Hl48 by (rewrite length_slice; lia).
  rewrite copy_range_ok by done. cbn [mbind outcome_bind].
  assert (blit (replicate 48 0) 0 (slice p 1 49) = slice p 1 49) as ->.
  { unfold blit. rewrite Hl48. cbn [Nat.add take drop replicate app]. by rewrite app_nil_r. }
  unfold CONTROL_OFFSET. rewrite !slice_lookup by (cbn; lia). cbn [Nat.add].
  rewrite Hop, Hconn. cbn [or_panic mbind outcome_bind].
  destruct (fixture op conn) as [cci message_in]. cbn [fst snd] in *.
  pose proof (mailbox_writes (E := Error.t) (slice p 1 3) (slice p 3 5) (slice p 5 9) (slice p 9 17)
    (slice p 17 49) cci message_in) as Hw.
  rewrite !length_slice in Hw by lia.
  specialize (Hw eq_refl eq_refl eq_refl eq_refl eq_refl Hlen).
  rewrite <- mailbox_fields in Hw by lia.
  destruct (copy_range (E := Error.t) (slice p 1 49) _ _ _) as [m1| | |]; try discriminate.
  cbn [mbind outcome_bind] in *.
  destruct (copy_range (E := Error.t) m1 _ _ _) as [m2| | |]; try discriminate.
  cbn [mbind outcome_bind] in *.
  destruct (zero_from (E := Error.t) m2 _) as [m3| | |]; try discriminate.
  cbn [mbind outcome_bind] in *. rewrite Hw. cbn [mbind outcome_bind].
  assert (length ([0x20; 0x01]%Z ++ slice p 3 5 ++ to_le_bytes 4 cci ++ slice p 9 17 ++ message_in ++
      replicate (32 - length message_in) 0%Z) = 48)%nat as Hll.
  { rewrite !length_app, length_to_le_bytes, length_replicate, !length_slice by lia. cbn. lia. }
  rewrite payload_from_iter_padded by (rewrite Hll; unfold PAYLOAD_LEN; lia).
  cbn [mbind outcome_bind]. do 2 f_equal. unfold padded. f_equal.
  rewrite Hll. unfold ucsi_reply. rewrite <- !app_assoc. rewrite <- replicate_add.
  do 7 f_equal. unfold PAYLOAD_LEN. lia.
Qed.

Lemma ucsi_handle_reference msg :
  message_wf (req_message msg) -> ucsi_handle msg = ucsi_reference msg.
Proof.
  intros (_ & _ & Hp). fold (req_payload msg) in Hp. unfold ucsi_reference.
  destruct (payload_lookup (req_payload msg) 0 Hp) as (tag & H0 & _); [unfold PAYLOAD_LEN; lia|].
  destruct (payload_lookup (req_payload msg) 9 Hp) as (op & H9 & _); [unfold PAYLOAD_LEN; lia|].
  destruct (payload_lookup (req_payload msg) 11 Hp) as (conn & H11 & _); [unfold PAYLOAD_LEN; lia|].
  rewrite H0, H9, H11. case_decide as Ht.
  - rewrite fixture_answer. subst. by apply ucsi_handle_mailbox.
  - unfold ucsi_handle. rewrite (u8_at_lookup _ 0 _ H0). cbn [mbind outcome_bind].
    by rewrite decide_True by done.
Qed.

Lemma ucsi_reply_wf p cci message_in :
  length p = PAYLOAD_LEN -> bytes_ok p -> length cci = 4%nat -> bytes_ok cci -> (length message_in <= 16)%nat -> bytes_ok message_in ->
  payload_wf {| payload_bytes := ucsi_reply p cci message_in |}.
Proof.
  intros Hl Hb Hc Hcb Hi Hm. unfold PAYLOAD_LEN in Hl. split; cbn [payload_bytes]; unfold ucsi_reply.
  - rewrite !length_app, Hc, length_replicate, !length_slice by lia.
    unfold PAYLOAD_LEN. cbn. lia.
  - repeat apply Forall_app_2; auto using Forall_slice, bytes_ok_zeros.
    apply (bool_decide_unpack _). vm_compute. exact I.
Qed.

#[export] Instance ucsi_laws {W} : ServiceLaws W Ucsi.
Proof.
  refine {| svc_inv := fun _ : Ucsi => True |}. intros req s w Hreq _.
  cbn [ffa_msg_send_direct_req2 ucsi_service]. unfold lift. split; [done|]. cbn [fst].
  rewrite ucsi_handle_reference by done. unfold ucsi_reference.
  destruct Hreq as (_ & _ & Hp). fold (req_payload req) in Hp.
  destruct (payload_lookup (req_payload req) 0 Hp) as (tag & -> & _); [unfold PAYLOAD_LEN; lia|].
  destruct (payload_lookup (req_payload req) 9 Hp) as (op & -> & _); [unfold PAYLOAD_LEN; lia|].
  destruct (payload_lookup (req_payload req) 11 Hp) as (conn & -> & _); [unfold PAYLOAD_LEN; lia|].
  case_decide; [|done]. rewrite fixture_answer. destruct Hp as [Hl Hb].
  pose proof (fixture_length op conn) as [? ?].
  split_and!; [done|done|done|]. by apply ucsi_reply_wf; auto using length_to_le_bytes, to_le_bytes_ok.
Defined.
End UcsiLemmas.

(** ** Properties *)

(** C25: A request with doorbell tag 0 is always answered, with the mailbox in
    place.  Bytes 0 and 1 are the version, 1.2, bytes 4 to 7 the CCI of the
    operation, bytes 16 to 31 its MESSAGE IN, filled up with zeros: a table for
    GET_CAPABILITY on any connector and the two connector commands on connector
    1, and "not supported" with an empty MESSAGE IN for everything else.  Bytes
    2 and 3 and the CONTROL field, 8 to 15, come back as sent; MESSAGE OUT, 32 to
    47, and the registers behind it come back as zeros.  Any other tag is an
    error.  Nothing panics. *)
Theorem ucsi_answers_mailbox `{UuidOps} msg :
  message_wf (req_message msg) -> ucsi_handle msg = ucsi_reference msg.
Proof.
  intros Hmsg. by apply ucsi_handle_reference.
Qed.

(** GET_CONNECTOR_STATUS of connector 1. *)
Definition ucsi_request : list Z := 0 :: replicate 8 7 ++ [0x12; 9; 1] ++ replicate 40 5.

Lemma ucsi_answers_mailbox_witness :
  reply_bytes (lift (ucsi_handle (H := uuid_model) (sample_request ucsi_request)) tt) =
    Some ([0x20; 1; 7; 7; 0; 0x0B; 0; 0x80; 0x12; 9; 1; 5; 5; 5; 5; 5; 0; 0; 0x29; 0x20] ++
          replicate 92 0).
Proof.
  assert (message_wf (H := uuid_model) (req_message (sample_request ucsi_request))) as Hmsg
    by (apply sample_request_wf; vm_compute; reflexivity).
  rewrite (ucsi_answers_mailbox (H := uuid_model) (sample_request ucsi_request) Hmsg).
  vm_compute. reflexivity.
Defined.
