(* ===== verification/TpmSst.v ===== *)
(** The TPM state translation library
    ([ec-service-lib/src/services/tpm_sst.rs]), as built for the target: the
    driver that carries the service's CRB states over to the external TPM,
    behind a CRB or a FIFO interface, by volatile register accesses, timed
    polling and yields to the scheduler. *)
From Stdlib Require Import ZArith Lia.
From S2P Require Import Prelude FfaCore FfaFunctions.
#[local] Open Scope Z_scope.

(** ** Constants *)

Definition INTERFACE_TYPE_MASK : Z := 0x00F.
Definition IDLE_BYPASS_MASK : Z := 0x200.
Definition POLL_DELAY_US : Z := 30.
Definition YIELD_TIMEOUT_HINT_NS : Z := 0.

Definition PTP_CRB_CONTROL_AREA_STATUS_TPM_IDLE : Z := Z.shiftl 1 1.
Definition PTP_CRB_CONTROL_AREA_REQUEST_GO_IDLE : Z := Z.shiftl 1 1.
Definition PTP_CRB_CONTROL_AREA_REQUEST_COMMAND_READY : Z := Z.shiftl 1 0.
Definition PTP_CRB_CONTROL_START : Z := Z.shiftl 1 0.

Definition PTP_CRB_LOCALITY_STATE_TPM_REG_VALID_STATUS : Z := Z.shiftl 1 7.
Definition PTP_CRB_LOCALITY_STATE_LOCALITY_ASSIGNED : Z := Z.shiftl 1 1.
Definition PTP_CRB_LOCALITY_STATE_ACTIVE_LOCALITY_0 : Z := 0.
Definition PTP_CRB_LOCALITY_STATE_ACTIVE_LOCALITY_1 : Z := Z.shiftl 1 2.
Definition PTP_CRB_LOCALITY_STATE_ACTIVE_LOCALITY_2 : Z := Z.shiftl 1 3.
Definition PTP_CRB_LOCALITY_STATE_ACTIVE_LOCALITY_3 : Z := Z.lor (Z.shiftl 1 2) (Z.shiftl 1 3).
Definition PTP_CRB_LOCALITY_STATE_ACTIVE_LOCALITY_4 : Z := Z.shiftl 1 4.

Definition PTP_CRB_LOCALITY_CONTROL_RELINQUISH : Z := Z.shiftl 1 1.
Definition PTP_CRB_LOCALITY_CONTROL_REQUEST_ACCESS : Z := Z.shiftl 1 0.
Definition PTP_CRB_LOCALITY_STATUS_GRANTED : Z := Z.shiftl 1 0.

Definition PTP_FIFO_STS_VALID : Z := Z.shiftl 1 7.
Definition PTP_FIFO_STS_DATA : Z := Z.shiftl 1 4.
Definition PTP_FIFO_STS_EXPECT : Z := Z.shiftl 1 3.
Definition PTP_FIFO_STS_READY : Z := Z.shiftl 1 6.
Definition PTP_FIFO_STS_GO : Z := Z.shiftl 1 5.
Definition PTP_FIFO_ACC_RQUUSE : Z := Z.shiftl 1 1.
Definition PTP_FIFO_ACC_ACTIVE : Z := Z.shiftl 1 5.
Definition PTP_FIFO_VALID : Z := Z.shiftl 1 7.

Definition PTP_TIMEOUT_A : Z := 750 * 1000.
Definition PTP_TIMEOUT_B : Z := 2000 * 1000.
Definition PTP_TIMEOUT_C : Z := 200 * 1000.
Definition PTP_TIMEOUT_D : Z := 30 * 1000.
Definition PTP_TIMEOUT_MAX : Z := 90000 * 1000.

Definition CRB_DATA_BUFFER_SIZE : Z := 0xF80.
Definition TPM_HEADER_SIZE : nat := 10.
Definition U64_MAX : Z := 2 ^ 64 - 1.

(** ** The environment: registers, the counter *)

(** Volatile accesses: a read may change the device. *)
Class Mmio (W : Type) := {
  read_u8 : Z -> W -> Z * W;
  read_u32 : Z -> W -> Z * W;
  write_u8 : Z -> Z -> W -> W;
  write_u32 : Z -> Z -> W -> W;
}.

(** The generic timer's [CNTFRQ_EL0] and [CNTVCT_EL0]. *)
Class Counter (W : Type) := {
  cntfrq : W -> Z * W;
  cntvct : W -> Z * W;
}.

(** ** Packets *)

(** [(TPM_HEADER_SIZE..=CRB_DATA_BUFFER_SIZE).contains(&capacity)] *)
Definition capacity_ok (capacity : Z) : bool :=
  bool_decide (Z.of_nat TPM_HEADER_SIZE <= capacity <= CRB_DATA_BUFFER_SIZE).

Definition tpm_packet_length (header : list Z) (capacity : Z) : outcome ErrorCode.t Z :=
  header ← ok_or ErrorCode.InvalidParameters (get_slice header 0 TPM_HEADER_SIZE);
  let length := from_be_bytes (slice header 2 6) in
  if negb (capacity_ok capacity) ||
     negb (bool_decide (Z.of_nat TPM_HEADER_SIZE <= length <= capacity))
  then Err ErrorCode.InvalidParameters else
  Ok length.

Section ReadResponse.
Context {W : Type} (read_byte : nat -> stM W ErrorCode.t Z).

(** [*byte = read_byte(offset)?] for each offset in turn; the buffer is the
    first component of the world. *)
Fixpoint read_bytes (offsets : list nat) : stM (list Z * W) ErrorCode.t unit :=
  match offsets with
  | [] => mret tt
  | offset :: offsets =>
      b ← on_snd (read_byte offset);
      _ ← modify_fst <[offset := b]>;
      read_bytes offsets
  end.

Definition read_tpm_response : stM (list Z * W) ErrorCode.t Z :=
  '(buffer, _) ← get_st;
  let len := length buffer in
  if negb (capacity_ok (Z.of_nat len)) then lift (Err ErrorCode.InvalidParameters) else
  _ ← read_bytes (seq 0 TPM_HEADER_SIZE);
  '(buffer, _) ← get_st;
  n ← lift (tpm_packet_length buffer (Z.of_nat len));
  _ ← read_bytes (seq TPM_HEADER_SIZE (Z.to_nat n - TPM_HEADER_SIZE));
  mret n.
End ReadResponse.

(** ** Time *)

(** [u128::div_ceil] *)
Definition div_ceil (a b : Z) : Z := if decide (a mod b = 0) then a / b else a / b + 1.

Definition counter_ticks_for_microseconds (frequency_hz microseconds : Z) : Z :=
  Z.min (div_ceil (frequency_hz * microseconds) 1000000) U64_MAX.

(** ** Registers *)

(** The register block, one per locality; the internal one lives in memory. *)
Record PtpCrbRegisters : Type := {
  locality_state : Z; reserved1 : list Z; locality_control : Z; locality_status : Z;
  reserved2 : list Z; interface_id : Z; vid : Z; did : Z; crb_control_extension : Z;
  crb_control_request : Z; crb_control_status : Z; crb_control_cancel : Z;
  crb_control_start : Z; crb_interrupt_enable : Z; crb_interrupt_status : Z;
  crb_control_command_size : Z; crb_control_command_address_low : Z;
  crb_control_command_address_high : Z; crb_control_response_size : Z;
  crb_control_response_address : Z; reserved4 : list Z; crb_data_buffer : list Z;
}.

(** Offsets of the external CRB ([repr(C, packed)]). *)
Module Crb.
Definition locality_control : Z := 0x08.
Definition locality_status : Z := 0x0C.
Definition interface_id : Z := 0x30.
Definition crb_control_request : Z := 0x40.
Definition crb_control_status : Z := 0x44.
Definition crb_control_start : Z := 0x4C.
Definition crb_data_buffer : Z := 0x80.
Definition size_of : Z := 0x1000.
End Crb.

(** Offsets of the external FIFO. *)
Module Fifo.
Definition access : Z := 0x00.
Definition status : Z := 0x18.
Definition burst_count : Z := 0x19.
Definition data_fifo : Z := 0x24.
Definition size_of : Z := 0x1000.
End Fifo.

(** ** The driver *)

Record TpmSst : Type := mkSst {
  is_crb_interface : bool; is_idle_bypass_supported : bool; tpm_crb_address : Z;
}.

Definition sst_new (tpm_crb_address : Z) : TpmSst := mkSst false false tpm_crb_address.

Definition external_crb_ptr (self : TpmSst) (locality : Z) : Z :=
  trunc 64 (tpm_crb_address self + locality * Crb.size_of).
Definition external_fifo_ptr (self : TpmSst) (locality : Z) : Z :=
  trunc 64 (tpm_crb_address self + locality * Fifo.size_of).

(** The driver's operations, as the service uses them ([trait TpmSstOps]). *)
Class TpmSstOps (W T : Type) := {
  sst_go_idle : Z -> stM (T * W) Error.t ErrorCode.t;
  sst_cmd_ready : Z -> stM (T * W) Error.t ErrorCode.t;
  sst_start : Z -> PtpCrbRegisters -> stM (T * W) Error.t (ErrorCode.t * PtpCrbRegisters);
  sst_locality_request : Z -> stM (T * W) Error.t ErrorCode.t;
  sst_locality_relinquish : Z -> stM (T * W) Error.t ErrorCode.t;
  sst_idle_bypass_supported : T -> bool;
  sst_init : stM (T * W) Error.t unit;
}.

Section Driver.
Context {W : Type} `{SmcEnv W} `{Mmio W} `{Counter W}.
(** The rounds a polling loop may make. *)
Context (fuel : nat).

Definition start_timeout {E} (timeout_us : Z) : stM W E (Z * Z) :=
  start ← call cntvct;
  frequency ← call cntfrq;
  mret (start, counter_ticks_for_microseconds frequency timeout_us).

Definition timeout_expired {E} (start timeout_ticks : Z) : stM W E bool :=
  now ← call cntvct;
  mret (bool_decide (timeout_ticks <= trunc 64 (now - start))).

Fixpoint spin_from {E} (fuel : nat) (start delay_ticks : Z) : stM W E unit :=
  match fuel with
  | O => lift NoFuel
  | S fuel =>
      now ← call cntvct;
      if decide (trunc 64 (now - start) < delay_ticks) then spin_from fuel start delay_ticks
      else mret tt
  end.

Definition delay_microseconds {E} (microseconds : Z) : stM W E unit :=
  frequency ← call cntfrq;
  let delay_ticks := counter_ticks_for_microseconds frequency microseconds in
  start ← call cntvct;
  spin_from fuel start delay_ticks.

(** [loop { read; if timeout_expired(..) { break; } Yield::new(..).exec().unwrap(); }],
    left early when [read] gives a value. *)
Fixpoint poll_from {E A} (read : stM W E (option A)) (fuel : nat) (start timeout_ticks : Z) :
    stM W E (option A) :=
  match fuel with
  | O => lift NoFuel
  | S fuel =>
      r ← read;
      match r with
      | Some a => mret (Some a)
      | None =>
          expired ← timeout_expired start timeout_ticks;
          if expired : bool then mret None else
          _ ← st_unwrap (Yield.exec (Yield.new YIELD_TIMEOUT_HINT_NS));
          poll_from read fuel start timeout_ticks
      end
  end.

Definition poll {E A} (read : stM W E (option A)) (timeout : Z) : stM W E (option A) :=
  _ ← delay_microseconds POLL_DELAY_US;
  '(timeout_start, timeout_ticks) ← start_timeout timeout;
  poll_from read fuel timeout_start timeout_ticks.

Definition read_burst {E} (external_fifo : Z) : stM W E (option Z) :=
  burst_count_lo ← call (read_u8 (external_fifo + Fifo.burst_count));
  burst_count_hi ← call (read_u8 (external_fifo + Fifo.burst_count + 1));
  let burst_count := Z.lor (Z.shiftl burst_count_hi 8) burst_count_lo in
  mret (if decide (burst_count <> 0) then Some burst_count else None).

Definition fifo_read_burst_count (external_fifo : Z) : stM W ErrorCode.t Z :=
  r ← poll (read_burst external_fifo) PTP_TIMEOUT_D;
  match r with
  | Some burst_count => mret burst_count
  | None => lift (Err ErrorCode.Denied)
  end.

Definition read_register {E} (self : TpmSst) (register : Z) : stM W E Z :=
  if is_crb_interface self then call (read_u32 register) else call (read_u8 register).

Definition bits_match (reg_read bit_set bit_clear : Z) : bool :=
  bool_decide (Z.land reg_read bit_set = bit_set) && bool_decide (Z.land reg_read bit_clear = 0).

Definition read_bits {E} (self : TpmSst) (register bit_set bit_clear : Z) : stM W E (option unit) :=
  reg_read ← read_register self register;
  mret (if bits_match reg_read bit_set bit_clear then Some tt else None).

Definition wait_register_bits {E} (self : TpmSst) (register bit_set bit_clear timeout : Z) :
    stM W E ErrorCode.t :=
  r ← poll (read_bits self register bit_set bit_clear) timeout;
  mret (match r with Some _ => ErrorCode.Ok | None => ErrorCode.Denied end).

Definition store_u8 {E} (address value : Z) : stM W E unit :=
  fun w => (Ok tt, write_u8 address value w).
Definition store_u32 {E} (address value : Z) : stM W E unit :=
  fun w => (Ok tt, write_u32 address value w).

(** [for i in 0..len { crb_data_buffer[i] = buffer[i] }] *)
Fixpoint copy_to_crb {E} (external_crb : Z) (buffer : list Z) (indices : list nat) : stM W E unit :=
  match indices with
  | [] => mret tt
  | i :: indices =>
      b ← lift (or_panic (buffer !! i));
      _ ← (if decide (Z.of_nat i < CRB_DATA_BUFFER_SIZE)
           then store_u8 (external_crb + Crb.crb_data_buffer + Z.of_nat i) b else lift Panic);
      copy_to_crb external_crb buffer indices
  end.

(** [while remaining_burst > 0 && index < len]: one burst; gives the new index. *)
Fixpoint write_burst {E} (external_fifo : Z) (buffer : list Z) (len remaining_burst index : nat) :
    stM W E nat :=
  match remaining_burst with
  | O => mret index
  | S remaining_burst =>
      if decide (index < len)%nat then
        b ← lift (or_panic (buffer !! index));
        _ ← store_u8 (external_fifo + Fifo.data_fifo) b;
        write_burst external_fifo buffer len remaining_burst (S index)
      else mret index
  end.

(** [while index < len]: every round writes at least one byte, so
    [len - index] rounds and the last test are enough. *)
Fixpoint write_fifo {E} (external_fifo : Z) (buffer : list Z) (len rounds index : nat) :
    stM W E ErrorCode.t :=
  match rounds with
  | O => lift NoFuel
  | S rounds =>
      if decide (index < len)%nat then
        r ← attempt (fifo_read_burst_count external_fifo);
        match r with
        | inl burst_count =>
            index ← write_burst external_fifo buffer len (Z.to_nat burst_count) index;
            write_fifo external_fifo buffer len rounds index
        | inr error => mret error
        end
      else mret ErrorCode.Ok
  end.

Definition copy_command_data {E} (self : TpmSst) (locality : Z) (tpm_command_buffer : list Z)
    (command_data_len : Z) : stM W E ErrorCode.t :=
  let len := Z.to_nat command_data_len in
  if is_crb_interface self then
    _ ← copy_to_crb (external_crb_ptr self locality) tpm_command_buffer (seq 0 len);
    mret ErrorCode.Ok
  else
    let external_fifo := external_fifo_ptr self locality in
    status ← write_fifo external_fifo tpm_command_buffer len (S len) 0;
    if decide (status = ErrorCode.Ok) then
      wait_register_bits self (external_fifo + Fifo.status) PTP_FIFO_STS_VALID
        PTP_FIFO_STS_EXPECT PTP_TIMEOUT_C
    else mret status.

Definition start_command {E} (self : TpmSst) (locality : Z) : stM W E ErrorCode.t :=
  if is_crb_interface self then
    let external_crb := external_crb_ptr self locality in
    _ ← store_u32 (external_crb + Crb.crb_control_start) PTP_CRB_CONTROL_START;
    wait_register_bits self (external_crb + Crb.crb_control_start) 0 PTP_CRB_CONTROL_START
      PTP_TIMEOUT_MAX
  else
    let external_fifo := external_fifo_ptr self locality in
    _ ← store_u8 (external_fifo + Fifo.status) (trunc 8 PTP_FIFO_STS_GO);
    wait_register_bits self (external_fifo + Fifo.status)
      (Z.lor PTP_FIFO_STS_VALID PTP_FIFO_STS_DATA) 0 PTP_TIMEOUT_MAX.

Definition crb_read_byte (external_crb : Z) (offset : nat) : stM W ErrorCode.t Z :=
  if decide (Z.of_nat offset < CRB_DATA_BUFFER_SIZE)
  then call (read_u8 (external_crb + Crb.crb_data_buffer + Z.of_nat offset)) else lift Panic.

(** The closure over [remaining_burst], the first component of its world. *)
Definition fifo_read_byte (external_fifo : Z) (_ : nat) : stM (Z * W) ErrorCode.t Z :=
  '(remaining_burst, _) ← get_st;
  _ ← (if decide (remaining_burst = 0)
       then burst_count ← on_snd (fifo_read_burst_count external_fifo);
            modify_fst (fun _ => burst_count)
       else mret tt);
  status ← on_snd (call (read_u8 (external_fifo + Fifo.status)));
  if decide (Z.land status (trunc 8 PTP_FIFO_STS_DATA) = 0) then lift (Err ErrorCode.Denied) else
  byte ← on_snd (call (read_u8 (external_fifo + Fifo.data_fifo)));
  _ ← modify_fst (fun remaining_burst => remaining_burst - 1);
  mret byte.

(** Gives the length and the buffer. *)
Definition copy_response_data (self : TpmSst) (locality : Z) (tpm_command_buffer : list Z) :
    stM W ErrorCode.t (Z * list Z) := fun w =>
  if is_crb_interface self then
    let '(r, (buffer, w)) :=
      read_tpm_response (crb_read_byte (external_crb_ptr self locality)) (tpm_command_buffer, w) in
    ((n ← r; Ok (n, buffer)), w)
  else
    let '(r, (buffer, (_, w))) :=
      read_tpm_response (fifo_read_byte (external_fifo_ptr self locality))
        (tpm_command_buffer, (0, w)) in
    ((n ← r; Ok (n, buffer)), w).

(** ** TpmSstOps *)

Definition go_idle {E} (self : TpmSst) (locality : Z) : stM W E ErrorCode.t :=
  if is_crb_interface self then
    let external_crb := external_crb_ptr self locality in
    _ ← store_u32 (external_crb + Crb.crb_control_request) PTP_CRB_CONTROL_AREA_REQUEST_GO_IDLE;
    status ← wait_register_bits self (external_crb + Crb.crb_control_request) 0
      PTP_CRB_CONTROL_AREA_REQUEST_GO_IDLE PTP_TIMEOUT_C;
    if decide (status = ErrorCode.Ok) then
      wait_register_bits self (external_crb + Crb.crb_control_status)
        PTP_CRB_CONTROL_AREA_STATUS_TPM_IDLE 0 PTP_TIMEOUT_C
    else mret status
  else
    let external_fifo := external_fifo_ptr self locality in
    _ ← store_u8 (external_fifo + Fifo.status) (trunc 8 PTP_FIFO_STS_READY);
    wait_register_bits self (external_fifo + Fifo.status) PTP_FIFO_STS_READY 0 PTP_TIMEOUT_B.

Definition cmd_ready {E} (self : TpmSst) (locality : Z) : stM W E ErrorCode.t :=
  if is_crb_interface self then
    let external_crb := external_crb_ptr self locality in
    _ ← store_u32 (external_crb + Crb.crb_control_request)
          PTP_CRB_CONTROL_AREA_REQUEST_COMMAND_READY;
    status ← wait_register_bits self (external_crb + Crb.crb_control_request) 0
      PTP_CRB_CONTROL_AREA_REQUEST_COMMAND_READY PTP_TIMEOUT_C;
    if decide (status = ErrorCode.Ok) then
      wait_register_bits self (external_crb + Crb.crb_control_status) 0
        PTP_CRB_CONTROL_AREA_STATUS_TPM_IDLE PTP_TIMEOUT_C
    else mret status
  else
    let external_fifo := external_fifo_ptr self locality in
    _ ← store_u8 (external_fifo + Fifo.status) (trunc 8 PTP_FIFO_STS_READY);
    wait_register_bits self (external_fifo + Fifo.status) PTP_FIFO_STS_READY 0 PTP_TIMEOUT_B.

(** [internal_tpm_crb] with other buffer bytes. *)
Definition with_data_buffer (data : list Z) (crb : PtpCrbRegisters) : PtpCrbRegisters := {|
  locality_state := locality_state crb; reserved1 := reserved1 crb;
  locality_control := locality_control crb; locality_status := locality_status crb;
  reserved2 := reserved2 crb; interface_id := interface_id crb; vid := vid crb; did := did crb;
  crb_control_extension := crb_control_extension crb;
  crb_control_request := crb_control_request crb; crb_control_status := crb_control_status crb;
  crb_control_cancel := crb_control_cancel crb; crb_control_start := crb_control_start crb;
  crb_interrupt_enable := crb_interrupt_enable crb;
  crb_interrupt_status := crb_interrupt_status crb;
  crb_control_command_size := crb_control_command_size crb;
  crb_control_command_address_low := crb_control_command_address_low crb;
  crb_control_command_address_high := crb_control_command_address_high crb;
  crb_control_response_size := crb_control_response_size crb;
  crb_control_response_address := crb_control_response_address crb;
  reserved4 := reserved4 crb; crb_data_buffer := data |}.

Definition start {E} (self : TpmSst) (locality : Z) (crb : PtpCrbRegisters) :
    stM W E (ErrorCode.t * PtpCrbRegisters) :=
  let response_capacity := crb_control_response_size crb in
  let command_capacity := crb_control_command_size crb in
  if negb (capacity_ok command_capacity) || negb (capacity_ok response_capacity)
  then mret (ErrorCode.InvalidParameters, crb) else
  let data := crb_data_buffer crb in
  let buffer := replicate (Z.to_nat CRB_DATA_BUFFER_SIZE) 0 in
  let buffer := blit buffer 0 (slice data 0 TPM_HEADER_SIZE) in
  match tpm_packet_length buffer command_capacity with
  | Err error => mret (error, crb)
  | Panic => lift Panic
  | NoFuel => lift NoFuel
  | Ok command_data_len =>
      let buffer := blit buffer TPM_HEADER_SIZE
                      (slice data TPM_HEADER_SIZE (Z.to_nat command_data_len)) in
      status ← copy_command_data self locality buffer command_data_len;
      if decide (status <> ErrorCode.Ok) then mret (status, crb) else
      status ← start_command self locality;
      if decide (status <> ErrorCode.Ok) then mret (status, crb) else
      let capacity := Z.to_nat response_capacity in
      r ← attempt (copy_response_data self locality (take capacity buffer));
      match r with
      | inl (response_data_len, response) =>
          mret (status, with_data_buffer (blit data 0 (take (Z.to_nat response_data_len) response)) crb)
      | inr error => mret (error, crb)
      end
  end.

Definition locality_request {E} (self : TpmSst) (locality : Z) : stM W E ErrorCode.t :=
  if is_crb_interface self then
    let external_crb := external_crb_ptr self locality in
    _ ← store_u32 (external_crb + Crb.locality_control) PTP_CRB_LOCALITY_CONTROL_REQUEST_ACCESS;
    wait_register_bits self (external_crb + Crb.locality_status) PTP_CRB_LOCALITY_STATUS_GRANTED 0
      PTP_TIMEOUT_A
  else
    let external_fifo := external_fifo_ptr self locality in
    _ ← store_u8 (external_fifo + Fifo.access) PTP_FIFO_ACC_RQUUSE;
    wait_register_bits self (external_fifo + Fifo.access)
      (Z.lor PTP_FIFO_ACC_ACTIVE PTP_FIFO_VALID) 0 PTP_TIMEOUT_A.

Definition locality_relinquish {E} (self : TpmSst) (locality : Z) : stM W E ErrorCode.t :=
  if is_crb_interface self then
    let external_crb := external_crb_ptr self locality in
    _ ← store_u32 (external_crb + Crb.locality_control) PTP_CRB_LOCALITY_CONTROL_RELINQUISH;
    wait_register_bits self (external_crb + Crb.locality_status) 0 PTP_CRB_LOCALITY_STATUS_GRANTED
      PTP_TIMEOUT_A
  else
    let external_fifo := external_fifo_ptr self locality in
    _ ← store_u8 (external_fifo + Fifo.access) PTP_FIFO_ACC_ACTIVE;
    wait_register_bits self (external_fifo + Fifo.access) PTP_FIFO_VALID PTP_FIFO_ACC_ACTIVE
      PTP_TIMEOUT_A.

Definition init {E} : stM (TpmSst * W) E unit := fun sw =>
  let '(self, w) := sw in
  let '(interface_id, w) := read_u32 (tpm_crb_address self + Crb.interface_id) w in
  (Ok tt,
   (mkSst (bool_decide (Z.land interface_id INTERFACE_TYPE_MASK = 1))
          (bool_decide (Z.land interface_id IDLE_BYPASS_MASK <> 0))
          (tpm_crb_address self), w)).

(** A method that reads [self] only. *)
Definition with_self {E A} (m : TpmSst -> stM W E A) : stM (TpmSst * W) E A := fun sw =>
  on_snd (m sw.1) sw.

#[export] Instance tpm_sst_ops : TpmSstOps W TpmSst := {|
  sst_go_idle locality := with_self (fun self => go_idle self locality);
  sst_cmd_ready locality := with_self (fun self => cmd_ready self locality);
  sst_start locality crb := with_self (fun self => start self locality crb);
  sst_locality_request locality := with_self (fun self => locality_request self locality);
  sst_locality_relinquish locality := with_self (fun self => locality_relinquish self locality);
  sst_idle_bypass_supported := is_idle_bypass_supported;
  sst_init := init;
|}.
End Driver.

(** ** The platform's promises *)

(** One access may take this long, in ticks of the counter. *)
Definition STEP : Z := 2 ^ 60.

(** What the platform sees of the driver: accesses to registers of either
    width with their values, readings of the counter's frequency and of the
    counter, and yields. *)
Inductive Event : Type :=
  | Load8 (a v : Z) | Load32 (a v : Z) | Store8 (a v : Z) | Store32 (a v : Z)
  | Frequency (f : Z) | Count (t : Z) | Yielded.

(** The stores of a trace. *)
Definition stores_of : list Event -> list (Z * Z) :=
  omap (fun e => match e with Store8 a v | Store32 a v => Some (a, v) | _ => None end).

(** One event, within the time of an access. *)
Definition happens {W} (time : W -> Z) (trace : W -> list Event) (e : Event) (w w' : W) : Prop :=
  time w <= time w' <= time w + STEP /\ trace w' = trace w ++ [e].

(** What the driver relies on: registers hold values of their width, the
    counter shows a running time and advances from one reading to the next, a
    yield returns, and every access takes bounded time.  [trace] is the record
    of the events. *)
Class PlatformLaws (W : Type) `{SmcEnv W} `{Mmio W} `{Counter W} := {
  time : W -> Z;
  trace : W -> list Event;
  freq_max : Z;
  freq_max_range : 0 <= freq_max < 2 ^ 32;
  load_u8 a w : is_byte (read_u8 a w).1 /\
    happens time trace (Load8 a (read_u8 a w).1) w (read_u8 a w).2;
  load_u32 a w : is_u 32 (read_u32 a w).1 /\
    happens time trace (Load32 a (read_u32 a w).1) w (read_u32 a w).2;
  store_u8_event a v w : time w <= time (write_u8 a v w) /\
    trace (write_u8 a v w) = trace w ++ [Store8 a v];
  store_u32_event a v w : time w <= time (write_u32 a v w) /\
    trace (write_u32 a v w) = trace w ++ [Store32 a v];
  frequency_event w : 0 <= (cntfrq w).1 <= freq_max /\
    happens time trace (Frequency (cntfrq w).1) w (cntfrq w).2;
  count_event w : (cntvct w).1 = trunc 64 (time (cntvct w).2) /\ time w < time (cntvct w).2 /\
    happens time trace (Count (cntvct w).1) w (cntvct w).2;
  yield_event w : exists w', Yield.exec (Yield.new YIELD_TIMEOUT_HINT_NS) w = (Ok tt, w') /\
    happens time trace Yielded w w';
}.

(** The stores so far. *)
Definition writes {W} `{PlatformLaws W} (w : W) : list (Z * Z) := stores_of (trace w).

(** Between [w] and [w'] at most [k] accesses' time has passed and nothing has
    been stored. *)
Definition passes {W} (time : W -> Z) (writes : W -> list (Z * Z)) (k : Z) (w w' : W) : Prop :=
  time w <= time w' <= time w + k * STEP /\ writes w' = writes w.

(** Rounds that outlast the longest timeout. *)
Definition fuel_ok {W} `{PlatformLaws W} (fuel : nat) : Prop :=
  counter_ticks_for_microseconds freq_max PTP_TIMEOUT_MAX < Z.of_nat fuel.

(** Time went on and nothing was stored. *)
Definition quiet {W} `{PlatformLaws W} (w w' : W) : Prop :=
  time w <= time w' /\ writes w' = writes w.

(** ** Lemmas *)

(** *** The stores among the events *)

Lemma stores_of_app l l' : stores_of (l ++ l') = stores_of l ++ stores_of l'.
Proof. apply omap_app. Qed.

Section Stores.
Context {W : Type} `{PlatformLaws W}.
Implicit Types (w : W).

Lemma happens_passes e w w' :
  happens time trace e w w' -> stores_of [e] = [] -> passes time writes 1 w w'.
Proof.
  intros [Ht Htr] He. split; [lia|]. unfold writes. by rewrite Htr, stores_of_app, He, app_nil_r.
Qed.

Lemma read_u8_law a w : is_byte (read_u8 a w).1 /\ passes time writes 1 w (read_u8 a w).2.
Proof. destruct (load_u8 a w) as [? Hh]. split; [done|by eapply happens_passes]. Qed.

Lemma read_u32_law a w : is_u 32 (read_u32 a w).1 /\ passes time writes 1 w (read_u32 a w).2.
Proof. destruct (load_u32 a w) as [? Hh]. split; [done|by eapply happens_passes]. Qed.

Lemma write_u8_law a v w : time w <= time (write_u8 a v w) /\
  writes (write_u8 a v w) = writes w ++ [(a, v)].
Proof.
  destruct (store_u8_event a v w) as [? Ht]. split; [done|]. unfold writes. by rewrite Ht, stores_of_app.
Qed.

Lemma write_u32_law a v w : time w <= time (write_u32 a v w) /\
  writes (write_u32 a v w) = writes w ++ [(a, v)].
Proof.
  destruct (store_u32_event a v w) as [? Ht]. split; [done|]. unfold writes. by rewrite Ht, stores_of_app.
Qed.

Lemma cntfrq_law w : 0 <= (cntfrq w).1 <= freq_max /\ passes time writes 1 w (cntfrq w).2.
Proof. destruct (frequency_event w) as [? Hh]. split; [done|by eapply happens_passes]. Qed.

Lemma cntvct_law w : (cntvct w).1 = trunc 64 (time (cntvct w).2) /\ time w < time (cntvct w).2 /\
  passes time writes 1 w (cntvct w).2.
Proof. destruct (count_event w) as (? & ? & Hh). split; [done|]. split; [done|by eapply happens_passes]. Qed.

Lemma yield_law w : exists w', Yield.exec (Yield.new YIELD_TIMEOUT_HINT_NS) w = (Ok tt, w') /\
  passes time writes 1 w w'.
Proof. destruct (yield_event w) as (w' & ? & Hh). exists w'. split; [done|by eapply happens_passes]. Qed.
End Stores.

(** *** Ticks *)

Lemma div_ceil_spec a b : 0 < b -> b * (div_ceil a b - 1) < a <= b * div_ceil a b.
Proof.
  intros Hb. unfold div_ceil. pose proof (Z.div_mod a b) as Hd.
  pose proof (Z.mod_pos_bound a b Hb). case_decide; lia.
Qed.

Lemma ticks_range f us :
  0 <= f -> 0 <= us -> 0 <= counter_ticks_for_microseconds f us <= U64_MAX.
Proof.
  intros. unfold counter_ticks_for_microseconds, U64_MAX.
  pose proof (div_ceil_spec (f * us) 1000000). nia.
Qed.

Lemma ticks_mono f f' us us' :
  0 <= f <= f' -> 0 <= us <= us' ->
  counter_ticks_for_microseconds f us <= counter_ticks_for_microseconds f' us'.
Proof.
  intros Hf Hu. unfold counter_ticks_for_microseconds.
  pose proof (div_ceil_spec (f * us) 1000000). pose proof (div_ceil_spec (f' * us') 1000000).
  assert (f * us <= f' * us') by (apply Z.mul_le_mono_nonneg; lia). lia.
Qed.

Section Polling.
Context {W : Type} `{PlatformLaws W}.
Implicit Types (w : W).

Lemma passes_quiet k w w' : passes time writes k w w' -> quiet w w'.
Proof. by intros [[? ?] ?]. Qed.

Lemma quiet_refl w : quiet w w.
Proof. by split. Qed.

Lemma quiet_trans w1 w2 w3 : quiet w1 w2 -> quiet w2 w3 -> quiet w1 w3.
Proof. intros [? ?] [? ?]. split; [lia|congruence]. Qed.

Lemma passes_trans j k w1 w2 w3 :
  passes time writes j w1 w2 -> passes time writes k w2 w3 -> passes time writes (j + k) w1 w3.
Proof. intros [? ?] [? ?]. split; [lia|congruence]. Qed.

(** Timeouts are far below the wrap of the counter. *)
Lemma ticks_small f us :
  0 <= f <= freq_max -> 0 <= us <= PTP_TIMEOUT_MAX ->
  0 <= counter_ticks_for_microseconds f us < STEP.
Proof.
  intros Hf Hu. pose proof freq_max_range. split; [apply ticks_range; lia|].
  eapply Z.le_lt_trans; [apply (ticks_mono f (2 ^ 32) us PTP_TIMEOUT_MAX); lia|]. done.
Qed.

Lemma fuel_enough fuel f us :
  fuel_ok fuel -> 0 <= f <= freq_max -> 0 <= us <= PTP_TIMEOUT_MAX ->
  counter_ticks_for_microseconds f us < Z.of_nat fuel.
Proof.
  intros Hfuel Hf Hu. eapply Z.le_lt_trans; [|exact Hfuel]. apply ticks_mono; lia.
Qed.

(** Reading the counter, and the time since an earlier reading. *)
Lemma elapsed w t0 :
  t0 <= time w -> time w - t0 < 8 * STEP ->
  trunc 64 ((cntvct w).1 - trunc 64 t0) = time (cntvct w).2 - t0.
Proof.
  intros Ht Hd. pose proof (cntvct_law w) as (Hv & Hlt & [Hle _]). rewrite Hv.
  unfold trunc. rewrite <- Zminus_mod. apply Z.mod_small. unfold STEP in *. lia.
Qed.

(** A predicate that waiting keeps. *)
Definition steady (I : W -> Prop) : Prop :=
  (forall w, I w -> I (cntfrq w).2) /\ (forall w, I w -> I (cntvct w).2) /\
  forall w w', I w -> Yield.exec (Yield.new YIELD_TIMEOUT_HINT_NS) w = (Ok tt, w') -> I w'.

Lemma steady_True : steady (fun _ => True).
Proof. done. Qed.

Lemma spin_from_runs {E} I fuel w t0 ticks :
  steady I -> I w -> t0 <= time w -> time w - t0 < 4 * STEP -> ticks < STEP ->
  0 < Z.of_nat fuel -> ticks - (time w - t0) < Z.of_nat fuel ->
  runs (spin_from (E := E) fuel (trunc 64 t0) ticks) w (fun _ w' => quiet w w' /\ I w') no_error.
Proof.
  intros HI. pose proof HI as (_ & Hvct & _).
  revert w. induction fuel as [|fuel IH]; intros w Hw Ht Hd Hticks Hf Hm; [lia|].
  cbn [spin_from]. apply runs_bind, runs_call.
  pose proof (cntvct_law w) as (_ & Hlt & Hp). rewrite elapsed by lia.
  case_decide as Hc; [|apply runs_ret; split; [by apply (passes_quiet 1)|by apply Hvct]].
  eapply runs_mono; [apply IH; [by apply Hvct|unfold STEP in *; lia..]| |done].
  intros [] w' [Hq Hw']. split; [|done]. eapply quiet_trans; [by apply (passes_quiet 1)|exact Hq].
Qed.

Lemma delay_runs {E} I fuel w :
  steady I -> I w -> fuel_ok fuel ->
  runs (delay_microseconds (E := E) fuel POLL_DELAY_US) w (fun _ w' => quiet w w' /\ I w') no_error.
Proof.
  intros HI Hw Hfuel. pose proof HI as (Hfrq & Hvct & _). unfold delay_microseconds.
  apply runs_bind, runs_call. pose proof (cntfrq_law w) as [Hfr Hq1].
  set (w1 := (cntfrq w).2) in *. apply runs_bind, runs_call.
  pose proof (cntvct_law w1) as (-> & _ & Hq2). set (w2 := (cntvct w1).2) in *.
  assert (0 <= POLL_DELAY_US <= PTP_TIMEOUT_MAX) as Hd by done.
  pose proof (ticks_small _ _ Hfr Hd). pose proof (fuel_enough fuel _ _ Hfuel Hfr Hd).
  eapply runs_mono; [apply (spin_from_runs I fuel w2 (time w2)); [done|by apply Hvct, Hfrq|unfold STEP in *; lia..]| |done].
  intros [] w' [Hq Hw']. split; [|done]. eapply quiet_trans; [|exact Hq].
  eapply passes_quiet, passes_trans; eassumption.
Qed.

(** What polling needs of a read: it returns within two accesses. *)
Definition reads {E A} (I : W -> Prop) (read : stM W E (option A)) : Prop :=
  forall w, I w -> runs read w (fun _ w' => passes time writes 2 w w' /\ I w') no_error.

(** How polling ends: right after a read that gave a value, or with a last read
    that gave none and the look at the counter that followed. *)
Definition polled {E A} (I : W -> Prop) (read : stM W E (option A)) (w : W) (r : option A) (w' : W) :
    Prop :=
  quiet w w' /\ I w' /\
  match r with
  | Some a => exists w0, quiet w w0 /\ I w0 /\ read w0 = (Ok (Some a), w')
  | None => exists w0 w1, quiet w w0 /\ I w0 /\ read w0 = (Ok None, w1) /\ w' = (cntvct w1).2
  end.

Lemma polled_later {E A} I (read : stM W E (option A)) w w1 r w' :
  quiet w w1 -> polled I read w1 r w' -> polled I read w r w'.
Proof.
  intros Hq (Hq' & Hw' & Hr). split; [by eapply quiet_trans|]. split; [done|]. destruct r as [a|].
  - destruct Hr as (w0 & ? & ?). exists w0. split; [by eapply quiet_trans|done].
  - destruct Hr as (w0 & w2 & ? & ?). exists w0, w2. split; [by eapply quiet_trans|done].
Qed.

Lemma poll_from_runs {E A} I (read : stM W E (option A)) fuel w t0 ticks :
  steady I -> reads I read -> I w -> t0 <= time w -> time w - t0 < 4 * STEP -> ticks < STEP ->
  0 < Z.of_nat fuel -> ticks - (time w - t0) < Z.of_nat fuel ->
  runs (poll_from read fuel (trunc 64 t0) ticks) w (fun r w' => polled I read w r w' /\
    (r = None -> ticks <= time w' - t0)) no_error.
Proof.
  intros (_ & Hvct & Hyield) Hread. revert w.
  induction fuel as [|fuel IH]; intros w Hw Ht Hd Hticks Hf Hm; [lia|].
  cbn [poll_from]. apply runs_bind. pose proof (Hread w Hw) as Hr. unfold runs in Hr |- * at 1.
  destruct (read w) as [[r|e| |] w1] eqn:Hrw; try done. destruct Hr as [Hr Hw1].
  destruct r as [a|].
  { apply runs_ret. split; [|done]. split; [by eapply passes_quiet|]. split; [done|].
    exists w. split; [apply quiet_refl|done]. }
  apply runs_bind. unfold timeout_expired. apply runs_bind, runs_call.
  pose proof (cntvct_law w1) as (_ & Hlt & Hp1). destruct Hr as [Hle1 Hws1].
  rewrite elapsed by (unfold STEP in *; lia). apply runs_ret. pose proof (Hvct w1 Hw1) as Hw2.
  set (w2 := (cntvct w1).2) in *. destruct Hp1 as [? Hws2].
  case_bool_decide as Hc.
  { apply runs_ret. split; [|done]. split; [split; [lia|congruence]|]. split; [done|].
    exists w, w1. split_and!; try done; apply quiet_refl. }
  apply runs_bind. unfold st_unwrap, runs at 1.
  destruct (yield_law w2) as (w3 & Hy & [? Hws3]). rewrite Hy. pose proof (Hyield _ _ Hw2 Hy) as Hw3.
  eapply runs_mono; [apply IH; [exact Hw3|unfold STEP in *; lia..]| |done].
  intros r w' [Hp Hr]. split; [|done]. eapply polled_later; [|exact Hp].
  split; [lia|congruence].
Qed.

(** A timeout: the ticks it takes at the counter's frequency have passed. *)
Definition out_of_time (I : W -> Prop) (timeout : Z) (w w' : W) : Prop :=
  exists wf, I wf /\ counter_ticks_for_microseconds (cntfrq wf).1 timeout <= time w' - time w.

Lemma poll_runs {E A} I (read : stM W E (option A)) fuel timeout w :
  steady I -> reads I read -> I w -> fuel_ok fuel -> 0 <= timeout <= PTP_TIMEOUT_MAX ->
  runs (poll fuel read timeout) w (fun r w' => polled I read w r w' /\
    (r = None -> out_of_time I timeout w w')) no_error.
Proof.
  intros HI Hread Hw Hfuel Ht. pose proof HI as (Hfrq & Hvct & _). unfold poll. apply runs_bind.
  eapply runs_mono; [by apply (delay_runs I)| |done]. intros [] w1 [Hq1 Hw1].
  apply runs_bind. unfold start_timeout. apply runs_bind, runs_call.
  pose proof (cntvct_law w1) as (-> & _ & Hp2). pose proof (Hvct w1 Hw1) as Hw2.
  set (w2 := (cntvct w1).2) in *.
  apply runs_bind, runs_call. pose proof (cntfrq_law w2) as [Hfr Hp3]. pose proof (Hfrq w2 Hw2) as Hw3.
  set (w3 := (cntfrq w2).2) in *. apply runs_ret.
  pose proof (ticks_small _ timeout Hfr Ht). pose proof (fuel_enough fuel _ timeout Hfuel Hfr Ht).
  destruct Hp2 as [? Hws2], Hp3 as [? Hws3], Hq1 as [? Hws1].
  eapply runs_mono; [apply (poll_from_runs I read fuel w3 (time w2)); try done; unfold STEP in *; lia| |done].
  intros r w' [Hp Hr]. split; [eapply polled_later; [|exact Hp]; split; [lia|congruence]|].
  intros Hn. exists w2. split; [done|]. specialize (Hr Hn). lia.
Qed.
End Polling.

(** *** Register waits *)

Section Waiting.
Context {W : Type} `{PlatformLaws W}.
Implicit Types (w : W) (self : TpmSst).

(** The worlds between which one store happened. *)
Definition stored (a v : Z) (w w' : W) : Prop :=
  time w <= time w' /\ writes w' = writes w ++ [(a, v)].

Lemma read_register_runs {E} self register w :
  runs (read_register (E := E) self register) w
    (fun v w' => is_u 32 v /\ passes time writes 1 w w') no_error.
Proof.
  unfold read_register. destruct (is_crb_interface self); apply runs_call.
  - apply read_u32_law.
  - destruct (read_u8_law register w) as [Hb ?]. split; [|done]. by apply (is_u_weaken 8).
Qed.

Lemma read_bits_reads {E} self register bit_set bit_clear :
  reads (fun _ => True) (read_bits (E := E) self register bit_set bit_clear).
Proof.
  intros w _. unfold read_bits. apply runs_bind.
  eapply runs_mono; [apply read_register_runs| |done]. intros v w' [_ [? ?]].
  apply runs_ret. split; [|done]. split; [unfold STEP in *; lia|done].
Qed.

Lemma read_burst_reads {E} external_fifo : reads (fun _ => True) (read_burst (E := E) external_fifo).
Proof.
  intros w _. unfold read_burst. apply runs_bind, runs_call.
  destruct (read_u8_law (external_fifo + Fifo.burst_count) w) as [_ Hp].
  apply runs_bind, runs_call. set (w1 := (read_u8 _ w).2) in *.
  destruct (read_u8_law (external_fifo + Fifo.burst_count + 1) w1) as [_ Hp'].
  apply runs_ret. split; [|done]. by apply (passes_trans 1 1 w w1).
Qed.

Lemma wait_runs {E} fuel self register bit_set bit_clear timeout w :
  fuel_ok fuel -> 0 <= timeout <= PTP_TIMEOUT_MAX ->
  runs (wait_register_bits (E := E) fuel self register bit_set bit_clear timeout) w
    (fun _ w' => quiet w w') no_error.
Proof.
  intros Hfuel Ht. unfold wait_register_bits. apply runs_bind.
  eapply runs_mono; [by apply poll_runs; [apply steady_True|apply read_bits_reads|..]| |done].
  intros r w' [[Hq _] _]. by apply runs_ret.
Qed.

Lemma burst_runs fuel external_fifo w :
  fuel_ok fuel ->
  runs (fifo_read_burst_count fuel external_fifo) w
    (fun n w' => quiet w w' /\ 0 < n) (fun e w' => quiet w w' /\ e = ErrorCode.Denied).
Proof.
  intros Hfuel. unfold fifo_read_burst_count. apply runs_bind.
  eapply runs_mono; [by apply poll_runs; [apply steady_True|apply read_burst_reads|..]| |done].
  intros [n|] w' [(Hq & _ & Hr) _]; [|by rewrite runs_lift]. apply runs_ret. split; [done|].
  destruct Hr as (w0 & _ & _ & Hr). unfold read_burst, mbind, stM_bind, call in Hr.
  pose proof (read_u8_law (external_fifo + Fifo.burst_count) w0) as [[Hlo _] _].
  destruct (read_u8 (external_fifo + Fifo.burst_count) w0) as [lo w1]. cbn [fst snd] in *.
  pose proof (read_u8_law (external_fifo + Fifo.burst_count + 1) w1) as [[Hhi _] _].
  destruct (read_u8 (external_fifo + Fifo.burst_count + 1) w1) as [hi w2]. cbn [fst snd] in *.
  injection Hr as Hn _. case_decide; [|done]. injection Hn as <-.
  assert (0 <= Z.lor (Z.shiftl hi 8) lo); [|lia].
  apply Z.lor_nonneg. split; [by apply Z.shiftl_nonneg|done].
Qed.

Lemma store_u8_runs {E} a v w :
  runs (store_u8 (E := E) a v) w (fun _ => stored a v w) no_error.
Proof. apply write_u8_law. Qed.

Lemma store_u32_runs {E} a v w :
  runs (store_u32 (E := E) a v) w (fun _ => stored a v w) no_error.
Proof. apply write_u32_law. Qed.

(** A store followed by a wait: the shape of every register operation. *)
Lemma store_wait_runs {E} (store : stM W E unit) a v fuel self register bit_set bit_clear timeout w :
  (forall w, runs store w (fun _ => stored a v w) no_error) ->
  fuel_ok fuel -> 0 <= timeout <= PTP_TIMEOUT_MAX ->
  runs (_ ← store; wait_register_bits fuel self register bit_set bit_clear timeout) w
    (fun _ w' => stored a v w w') no_error.
Proof.
  intros Hs Hfuel Ht. apply runs_bind. eapply runs_mono; [apply Hs| |done].
  intros [] w1 [Ht1 Hw1]. eapply runs_mono; [by apply wait_runs| |done].
  intros s w' [Ht' Hw']. split; [lia|congruence].
Qed.

(** *** Copying the command *)

(** The stores of a list of bytes to the data FIFO. *)
Definition fifo_stores (external_fifo : Z) (bytes : list Z) : list (Z * Z) :=
  (fun b => (external_fifo + Fifo.data_fifo, b)) <$> bytes.

(** The stores of a list of bytes into the CRB's buffer. *)
Definition crb_stores (external_crb : Z) (bytes : list Z) : list (Z * Z) :=
  imap (fun i b => (external_crb + Crb.crb_data_buffer + Z.of_nat i, b)) bytes.

(** Time went on and exactly these stores happened. *)
Definition emits (l : list (Z * Z)) (w w' : W) : Prop :=
  time w <= time w' /\ writes w' = writes w ++ l.

Lemma emits_quiet l w w1 w2 : quiet w w1 -> emits l w1 w2 -> emits l w w2.
Proof. intros [? Hw] [? Hw']. split; [lia|congruence]. Qed.

Lemma quiet_emits w w' : quiet w w' -> emits [] w w'.
Proof. intros [? Hw]. split; [done|]. by rewrite app_nil_r. Qed.

Lemma emits_trans l l' w w1 w2 : emits l w w1 -> emits l' w1 w2 -> emits (l ++ l') w w2.
Proof. intros [? Hw] [? Hw']. split; [lia|]. by rewrite Hw', Hw, app_assoc. Qed.

Lemma write_burst_runs {E} external_fifo buffer len n i w :
  (i <= len <= length buffer)%nat ->
  runs (write_burst (E := E) external_fifo buffer len n i) w
    (fun j w' => j = (i + Nat.min n (len - i))%nat /\
       emits (fifo_stores external_fifo (slice buffer i j)) w w') no_error.
Proof.
  revert i w. induction n as [|n IH]; intros i w Hi; cbn [write_burst].
  - apply runs_ret. split; [lia|]. unfold slice. rewrite Nat.sub_diag. cbn.
    apply quiet_emits, quiet_refl.
  - case_decide as Hlt.
    2: { apply runs_ret. split; [lia|]. unfold slice. rewrite Nat.sub_diag. cbn.
         apply quiet_emits, quiet_refl. }
    destruct (lookup_lt_is_Some_2 buffer i) as [b Hb]; [lia|].
    apply runs_bind. rewrite runs_lift, Hb. cbn [or_panic].
    apply runs_bind. eapply runs_mono; [apply store_u8_runs| |done]. intros [] w1 Hs.
    eapply runs_mono; [apply IH; lia| |done]. intros j w' [-> He]. split; [lia|].
    rewrite <- (slice_app buffer i (S i)) by lia.
    rewrite <- Nat.add_1_r, (slice_one buffer i b Hb) at 1.
    exact (emits_trans [_] _ w w1 w' Hs He).
Qed.

Lemma write_fifo_runs {E} fuel external_fifo buffer len rounds i w :
  fuel_ok fuel -> (i <= len <= length buffer)%nat -> (len - i < rounds)%nat ->
  runs (write_fifo (E := E) fuel external_fifo buffer len rounds i) w
    (fun s w' => exists j, (i <= j <= len)%nat /\
       emits (fifo_stores external_fifo (slice buffer i j)) w w' /\
       (s = ErrorCode.Ok /\ j = len \/ s = ErrorCode.Denied)) no_error.
Proof.
  intros Hfuel. revert i w. induction rounds as [|rounds IH]; intros i w Hi Hr; [lia|].
  assert (emits (fifo_stores external_fifo (slice buffer i i)) w w) as Hnil.
  { unfold slice. rewrite Nat.sub_diag. cbn. apply quiet_emits, quiet_refl. }
  cbn [write_fifo]. case_decide as Hlt.
  2: { apply runs_ret. exists i. split; [lia|]. split; [done|]. left. split; [done|lia]. }
  apply runs_bind, runs_attempt. eapply runs_mono; [by apply burst_runs| |].
  2: { intros e w' [Hq ->]. apply runs_ret. exists i. split; [lia|]. split; [|by right].
       eapply emits_quiet; [done|]. unfold slice. rewrite Nat.sub_diag. cbn.
       apply quiet_emits, quiet_refl. }
  intros n w1 [Hq Hn]. apply runs_bind.
  eapply runs_mono; [by apply write_burst_runs| |done]. intros j w2 [-> He].
  eapply runs_mono; [apply IH; lia| |done]. intros s w' (k & Hk & He' & Hs).
  exists k. split; [lia|]. split; [|done].
  rewrite <- (slice_app buffer i (i + Nat.min (Z.to_nat n) (len - i)) k) by lia.
  unfold fifo_stores in *. rewrite fmap_app.
  eapply emits_trans; [|exact He']. by eapply emits_quiet.
Qed.

Lemma copy_to_crb_runs {E} external_crb buffer n w :
  (n <= length buffer)%nat -> Z.of_nat n <= CRB_DATA_BUFFER_SIZE ->
  runs (copy_to_crb (E := E) external_crb buffer (seq 0 n)) w
    (fun _ => emits (crb_stores external_crb (take n buffer)) w) no_error.
Proof.
  intros Hn Hsize.
  assert (forall k i w, (i + k = n)%nat ->
    runs (copy_to_crb (E := E) external_crb buffer (seq i k)) w
      (fun _ => emits (imap (fun j b => (external_crb + Crb.crb_data_buffer + Z.of_nat (i + j), b))
         (slice buffer i n)) w) no_error) as Hgen.
  { induction k as [|k IH]; intros i w0 Hik; cbn [seq copy_to_crb].
    - apply runs_ret. unfold slice. replace (n - i)%nat with 0%nat by lia. cbn.
      apply quiet_emits, quiet_refl.
    - destruct (lookup_lt_is_Some_2 buffer i) as [b Hb]; [lia|].
      apply runs_bind. rewrite runs_lift, Hb. cbn [or_panic].
      apply runs_bind. rewrite decide_True by lia.
      eapply runs_mono; [apply store_u8_runs| |done]. intros [] w1 Hs.
      eapply runs_mono; [apply IH; lia| |done]. intros [] w' He.
      rewrite <- (slice_app buffer i (i + 1) n) by lia. rewrite (slice_one buffer i b Hb).
      cbn [app imap]. rewrite Nat.add_0_r, Nat.add_1_r.
      refine (emits_trans [_] _ w0 w1 w' Hs _).
      erewrite imap_ext; [exact He|]. intros j x _. cbn. do 3 f_equal. lia. }
  specialize (Hgen n 0%nat w eq_refl). unfold crb_stores.
  replace (take n buffer) with (slice buffer 0 n) by (unfold slice; by rewrite Nat.sub_0_r).
  exact Hgen.
Qed.
End Waiting.

(** *** Reading the response *)

Lemma tpm_packet_length_eq header capacity :
  (TPM_HEADER_SIZE <= length header)%nat ->
  let n := from_be_bytes (slice header 2 6) in
  tpm_packet_length header capacity =
    if decide (Z.of_nat TPM_HEADER_SIZE <= n <= capacity /\ capacity <= CRB_DATA_BUFFER_SIZE)
    then Ok n else Err ErrorCode.InvalidParameters.
Proof.
  intros Hl n. unfold tpm_packet_length. rewrite get_slice_Some by lia.
  cbn [ok_or mbind outcome_bind]. rewrite slice_slice by (unfold TPM_HEADER_SIZE; lia).
  cbn [Nat.add]. fold n. unfold capacity_ok.
  repeat (case_bool_decide || case_decide); cbn [negb orb]; reflexivity || lia.
Qed.

(** [bytes] is what successive reads at [offsets] give. *)
Inductive byte_reads {W} (read_byte : nat -> stM W ErrorCode.t Z) :
    list nat -> list Z -> W -> W -> Prop :=
  | reads_nil w : byte_reads read_byte [] [] w w
  | reads_cons o b offsets bytes w w1 w2 :
      read_byte o w = (Ok b, w1) -> byte_reads read_byte offsets bytes w1 w2 ->
      byte_reads read_byte (o :: offsets) (b :: bytes) w w2.

Lemma byte_reads_app {W} (read_byte : nat -> stM W ErrorCode.t Z) l l' bs bs' w w1 w2 :
  byte_reads read_byte l bs w w1 -> byte_reads read_byte l' bs' w1 w2 ->
  byte_reads read_byte (l ++ l') (bs ++ bs') w w2.
Proof. induction 1; [done|]. intros. cbn. econstructor; eauto. Qed.

Lemma blit_0 {A} (l bs : list A) : blit l 0 bs = bs ++ drop (length bs) l.
Proof. done. Qed.

Lemma slice_app_l {A} (l1 l2 : list A) a b :
  (a <= b <= length l1)%nat -> slice (l1 ++ l2) a b = slice l1 a b.
Proof.
  intros Hab. unfold slice. rewrite drop_app_le by lia.
  apply take_app_le. rewrite length_drop. lia.
Qed.

(** Writing an element and then the rest behind it. *)
Lemma blit_insert {A} (l bs : list A) i b :
  (i < length l)%nat -> blit (<[i := b]> l) (S i) bs = blit l i (b :: bs).
Proof.
  revert i. induction l as [|x l IH]; intros [|i] Hi; cbn [length] in Hi; try lia; [done|].
  change (x :: blit (<[i := b]> l) (S i) bs = x :: blit l i (b :: bs)). rewrite IH by lia. done.
Qed.

(** Two writes, one behind the other. *)
Lemma blit_twice {A} (l bs1 bs2 : list A) :
  blit (blit l 0 bs1) (length bs1) bs2 = blit l 0 (bs1 ++ bs2).
Proof.
  rewrite !blit_0. unfold blit. rewrite take_app_length.
  rewrite <- app_assoc. do 2 f_equal. rewrite drop_app_ge by lia.
  rewrite drop_drop, length_app. f_equal. lia.
Qed.

Section Response.
Context {W : Type} (read_byte : nat -> stM W ErrorCode.t Z) (cap : nat).
(** An invariant of the reader's world, and what holds when it fails. *)
Context (I : W -> Prop) (X : ErrorCode.t -> W -> Prop).
Context (reader : forall o w, (o < cap)%nat -> I w ->
  runs (read_byte o) w (fun b w' => is_byte b /\ I w') X).

Lemma read_bytes_runs k i buf w :
  I w -> length buf = cap -> (i + k <= cap)%nat ->
  runs (read_bytes read_byte (seq i k)) (buf, w)
    (fun _ bw => exists bs, byte_reads read_byte (seq i k) bs w bw.2 /\ I bw.2 /\
       length bs = k /\ bytes_ok bs /\ bw.1 = blit buf i bs)
    (fun e bw => X e bw.2).
Proof.
  revert i buf w. induction k as [|k IH]; intros i buf w Hi Hl Hik; cbn [seq read_bytes].
  - apply runs_ret. exists []. split_and!; try done; [constructor|].
    unfold blit. cbn. by rewrite Nat.add_0_r, take_drop.
  - apply runs_bind, runs_on_snd.
    pose proof (reader i w ltac:(lia) Hi) as Hr. unfold runs in Hr |- * at 1. cbn [fst snd].
    destruct (read_byte i w) as [[b|e| |] w1] eqn:Hb; try done. destruct Hr as [Hbyte Hi1].
    apply runs_bind. cbn. eapply runs_mono; [apply IH; [done|by rewrite length_insert|lia]| |done].
    intros [] [buf' w'] (bs & Hreads & Hi' & Hlen & Hok & Hbuf). cbn [fst snd] in *.
    exists (b :: bs). split_and!; [by econstructor|done|cbn; lia|by constructor|].
    rewrite Hbuf. apply blit_insert. lia.
Qed.

(** A whole response was read: [n] bytes, announced by its header. *)
Definition response_read (buf : list Z) (w : W) (n : Z) (bw : list Z * W) : Prop :=
  exists bs, byte_reads read_byte (seq 0 (length bs)) bs w bw.2 /\ I bw.2 /\
    Z.of_nat (length bs) = n /\ (TPM_HEADER_SIZE <= length bs <= cap)%nat /\ bytes_ok bs /\
    from_be_bytes (slice bs 2 6) = n /\ bw.1 = blit buf 0 bs.

(** The header announced a length out of range, after exactly ten reads. *)
Definition response_rejected (w : W) (e : ErrorCode.t) (bw : list Z * W) : Prop :=
  e = ErrorCode.InvalidParameters /\
  exists bs, byte_reads read_byte (seq 0 TPM_HEADER_SIZE) bs w bw.2 /\ I bw.2 /\
    ~ (Z.of_nat TPM_HEADER_SIZE <= from_be_bytes (slice bs 2 6) <= Z.of_nat cap).

Lemma read_tpm_response_runs buf w :
  I w -> length buf = cap -> capacity_ok (Z.of_nat cap) = true ->
  runs (read_tpm_response read_byte) (buf, w) (response_read buf w)
    (fun e bw => response_rejected w e bw \/ X e bw.2).
Proof.
  intros Hi Hl Hcap. pose proof Hcap as Hcap'. unfold capacity_ok in Hcap'.
  apply bool_decide_eq_true in Hcap'.
  assert (TPM_HEADER_SIZE <= cap)%nat as Hh by lia.
  unfold read_tpm_response. apply runs_bind. cbn [runs get_st]. rewrite Hl, Hcap. cbn [negb].
  apply runs_bind. eapply runs_mono; [by apply (read_bytes_runs TPM_HEADER_SIZE 0)| |by right].
  intros [] [buf1 w1] (bs & Hreads & Hi1 & Hbs & Hok & Hbuf1). cbn [fst snd] in *. subst buf1.
  apply runs_bind. cbn [runs get_st].
  assert (slice (blit buf 0 bs) 2 6 = slice bs 2 6) as Hs.
  { rewrite blit_0. apply slice_app_l. unfold TPM_HEADER_SIZE in Hbs. lia. }
  apply runs_bind. rewrite runs_lift.
  rewrite tpm_packet_length_eq by (rewrite length_blit; rewrite ?Hbs, ?Hl; lia).
  rewrite Hs. case_decide as Hn.
  2: { left. split; [done|]. exists bs. split_and!; try done. intros ?. apply Hn. lia. }
  set (n := from_be_bytes (slice bs 2 6)) in *.
  apply runs_bind. eapply runs_mono; [apply read_bytes_runs; [done| |]| |by right].
  { rewrite length_blit; [done|]. rewrite Hbs, Hl. done. }
  { lia. }
  intros [] [buf2 w2] (bs2 & Hreads2 & Hi2 & Hbs2 & Hok2 & Hbuf2). cbn [fst snd] in *. subst buf2.
  apply runs_ret. exists (bs ++ bs2). cbn [fst snd].
  assert (length (bs ++ bs2) = Z.to_nat n) as Hlen by (rewrite length_app; lia).
  rewrite Hlen. split_and!; [|done|lia|lia|lia|by apply Forall_app| |].
  - replace (Z.to_nat n) with (TPM_HEADER_SIZE + (Z.to_nat n - TPM_HEADER_SIZE))%nat by lia.
    rewrite seq_app. by eapply byte_reads_app.
  - unfold n. by rewrite slice_app_l by (unfold TPM_HEADER_SIZE in Hbs; lia).
  - rewrite <- Hbs at 1. by apply blit_twice.
Qed.
End Response.

