(* ===== verification/TpmBus.v ===== *)
(** The TPM driver as the bus sees it: the events of every operation of
    [TpmSst], waits included, in a grammar with the registers' offsets, bits and
    timeouts as numbers, and the proof that the driver emits nothing else. *)
From Stdlib Require Import ZArith Lia.
From S2P Require Import Prelude FfaCore FfaFunctions TpmSst.
#[local] Open Scope Z_scope.

(** ** The grammar *)

(** At [f] Hz so many ticks last the timeout, in microseconds. *)
Definition passed (f us ticks : Z) : Prop := us * f <= ticks * 1000000.

(** Ticks from one reading of the 64-bit counter to another. *)
Definition ticks_between (t0 t : Z) : Z := (t - t0) mod 2 ^ 64.

(** The pause before a poll: the counter is read until the time has passed. *)
Inductive pausing (t0 f us : Z) : list Event -> Prop :=
  | pause_over t : passed f us (ticks_between t0 t) -> pausing t0 f us [Count t]
  | pause_on t l : ~ passed f us (ticks_between t0 t) -> pausing t0 f us l ->
      pausing t0 f us (Count t :: l).

Definition pause (us : Z) (l : list Event) : Prop :=
  exists f t0 l', l = Frequency f :: Count t0 :: l' /\ pausing t0 f us l'.

Section Polls.
Context {A : Type} (look : option A -> list Event -> Prop).

(** A poll looks until it finds what it looks for, or until a reading of the
    counter after a look in vain shows that the time has passed; it yields
    before the next look. *)
Inductive polling (t0 f us : Z) : option A -> list Event -> Prop :=
  | poll_found a l : look (Some a) l -> polling t0 f us (Some a) l
  | poll_late l t : look None l -> passed f us (ticks_between t0 t) ->
      polling t0 f us None (l ++ [Count t])
  | poll_again l t r l' : look None l -> ~ passed f us (ticks_between t0 t) ->
      polling t0 f us r l' -> polling t0 f us r (l ++ Count t :: Yielded :: l').

(** A poll with its timeout in microseconds, after a pause of 30. *)
Definition polls (us : Z) (r : option A) (l : list Event) : Prop :=
  exists l1 t0 f l2, l = l1 ++ Count t0 :: Frequency f :: l2 /\ pause 30 l1 /\ polling t0 f us r l2.
End Polls.

(** A load of a register: 32 bits wide in a CRB, a byte in a FIFO. *)
Definition load (crb : bool) (register v : Z) : Event :=
  if crb then Load32 register v else Load8 register v.

(** One look at a register that shows the bits, or does not. *)
Definition shows (crb : bool) (register bit_set bit_clear : Z) (r : option unit) (l : list Event) : Prop :=
  exists v, l = [load crb register v] /\
    (r = Some tt <-> Z.land v bit_set = bit_set /\ Z.land v bit_clear = 0).

(** A wait for a register, and its status. *)
Definition waits (crb : bool) (register bit_set bit_clear us : Z) (s : ErrorCode.t) (l : list Event) :
    Prop :=
  polls (shows crb register bit_set bit_clear) us (Some tt) l /\ s = ErrorCode.Ok \/
  polls (shows crb register bit_set bit_clear) us None l /\ s = ErrorCode.Denied.

(** One look at the FIFO's burst count, in two bytes. *)
Definition shows_burst (fifo : Z) (r : option Z) (l : list Event) : Prop :=
  exists lo hi, is_byte lo /\ is_byte hi /\ l = [Load8 (fifo + 0x19) lo; Load8 (fifo + 0x1A) hi] /\
    r = if decide (lo + 256 * hi = 0) then None else Some (lo + 256 * hi).

Definition finds_burst (fifo n : Z) (l : list Event) : Prop := polls (shows_burst fifo) 30000 (Some n) l.

(** Bytes into the data FIFO, no more than the burst count at a time and no
    fewer while there are more. *)
Inductive bursts (fifo : Z) : list Z -> list Event -> Prop :=
  | bursts_done : bursts fifo [] []
  | bursts_more n lb chunk rest l :
      finds_burst fifo n lb -> Z.of_nat (length chunk) = Z.min n (Z.of_nat (length (chunk ++ rest))) ->
      bursts fifo rest l ->
      bursts fifo (chunk ++ rest) (lb ++ (Store8 (fifo + 0x24) <$> chunk) ++ l).

(** Bytes out of the data FIFO, [left] more of them in this burst; before each
    the status shows "data available". *)
Inductive taken (fifo : Z) : Z -> list Z -> list Event -> Prop :=
  | taken_done left : taken fifo left [] []
  | taken_byte left st b bs l :
      left <> 0 -> Z.land st 0x10 <> 0 -> taken fifo (left - 1) bs l ->
      taken fifo left (b :: bs) (Load8 (fifo + 0x18) st :: Load8 (fifo + 0x24) b :: l)
  | taken_burst n lb st b bs l :
      finds_burst fifo n lb -> Z.land st 0x10 <> 0 -> taken fifo (n - 1) bs l ->
      taken fifo 0 (b :: bs) (lb ++ Load8 (fifo + 0x18) st :: Load8 (fifo + 0x24) b :: l).

(** *** A command *)

(** Where a locality's registers are. *)
Definition registers_at (self : TpmSst) (locality : Z) : Z :=
  (tpm_crb_address self + locality * 0x1000) mod 2 ^ 64.

Section Command.
Context (self : TpmSst) (locality : Z).
Let base : Z := registers_at self locality.

(** The command's bytes go into the buffer, or through the FIFO until it
    expects no more. *)
Definition hands_over (command : list Z) (l : list Event) : Prop :=
  if is_crb_interface self then l = imap (fun i b => Store8 (base + 0x80 + Z.of_nat i) b) command
  else exists l1 l2, l = l1 ++ l2 /\ bursts base command l1 /\
    waits false (base + 0x18) 0x80 0x08 200000 ErrorCode.Ok l2.

Definition go : Event :=
  if is_crb_interface self then Store32 (base + 0x4C) 1 else Store8 (base + 0x18) 0x20.

(** The start bit clears, or the response is there. *)
Definition runs_command (s : ErrorCode.t) (l : list Event) : Prop :=
  if is_crb_interface self then waits true (base + 0x4C) 0 1 90000000 s l
  else waits false (base + 0x18) 0x90 0 90000000 s l.

(** The response's bytes come from the buffer, or out of the FIFO. *)
Definition takes_response (response : list Z) (l : list Event) : Prop :=
  if is_crb_interface self then l = imap (fun i b => Load8 (base + 0x80 + Z.of_nat i) b) response
  else taken base 0 response l.

Definition executes (command response : list Z) (l : list Event) : Prop :=
  exists l1 l2 l3, l = l1 ++ go :: l2 ++ l3 /\ hands_over command l1 /\
    runs_command ErrorCode.Ok l2 /\ takes_response response l3.

(** All the stores of a command. *)
Definition command_stores (command : list Z) : list (Z * Z) :=
  if is_crb_interface self
  then imap (fun i b => (base + 0x80 + Z.of_nat i, b)) command ++ [(base + 0x4C, 1)]
  else ((fun b => (base + 0x24, b)) <$> command) ++ [(base + 0x18, 0x20)].
End Command.

(** ** Triples on traces *)

Section Traces.
Context {W : Type} `{PlatformLaws W}.

(** What [m] adds to the trace when it gives a value. *)
Definition traces {E A} (m : stM W E A) (Q : A -> list Event -> Prop) : Prop :=
  forall w, match m w with
  | (Ok a, w') => exists l, trace w' = trace w ++ l /\ Q a l
  | (Err _, w') => exists l, trace w' = trace w ++ l
  | _ => True
  end.

Lemma traces_mono {E A} (m : stM W E A) (Q Q' : A -> list Event -> Prop) :
  traces m Q -> (forall a l, Q a l -> Q' a l) -> traces m Q'.
Proof.
  intros Hm HQ w. specialize (Hm w). destruct (m w) as [[]?]; try exact Hm.
  destruct Hm as (l & ? & ?). exists l. auto.
Qed.

Lemma traces_ret {E A} (a : A) (Q : A -> list Event -> Prop) :
  Q a [] -> traces (E := E) (mret a) Q.
Proof. intros Ha w. exists []. by rewrite app_nil_r. Qed.

Lemma traces_lift {E A} (r : outcome E A) (Q : A -> list Event -> Prop) :
  (forall a, r = Ok a -> Q a []) -> traces (lift r) Q.
Proof.
  intros Ha w. unfold lift. destruct r; try done; exists []; rewrite app_nil_r; [|done].
  split; [done|by apply Ha].
Qed.

Lemma traces_bind {E A B} (m : stM W E A) (k : A -> stM W E B) Q1 Q :
  traces m Q1 -> (forall a l, Q1 a l -> traces (k a) (fun b l' => Q b (l ++ l'))) ->
  traces (m ≫= k) Q.
Proof.
  intros Hm Hk w. specialize (Hm w). unfold mbind, stM_bind.
  destruct (m w) as [[a|e| |] w1]; [|exact Hm|done|done].
  destruct Hm as (l & Hl & Ha). specialize (Hk a l Ha w1).
  destruct (k a w1) as [[b|e| |] w2]; [| |done|done].
  - destruct Hk as (l' & Hl' & Hb). exists (l ++ l'). by rewrite Hl', Hl, app_assoc.
  - destruct Hk as (l' & Hl'). exists (l ++ l'). by rewrite Hl', Hl, app_assoc.
Qed.

Lemma traces_attempt {E E' A} (m : stM W E A) Q (X : E -> Prop) :
  traces m Q -> (forall w e w', m w = (Err e, w') -> X e) ->
  traces (E := E') (attempt m) (fun r l => match r with inl a => Q a l | inr e => X e end).
Proof.
  intros Hm HX w. specialize (Hm w). specialize (HX w). unfold attempt.
  destruct (m w) as [[a|e| |] w']; [exact Hm| |done|done].
  destruct Hm as [l Hl]. exists l. split; [exact Hl|]. by eapply HX.
Qed.

(** A computation that runs emits its trace. *)
Lemma runs_traces {E A} (m : stM W E A) w Q X T :
  runs m w Q X -> traces m T ->
  runs m w (fun a w' => Q a w' /\ exists l, trace w' = trace w ++ l /\ T a l) X.
Proof. intros Hr Hm. specialize (Hm w). unfold runs in *. by destruct (m w) as [[]?]. Qed.

(** *** One event *)

Lemma read_u8_traces {E} a :
  traces (E := E) (Prelude.call (read_u8 a)) (fun v l => is_byte v /\ l = [Load8 a v]).
Proof.
  intros w. unfold Prelude.call. destruct (load_u8 a w) as [Hb [_ Ht]].
  destruct (read_u8 a w) as [v w']. by exists [Load8 a v].
Qed.

Lemma read_u32_traces {E} a :
  traces (E := E) (Prelude.call (read_u32 a)) (fun v l => l = [Load32 a v]).
Proof.
  intros w. unfold Prelude.call. destruct (load_u32 a w) as [Hb [_ Ht]].
  destruct (read_u32 a w) as [v w']. by exists [Load32 a v].
Qed.

Lemma cntfrq_traces {E} :
  traces (E := E) (Prelude.call cntfrq) (fun f l => 0 <= f <= freq_max /\ l = [Frequency f]).
Proof.
  intros w. unfold Prelude.call. destruct (frequency_event w) as [Hf [_ Ht]].
  destruct (cntfrq w) as [f w']. by exists [Frequency f].
Qed.

Lemma cntvct_traces {E} : traces (E := E) (Prelude.call cntvct) (fun t l => l = [Count t]).
Proof.
  intros w. unfold Prelude.call. destruct (count_event w) as (_ & _ & [_ Ht]).
  destruct (cntvct w) as [t w']. by exists [Count t].
Qed.

Lemma yield_traces {E} :
  traces (E := E) (st_unwrap (Yield.exec (Yield.new YIELD_TIMEOUT_HINT_NS))) (fun _ l => l = [Yielded]).
Proof.
  intros w. unfold st_unwrap. destruct (yield_event w) as (w' & -> & [_ Ht]). by exists [Yielded].
Qed.

Lemma store_u8_traces {E} a v : traces (store_u8 (E := E) a v) (fun _ l => l = [Store8 a v]).
Proof. intros w. destruct (store_u8_event a v w) as [_ Ht]. by exists [Store8 a v]. Qed.

Lemma store_u32_traces {E} a v : traces (store_u32 (E := E) a v) (fun _ l => l = [Store32 a v]).
Proof. intros w. destruct (store_u32_event a v w) as [_ Ht]. by exists [Store32 a v]. Qed.
End Traces.

(** ** What the driver emits *)

Section Driver.
Context {W : Type} `{PlatformLaws W}.

Lemma passed_ticks f us n :
  0 <= f <= freq_max -> 0 <= us <= PTP_TIMEOUT_MAX ->
  counter_ticks_for_microseconds f us <= n <-> passed f us n.
Proof.
  intros Hf Hu. pose proof freq_max_range. unfold counter_ticks_for_microseconds, passed, U64_MAX.
  pose proof (div_ceil_spec (f * us) 1000000 ltac:(lia)) as Hd.
  assert (f * us <= 2 ^ 32 * PTP_TIMEOUT_MAX) by (apply Z.mul_le_mono_nonneg; lia).
  unfold PTP_TIMEOUT_MAX in *. lia.
Qed.

Lemma spin_traces {E} fuel f us t0 :
  0 <= f <= freq_max -> 0 <= us <= PTP_TIMEOUT_MAX ->
  traces (spin_from (E := E) fuel t0 (counter_ticks_for_microseconds f us)) (fun _ => pausing t0 f us).
Proof.
  intros Hf Hu. induction fuel as [|fuel IH]; cbn [spin_from]; [by apply traces_lift|].
  eapply traces_bind; [apply cntvct_traces|]. cbv beta. intros t l ->. case_decide as Ht.
  - eapply traces_mono; [exact IH|]. cbv beta. intros _ l Hl. apply pause_on; [|exact Hl].
    rewrite <- passed_ticks by done. unfold ticks_between. fold (trunc 64 (t - t0)). lia.
  - apply traces_ret. apply pause_over. rewrite <- passed_ticks by done.
    unfold ticks_between. fold (trunc 64 (t - t0)). lia.
Qed.

Lemma delay_traces {E} fuel :
  traces (delay_microseconds (E := E) fuel POLL_DELAY_US) (fun _ => pause 30).
Proof.
  unfold delay_microseconds. eapply traces_bind; [apply cntfrq_traces|]. intros f ? [Hf ->].
  eapply traces_bind; [apply cntvct_traces|]. cbv beta. intros t0 ? ->.
  eapply traces_mono; [by apply spin_traces|]. cbv beta. intros _ l Hl. by exists f, t0, l.
Qed.

Lemma poll_from_traces {E A} (read : stM W E (option A)) look fuel f us t0 :
  0 <= f <= freq_max -> 0 <= us <= PTP_TIMEOUT_MAX -> traces read look ->
  traces (poll_from read fuel t0 (counter_ticks_for_microseconds f us)) (polling look t0 f us).
Proof.
  intros Hf Hu Hread. induction fuel as [|fuel IH]; cbn [poll_from]; [by apply traces_lift|].
  eapply traces_bind; [exact Hread|]. intros [a|] l Hl.
  { apply traces_ret. rewrite app_nil_r. by apply poll_found. }
  unfold timeout_expired. eapply traces_bind with (Q1 := fun expired l' =>
    exists t, l' = [Count t] /\
      (expired = true <-> passed f us (ticks_between t0 t))).
  { eapply traces_bind; [apply cntvct_traces|]. cbv beta. intros t ? ->. apply traces_ret.
    exists t. split; [done|]. rewrite bool_decide_eq_true. by apply passed_ticks. }
  intros expired ? (t & -> & He). destruct expired.
  - apply traces_ret. rewrite app_nil_r. apply poll_late; [exact Hl|by apply He].
  - eapply traces_bind; [apply yield_traces|]. cbv beta. intros _ ? ->.
    eapply traces_mono; [exact IH|]. cbv beta. intros r l' Hl'. apply poll_again; [exact Hl| |exact Hl'].
    intros Hp. by apply He in Hp.
Qed.

Lemma poll_traces {E A} (read : stM W E (option A)) look fuel us :
  0 <= us <= PTP_TIMEOUT_MAX -> traces read look -> traces (poll fuel read us) (polls look us).
Proof.
  intros Hu Hread. unfold poll. eapply traces_bind; [apply delay_traces|]. cbv beta. intros _ l1 Hl1.
  unfold start_timeout. eapply traces_bind with (Q1 := fun tt l =>
    exists f, l = [Count tt.1; Frequency f] /\ 0 <= f <= freq_max /\
      tt.2 = counter_ticks_for_microseconds f us).
  { eapply traces_bind; [apply cntvct_traces|]. cbv beta. intros t0 ? ->.
    eapply traces_bind; [apply cntfrq_traces|]. intros f ? [Hf ->]. apply traces_ret. by exists f. }
  intros [t0 ticks] ? (f & -> & Hf & Hticks). cbn [fst snd] in *. subst ticks.
  eapply traces_mono; [by apply poll_from_traces|]. cbv beta. intros r l2 Hl2. by exists l1, t0, f, l2.
Qed.

(** *** Waits *)

Lemma read_bits_traces {E} self register bit_set bit_clear :
  traces (read_bits (E := E) self register bit_set bit_clear)
    (shows (is_crb_interface self) register bit_set bit_clear).
Proof.
  unfold read_bits. eapply traces_bind with (Q1 := fun v l => l = [load (is_crb_interface self) register v]).
  { unfold read_register, load. destruct (is_crb_interface self); [apply read_u32_traces|].
    eapply traces_mono; [apply read_u8_traces|]. by intros v l [_ ->]. }
  intros v ? ->. apply traces_ret. exists v. split; [done|]. unfold bits_match.
  destruct (decide (Z.land v bit_set = bit_set)) as [Hs|Hs];
    [rewrite (bool_decide_true _ Hs)|rewrite (bool_decide_false _ Hs)];
    (destruct (decide (Z.land v bit_clear = 0)) as [Hc|Hc];
      [rewrite (bool_decide_true _ Hc)|rewrite (bool_decide_false _ Hc)]);
    cbn [andb]; split; (done || intros []; done).
Qed.

Lemma wait_traces {E} fuel self register bit_set bit_clear us :
  0 <= us <= PTP_TIMEOUT_MAX ->
  traces (wait_register_bits (E := E) fuel self register bit_set bit_clear us)
    (waits (is_crb_interface self) register bit_set bit_clear us).
Proof.
  intros Hu. unfold wait_register_bits. eapply traces_bind; [apply poll_traces, read_bits_traces; done|].
  intros [[]|] l Hl; apply traces_ret; rewrite app_nil_r; [by left|by right].
Qed.

Lemma read_burst_traces {E} fifo : traces (read_burst (E := E) fifo) (shows_burst fifo).
Proof.
  unfold read_burst. eapply traces_bind; [apply read_u8_traces|]. intros lo ? [Hlo ->].
  eapply traces_bind; [apply read_u8_traces|]. intros hi ? [Hhi ->]. apply traces_ret.
  exists lo, hi. split; [done|]. split; [done|]. split.
  { unfold Fifo.burst_count. by rewrite <- Z.add_assoc. }
  rewrite lor_shiftl_add by exact Hlo. replace (hi * 2 ^ 8 + lo) with (lo + 256 * hi) by lia.
  repeat case_decide; done.
Qed.

Lemma burst_traces fuel fifo :
  traces (fifo_read_burst_count fuel fifo) (fun n => finds_burst fifo n).
Proof.
  unfold fifo_read_burst_count. eapply traces_bind; [apply poll_traces, read_burst_traces; done|].
  intros [n|] l Hl; [|by apply traces_lift]. apply traces_ret. by rewrite app_nil_r.
Qed.

(** *** Handing a command over *)

Lemma burst_positive fifo n l : finds_burst fifo n l -> 0 < n.
Proof.
  intros (l1 & t0 & f & l2 & _ & _ & Hl). remember (Some n) as r eqn:Hr.
  induction Hl as [a l' Hlook| |]; [|done|auto]. injection Hr as ->.
  destruct Hlook as (lo & hi & [Hlo _] & [Hhi _] & _ & Hn). case_decide; [done|].
  injection Hn as ->. lia.
Qed.

Lemma write_burst_traces {E} fifo buffer len n i :
  (i <= len <= length buffer)%nat ->
  traces (write_burst (E := E) fifo buffer len n i) (fun j l =>
    j = (i + Nat.min n (len - i))%nat /\ l = Store8 (fifo + 0x24) <$> slice buffer i j).
Proof.
  revert i. induction n as [|n IH]; intros i Hi; cbn [write_burst].
  { apply traces_ret. split; [lia|]. unfold slice. by rewrite Nat.sub_diag. }
  case_decide as Hlt.
  2: { apply traces_ret. split; [lia|]. unfold slice. by rewrite Nat.sub_diag. }
  destruct (lookup_lt_is_Some_2 buffer i) as [b Hb]; [lia|]. rewrite Hb.
  eapply traces_bind with (Q1 := fun a l => a = b /\ l = []).
  { apply traces_lift. by intros a [= ->]. }
  intros ? ? [-> ->]. eapply traces_bind; [apply store_u8_traces|]. cbv beta. intros _ ? ->.
  eapply traces_mono; [apply IH; lia|]. cbv beta. intros j l [-> ->]. split; [lia|].
  rewrite <- (slice_app buffer i (i + 1) (S i + _)) by lia.
  by rewrite (slice_one buffer i b Hb), Nat.add_1_r.
Qed.

Lemma write_fifo_traces {E} fuel fifo buffer len rounds i :
  fuel_ok fuel -> (i <= len <= length buffer)%nat ->
  traces (write_fifo (E := E) fuel fifo buffer len rounds i) (fun s l =>
    s = ErrorCode.Ok -> bursts fifo (slice buffer i len) l).
Proof.
  intros Hfuel. revert i. induction rounds as [|rounds IH]; intros i Hi; cbn [write_fifo];
    [by apply traces_lift|].
  case_decide as Hlt.
  2: { apply traces_ret. intros _. unfold slice. replace (len - i)%nat with 0%nat by lia. constructor. }
  eapply traces_bind.
  { apply (traces_attempt _ _ (fun e => e = ErrorCode.Denied) (burst_traces fuel fifo)).
    intros w e w' He. pose proof (burst_runs fuel fifo w Hfuel) as Hr. unfold runs in Hr.
    rewrite He in Hr. apply Hr. }
  intros [n|e] lb Hb; cbv beta iota in Hb; [|apply traces_ret; by subst].
  pose proof (burst_positive _ _ _ Hb) as Hn.
  eapply traces_bind; [by apply write_burst_traces|]. cbv beta. intros j ? [-> ->].
  eapply traces_mono; [apply IH; lia|]. cbv beta. intros s l Hs Hok. specialize (Hs Hok).
  set (j := (i + _)%nat) in *. assert (i <= j <= len)%nat as Hj by lia.
  rewrite <- (slice_app buffer i j len) by lia. apply (bursts_more _ n); [exact Hb| |exact Hs].
  rewrite length_app, !length_slice by lia. lia.
Qed.

Lemma copy_to_crb_traces {E} crb buffer n :
  (n <= length buffer)%nat -> Z.of_nat n <= CRB_DATA_BUFFER_SIZE ->
  traces (copy_to_crb (E := E) crb buffer (seq 0 n)) (fun _ l =>
    l = imap (fun i b => Store8 (crb + 0x80 + Z.of_nat i) b) (take n buffer)).
Proof.
  intros Hn Hsize.
  assert (forall k i, (i + k = n)%nat ->
    traces (copy_to_crb (E := E) crb buffer (seq i k)) (fun _ l =>
      l = imap (fun j b => Store8 (crb + 0x80 + Z.of_nat (i + j)) b) (slice buffer i n))) as Hgen.
  { induction k as [|k IH]; intros i Hik; cbn [seq copy_to_crb].
    - apply traces_ret. unfold slice. by replace (n - i)%nat with 0%nat by lia.
    - destruct (lookup_lt_is_Some_2 buffer i) as [b Hb]; [lia|]. rewrite Hb.
      eapply traces_bind with (Q1 := fun a l => a = b /\ l = []).
      { apply traces_lift. by intros a [= ->]. }
      intros ? ? [-> ->]. rewrite decide_True by lia.
      eapply traces_bind; [apply store_u8_traces|]. cbv beta. intros _ ? ->.
      eapply traces_mono; [apply IH; lia|]. cbv beta. intros _ l ->.
      rewrite <- (slice_app buffer i (i + 1) n) by lia. rewrite (slice_one buffer i b Hb).
      cbn [app imap]. rewrite Nat.add_0_r, Nat.add_1_r. f_equal.
      apply imap_ext. intros j x _. cbn. do 3 f_equal. lia. }
  eapply traces_mono; [exact (Hgen n 0%nat eq_refl)|]. cbv beta. intros _ l ->.
  unfold slice. rewrite Nat.sub_0_r. done.
Qed.

Lemma copy_command_traces {E} fuel self locality buffer n :
  fuel_ok fuel -> Z.of_nat (length buffer) = CRB_DATA_BUFFER_SIZE -> 0 <= n <= CRB_DATA_BUFFER_SIZE ->
  traces (copy_command_data (E := E) fuel self locality buffer n) (fun s l =>
    s = ErrorCode.Ok -> hands_over self locality (take (Z.to_nat n) buffer) l).
Proof.
  intros Hfuel Hl Hn. unfold copy_command_data, hands_over. destruct (is_crb_interface self) eqn:Hi.
  - eapply traces_bind; [apply copy_to_crb_traces; lia|]. cbv beta. intros _ ? ->.
    apply traces_ret. by rewrite app_nil_r.
  - eapply traces_bind; [apply write_fifo_traces; [done|lia]|]. cbv beta. intros s l1 Hl1.
    case_decide as Hs; [|apply traces_ret; done]. specialize (Hl1 Hs).
    eapply traces_mono; [by apply wait_traces|]. cbv beta. rewrite Hi. intros s' l2 Hl2 ->.
    exists l1, l2. split; [done|]. split; [|exact Hl2].
    unfold slice in Hl1. by rewrite Nat.sub_0_r in Hl1.
Qed.

Lemma start_command_traces {E} fuel self locality :
  traces (start_command (E := E) fuel self locality) (fun s l =>
    exists l', l = go self locality :: l' /\ runs_command self locality s l').
Proof.
  unfold start_command, go, runs_command. destruct (is_crb_interface self) eqn:Hi.
  - eapply traces_bind; [apply store_u32_traces|]. cbv beta. intros _ ? ->.
    eapply traces_mono; [by apply wait_traces|]. cbv beta. rewrite Hi. intros s l Hl. by exists l.
  - eapply traces_bind; [apply store_u8_traces|]. cbv beta. intros _ ? ->.
    eapply traces_mono; [by apply wait_traces|]. cbv beta. rewrite Hi. intros s l Hl. by exists l.
Qed.

(** *** Taking the response *)

(** Bytes read are bytes that were in the trace. *)
Lemma crb_reads crb i bs w w' :
  byte_reads (crb_read_byte crb) (seq i (length bs)) bs w w' ->
  trace w' = trace w ++ imap (fun j b => Load8 (crb + 0x80 + Z.of_nat (i + j)) b) bs.
Proof.
  revert i w. induction bs as [|b bs IH]; intros i w Hr; cbn [length seq] in Hr; inversion Hr; subst.
  { by rewrite app_nil_r. }
  match goal with Hb : crb_read_byte _ _ _ = _, Hrest : byte_reads _ _ _ ?w1 _ |- _ =>
    apply IH in Hrest; unfold crb_read_byte in Hb; case_decide; [|done];
    destruct (load_u8 (crb + Crb.crb_data_buffer + Z.of_nat i) w) as [_ [_ Ht]];
    unfold Prelude.call in Hb; destruct (read_u8 _ w) as [v w2]; injection Hb as -> ->;
    cbn [fst snd] in Ht; rewrite Hrest, Ht, <- app_assoc end.
  f_equal. cbn [imap app]. rewrite Nat.add_0_r. f_equal. apply imap_ext. intros j x _. cbn. do 3 f_equal. lia.
Qed.

Lemma fifo_byte_trace fuel fifo o left w b left' w' :
  fifo_read_byte fuel fifo o (left, w) = (Ok b, (left', w')) ->
  exists st n l, trace w' = trace w ++ l ++ [Load8 (fifo + 0x18) st; Load8 (fifo + 0x24) b] /\
    Z.land st 0x10 <> 0 /\ left' = n - 1 /\
    (left <> 0 /\ n = left /\ l = [] \/ left = 0 /\ finds_burst fifo n l).
Proof.
  unfold fifo_read_byte, get_st, mbind, stM_bind.
  assert (forall n l (w1 : W), trace w1 = trace w ++ l ->
    (left <> 0 /\ n = left /\ l = [] \/ left = 0 /\ finds_burst fifo n l) ->
    (status ← on_snd (Prelude.call (read_u8 (fifo + Fifo.status)));
     if decide (Z.land status (trunc 8 PTP_FIFO_STS_DATA) = 0) then lift (Err ErrorCode.Denied) else
     byte ← on_snd (Prelude.call (read_u8 (fifo + Fifo.data_fifo)));
     _ ← modify_fst (fun left => left - 1);
     mret byte) (n, w1) = (Ok b, (left', w')) ->
    exists st n l, trace w' = trace w ++ l ++ [Load8 (fifo + 0x18) st; Load8 (fifo + 0x24) b] /\
      Z.land st 0x10 <> 0 /\ left' = n - 1 /\
      (left <> 0 /\ n = left /\ l = [] \/ left = 0 /\ finds_burst fifo n l)) as Hrest.
  { intros n l w1 Hw1 Hleft. unfold mbind, stM_bind, on_snd, Prelude.call. cbn [fst snd].
    destruct (load_u8 (fifo + Fifo.status) w1) as [_ [_ Hst]].
    destruct (read_u8 (fifo + Fifo.status) w1) as [st w2]. cbn [fst snd] in *.
    case_decide as Hd; [done|]. cbn [fst snd].
    destruct (load_u8 (fifo + Fifo.data_fifo) w2) as [_ [_ Hb]].
    destruct (read_u8 (fifo + Fifo.data_fifo) w2) as [b' w3]. cbn [fst snd modify_fst mret stM_ret] in *.
    intros [= -> <- <-]. exists st, n, l. split; [|done]. rewrite Hb, Hst, Hw1, <- !app_assoc. done. }
  case_decide as Hz.
  - unfold on_snd at 1. pose proof (burst_traces fuel fifo w) as Hb. cbn [fst snd].
    destruct (fifo_read_burst_count fuel fifo w) as [[n|e| |] w1]; try done.
    destruct Hb as (l & Hw1 & Hn). intros Hr. apply (Hrest n l w1 Hw1); [by right|exact Hr].
  - intros Hr. apply (Hrest left [] w); [by rewrite app_nil_r|by left|exact Hr].
Qed.

Lemma fifo_response_reads fuel fifo i bs left w left' w' :
  byte_reads (fifo_read_byte fuel fifo) (seq i (length bs)) bs (left, w) (left', w') ->
  exists l, trace w' = trace w ++ l /\ taken fifo left bs l.
Proof.
  revert i left w. induction bs as [|b bs IH]; intros i left w Hr; cbn [length seq] in Hr.
  { inversion Hr; subst. exists []. rewrite app_nil_r. split; [done|constructor]. }
  inversion Hr as [|? ? ? ? ? [left1 w1] ? Hb Hrest]; subst.
  apply fifo_byte_trace in Hb as (st & n & lb & Hw1 & Hst & -> & Hn).
  apply IH in Hrest as (l & Hw' & Hl).
  exists (lb ++ Load8 (fifo + 0x18) st :: Load8 (fifo + 0x24) b :: l).
  split; [by rewrite Hw', Hw1, <- !app_assoc|].
  destruct Hn as [(Hleft & -> & ->)|[-> Hn]]; [by constructor|by apply (taken_burst _ n)].
Qed.
End Driver.

Section Transfer.
Context {W : Type} `{PlatformLaws W} (fuel : nat) (Hfuel : fuel_ok fuel).
Implicit Types (w : W) (self : TpmSst).

Lemma fifo_reader external_fifo w0 o (bw : Z * W) :
  0 <= bw.1 /\ quiet w0 bw.2 ->
  runs (fifo_read_byte fuel external_fifo o) bw
    (fun b bw' => is_byte b /\ 0 <= bw'.1 /\ quiet w0 bw'.2)
    (fun e bw' => e = ErrorCode.Denied /\ quiet w0 bw'.2).
Proof.
  destruct bw as [rb w]. cbn [fst snd]. intros [Hrb Hq]. unfold fifo_read_byte.
  apply runs_bind. cbn [runs get_st]. apply runs_bind.
  apply runs_mono with (Q := fun _ bw => 0 < bw.1 /\ quiet w0 bw.2)
    (X := fun e bw => e = ErrorCode.Denied /\ quiet w0 bw.2); [|clear rb w Hrb Hq|done].
  { case_decide as Hz.
    - apply runs_bind, runs_on_snd. cbn [fst snd]. eapply runs_mono; [by apply burst_runs| |].
      + intros n w' [Hq' Hn]. split; [done|]. by eapply quiet_trans.
      + intros e w' [Hq' He]. split; [done|]. by eapply quiet_trans.
    - apply runs_ret. cbn [fst snd]. split; [lia|done]. }
  intros [] [rb w] [Hrb Hq]. cbn [fst snd] in *.
  apply runs_bind, runs_on_snd, runs_call. cbn [fst snd].
  destruct (read_u8_law (external_fifo + Fifo.status) w) as [_ Hp%passes_quiet].
  case_decide; [rewrite runs_lift; split; [done|by eapply quiet_trans]|].
  apply runs_bind, runs_on_snd, runs_call. cbn [fst snd].
  set (w1 := (read_u8 _ w).2) in *.
  destruct (read_u8_law (external_fifo + Fifo.data_fifo) w1) as [Hb Hp'%passes_quiet].
  apply runs_bind. cbn [runs modify_fst fst snd]. apply runs_ret. cbn [fst snd].
  split_and!; [done|lia|]. eapply quiet_trans; [done|]. by eapply quiet_trans.
Qed.

Lemma crb_reader external_crb w0 o w :
  Z.of_nat o < CRB_DATA_BUFFER_SIZE -> quiet w0 w ->
  runs (crb_read_byte external_crb o) w (fun b w' => is_byte b /\ quiet w0 w')
    (fun e w' => e = ErrorCode.Denied /\ quiet w0 w').
Proof.
  intros Ho Hq. unfold crb_read_byte. rewrite decide_True by done. apply runs_call.
  destruct (read_u8_law (external_crb + Crb.crb_data_buffer + Z.of_nat o) w)
    as [Hb Hp%passes_quiet]. split; [done|]. by eapply quiet_trans.
Qed.

(** A response of [n] bytes, as its header says, at the front of [response]. *)
Definition is_response (capacity : nat) (n : Z) (response : list Z) (buffer : list Z) : Prop :=
  Z.of_nat (length response) = n /\ (TPM_HEADER_SIZE <= length response <= capacity)%nat /\
  bytes_ok response /\ from_be_bytes (slice response 2 6) = n /\
  buffer = response ++ drop (length response) buffer.

Lemma copy_response_runs self locality buffer w :
  capacity_ok (Z.of_nat (length buffer)) = true ->
  runs (copy_response_data fuel self locality buffer) w
    (fun nb w' => quiet w w' /\ length nb.2 = length buffer /\
       exists response l, is_response (length buffer) nb.1 response nb.2 /\
         trace w' = trace w ++ l /\ takes_response self locality response l)
    (fun e w' => quiet w w' /\ (e = ErrorCode.InvalidParameters \/ e = ErrorCode.Denied)).
Proof.
  intros Hcap. assert (quiet w w) as Hq0 by apply quiet_refl.
  unfold copy_response_data, takes_response, runs. destruct (is_crb_interface self).
  - unshelve epose proof (read_tpm_response_runs (crb_read_byte (external_crb_ptr self locality))
      (length buffer) (quiet w) (fun e w' => e = ErrorCode.Denied /\ quiet w w') _
      buffer w Hq0 eq_refl Hcap) as Hr.
    { intros o w' Ho Hq. apply crb_reader; [|done]. unfold capacity_ok in Hcap.
      apply bool_decide_eq_true in Hcap. lia. }
    unfold runs in Hr.
    destruct (read_tpm_response _ _) as [[n|e| |] [buf' w']]; try done; cbn [mbind outcome_bind].
    + destruct Hr as (bs & Hreads & Hq & Hn & Hl & Hok & Hh & Hbuf). cbn [fst snd] in *. subst buf'.
      apply crb_reads in Hreads.
      split; [done|]. split; [rewrite length_blit; lia|]. exists bs. eexists.
      split; [|split; [exact Hreads|reflexivity]].
      split_and!; try done; try lia. rewrite blit_0. by rewrite drop_app_length.
    + destruct Hr as [(-> & bs & _ & Hq & _)|[-> Hq]]; (split; [exact Hq|auto]).
  - unshelve epose proof (read_tpm_response_runs
      (fifo_read_byte fuel (external_fifo_ptr self locality))
      (length buffer) (fun bw => 0 <= bw.1 /\ quiet w bw.2)
      (fun e bw => e = ErrorCode.Denied /\ quiet w bw.2) _
      buffer (0, w) (conj (Z.le_refl 0) Hq0) eq_refl Hcap) as Hr.
    { intros o bw _ Hbw. by apply fifo_reader. }
    unfold runs in Hr.
    destruct (read_tpm_response _ _) as [[n|e| |] [buf' [rb w']]]; try done; cbn [mbind outcome_bind].
    + destruct Hr as (bs & Hreads & [_ Hq] & Hn & Hl & Hok & Hh & Hbuf). cbn [fst snd] in *. subst buf'.
      apply fifo_response_reads in Hreads as (l & Htr & Htaken).
      split; [done|]. split; [rewrite length_blit; lia|]. exists bs, l.
      split; [|split; [exact Htr|exact Htaken]].
      split_and!; try done; try lia. rewrite blit_0. by rewrite drop_app_length.
    + destruct Hr as [(-> & bs & _ & [_ Hq] & _)|[-> Hq]]; (split; [exact Hq|auto]).
Qed.

(** The stores that hand a command over, and the one that starts it. *)
Definition data_stores (self : TpmSst) (locality : Z) (command : list Z) : list (Z * Z) :=
  if is_crb_interface self then crb_stores (external_crb_ptr self locality) command
  else fifo_stores (external_fifo_ptr self locality) command.

Definition go_store (self : TpmSst) (locality : Z) : Z * Z :=
  if is_crb_interface self
  then (external_crb_ptr self locality + Crb.crb_control_start, PTP_CRB_CONTROL_START)
  else (external_fifo_ptr self locality + Fifo.status, trunc 8 PTP_FIFO_STS_GO).

Lemma copy_command_runs {E} self locality buffer n w :
  Z.of_nat (length buffer) = CRB_DATA_BUFFER_SIZE -> 0 <= n <= CRB_DATA_BUFFER_SIZE ->
  runs (copy_command_data (E := E) fuel self locality buffer n) w
    (fun s w' => exists l, emits l w w' /\
       l `prefix_of` data_stores self locality (take (Z.to_nat n) buffer) /\
       (s = ErrorCode.Ok -> l = data_stores self locality (take (Z.to_nat n) buffer))) no_error.
Proof.
  intros Hl Hn. unfold copy_command_data, data_stores. destruct (is_crb_interface self).
  - apply runs_bind. eapply runs_mono; [apply copy_to_crb_runs; lia| |done].
    intros [] w' He. apply runs_ret. eexists. split; [exact He|]. by split.
  - apply runs_bind. eapply runs_mono; [apply write_fifo_runs; [done|lia|lia]| |done].
    intros s w1 (j & Hj & He & Hs).
    assert (slice buffer 0 j = take j buffer) as Hsl by (unfold slice; by rewrite Nat.sub_0_r).
    rewrite Hsl in He.
    assert (fifo_stores (external_fifo_ptr self locality) (take j buffer) `prefix_of`
            fifo_stores (external_fifo_ptr self locality) (take (Z.to_nat n) buffer)) as Hpre.
    { exists (fifo_stores (external_fifo_ptr self locality) (slice buffer j (Z.to_nat n))).
      unfold fifo_stores. rewrite <- fmap_app. f_equal. rewrite <- Hsl, slice_app by lia.
      unfold slice. by rewrite Nat.sub_0_r. }
    case_decide as Hok.
    + destruct Hs as [[_ ->]|Hs]; [|congruence].
      eapply runs_mono; [by apply wait_runs| |done]. intros s' w' Hq.
      eexists. split; [|by split].
      rewrite <- (app_nil_r (fifo_stores _ _)). eapply emits_trans; [exact He|by apply quiet_emits].
    + apply runs_ret. eexists. split; [exact He|]. by split.
Qed.

Lemma start_command_runs {E} self locality w :
  runs (start_command (E := E) fuel self locality) w
    (fun _ => emits [go_store self locality] w) no_error.
Proof.
  unfold start_command, go_store. destruct (is_crb_interface self);
    (eapply runs_mono; [apply store_wait_runs; [|done|done]| |done];
     [intros; first [apply store_u8_runs|apply store_u32_runs]|done]).
Qed.

(** The register block's buffer is one. *)
Definition data_ok (crb : PtpCrbRegisters) : Prop :=
  Z.of_nat (length (crb_data_buffer crb)) = CRB_DATA_BUFFER_SIZE /\ bytes_ok (crb_data_buffer crb).

(** The length the command's header announces, and when it is accepted. *)
Definition command_length (crb : PtpCrbRegisters) : Z :=
  from_be_bytes (slice (crb_data_buffer crb) 2 6).

Definition command_ok (crb : PtpCrbRegisters) : bool :=
  capacity_ok (crb_control_command_size crb) && capacity_ok (crb_control_response_size crb) &&
  bool_decide (Z.of_nat TPM_HEADER_SIZE <= command_length crb <= crb_control_command_size crb).

Definition command_bytes (crb : PtpCrbRegisters) : list Z :=
  take (Z.to_nat (command_length crb)) (crb_data_buffer crb).

(** What [start] has done: nothing for a rejected command.  Otherwise, if it
    succeeded, the bus has seen the command handed over, started and finished
    and the response read, and the front of the buffer is that response; if not,
    the stores of the command, or some first ones of them, have been made and
    no register of the internal block has changed. *)
Definition started (self : TpmSst) (locality : Z) (crb : PtpCrbRegisters) (w : W)
    (r : ErrorCode.t * PtpCrbRegisters) (w' : W) : Prop :=
  if command_ok crb then
    if decide (r.1 = ErrorCode.Ok) then
      exists response l, trace w' = trace w ++ l /\
        executes self locality (command_bytes crb) response l /\
        10 <= Z.of_nat (length response) <= crb_control_response_size crb /\
        bytes_ok response /\ from_be_bytes (slice response 2 6) = Z.of_nat (length response) /\
        r.2 = with_data_buffer (response ++ drop (length response) (crb_data_buffer crb)) crb
    else r.2 = crb /\ exists stores, writes w' = writes w ++ stores /\
      stores `prefix_of` command_stores self locality (command_bytes crb)
  else r = (ErrorCode.InvalidParameters, crb) /\ w' = w.

(** The local buffer once the command has been copied into it. *)
Lemma command_buffer (data zeros : list Z) n :
  length data = length zeros -> (TPM_HEADER_SIZE <= n <= length data)%nat ->
  let buffer := blit (blit zeros 0 (slice data 0 TPM_HEADER_SIZE)) TPM_HEADER_SIZE
                  (slice data TPM_HEADER_SIZE n) in
  length buffer = length zeros /\ take n buffer = take n data.
Proof.
  intros Hl Hn. rewrite blit_0.
  set (hd := slice data 0 TPM_HEADER_SIZE). set (tl := slice data TPM_HEADER_SIZE n).
  assert (length hd = TPM_HEADER_SIZE) as Hhd by (unfold hd; rewrite length_slice; lia).
  assert (length tl = (n - TPM_HEADER_SIZE)%nat) as Htl by (unfold tl; rewrite length_slice; lia).
  assert (hd ++ tl = take n data) as Happ.
  { unfold hd, tl. rewrite slice_app by lia. unfold slice. by rewrite Nat.sub_0_r. }
  unfold blit. rewrite take_app_length' by done. cbv zeta. split.
  - rewrite !length_app, length_drop, length_app, length_drop. lia.
  - rewrite app_assoc, Happ. rewrite take_app_length' by (rewrite length_take; lia). done.
Qed.

(** What [start] does with an accepted command once it is in the local buffer. *)
Definition transfer {E} self locality crb (buffer : list Z) : stM W E (ErrorCode.t * PtpCrbRegisters) :=
  status ← copy_command_data fuel self locality buffer (command_length crb);
  if decide (status <> ErrorCode.Ok) then mret (status, crb) else
  status ← start_command fuel self locality;
  if decide (status <> ErrorCode.Ok) then mret (status, crb) else
  r ← attempt (copy_response_data fuel self locality
                 (take (Z.to_nat (crb_control_response_size crb)) buffer));
  match r with
  | inl (response_data_len, response) =>
      mret (status, with_data_buffer
        (blit (crb_data_buffer crb) 0 (take (Z.to_nat response_data_len) response)) crb)
  | inr error => mret (error, crb)
  end.

(** The local buffer: as long as the registers' one, with the command in front. *)
Definition command_in crb (buffer : list Z) : Prop :=
  Z.of_nat (length buffer) = CRB_DATA_BUFFER_SIZE /\ bytes_ok buffer /\
  take (Z.to_nat (command_length crb)) buffer = command_bytes crb.

Lemma start_cases {E} self locality crb :
  data_ok crb ->
  if command_ok crb then
    exists buffer, command_in crb buffer /\
      start (E := E) fuel self locality crb = transfer self locality crb buffer
  else start (E := E) fuel self locality crb = mret (ErrorCode.InvalidParameters, crb).
Proof.
  intros [Hl Hb]. unfold start, transfer.
  set (data := crb_data_buffer crb) in *. set (zeros := replicate (Z.to_nat CRB_DATA_BUFFER_SIZE) 0).
  assert (length zeros = length data) as Hz by (unfold zeros; rewrite length_replicate; lia).
  unfold command_ok.
  destruct (capacity_ok (crb_control_command_size crb)) eqn:Hc; [|done].
  destruct (capacity_ok (crb_control_response_size crb)) eqn:Hr; [|done].
  cbn [negb orb andb]. unfold capacity_ok in Hc, Hr.
  apply bool_decide_eq_true in Hc, Hr. rewrite blit_0.
  assert (slice (slice data 0 TPM_HEADER_SIZE ++
            drop (length (slice data 0 TPM_HEADER_SIZE)) zeros) 2 6 = slice data 2 6) as Hs.
  { unfold TPM_HEADER_SIZE in *. rewrite slice_app_l by (rewrite length_slice; lia).
    by rewrite slice_slice by lia. }
  rewrite tpm_packet_length_eq, Hs by (rewrite length_app, length_slice; lia).
  change (from_be_bytes (slice data 2 6)) with (command_length crb).
  case_decide as Hn.
  2: { by rewrite bool_decide_false by lia. }
  rewrite bool_decide_true by lia.
  destruct (command_buffer data zeros (Z.to_nat (command_length crb))) as [Hbl Hbt]; [done|lia|].
  rewrite blit_0 in Hbl, Hbt. eexists. split; [|reflexivity].
  split; [by rewrite Hbl, Hz|]. split; [|exact Hbt].
  assert (bytes_ok zeros) as Hz0 by (apply Forall_replicate; split; done).
  apply Forall_blit; [|by apply Forall_take, Forall_drop].
  apply Forall_app. split; [by apply Forall_take, Forall_drop|by apply Forall_drop].
Qed.

(** The whole transfer, with the stores so far for when it fails and the trace
    so far for when it succeeds. *)
Lemma transfer_runs {E} self locality crb buffer w :
  data_ok crb -> command_ok crb = true -> command_in crb buffer ->
  runs (transfer (E := E) self locality crb buffer) w (started self locality crb w) no_error.
Proof.
  intros [Hl Hb] Hcommand (Hbl & _ & Hbt). unfold started. rewrite Hcommand.
  unfold command_ok, capacity_ok in Hcommand.
  apply andb_true_iff in Hcommand as [Hc Hn]. apply andb_true_iff in Hc as [Hc Hr].
  apply bool_decide_eq_true in Hc, Hr, Hn. unfold transfer.
  set (command := command_bytes crb) in *.
  assert (command_stores self locality command =
          data_stores self locality command ++ [go_store self locality]) as Hall.
  { unfold command_stores, data_stores, go_store. by destruct (is_crb_interface self). }
  rewrite Hall.
  apply runs_bind. eapply runs_mono; [apply runs_traces;
    [apply copy_command_runs; lia|apply copy_command_traces; [done|lia..]]| |done].
  intros s w1 [(l & [_ He] & Hpre & Hok) (l1 & Htr1 & Hl1)]. rewrite Hbt in *.
  case_decide as Hs1.
  { apply runs_ret. cbn [fst snd]. rewrite decide_False by done. split; [done|]. exists l.
    split; [done|]. by apply prefix_app_r. }
  specialize (Hl1 Hs1). rewrite (Hok Hs1) in He. clear Hpre Hok Hs1 l s.
  apply runs_bind. eapply runs_mono; [apply runs_traces;
    [apply start_command_runs|apply start_command_traces]| |done].
  intros s w2 [[_ He2] (? & Htr2 & l2 & -> & Hl2)]. rewrite He, <- app_assoc in He2.
  case_decide as Hs2.
  { apply runs_ret. cbn [fst snd]. rewrite decide_False by done. split; [done|]. by eexists. }
  subst s. apply runs_bind, runs_attempt.
  assert (length (take (Z.to_nat (crb_control_response_size crb)) buffer) =
          Z.to_nat (crb_control_response_size crb)) as Hcap by (rewrite length_take; lia).
  eapply runs_mono; [apply copy_response_runs| |].
  { rewrite Hcap. unfold capacity_ok. apply bool_decide_eq_true. lia. }
  - intros [n response_buf] w3 (_ & Hrl & response & l3 & Hresp & Htr3 & Hl3). cbn [fst snd] in *.
    rewrite Hcap in *. apply runs_ret. cbn [fst snd]. rewrite decide_True by done.
    destruct Hresp as (Hn' & Hrange & Hrok & Hh & Hbuf).
    assert (take (Z.to_nat n) response_buf = response) as Ht.
    { rewrite Hbuf. apply take_app_length'. lia. }
    exists response, (l1 ++ go self locality :: l2 ++ l3). split.
    { by rewrite Htr3, Htr2, Htr1, <- !app_assoc. }
    split; [by exists l1, l2, l3|]. unfold TPM_HEADER_SIZE in Hrange.
    rewrite Ht, blit_0, Hn'. split_and!; done || lia.
  - intros e w3 [[_ Hq] He4]. apply runs_ret. cbn [fst snd].
    rewrite decide_False by (by destruct He4 as [-> | ->]). split; [done|]. eexists.
    rewrite Hq. by split; [exact He2|].
Qed.

Lemma start_runs {E} self locality crb w :
  data_ok crb ->
  runs (start (E := E) fuel self locality crb) w (started self locality crb w) no_error.
Proof.
  intros Hdata. pose proof (start_cases (E := E) self locality crb Hdata) as Hs.
  destruct (command_ok crb) eqn:Hcommand.
  - destruct Hs as (buffer & Hin & ->). by apply transfer_runs.
  - rewrite Hs. apply runs_ret. unfold started. by rewrite Hcommand.
Qed.
End Transfer.

Lemma started_data {W} `{PlatformLaws W} self locality crb (w : W) r w' :
  data_ok crb -> started self locality crb w r w' ->
  exists data, r.2 = with_data_buffer data crb /\ data_ok r.2.
Proof.
  intros Hcrb Hs.
  assert (crb = with_data_buffer (crb_data_buffer crb) crb) as Hid by by destruct crb.
  assert (r.2 = crb -> exists data, r.2 = with_data_buffer data crb /\ data_ok r.2) as Hsame
    by (intros ->; eauto).
  unfold started in Hs. destruct (command_ok crb) eqn:Hok; [|by destruct Hs as [-> _]; apply Hsame].
  case_decide; [|destruct Hs as [Hs _]; by apply Hsame].
  destruct Hs as (response & l & _ & _ & Hl & Hb & _ & ->). eexists. split; [done|].
  unfold command_ok, capacity_ok in Hok. apply andb_true_iff in Hok as [Hok _].
  apply andb_true_iff in Hok as [_ Hok]. apply bool_decide_eq_true in Hok.
  destruct Hcrb as [Hdl Hdb].
  split; cbn [with_data_buffer crb_data_buffer].
  - rewrite length_app, length_drop. lia.
  - apply Forall_app. split; [done|by apply Forall_drop].
Qed.

(** ** The four register operations *)

Inductive RegisterOp : Type := GoIdle | CmdReady | LocalityRequest | LocalityRelinquish.

(** Offset and value of the one store of an operation. *)
Definition op_store (op : RegisterOp) (crb : bool) : Z * Z :=
  match op, crb with
  | GoIdle, true => (0x40, 2)
  | CmdReady, true => (0x40, 1)
  | LocalityRequest, true => (0x08, 1)
  | LocalityRelinquish, true => (0x08, 2)
  | GoIdle, false | CmdReady, false => (0x18, 0x40)
  | LocalityRequest, false => (0x00, 0x02)
  | LocalityRelinquish, false => (0x00, 0x20)
  end.

(** The waits that follow it: offset, bits to be set, bits to be clear and
    timeout in microseconds. *)
Definition op_waits (op : RegisterOp) (crb : bool) : list (Z * Z * Z * Z) :=
  match op, crb with
  | GoIdle, true => [(0x40, 0, 2, 200000); (0x44, 2, 0, 200000)]
  | CmdReady, true => [(0x40, 0, 1, 200000); (0x44, 0, 2, 200000)]
  | LocalityRequest, true => [(0x0C, 1, 0, 750000)]
  | LocalityRelinquish, true => [(0x0C, 0, 1, 750000)]
  | GoIdle, false | CmdReady, false => [(0x18, 0x40, 0, 2000000)]
  | LocalityRequest, false => [(0x00, 0xA0, 0, 750000)]
  | LocalityRelinquish, false => [(0x00, 0x80, 0x20, 750000)]
  end.

(** One wait after the other, until one fails. *)
Fixpoint waits_all (crb : bool) (base : Z) (ws : list (Z * Z * Z * Z)) (s : ErrorCode.t) (l : list Event) :
    Prop :=
  match ws with
  | [] => s = ErrorCode.Ok /\ l = []
  | (register, bit_set, bit_clear, us) :: ws =>
      exists s1 l1 l2, l = l1 ++ l2 /\ waits crb (base + register) bit_set bit_clear us s1 l1 /\
        if decide (s1 = ErrorCode.Ok) then waits_all crb base ws s l2 else s = s1 /\ l2 = []
  end.

Definition run_op {W E} `{SmcEnv W} `{Mmio W} `{Counter W} (fuel : nat) (op : RegisterOp) :
    TpmSst -> Z -> stM W E ErrorCode.t :=
  match op with
  | GoIdle => go_idle fuel
  | CmdReady => cmd_ready fuel
  | LocalityRequest => locality_request fuel
  | LocalityRelinquish => locality_relinquish fuel
  end.

(** All that an operation does on the bus. *)
Definition op_spec {W} `{PlatformLaws W} (op : RegisterOp) (self : TpmSst) (locality : Z) (w : W)
    (s : ErrorCode.t) (w' : W) : Prop :=
  let crb := is_crb_interface self in
  let base := registers_at self locality in
  let '(offset, value) := op_store op crb in
  exists l, trace w' = trace w ++
      (if crb then Store32 (base + offset) value else Store8 (base + offset) value) :: l /\
    waits_all crb base (op_waits op crb) s l.

Section Operations.
Context {W : Type} `{PlatformLaws W} (fuel : nat) (Hfuel : fuel_ok fuel).
Implicit Types (w : W) (self : TpmSst).

Lemma waits_one crb base register bit_set bit_clear us s l :
  waits crb (base + register) bit_set bit_clear us s l ->
  waits_all crb base [(register, bit_set, bit_clear, us)] s l.
Proof.
  intros Hw. exists s, l, []. rewrite app_nil_r. split; [done|]. split; [done|]. by case_decide.
Qed.

(** A store and a wait. *)
Lemma one_wait_traces {E} (store : stM W E unit) e self crb base r s c us :
  is_crb_interface self = crb -> traces store (fun _ l => l = [e]) -> 0 <= us <= PTP_TIMEOUT_MAX ->
  traces (_ ← store; wait_register_bits fuel self (base + r) s c us)
    (fun st l => exists l', l = e :: l' /\ waits_all crb base [(r, s, c, us)] st l').
Proof.
  intros <- Hs Hu. eapply traces_bind; [exact Hs|]. cbv beta. intros _ ? ->.
  eapply traces_mono; [by apply wait_traces|]. cbv beta. intros st l Hl. exists l.
  split; [done|]. by apply waits_one.
Qed.

(** A store, a first wait and, if that succeeded, a second. *)
Lemma two_waits_traces {E} (store : stM W E unit) e self crb base r1 s1 c1 us1 r2 s2 c2 us2 :
  is_crb_interface self = crb -> traces store (fun _ l => l = [e]) -> 0 <= us1 <= PTP_TIMEOUT_MAX -> 0 <= us2 <= PTP_TIMEOUT_MAX ->
  traces (_ ← store;
          status ← wait_register_bits fuel self (base + r1) s1 c1 us1;
          if decide (status = ErrorCode.Ok) then wait_register_bits fuel self (base + r2) s2 c2 us2
          else mret status)
    (fun st l => exists l', l = e :: l' /\
       waits_all crb base [(r1, s1, c1, us1); (r2, s2, c2, us2)] st l').
Proof.
  intros <- Hs Hu1 Hu2. eapply traces_bind; [exact Hs|]. cbv beta. intros _ ? ->.
  eapply traces_bind; [by apply wait_traces|]. cbv beta. intros st1 l1 Hl1. case_decide as Hok.
  - eapply traces_mono; [by apply wait_traces|]. cbv beta. intros st l Hl. exists (l1 ++ l).
    split; [done|]. exists st1, l1, l. rewrite decide_True by done. split_and!; try done.
    by apply waits_one.
  - apply traces_ret. exists l1. split; [by rewrite app_nil_r|]. exists st1, l1, [].
    rewrite app_nil_r, decide_False by done. done.
Qed.

Lemma run_op_traces {E} op self locality :
  traces (run_op (E := E) fuel op self locality) (fun s l =>
    let crb := is_crb_interface self in
    let base := registers_at self locality in
    let '(offset, value) := op_store op crb in
    exists l', l = (if crb then Store32 (base + offset) value else Store8 (base + offset) value) :: l' /\
      waits_all crb base (op_waits op crb) s l').
Proof.
  destruct op; cbn [run_op]; unfold go_idle, cmd_ready, locality_request, locality_relinquish;
    destruct (is_crb_interface self) eqn:Hi; cbn [op_store op_waits];
    first [ apply two_waits_traces; [exact Hi|apply store_u32_traces|done|done]
          | apply one_wait_traces; [exact Hi|first [apply store_u32_traces | apply store_u8_traces]|done] ].
Qed.

(** Every operation ends with a status. *)
Lemma run_op_ends {E} op self locality w :
  runs (run_op (E := E) fuel op self locality) w (fun _ _ => True) no_error.
Proof.
  destruct op; cbn [run_op]; unfold go_idle, cmd_ready, locality_request, locality_relinquish;
    destruct (is_crb_interface self); apply runs_bind;
    (eapply runs_mono; [first [apply store_u32_runs|apply store_u8_runs]| |done]); intros [] w1 _;
    try (eapply runs_mono; [by apply wait_runs|done|done]);
    apply runs_bind; (eapply runs_mono; [by apply wait_runs| |done]); intros s w2 _;
    case_decide; try (by apply runs_ret); (eapply runs_mono; [by apply wait_runs|done|done]).
Qed.

Lemma run_op_runs {E} op self locality w :
  runs (run_op (E := E) fuel op self locality) w (op_spec op self locality w) no_error.
Proof.
  eapply runs_mono; [apply runs_traces; [apply run_op_ends|apply run_op_traces]| |done].
  cbv beta zeta. intros s w' [_ (l & Htr & Hl)]. unfold op_spec. cbv zeta.
  destruct (op_store op (is_crb_interface self)) as [offset value].
  destruct Hl as (l' & -> & Hl). by exists l'.
Qed.
End Operations.

(** ** A concrete platform

    A device that answers reads from a script (zero once it is exhausted), a
    1 Hz counter that advances with every access, a scheduler that always
    resumes. *)
Record Bench : Type := mkBench { clock : Z; events : list Event; inputs : list Z }.

Definition tick (e : Event) (b : Bench) : Bench := mkBench (clock b + 1) (events b ++ [e]) (inputs b).

(** The script's next value at a width. *)
Definition scripted (w : Z) (b : Bench) : Z := trunc w (default 0 (head (inputs b))).

Definition consume (e : Event) (b : Bench) : Bench :=
  mkBench (clock b + 1) (events b ++ [e]) (tail (inputs b)).

#[export] Instance bench_mmio : Mmio Bench := {|
  read_u8 a b := (scripted 8 b, consume (Load8 a (scripted 8 b)) b);
  read_u32 a b := (scripted 32 b, consume (Load32 a (scripted 32 b)) b);
  write_u8 a v b := tick (Store8 a v) b;
  write_u32 a v b := tick (Store32 a v) b;
|}.

#[export] Instance bench_counter : Counter Bench := {|
  cntfrq b := (1, tick (Frequency 1) b);
  cntvct b := (trunc 64 (clock b + 1), tick (Count (trunc 64 (clock b + 1))) b);
|}.

#[export] Instance bench_smc : SmcEnv Bench := fun _ _ b =>
  (0x84000061 :: replicate 17 0, tick Yielded b).

#[export] Instance bench_laws : PlatformLaws Bench.
Proof.
  refine {| time := clock; trace := events; freq_max := 1 |};
    try (intros; split_and!; try (split; [|done]); cbn; unfold STEP; lia || done);
    try (intros; split; [|split; [cbn; unfold STEP; lia|done]]; apply trunc_range; lia).
  intros w. exists (tick Yielded w). split; [|split; [cbn; unfold STEP; lia|done]].
  unfold Yield.exec. by rewrite (exec_simple_unfold (Yield.new YIELD_TIMEOUT_HINT_NS)
    (SmcParams.with_default 0 0 0 0)) by done.
Defined.

Lemma bench_fuel : fuel_ok (W := Bench) 100.
Proof. vm_compute. reflexivity. Qed.

(** A register block with a command in its buffer. *)
Definition sample_crb (command : list Z) : PtpCrbRegisters := {|
  locality_state := 0; reserved1 := replicate 4 0; locality_control := 0; locality_status := 0;
  reserved2 := replicate 32 0; interface_id := 0; vid := 0; did := 0; crb_control_extension := 0;
  crb_control_request := 0; crb_control_status := 0; crb_control_cancel := 0;
  crb_control_start := 0; crb_interrupt_enable := 0; crb_interrupt_status := 0;
  crb_control_command_size := CRB_DATA_BUFFER_SIZE; crb_control_command_address_low := 0;
  crb_control_command_address_high := 0; crb_control_response_size := CRB_DATA_BUFFER_SIZE;
  crb_control_response_address := 0; reserved4 := replicate 16 0;
  crb_data_buffer := command ++ replicate (Z.to_nat CRB_DATA_BUFFER_SIZE - length command) 0 |}.

(** TPM2_Startup(CLEAR) and a ten-byte success response. *)
Definition startup_command : list Z := [0x80; 1; 0; 0; 0; 12; 0; 0; 1; 0x44; 0; 0].
Definition startup_response : list Z := [0x80; 1; 0; 0; 0; 10; 0; 0; 0; 0].

(** A FIFO device: burst count 16, data accepted, data ready, and the response
    in one burst, the status register read before each byte. *)
Definition fifo_bench : Bench :=
  mkBench 5 [] ([16; 0; 0x80; 0x90] ++ [16; 0] ++ concat ((fun b => [0x90; b]) <$> startup_response)).
Definition fifo_sst : TpmSst := mkSst false false 0x10000.

Lemma sample_crb_ok : data_ok (sample_crb startup_command).
Proof. split; [vm_compute; reflexivity|]. apply (bool_decide_unpack _). vm_compute. exact I. Qed.

(** ** Properties *)

(** C11: [start] carries a command over faithfully.  A buffer whose announced
    length or capacities are out of range is refused without touching the
    device.  Otherwise, on success, the bus has seen exactly this: the command's
    bytes stored into the CRB's buffer at 0x80, or into the data FIFO in bursts
    no longer than the burst count just read, and the FIFO expecting no more;
    the start bit; the register that shows the end of the command, within its
    timeout; and the response's bytes loaded from the buffer at 0x80, or from
    the data FIFO at 0x24, each after a status with "data available".  Those
    bytes, as many as their own header says and within the response capacity,
    are the front of the internal buffer, and the rest of the internal
    registers is as before.  On failure nothing of the internal registers has
    changed and only a prefix of those stores has been made.  It always ends. *)
Theorem sst_start_transfers `{PlatformLaws W} fuel (self : TpmSst) locality crb (w : W) :
  fuel_ok fuel -> data_ok crb ->
  exists r w', start (E := Error.t) fuel self locality crb w = (Ok r, w') /\
    started self locality crb w r w'.
Proof.
  intros Hfuel Hcrb.
  destruct (runs_ok _ _ _ _ (start_runs (E := Error.t) fuel Hfuel self locality crb w Hcrb))
    as (r & w' & ? & ?); [by intros ? ? []|eauto].
Qed.

(** C21: The four register operations keep the interface's protocol: the bus
    sees the one store of the table and then the waits of the table, one after
    the other until one fails, each on its register, for its bits and with its
    timeout (200 ms, 750 ms or 2 s by the counter), and nothing else; the
    status is that of the last wait, success only after a load that shows the
    bits and "denied" only after the counter has shown that the timeout is
    over.  Each ends. *)
Theorem sst_register_protocol `{PlatformLaws W} fuel op (self : TpmSst) locality (w : W) :
  fuel_ok fuel ->
  exists s w', run_op (E := Error.t) fuel op self locality w = (Ok s, w') /\
    op_spec op self locality w s w'.
Proof.
  intros Hfuel.
  destruct (runs_ok _ _ _ _ (run_op_runs (E := Error.t) fuel Hfuel op self locality w))
    as (s & w' & ? & ?); [by intros ? ? []|eauto].
Qed.

(** C22: Every timed wait ends, on a counter that wraps at 64 bits, and all it
    does on the bus is what its grammar says: a pause of 30 us by the counter,
    the reading of the counter that starts the timeout and of its frequency, and
    then looks at the register, with a reading of the counter and a yield
    between them.  It succeeds at the first look that shows the bits; it answers
    "denied" only when, after a last look in vain, the counter shows that the
    timeout has passed since its start at that frequency. *)
Theorem sst_waits_terminate `{PlatformLaws W} fuel (self : TpmSst) register bit_set bit_clear
    timeout (w : W) :
  fuel_ok fuel -> 0 <= timeout <= PTP_TIMEOUT_MAX ->
  exists s w' l, wait_register_bits (E := Error.t) fuel self register bit_set bit_clear timeout w =
      (Ok s, w') /\ trace w' = trace w ++ l /\ writes w' = writes w /\
    waits (is_crb_interface self) register bit_set bit_clear timeout s l.
Proof.
  intros Hfuel Ht.
  destruct (runs_ok _ _ _ _ (runs_traces _ _ _ _ _
    (wait_runs (E := Error.t) fuel self register bit_set bit_clear timeout w Hfuel Ht)
    (wait_traces fuel self register bit_set bit_clear timeout Ht)))
    as (s & w' & He & [_ Hw] & l & Htr & Hl); [by intros ? ? []|]. by exists s, w', l.
Qed.

(** C30: Reading a response: over any byte source that answers, the reads are
    those of offsets 0, 1, 2, ... up to the length the first ten bytes
    announce, never beyond the buffer; the buffer then starts with exactly the
    bytes read.  A header out of range is rejected after ten reads, and an
    error of the source is passed on. *)
Theorem read_tpm_response_exact {W} (read_byte : nat -> stM W ErrorCode.t Z) buffer (w : W) :
  (forall o w, (o < length buffer)%nat ->
     runs (read_byte o) w (fun b _ => is_byte b) (fun e _ => True)) ->
  capacity_ok (Z.of_nat (length buffer)) = true ->
  match read_tpm_response read_byte (buffer, w) with
  | (Ok n, (buffer', w')) =>
      exists bs, byte_reads read_byte (seq 0 (length bs)) bs w w' /\
        Z.of_nat (length bs) = n /\ from_be_bytes (slice bs 2 6) = n /\
        (TPM_HEADER_SIZE <= length bs <= length buffer)%nat /\
        buffer' = bs ++ drop (length bs) buffer
  | (Err e, (_, w')) =>
      (e = ErrorCode.InvalidParameters /\
       exists bs, byte_reads read_byte (seq 0 TPM_HEADER_SIZE) bs w w' /\
         ~ (Z.of_nat TPM_HEADER_SIZE <= from_be_bytes (slice bs 2 6) <= Z.of_nat (length buffer))) \/
      exists o w0, (o < length buffer)%nat /\ read_byte o w0 = (Err e, w')
  | _ => False
  end.
Proof.
  intros Hread Hcap.
  pose proof (read_tpm_response_runs read_byte (length buffer) (fun _ => True)
    (fun e w' => exists o w0, (o < length buffer)%nat /\ read_byte o w0 = (Err e, w'))) as Hr.
  unshelve epose proof (Hr _ buffer w I eq_refl Hcap) as Hr'.
  { intros o w0 Ho _. specialize (Hread o w0 Ho). unfold runs in *.
    destruct (read_byte o w0) as [[b|e| |] w1] eqn:He; try done. eauto. }
  clear Hr. unfold runs in Hr'.
  destruct (read_tpm_response read_byte (buffer, w)) as [[n|e| |] [buffer' w']]; try done.
  - destruct Hr' as (bs & ? & _ & ? & ? & _ & ? & Hb). cbn [fst snd] in *.
    rewrite blit_0 in Hb. exists bs. split_and!; done || lia.
  - destruct Hr' as [(-> & bs & ? & _ & ?)|?]; [left|by right]. split; [done|]. by exists bs.
Qed.

(** The conversion of a timeout into counter ticks rounds up and saturates:
    the ticks last at least the timeout at the given frequency unless they are
    2^64 - 1, one tick fewer would be too short, and no intermediate value
    exceeds 128 bits. *)
Lemma ticks_cover_timeout f us :
  is_u 64 f -> is_u 64 us ->
  let ticks := counter_ticks_for_microseconds f us in
  is_u 128 (f * us) /\ is_u 64 ticks /\
  (f * us <= ticks * 1000000 \/ ticks = 2 ^ 64 - 1) /\
  (ticks - 1) * 1000000 < f * us.
Proof.
  intros [Hf0 Hf] [Hu0 Hu] ticks. unfold ticks, counter_ticks_for_microseconds, U64_MAX.
  pose proof (div_ceil_spec (f * us) 1000000 ltac:(lia)) as Hd.
  assert (0 <= f * us < 2 ^ 64 * 2 ^ 64) as Hp by nia.
  split_and!; [exact Hp| | |]; unfold is_u; lia.
Qed.

Lemma sst_start_transfers_witness :
  (exists r w', start (E := Error.t) 100 fifo_sst 1 (sample_crb startup_command) fifo_bench =
      (Ok r, w') /\
    started fifo_sst 1 (sample_crb startup_command) fifo_bench r w') /\
  (let '(r, w') := start (E := Error.t) 100 fifo_sst 1 (sample_crb startup_command) fifo_bench in
   (match r with Ok (s, crb) => Some (s, take 12 (crb_data_buffer crb)) | _ => None end, writes w') =
   (Some (ErrorCode.Ok, startup_response ++ [0; 0]),
    ((fun b => (0x11024, b)) <$> startup_command) ++ [(0x11018, 0x20)])).
Proof.
  split; [apply (sst_start_transfers 100 _ _ _ _ bench_fuel sample_crb_ok)|].
  vm_compute. reflexivity.
Defined.

Lemma sst_register_protocol_witness :
  exists s w', run_op (E := Error.t) 100 LocalityRequest fifo_sst 0 (mkBench 0 [] [0xA1]) =
      (Ok s, w') /\
    op_spec LocalityRequest fifo_sst 0 (mkBench 0 [] [0xA1]) s w' /\ s = ErrorCode.Ok.
Proof.
  destruct (sst_register_protocol 100 LocalityRequest fifo_sst 0 (mkBench 0 [] [0xA1]) bench_fuel)
    as (s & w' & He & Hs).
  exists s, w'. split; [exact He|]. split; [exact Hs|].
  vm_compute in He. injection He as <- _. reflexivity.
Defined.

(** A register that never shows the bit: denied after 90 ticks. *)
Lemma sst_waits_terminate_witness :
  exists s w', wait_register_bits (E := Error.t) 100 fifo_sst 0x18 0x80 0 PTP_TIMEOUT_MAX
      (mkBench 0 [] []) = (Ok s, w') /\ s = ErrorCode.Denied /\ 90 <= clock w'.
Proof.
  destruct (sst_waits_terminate 100 fifo_sst 0x18 0x80 0 PTP_TIMEOUT_MAX (mkBench 0 [] []) bench_fuel
    ltac:(split; vm_compute; discriminate)) as (s & w' & l & He & _ & _ & _).
  exists s, w'. split; [exact He|]. vm_compute in He. injection He as <- <-.
  split; [reflexivity|]. vm_compute. discriminate.
Defined.

Lemma read_tpm_response_exact_witness :
  exists bs w', byte_reads (fun o w => (Ok (default 0 (startup_response !! o)), w + 1))
      (seq 0 (length bs)) bs 0 w' /\ bs = startup_response /\ w' = 10.
Proof.
  pose proof (read_tpm_response_exact (W := Z)
    (fun o w => (Ok (default 0 (startup_response !! o)), w + 1)) (replicate 16 7) 0) as Hr.
  specialize (Hr ltac:(intros o w _; cbn; do 10 (destruct o as [|o]; [split; done|]); split; done)
    ltac:(vm_compute; reflexivity)).
  match type of Hr with match ?x with _ => _ end =>
    assert (x = (Ok 10, (startup_response ++ replicate 6 7, 10))) as Hx
      by (vm_compute; reflexivity) end.
  rewrite Hx in Hr. destruct Hr as (bs & Hreads & Hl & _ & _ & Hb).
  exists bs, 10. split; [exact Hreads|]. split; [|reflexivity].
  apply (f_equal (take 10)) in Hb. rewrite (take_app_length' bs) in Hb by lia. rewrite <- Hb. reflexivity.
Defined.
