(* ===== verification/Tpm.v ===== *)
(** The TPM service ([ec-service-lib/src/services/tpm.rs]) over FF-A, with its
    test feature beside it: localities, the CRB state machine, notifications.  The
    driver is behind [TpmSstOps]; the internal register blocks are memory the
    client writes between requests and are part of the state. *)
From Stdlib Require Import ZArith Lia.
From S2P Require Import Prelude FfaCore FfaMsg FfaFunctions MsgLoop RelayClient TpmSst TpmBus.
#[local] Open Scope Z_scope.

(** ** Interface identifier *)

Inductive PtpCrbInterfaceType : Type := InterfaceFifo | InterfaceCrb | InterfaceTis.
Definition interface_type_discr (t : PtpCrbInterfaceType) : Z :=
  match t with InterfaceFifo => 0x0 | InterfaceCrb => 0x1 | InterfaceTis => 0xF end.

Inductive PtpCrbInterfaceVersion : Type := VersionFifo | VersionCrb | VersionCrbV2.
Definition interface_version_discr (v : PtpCrbInterfaceVersion) : Z :=
  match v with VersionFifo => 0x0 | VersionCrb => 0x1 | VersionCrbV2 => 0x2 end.

Module InterfaceId.
Definition new : Z := 0.
Definition interface_type (id : Z) : Z := Z.land id 0xF.
Definition set_interface_type (id val : Z) : Z := Z.lor (Z.land id (unot 32 0xF)) (Z.land val 0xF).
Definition interface_version (id : Z) : Z := Z.land (Z.shiftr id 4) 0xF.
Definition set_interface_version (id val : Z) : Z :=
  Z.lor (Z.land id (unot 32 (Z.shiftl 0xF 4))) (Z.shiftl (Z.land val 0xF) 4).
Definition cap_locality (id : Z) : Z := Z.land (Z.shiftr id 8) 1.
Definition set_cap_locality (id val : Z) : Z :=
  Z.lor (Z.land id (unot 32 (Z.shiftl 1 8))) (Z.shiftl (Z.land val 1) 8).
Definition cap_crb_idle_bypass (id : Z) : Z := Z.land (Z.shiftr id 9) 1.
Definition set_cap_crb_idle_bypass (id val : Z) : Z :=
  Z.lor (Z.land id (unot 32 (Z.shiftl 1 9))) (Z.shiftl (Z.land val 1) 9).
Definition cap_crb (id : Z) : Z := Z.land (Z.shiftr id 14) 1.
Definition set_cap_crb (id val : Z) : Z :=
  Z.lor (Z.land id (unot 32 (Z.shiftl 1 14))) (Z.shiftl (Z.land val 1) 14).
End InterfaceId.

(** ** Codes *)

Inductive TpmFunction : Type :=
  | GetInterfaceVersion | GetFeatureInfo | Start | RegisterForNotification
  | UnregisterForNotification | FinishNotified | ManageLocality.

#[export] Instance tpm_function_eq_dec : EqDecision TpmFunction.
Proof. solve_decision. Defined.

#[export] Instance tpm_function_enum : PrimEnum TpmFunction := {|
  discr f := match f with
    | GetInterfaceVersion => 0x0f000001 | GetFeatureInfo => 0x0f000101 | Start => 0x0f000201
    | RegisterForNotification => 0x0f000301 | UnregisterForNotification => 0x0f000401
    | FinishNotified => 0x0f000501 | ManageLocality => 0x1f000001 end;
  variants := [GetInterfaceVersion; GetFeatureInfo; Start; RegisterForNotification;
    UnregisterForNotification; FinishNotified; ManageLocality];
|}.

Module TpmStatus.
Inductive t : Type :=
  | Ok | OkResultsReturned | NoFunc | NotSup | InvArg | InvCrbCtrlData | Already | Denied | NoMem.

#[export] Instance eq_dec : EqDecision t.
Proof. solve_decision. Defined.

Definition to_u64 (s : t) : Z :=
  match s with
  | Ok => 0x05000001 | OkResultsReturned => 0x05000002 | NoFunc => 0x8e000001
  | NotSup => 0x8e000002 | InvArg => 0x8e000005 | InvCrbCtrlData => 0x8e000006
  | Already => 0x8e000009 | Denied => 0x8e00000a | NoMem => 0x8e00000b
  end.
End TpmStatus.
Export (hints) TpmStatus.

Definition TPM2_FFA_START_FUNC_QUALIFIER_COMMAND : Z := 0x0.
Definition TPM2_FFA_START_FUNC_QUALIFIER_LOCALITY : Z := 0x1.
Definition TPM2_FFA_MANAGE_LOCALITY_OPEN : Z := 0x0.
Definition TPM2_FFA_MANAGE_LOCALITY_CLOSE : Z := 0x1.
Definition TPM_MAJOR_VER : Z := 0x1.
Definition TPM_MINOR_VER : Z := 0x0.
Definition NUM_LOCALITIES : Z := 5.
Definition NO_ACTIVE_LOCALITY : Z := NUM_LOCALITIES.
Definition TPM_FEATURE_NOTIFICATIONS_SUPPORTED : Z := Z.shiftl 1 0.

Inductive TpmState : Type := Idle | Ready | Complete.
#[export] Instance tpm_state_eq_dec : EqDecision TpmState.
Proof. solve_decision. Defined.

Inductive TpmLocalityState : Type := Closed | Open.
#[export] Instance tpm_locality_state_eq_dec : EqDecision TpmLocalityState.
Proof. solve_decision. Defined.

(** ** Messages *)

Record TpmRequest : Type := { opcode : Z; function : Z; locality : Z }.

Record TpmResponse : Type := { tpm_status : Z; tpm_payload : Z }.

Definition tpm_request_from {E} `{UuidOps} (msg : MsgSendDirectReq2) : outcome E TpmRequest :=
  let payload := req_payload msg in
  opcode ← register_at payload 0;
  function ← register_at payload 1;
  locality ← register_at payload 2;
  Ok {| opcode := opcode; function := function; locality := locality |}.

Definition tpm_response_payload {E} (resp : TpmResponse) : outcome E DirectMessagePayload :=
  payload_from_iter (concat (to_le_bytes 8 <$> [tpm_status resp; tpm_payload resp])).

(** ** State *)

Record TpmService (T : Type) : Type := mkTpm {
  current_state : TpmState;
  active_locality : Z;
  interface_id_default : Z;
  locality_states : list TpmLocalityState;
  tpm_internal_crb_address : Z;
  notification_registered : bool;
  sst : T;
}.
Arguments mkTpm {T} _ _ _ _ _ _ _.
Arguments current_state {T} t.
Arguments active_locality {T} t.
Arguments interface_id_default {T} t.
Arguments locality_states {T} t.
Arguments tpm_internal_crb_address {T} t.
Arguments notification_registered {T} t.
Arguments sst {T} t.

(** The service with the internal register blocks, one per locality. *)
Record TpmDevice (T : Type) : Type := mkDevice { svc : TpmService T; crbs : list PtpCrbRegisters }.
Arguments mkDevice {T} _ _.
Arguments svc {T} t.
Arguments crbs {T} t.

Definition tpm_new {T} (sst : T) (tpm_internal_crb_address : Z) : TpmService T :=
  mkTpm Idle NO_ACTIVE_LOCALITY InterfaceId.new (replicate 5 Closed) tpm_internal_crb_address
    false sst.

Section Fields.
Context {T : Type}.
Implicit Types (s : TpmService T) (d : TpmDevice T).

Definition set_current_state (x : TpmState) s : TpmService T :=
  mkTpm x (active_locality s) (interface_id_default s) (locality_states s)
    (tpm_internal_crb_address s) (notification_registered s) (sst s).
Definition set_active_locality (x : Z) s : TpmService T :=
  mkTpm (current_state s) x (interface_id_default s) (locality_states s)
    (tpm_internal_crb_address s) (notification_registered s) (sst s).
Definition set_interface_id_default (x : Z) s : TpmService T :=
  mkTpm (current_state s) (active_locality s) x (locality_states s)
    (tpm_internal_crb_address s) (notification_registered s) (sst s).
Definition set_locality_states (x : list TpmLocalityState) s : TpmService T :=
  mkTpm (current_state s) (active_locality s) (interface_id_default s) x
    (tpm_internal_crb_address s) (notification_registered s) (sst s).
Definition set_notification_registered (x : bool) s : TpmService T :=
  mkTpm (current_state s) (active_locality s) (interface_id_default s) (locality_states s)
    (tpm_internal_crb_address s) x (sst s).
Definition set_sst (x : T) s : TpmService T :=
  mkTpm (current_state s) (active_locality s) (interface_id_default s) (locality_states s)
    (tpm_internal_crb_address s) (notification_registered s) x.

Definition upd_svc (f : TpmService T -> TpmService T) d : TpmDevice T := mkDevice (f (svc d)) (crbs d).
Definition upd_crb (l : Z) (f : PtpCrbRegisters -> PtpCrbRegisters) d : TpmDevice T :=
  mkDevice (svc d) (alter f (Z.to_nat l) (crbs d)).

(** Address of a locality's register block, and of its buffer. *)
Definition crb_ptr s (locality : Z) : Z :=
  trunc 64 (tpm_internal_crb_address s + locality * Crb.size_of).
Definition buffer_ptr s (locality : Z) : Z := crb_ptr s locality + Crb.crb_data_buffer.
End Fields.

Definition convert_error_to_status (status : ErrorCode.t) : TpmStatus.t :=
  match status with
  | ErrorCode.Ok => TpmStatus.Ok
  | ErrorCode.Denied => TpmStatus.Denied
  | ErrorCode.NoMemory => TpmStatus.NoMem
  | _ => TpmStatus.Denied
  end.

(** [write_bytes(crb, 0x00, 1)], then the identifier, the idle status and the
    buffer's address and size. *)
Definition initialised (interface_id buf_addr : Z) : PtpCrbRegisters := {|
  locality_state := 0; reserved1 := replicate 4 0; locality_control := 0; locality_status := 0;
  reserved2 := replicate 32 0; TpmSst.interface_id := interface_id; vid := 0; did := 0;
  crb_control_extension := 0; crb_control_request := 0;
  crb_control_status := PTP_CRB_CONTROL_AREA_STATUS_TPM_IDLE; crb_control_cancel := 0;
  crb_control_start := 0; crb_interrupt_enable := 0; crb_interrupt_status := 0;
  crb_control_command_size := CRB_DATA_BUFFER_SIZE;
  crb_control_command_address_low := trunc 32 buf_addr;
  crb_control_command_address_high := trunc 32 (Z.shiftr buf_addr 32);
  crb_control_response_size := CRB_DATA_BUFFER_SIZE;
  crb_control_response_address := buf_addr; reserved4 := replicate 16 0;
  crb_data_buffer := replicate (Z.to_nat CRB_DATA_BUFFER_SIZE) 0 |}.

(** The locality bits [clean_internal_crb] adds. *)
Definition active_locality_bits (active : Z) : Z :=
  match active with
  | 0 => PTP_CRB_LOCALITY_STATE_ACTIVE_LOCALITY_0
  | 1 => PTP_CRB_LOCALITY_STATE_ACTIVE_LOCALITY_1
  | 2 => PTP_CRB_LOCALITY_STATE_ACTIVE_LOCALITY_2
  | 3 => PTP_CRB_LOCALITY_STATE_ACTIVE_LOCALITY_3
  | 4 => PTP_CRB_LOCALITY_STATE_ACTIVE_LOCALITY_4
  | _ => 0
  end.

Definition cleaned (interface_id buf_addr active : Z) (state : TpmState) (crb : PtpCrbRegisters) :
    PtpCrbRegisters := {|
  locality_state :=
    Z.lor (Z.lor (Z.lor (locality_state crb) (active_locality_bits active))
                 PTP_CRB_LOCALITY_STATE_TPM_REG_VALID_STATUS)
          PTP_CRB_LOCALITY_STATE_LOCALITY_ASSIGNED;
  reserved1 := reserved1 crb;
  locality_control := 0;
  locality_status := Z.lor (locality_status crb) PTP_CRB_LOCALITY_STATUS_GRANTED;
  reserved2 := reserved2 crb; TpmSst.interface_id := interface_id; vid := vid crb; did := did crb;
  crb_control_extension := 0; crb_control_request := 0;
  crb_control_status :=
    if decide (state = Idle) then PTP_CRB_CONTROL_AREA_STATUS_TPM_IDLE else 0;
  crb_control_cancel := 0; crb_control_start := 0; crb_interrupt_enable := 0;
  crb_interrupt_status := 0;
  crb_control_command_size := CRB_DATA_BUFFER_SIZE;
  crb_control_command_address_low := trunc 32 buf_addr;
  crb_control_command_address_high := trunc 32 (Z.shiftr buf_addr 32);
  crb_control_response_size := CRB_DATA_BUFFER_SIZE;
  crb_control_response_address := buf_addr; reserved4 := reserved4 crb;
  crb_data_buffer := crb_data_buffer crb |}.

(** [write_bytes(crb_data_buffer, 0x00, CRB_DATA_BUFFER_SIZE)] *)
Definition clear_buffer : PtpCrbRegisters -> PtpCrbRegisters :=
  with_data_buffer (replicate (Z.to_nat CRB_DATA_BUFFER_SIZE) 0).

(** Single registers. *)
Definition set_control (v : Z) (crb : PtpCrbRegisters) : PtpCrbRegisters := {|
  locality_state := locality_state crb; reserved1 := reserved1 crb; locality_control := v;
  locality_status := locality_status crb; reserved2 := reserved2 crb;
  TpmSst.interface_id := TpmSst.interface_id crb; vid := vid crb; did := did crb;
  crb_control_extension := crb_control_extension crb;
  crb_control_request := crb_control_request crb; crb_control_status := crb_control_status crb;
  crb_control_cancel := crb_control_cancel crb; crb_control_start := crb_control_start crb;
  crb_interrupt_enable := crb_interrupt_enable crb;
  crb_interrupt_status := crb_interrupt_status crb;
  crb_control_command_size := crb_control_command_size crb;
  crb_control_command_address_low := crb_control_command_address_low crb;
  crb_control_command_address_high := crb_control_command_address_high crb;
  crb_control_response_size := crb_control_response_size crb;
  crb_control_response_address := crb_control_response_address crb; reserved4 := reserved4 crb;
  crb_data_buffer := crb_data_buffer crb |}.

Definition set_request_start (request start : Z) (crb : PtpCrbRegisters) : PtpCrbRegisters := {|
  locality_state := locality_state crb; reserved1 := reserved1 crb;
  locality_control := locality_control crb; locality_status := locality_status crb;
  reserved2 := reserved2 crb; TpmSst.interface_id := TpmSst.interface_id crb; vid := vid crb;
  did := did crb; crb_control_extension := crb_control_extension crb;
  crb_control_request := request; crb_control_status := crb_control_status crb;
  crb_control_cancel := crb_control_cancel crb; crb_control_start := start;
  crb_interrupt_enable := crb_interrupt_enable crb;
  crb_interrupt_status := crb_interrupt_status crb;
  crb_control_command_size := crb_control_command_size crb;
  crb_control_command_address_low := crb_control_command_address_low crb;
  crb_control_command_address_high := crb_control_command_address_high crb;
  crb_control_response_size := crb_control_response_size crb;
  crb_control_response_address := crb_control_response_address crb; reserved4 := reserved4 crb;
  crb_data_buffer := crb_data_buffer crb |}.

Definition set_command (size : Z) (data : list Z) (crb : PtpCrbRegisters) : PtpCrbRegisters := {|
  locality_state := locality_state crb; reserved1 := reserved1 crb;
  locality_control := locality_control crb; locality_status := locality_status crb;
  reserved2 := reserved2 crb; TpmSst.interface_id := TpmSst.interface_id crb; vid := vid crb;
  did := did crb; crb_control_extension := crb_control_extension crb;
  crb_control_request := crb_control_request crb; crb_control_status := crb_control_status crb;
  crb_control_cancel := crb_control_cancel crb; crb_control_start := crb_control_start crb;
  crb_interrupt_enable := crb_interrupt_enable crb;
  crb_interrupt_status := crb_interrupt_status crb;
  crb_control_command_size := size;
  crb_control_command_address_low := crb_control_command_address_low crb;
  crb_control_command_address_high := crb_control_command_address_high crb;
  crb_control_response_size := crb_control_response_size crb;
  crb_control_response_address := crb_control_response_address crb; reserved4 := reserved4 crb;
  crb_data_buffer := data |}.

Section Service.
Context `{UuidOps} {W T : Type} `{TpmSstOps W T}.
#[local] Abbreviation tpm A := (stM (TpmDevice T * W) Error.t A).

Definition self : tpm (TpmService T) := fun dw => (Ok (svc dw.1), dw).

Definition update (f : TpmService T -> TpmService T) : tpm unit := modify_fst (upd_svc f).

(** The block of a locality; the pointer is only used for localities in
    range, elsewhere it would be stray. *)
Definition read_crb (l : Z) : tpm PtpCrbRegisters := fun dw =>
  (or_panic (crbs dw.1 !! Z.to_nat l), dw).

Definition write_crb (l : Z) (f : PtpCrbRegisters -> PtpCrbRegisters) : tpm unit :=
  modify_fst (upd_crb l f).

(** A call of the driver. *)
Definition on_sst {A} (m : stM (T * W) Error.t A) : tpm A := fun dw =>
  let '(r, (t, w)) := m (sst (svc dw.1), dw.2) in (r, (upd_svc (set_sst t) dw.1, w)).

Definition init_internal_crb (l : Z) : tpm unit :=
  s ← self;
  write_crb l (fun _ => initialised (interface_id_default s) (buffer_ptr s l)).

Definition clean_internal_crb : tpm unit :=
  s ← self;
  if decide (active_locality s = NO_ACTIVE_LOCALITY) then mret tt else
  let l := active_locality s in
  write_crb l (cleaned (interface_id_default s) (buffer_ptr s l) l (current_state s)).

(** [x & bit != 0] *)
Definition bit_set (x bit : Z) : bool := bool_decide (Z.land x bit <> 0).

Definition handle_command : tpm TpmStatus.t :=
  s ← self;
  let active := active_locality s in
  crb ← read_crb active;
  if decide (crb_control_request crb = 0 /\ crb_control_start crb = 0)
  then mret TpmStatus.InvCrbCtrlData else
  status ←
    match current_state s with
    | Idle =>
        if bit_set (crb_control_request crb) PTP_CRB_CONTROL_AREA_REQUEST_COMMAND_READY then
          status ← on_sst (sst_cmd_ready active);
          _ ← (if decide (status = ErrorCode.Ok) then update (set_current_state Ready) else mret tt);
          mret status
        else mret ErrorCode.Denied
    | Ready =>
        if bit_set (crb_control_request crb) PTP_CRB_CONTROL_AREA_REQUEST_GO_IDLE then
          status ← on_sst (sst_go_idle active);
          _ ← (if decide (status = ErrorCode.Ok) then update (set_current_state Idle) else mret tt);
          mret status
        else if bit_set (crb_control_request crb) PTP_CRB_CONTROL_AREA_REQUEST_COMMAND_READY then
          on_sst (sst_cmd_ready active)
        else if bit_set (crb_control_start crb) PTP_CRB_CONTROL_START then
          '(status, crb) ← on_sst (sst_start active crb);
          _ ← write_crb active (fun _ => crb);
          _ ← (if decide (status = ErrorCode.Ok) then update (set_current_state Complete) else mret tt);
          mret status
        else mret ErrorCode.Denied
    | Complete =>
        if bit_set (crb_control_request crb) PTP_CRB_CONTROL_AREA_REQUEST_GO_IDLE then
          status ← on_sst (sst_go_idle active);
          _ ← (if decide (status = ErrorCode.Ok)
               then _ ← update (set_current_state Idle); write_crb active clear_buffer
               else mret tt);
          mret status
        else if bit_set (crb_control_request crb) PTP_CRB_CONTROL_AREA_REQUEST_COMMAND_READY then
          s ← self;
          if sst_idle_bypass_supported (W := W) (sst s) then
            status ← on_sst (sst_cmd_ready active);
            _ ← (if decide (status = ErrorCode.Ok)
                 then _ ← update (set_current_state Ready); write_crb active clear_buffer
                 else mret tt);
            mret status
          else mret ErrorCode.Denied
        else if bit_set (crb_control_start crb) PTP_CRB_CONTROL_START then
          s ← self;
          if sst_idle_bypass_supported (W := W) (sst s) then
            '(status, crb) ← on_sst (sst_start active crb);
            _ ← write_crb active (fun _ => crb);
            mret status
          else mret ErrorCode.Denied
        else mret ErrorCode.Denied
    end;
  mret (convert_error_to_status status).

(** The part after the [if]: record the new locality when the driver agreed. *)
Definition finish_locality_request (l : Z) (status : ErrorCode.t) (new_active_locality : Z) :
    tpm TpmStatus.t :=
  _ ← (if decide (status = ErrorCode.Ok)
       then _ ← init_internal_crb l; update (set_active_locality new_active_locality)
       else mret tt);
  mret (convert_error_to_status status).

Definition handle_locality_request (l : Z) : tpm TpmStatus.t :=
  s ← self;
  crb ← read_crb l;
  if bit_set (locality_control crb) PTP_CRB_LOCALITY_CONTROL_RELINQUISH then
    if decide (l <> active_locality s) then mret TpmStatus.Denied else
    status ← on_sst (sst_locality_relinquish l);
    finish_locality_request l status NO_ACTIVE_LOCALITY
  else if bit_set (locality_control crb) PTP_CRB_LOCALITY_CONTROL_REQUEST_ACCESS then
    if decide (active_locality s <> NO_ACTIVE_LOCALITY /\ active_locality s <> l)
    then mret TpmStatus.Denied else
    status ← on_sst (sst_locality_request l);
    finish_locality_request l status l
  else mret TpmStatus.InvCrbCtrlData.

(** The handlers that answer a payload give it beside the status. *)
Definition get_interface_version_handler (_ : TpmRequest) : TpmStatus.t * Z :=
  (TpmStatus.OkResultsReturned, Z.lor (Z.shiftl TPM_MAJOR_VER 16) TPM_MINOR_VER).

Definition get_feature_info_handler (request : TpmRequest) : TpmStatus.t * Z :=
  if decide (function request = discr RegisterForNotification)
  then (TpmStatus.OkResultsReturned, TPM_FEATURE_NOTIFICATIONS_SUPPORTED)
  else (TpmStatus.NotSup, 0).

Definition start_handler (request : TpmRequest) : tpm TpmStatus.t :=
  let function := trunc 16 (function request) in
  let locality := trunc 8 (locality request) in
  s ← self;
  return_val ←
    (if decide (NUM_LOCALITIES <= locality) then mret TpmStatus.InvArg else
     state ← lift (or_panic (locality_states s !! Z.to_nat locality));
     if decide (state = Closed) then mret TpmStatus.Denied
     else if decide (function = TPM2_FFA_START_FUNC_QUALIFIER_COMMAND) then
       if decide (locality = active_locality s) then handle_command else mret TpmStatus.InvArg
     else if decide (function = TPM2_FFA_START_FUNC_QUALIFIER_LOCALITY) then
       handle_locality_request locality
     else mret TpmStatus.InvArg);
  _ ← clean_internal_crb;
  mret return_val.

Definition register_handler : tpm TpmStatus.t :=
  s ← self;
  if notification_registered s then mret TpmStatus.Already else
  _ ← update (set_notification_registered true);
  mret TpmStatus.Ok.

Definition unregister_handler : tpm TpmStatus.t :=
  s ← self;
  if negb (notification_registered s) then mret TpmStatus.Denied else
  _ ← update (set_notification_registered false);
  mret TpmStatus.Ok.

Definition finish_handler : tpm TpmStatus.t :=
  s ← self;
  if negb (notification_registered s) then mret TpmStatus.Denied else mret TpmStatus.Ok.

(** [self.locality_states[locality as usize] = state] *)
Definition set_locality_state (l : Z) (state : TpmLocalityState) : tpm unit :=
  s ← self;
  if decide (Z.to_nat l < length (locality_states s))%nat
  then update (fun s => set_locality_states (<[Z.to_nat l := state]> (locality_states s)) s)
  else lift Panic.

Definition manage_locality_handler (request : TpmRequest) : tpm TpmStatus.t :=
  let locality_operation := trunc 16 (function request) in
  let locality := trunc 8 (locality request) in
  if decide (NUM_LOCALITIES <= locality) then mret TpmStatus.InvArg
  else if decide (locality_operation = TPM2_FFA_MANAGE_LOCALITY_OPEN) then
    _ ← set_locality_state locality Open; mret TpmStatus.Ok
  else if decide (locality_operation = TPM2_FFA_MANAGE_LOCALITY_CLOSE) then
    _ ← set_locality_state locality Closed; mret TpmStatus.Ok
  else mret TpmStatus.InvArg.

Definition reset_runtime_state (s : TpmService T) : TpmService T :=
  set_notification_registered false
    (set_active_locality NO_ACTIVE_LOCALITY (set_current_state Idle s)).

(** The identifier [init] builds. *)
Definition default_interface_id : Z :=
  let id := InterfaceId.new in
  let id := InterfaceId.set_interface_type id (interface_type_discr InterfaceCrb) in
  let id := InterfaceId.set_interface_version id (interface_version_discr VersionCrb) in
  let id := InterfaceId.set_cap_locality id 1 in
  InterfaceId.set_cap_crb id 1.

Fixpoint init_crbs (localities : list Z) : tpm unit :=
  match localities with
  | [] => mret tt
  | l :: localities => _ ← init_internal_crb l; init_crbs localities
  end.

Definition init : tpm unit :=
  _ ← update (set_interface_id_default default_interface_id);
  _ ← init_crbs [0; 1; 2; 3; 4];
  _ ← set_locality_state 0 Open;
  _ ← set_locality_state 1 Open;
  _ ← set_locality_state 2 Closed;
  _ ← set_locality_state 3 Closed;
  _ ← set_locality_state 4 Closed;
  _ ← on_sst sst_init;
  update reset_runtime_state.

Definition deinit (s : TpmService T) : TpmService T :=
  set_locality_states (replicate 5 Closed) (reset_runtime_state s).

(** The [match] on the opcode: status and payload. *)
Definition tpm_dispatch (source_id : Z) (request : TpmRequest) : tpm (TpmStatus.t * Z) :=
  match try_from_primitive (opcode request) with
  | Some GetInterfaceVersion => mret (get_interface_version_handler request)
  | Some GetFeatureInfo => mret (get_feature_info_handler request)
  | Some Start => s ← start_handler request; mret (s, 0)
  | Some RegisterForNotification => s ← register_handler; mret (s, 0)
  | Some UnregisterForNotification => s ← unregister_handler; mret (s, 0)
  | Some FinishNotified => s ← finish_handler; mret (s, 0)
  | Some ManageLocality =>
      if decide (Z.land source_id 0xFF00 <> 0xFF00) then mret (TpmStatus.Denied, 0)
      else s ← manage_locality_handler request; mret (s, 0)
  | None => mret (TpmStatus.NoFunc, 0)
  end.

(** The build with the feature [test-bypass-locality-check]: an operation that
    writes registers in the client's place, and locality management without
    the look at the source. *)
Definition TEST_WRITE_CRB : Z := 0xDE000001.
Definition tpm2_startup : list Z :=
  [0x80; 0x01; 0x00; 0x00; 0x00; 0x0C; 0x00; 0x00; 0x01; 0x44; 0x00; 0x00].

Definition test_write (operation : Z) : option (PtpCrbRegisters -> PtpCrbRegisters) :=
  match operation with
  | 0 => Some (set_control PTP_CRB_LOCALITY_CONTROL_REQUEST_ACCESS)
  | 1 => Some (set_control PTP_CRB_LOCALITY_CONTROL_RELINQUISH)
  | 2 => Some (fun crb => set_request_start PTP_CRB_CONTROL_AREA_REQUEST_COMMAND_READY
                            (crb_control_start crb) crb)
  | 3 => Some (fun crb => set_request_start PTP_CRB_CONTROL_AREA_REQUEST_GO_IDLE
                            (crb_control_start crb) crb)
  | 4 => Some (fun crb => set_request_start (crb_control_request crb) PTP_CRB_CONTROL_START crb)
  | 5 => Some (fun crb => set_command 12 (blit (crb_data_buffer crb) 0 tpm2_startup) crb)
  | _ => None
  end.

Definition test_write_crb (request : TpmRequest) : tpm TpmStatus.t :=
  let operation := trunc 16 (function request) in
  let locality := trunc 8 (locality request) in
  if decide (NUM_LOCALITIES <= locality) then mret TpmStatus.InvArg else
  match test_write operation with
  | Some f => _ ← write_crb locality f; mret TpmStatus.Ok
  | None => mret TpmStatus.InvArg
  end.

Definition tpm_dispatch_test (source_id : Z) (request : TpmRequest) : tpm (TpmStatus.t * Z) :=
  if decide (opcode request = TEST_WRITE_CRB) then s ← test_write_crb request; mret (s, 0)
  else if decide (opcode request = discr ManageLocality) then
    s ← manage_locality_handler request; mret (s, 0)
  else tpm_dispatch source_id request.

Definition tpm_handle (msg : MsgSendDirectReq2) : tpm MsgSendDirectResp2 :=
  req_payload ← lift (tpm_request_from msg);
  '(status, payload) ← tpm_dispatch (source_id (req_message msg)) req_payload;
  payload ← lift (tpm_response_payload
                    {| tpm_status := TpmStatus.to_u64 status; tpm_payload := payload |});
  mret (from_req_with_payload msg payload).

#[export] Instance tpm_service : Service W (TpmDevice T) := {|
  svc_UUID := uuid_lit 0x17b862a418064faf86b3089a58353861;
  svc_NAME := "Tpm";
  ffa_msg_send_direct_req2 := tpm_handle;
|}.
End Service.

(** ** What the service needs of a driver *)

Class SstLaws (W T : Type) `{TpmSstOps W T} : Prop := {
  sst_cmd_ready_law l tw : runs (sst_cmd_ready l) tw (fun _ _ => True) no_error;
  sst_go_idle_law l tw : runs (sst_go_idle l) tw (fun _ _ => True) no_error;
  sst_start_law l crb tw : data_ok crb ->
    runs (sst_start l crb) tw (fun r _ => exists data, r.2 = with_data_buffer data crb /\ data_ok r.2)
      no_error;
  sst_locality_request_law l tw : runs (sst_locality_request l) tw (fun _ _ => True) no_error;
  sst_locality_relinquish_law l tw : runs (sst_locality_relinquish l) tw (fun _ _ => True) no_error;
  sst_init_law tw : runs (sst_init (W := W) (T := T)) tw (fun _ _ => True) no_error;
}.

(** ** The service as a plan and a commit

    What a start request asks of the driver is decided by the service's state
    and the client's registers alone; the state then changes only if the
    driver agrees. *)

Inductive DriverCall : Type :=
  | CallCmdReady (l : Z) | CallGoIdle (l : Z) | CallStart (l : Z)
  | CallRequest (l : Z) | CallRelinquish (l : Z).

#[export] Instance driver_call_eq_dec : EqDecision DriverCall.
Proof. solve_decision. Defined.

Definition call_locality (c : DriverCall) : Z :=
  match c with
  | CallCmdReady l | CallGoIdle l | CallStart l | CallRequest l | CallRelinquish l => l
  end.

(** The CRB state machine: the driver call a command asks for. *)
Definition command_call (state : TpmState) (request start : Z) (bypass : bool) (l : Z) :
    option DriverCall :=
  let go_idle := bit_set request 2 in
  let cmd_ready := bit_set request 1 in
  let go := bit_set start 1 in
  match state with
  | Idle => if cmd_ready then Some (CallCmdReady l) else None
  | Ready =>
      if go_idle then Some (CallGoIdle l) else if cmd_ready then Some (CallCmdReady l)
      else if go then Some (CallStart l) else None
  | Complete =>
      if go_idle then Some (CallGoIdle l)
      else if cmd_ready then if bypass then Some (CallCmdReady l) else None
      else if go then if bypass then Some (CallStart l) else None else None
  end.

Section Plan.
Context {T : Type} (bypass : T -> bool).
Implicit Types (d : TpmDevice T).

Definition plan_command d (l : Z) (crb : PtpCrbRegisters) : TpmStatus.t + DriverCall :=
  if decide (l <> active_locality (svc d)) then inl TpmStatus.InvArg
  else if decide (crb_control_request crb = 0 /\ crb_control_start crb = 0)
  then inl TpmStatus.InvCrbCtrlData
  else match command_call (current_state (svc d)) (crb_control_request crb)
               (crb_control_start crb) (bypass (sst (svc d))) l with
       | Some c => inr c
       | None => inl TpmStatus.Denied
       end.

Definition plan_locality d (l : Z) (crb : PtpCrbRegisters) : TpmStatus.t + DriverCall :=
  let active := active_locality (svc d) in
  if bit_set (locality_control crb) 2 then
    if decide (l = active) then inr (CallRelinquish l) else inl TpmStatus.Denied
  else if bit_set (locality_control crb) 1 then
    if decide (active = 5 \/ active = l) then inr (CallRequest l) else inl TpmStatus.Denied
  else inl TpmStatus.InvCrbCtrlData.

Definition start_plan d (function l : Z) : TpmStatus.t + DriverCall :=
  match crbs d !! Z.to_nat l, locality_states (svc d) !! Z.to_nat l with
  | Some crb, Some Open =>
      if decide (function = 0) then plan_command d l crb
      else if decide (function = 1) then plan_locality d l crb
      else inl TpmStatus.InvArg
  | Some _, Some Closed => inl TpmStatus.Denied
  | _, _ => inl TpmStatus.InvArg
  end.

(** The change a successful call makes. *)
Definition commit (c : DriverCall) d : TpmDevice T :=
  let s := svc d in
  let fresh l := initialised (interface_id_default s) (buffer_ptr s l) in
  match c with
  | CallCmdReady l =>
      upd_crb l (if decide (current_state s = Complete) then clear_buffer else fun crb => crb)
        (upd_svc (set_current_state Ready) d)
  | CallGoIdle l =>
      upd_crb l (if decide (current_state s = Complete) then clear_buffer else fun crb => crb)
        (upd_svc (set_current_state Idle) d)
  | CallStart l => upd_svc (set_current_state Complete) d
  | CallRequest l => upd_crb l (fun _ => fresh l) (upd_svc (set_active_locality l) d)
  | CallRelinquish l => upd_crb l (fun _ => fresh l) (upd_svc (set_active_locality 5) d)
  end.

(** The registers of the active locality, put in order after every start. *)
Definition clean d : TpmDevice T :=
  let s := svc d in
  if decide (active_locality s = 5) then d
  else upd_crb (active_locality s)
         (cleaned (interface_id_default s) (buffer_ptr s (active_locality s)) (active_locality s)
            (current_state s)) d.
End Plan.

Section Reference.
Context `{UuidOps} {W T : Type} `{TpmSstOps W T}.

(** The driver's answer, and the register block it leaves. *)
Definition perform (c : DriverCall) (crb : PtpCrbRegisters) :
    stM (T * W) Error.t (ErrorCode.t * PtpCrbRegisters) :=
  match c with
  | CallCmdReady l => status ← sst_cmd_ready l; mret (status, crb)
  | CallGoIdle l => status ← sst_go_idle l; mret (status, crb)
  | CallStart l => sst_start l crb
  | CallRequest l => status ← sst_locality_request l; mret (status, crb)
  | CallRelinquish l => status ← sst_locality_relinquish l; mret (status, crb)
  end.

(** One driver call and the commit it earns. *)
Definition carry_out (c : DriverCall) (d : TpmDevice T) (w : W) : TpmStatus.t * TpmDevice T * W :=
  let l := call_locality c in
  match crbs d !! Z.to_nat l with
  | None => (TpmStatus.InvArg, d, w)
  | Some crb =>
      match perform c crb (sst (svc d), w) with
      | (Ok (status, crb), (t, w)) =>
          let d := upd_crb l (fun _ => crb) (upd_svc (set_sst t) d) in
          (convert_error_to_status status,
           if decide (status = ErrorCode.Ok) then commit c d else d, w)
      | (_, (t, w)) => (TpmStatus.Denied, d, w)
      end
  end.

Definition start_reference (function l : Z) (d : TpmDevice T) (w : W) :
    TpmStatus.t * TpmDevice T * W :=
  match start_plan (sst_idle_bypass_supported (W := W)) d function l with
  | inl status => (status, clean d, w)
  | inr c => let '(status, d, w) := carry_out c d w in (status, clean d, w)
  end.
End Reference.

(** Five localities, five well-formed register blocks. *)
Definition device_wf {T} (d : TpmDevice T) : Prop :=
  0 <= active_locality (svc d) <= NUM_LOCALITIES /\
  length (locality_states (svc d)) = 5%nat /\ length (crbs d) = 5%nat /\ Forall data_ok (crbs d).

(** ** Lemmas *)

#[export] Instance tpm_function_laws : PrimEnumLaws TpmFunction.
Proof. solve_prim_enum. Qed.

(** Splits on the result of the next driver call, which its law says ends
    without an error. *)
Ltac driver_call law status :=
  let Hd := fresh "Hd" in
  pose proof law as Hd; unfold runs in Hd;
  match type of Hd with
  | match ?m with _ => _ end =>
      let t := fresh "t" in let w := fresh "w" in
      destruct m as [[status|?| |] [t w]]; try contradiction; clear Hd
  end.

Section DriverLemmas.
Context {W T : Type} `{SstLaws W T}.
Implicit Types (d : TpmDevice T) (w : W).

Lemma perform_runs c crb tw :
  data_ok crb ->
  runs (perform c crb) tw (fun r _ => exists data, r.2 = with_data_buffer data crb /\ data_ok r.2)
    no_error.
Proof.
  intros Hcrb. assert (crb = with_data_buffer (crb_data_buffer crb) crb) as Hid by by destruct crb.
  destruct c; cbn [perform]; [| |by apply sst_start_law| |];
    (apply runs_bind; eapply runs_mono;
     [first [apply sst_cmd_ready_law | apply sst_go_idle_law | apply sst_locality_request_law
            | apply sst_locality_relinquish_law]| |done];
     intros s w' _; apply runs_ret; by exists (crb_data_buffer crb)).
Qed.

Lemma upd_crb_id d l crb : crbs d !! Z.to_nat l = Some crb -> upd_crb l (fun _ => crb) d = d.
Proof.
  intros Hl. destruct d as [s cs]. unfold upd_crb. cbn [svc crbs] in *. f_equal.
  etransitivity; [|by apply (list_alter_id (fun x => x) _ (Z.to_nat l))].
  apply list_alter_ext; [|done]. intros x Hx. congruence.
Qed.

Lemma upd_crb_same d l : upd_crb l (fun crb => crb) d = d.
Proof. destruct d. unfold upd_crb. cbn. by rewrite list_alter_id. Qed.

Lemma set_state_same x d : current_state (svc d) = x -> upd_svc (set_current_state x) d = d.
Proof. intros <-. by destruct d as [[] ?]. Qed.

(** One register operation of a command, its law and the state it is in. *)
Local Ltac register_call law Hcrb Hstate :=
  unfold carry_out, perform, on_sst, mbind, stM_bind; cbn [call_locality fst snd]; rewrite Hcrb;
  let status := fresh "status" in
  driver_call law status; cbn [mret stM_ret]; rewrite upd_crb_id by exact Hcrb;
  case_decide; [|reflexivity]; unfold commit; cbn [svc crbs upd_svc set_sst current_state];
  rewrite Hstate; cbn; rewrite ?upd_crb_same;
  first [reflexivity | rewrite set_state_same by exact Hstate; reflexivity].

(** The execution of a command. *)
Local Ltac start_call law Hcrb Hstate :=
  unfold carry_out, perform, on_sst, mbind, stM_bind; cbn [call_locality fst snd]; rewrite Hcrb;
  let r := fresh "r" in
  driver_call law r; destruct r; cbn [mret stM_ret]; case_decide; [|reflexivity];
  first [reflexivity | unfold commit; rewrite set_state_same by exact Hstate; reflexivity].

(** A locality call: the registers start afresh. *)
Local Ltac locality_call law Hcrb :=
  unfold carry_out, perform, on_sst, finish_locality_request, mbind, stM_bind;
  cbn [call_locality fst snd]; rewrite Hcrb;
  let status := fresh "status" in
  driver_call law status; cbn [mret stM_ret]; rewrite upd_crb_id by exact Hcrb;
  case_decide; reflexivity.

(** The command handler runs the plan. *)
Lemma handle_command_reference d w crb :
  crbs d !! Z.to_nat (active_locality (svc d)) = Some crb -> data_ok crb ->
  handle_command (d, w) =
    match plan_command (sst_idle_bypass_supported (W := W)) d (active_locality (svc d)) crb with
    | inl status => (Ok status, (d, w))
    | inr c => let '(status, d, w) := carry_out c d w in (Ok status, (d, w))
    end.
Proof.
  intros Hcrb Hdata. unfold handle_command, plan_command, self, read_crb, mbind, stM_bind.
  cbn [fst snd]. rewrite Hcrb. cbn [or_panic]. rewrite (decide_False (P := active_locality (svc d) <> active_locality (svc d))) by (intros []; done).
  case_decide as Hnone; [done|]. unfold command_call.
  change PTP_CRB_CONTROL_AREA_REQUEST_GO_IDLE with 2.
  change PTP_CRB_CONTROL_AREA_REQUEST_COMMAND_READY with 1. change PTP_CRB_CONTROL_START with 1.
  set (l := active_locality (svc d)) in *.
  assert (forall t, crbs (upd_svc (set_sst t) d) !! Z.to_nat l = Some crb) as Hset by done.
  destruct (current_state (svc d)) eqn:Hstate.
  - destruct (bit_set (crb_control_request crb) 1); [|done].
    register_call (sst_cmd_ready_law l (sst (svc d), w)) Hcrb Hstate.
  - destruct (bit_set (crb_control_request crb) 2).
    { register_call (sst_go_idle_law l (sst (svc d), w)) Hcrb Hstate. }
    destruct (bit_set (crb_control_request crb) 1).
    { register_call (sst_cmd_ready_law l (sst (svc d), w)) Hcrb Hstate. }
    destruct (bit_set (crb_control_start crb) 1); [|done].
    start_call (sst_start_law l crb (sst (svc d), w) Hdata) Hcrb Hstate.
  - destruct (bit_set (crb_control_request crb) 2).
    { register_call (sst_go_idle_law l (sst (svc d), w)) Hcrb Hstate. }
    destruct (bit_set (crb_control_request crb) 1).
    { cbn [fst snd]. destruct (sst_idle_bypass_supported (sst (svc d))); [|done].
      register_call (sst_cmd_ready_law l (sst (svc d), w)) Hcrb Hstate. }
    destruct (bit_set (crb_control_start crb) 1); [|done].
    cbn [fst snd]. destruct (sst_idle_bypass_supported (sst (svc d))); [|done].
    start_call (sst_start_law l crb (sst (svc d), w) Hdata) Hcrb Hstate.
Qed.

(** The locality handler runs the plan. *)
Lemma handle_locality_reference d w l crb :
  crbs d !! Z.to_nat l = Some crb -> data_ok crb ->
  handle_locality_request l (d, w) =
    match plan_locality d l crb with
    | inl status => (Ok status, (d, w))
    | inr c => let '(status, d, w) := carry_out c d w in (Ok status, (d, w))
    end.
Proof.
  intros Hcrb Hdata. unfold handle_locality_request, plan_locality, self, read_crb, mbind, stM_bind.
  cbn [fst snd]. rewrite Hcrb. cbn [or_panic].
  change PTP_CRB_LOCALITY_CONTROL_RELINQUISH with 2.
  change PTP_CRB_LOCALITY_CONTROL_REQUEST_ACCESS with 1. change NO_ACTIVE_LOCALITY with 5.
  destruct (bit_set (locality_control crb) 2).
  { destruct (decide (l = active_locality (svc d))) as [Heq|Hne].
    2: { by rewrite decide_True. }
    rewrite decide_False by (intros Hn; by apply Hn).
    locality_call (sst_locality_relinquish_law l (sst (svc d), w)) Hcrb. }
  destruct (bit_set (locality_control crb) 1); [|done].
  destruct (decide (active_locality (svc d) = 5 \/ active_locality (svc d) = l)) as [Hok|Hno].
  - rewrite decide_False by (intros [? ?]; by destruct Hok).
    locality_call (sst_locality_request_law l (sst (svc d), w)) Hcrb.
  - by rewrite decide_True by (split; intros ?; apply Hno; auto).
Qed.

Lemma clean_internal_crb_reference d w :
  clean_internal_crb (W := W) (d, w) = (Ok tt, (clean d, w)).
Proof.
  unfold clean_internal_crb, clean, self, mbind, stM_bind. cbn [fst snd].
  change NO_ACTIVE_LOCALITY with 5. by case_decide.
Qed.

Lemma start_handler_reference request d w :
  device_wf d ->
  start_handler request (d, w) =
    let '(status, d', w') :=
      start_reference (trunc 16 (function request)) (trunc 8 (locality request)) d w in
    (Ok status, (d', w')).
Proof.
  intros (Hact & Hls & Hlc & Hdata). unfold start_handler, start_reference, start_plan.
  set (f := trunc 16 (function request)). set (l := trunc 8 (locality request)).
  assert (0 <= l < 256) as Hl by (apply (trunc_range 8); lia).
  unfold self. unfold mbind at 1, stM_bind at 1. cbn [fst snd].
  assert (forall m : stM (TpmDevice T * W) Error.t TpmStatus.t,
    (return_val ← m; _ ← clean_internal_crb; mret return_val) (d, w) =
    match m (d, w) with
    | (Ok r, (d', w')) => (Ok r, (clean d', w'))
    | (r, dw) => (r, dw)
    end) as Hfinish.
  { intros m. unfold mbind, stM_bind. destruct (m (d, w)) as [[r|e| |] [d' w']]; [|done..].
    by rewrite clean_internal_crb_reference. }
  rewrite Hfinish. unfold NUM_LOCALITIES.
  destruct (decide (5 <= l)) as [Hge|Hlt].
  { rewrite lookup_ge_None_2 by lia. done. }
  destruct (lookup_lt_is_Some_2 (crbs d) (Z.to_nat l)) as [crb Hcrb]; [lia|].
  destruct (lookup_lt_is_Some_2 (locality_states (svc d)) (Z.to_nat l)) as [ls Hst]; [lia|].
  assert (data_ok crb) as Hok by (by eapply Forall_lookup_1 in Hdata).
  rewrite Hcrb, Hst. unfold lift, mbind, stM_bind. cbn [or_panic].
  destruct ls; [by rewrite decide_True|]. rewrite (decide_False (P := Open = Closed)) by done.
  change TPM2_FFA_START_FUNC_QUALIFIER_COMMAND with 0.
  change TPM2_FFA_START_FUNC_QUALIFIER_LOCALITY with 1.
  destruct (decide (f = 0)) as [Hf|Hf].
  - destruct (decide (l = active_locality (svc d))) as [Heq|Hne].
    + rewrite Heq in *. rewrite (handle_command_reference d w crb) by done.
      destruct (plan_command _ d _ crb) as [st|c]; [done|].
      by destruct (carry_out c d w) as [[st d'] w'].
    + unfold plan_command. by rewrite (decide_True (P := l <> _)) by done.
  - destruct (decide (f = 1)) as [Hf1|Hf1]; [|done].
    rewrite (handle_locality_reference d w l crb) by done.
    destruct (plan_locality d l crb) as [st|c]; [done|].
    by destruct (carry_out c d w) as [[st d'] w'].
Qed.
End DriverLemmas.

(** *** Well-formedness *)

Lemma data_ok_zeros crb : data_ok (clear_buffer crb).
Proof.
  split; cbn [clear_buffer with_data_buffer crb_data_buffer].
  - by rewrite length_replicate.
  - apply bytes_ok_zeros.
Qed.

Lemma data_ok_initialised id buf : data_ok (initialised id buf).
Proof. apply (data_ok_zeros (initialised id buf)). Qed.

Section Wellformed.
Context {T : Type}.
Implicit Types (d : TpmDevice T).

Lemma upd_crb_wf d l f :
  device_wf d -> (forall crb, data_ok crb -> data_ok (f crb)) -> device_wf (upd_crb l f d).
Proof.
  intros (Ha & Hs & Hl & Hok) Hf. split; [exact Ha|]. split; [exact Hs|]. cbn [upd_crb crbs]. split.
  - by rewrite length_alter.
  - apply Forall_alter; [done|]. intros crb _. apply Hf.
Qed.

Lemma upd_svc_wf d f :
  device_wf d -> 0 <= active_locality (f (svc d)) <= NUM_LOCALITIES ->
  length (locality_states (f (svc d))) = 5%nat -> device_wf (upd_svc f d).
Proof. by intros (? & ? & ? & ?). Qed.

Lemma clean_wf d : device_wf d -> device_wf (clean d).
Proof.
  intros Hd. unfold clean. case_decide; [done|]. by apply upd_crb_wf.
Qed.

Lemma clean_svc d : svc (clean d) = svc d.
Proof. unfold clean. by case_decide. Qed.

Lemma clean_other d i :
  (active_locality (svc d) <> 5 -> i <> Z.to_nat (active_locality (svc d))) ->
  crbs (clean d) !! i = crbs d !! i.
Proof.
  intros Hi. unfold clean. case_decide; [done|]. cbn [upd_crb crbs].
  rewrite list_lookup_alter_ne; [done|]. intros Heq. by apply Hi.
Qed.

(** Cleaning keeps every buffer. *)
Lemma clean_buffer d i :
  crb_data_buffer <$> (crbs (clean d) !! i) = crb_data_buffer <$> (crbs d !! i).
Proof.
  unfold clean. case_decide; [done|]. cbn [upd_crb crbs].
  rewrite list_lookup_alter. case_decide as Hi; [|done]. subst i. by destruct (crbs d !! _).
Qed.

Lemma commit_wf c d :
  device_wf d -> 0 <= call_locality c < NUM_LOCALITIES -> device_wf (commit c d).
Proof.
  intros Hd Hc. unfold NUM_LOCALITIES in *.
  assert (forall l x, device_wf (upd_crb l (if decide (x = Complete) then clear_buffer else fun crb => crb) d))
    as Hclear by (intros; apply upd_crb_wf; [done|]; intros; case_decide; [apply data_ok_zeros|done]).
  destruct c; cbn [commit call_locality] in *.
  - by apply (upd_svc_wf (upd_crb _ _ d)); [|apply Hd..].
  - by apply (upd_svc_wf (upd_crb _ _ d)); [|apply Hd..].
  - by apply upd_svc_wf; [|apply Hd..].
  - apply upd_crb_wf; [|intros; apply data_ok_initialised].
    apply upd_svc_wf; [done| |apply Hd]. cbn. unfold NUM_LOCALITIES. lia.
  - apply upd_crb_wf; [|intros; apply data_ok_initialised].
    apply upd_svc_wf; [done| |apply Hd]. cbn. unfold NUM_LOCALITIES. lia.
Qed.
End Wellformed.

(** *** What a plan needs *)

(** The request a planned call comes from. *)
Definition call_allowed {T} (bypass : T -> bool) (d : TpmDevice T) (f l : Z) (c : DriverCall) : Prop :=
  let active := active_locality (svc d) in
  0 <= l < NUM_LOCALITIES /\ call_locality c = l /\
  locality_states (svc d) !! Z.to_nat l = Some Open /\
  match c with
  | CallRequest _ => f = 1 /\ (active = NO_ACTIVE_LOCALITY \/ active = l)
  | CallRelinquish _ => f = 1 /\ active = l
  | _ => f = 0 /\ active = l /\ exists request start,
      command_call (current_state (svc d)) request start (bypass (sst (svc d))) l = Some c
  end.

Lemma command_call_locality state request start bypass l c :
  command_call state request start bypass l = Some c ->
  call_locality c = l /\ match c with CallRequest _ | CallRelinquish _ => False | _ => True end.
Proof.
  unfold command_call. destruct state; repeat case_match; intros; simplify_eq; done.
Qed.

Lemma start_plan_allowed {T} (bypass : T -> bool) (d : TpmDevice T) f l c :
  device_wf d -> 0 <= l -> start_plan bypass d f l = inr c -> call_allowed bypass d f l c.
Proof.
  intros (_ & _ & Hlen & _) Hl0. unfold start_plan.
  destruct (crbs d !! Z.to_nat l) as [crb|] eqn:Hcrb; [|discriminate].
  apply lookup_lt_Some in Hcrb.
  destruct (locality_states (svc d) !! Z.to_nat l) as [[]|] eqn:Hopen; try discriminate.
  assert (0 <= l < NUM_LOCALITIES) as Hl by (unfold NUM_LOCALITIES; lia).
  intros Hp. unfold call_allowed.
  destruct (decide (f = 0)) as [Hf|Hf].
  - unfold plan_command in Hp. case_decide as Ha; [discriminate|].
    assert (active_locality (svc d) = l) as Hal by (destruct (decide (l = active_locality (svc d))); congruence || tauto).
    case_decide; [discriminate|].
    destruct (command_call _ _ _ _ l) as [c'|] eqn:Hc; [|discriminate]. injection Hp as ->.
    destruct (command_call_locality _ _ _ _ _ _ Hc) as [Hcl Hk].
    split; [exact Hl|]. split; [exact Hcl|]. split; [exact Hopen|].
    destruct c; try done; (split; [exact Hf|]); (split; [exact Hal|]); eauto.
  - destruct (decide (f = 1)) as [Hf1|Hf1]; [|discriminate].
    unfold plan_locality in Hp. repeat case_match; simplify_eq;
      (split; [exact Hl|]); (split; [reflexivity|]); (split; [exact Hopen|]); split; try done.
    all: unfold NO_ACTIVE_LOCALITY, NUM_LOCALITIES; tauto.
Qed.

(** ** The service as a step relation *)

(** The state after the driver answered: it may have changed itself and the
    buffer; the commit follows if it agreed. *)
Definition committed {T} (c : DriverCall) (status : ErrorCode.t) (t : T) (data : list Z)
    (d : TpmDevice T) : TpmDevice T :=
  let d := upd_crb (call_locality c) (with_data_buffer data) (upd_svc (set_sst t) d) in
  if decide (status = ErrorCode.Ok) then commit c d else d.

(** What the requests other than start answer and keep, with the opcodes,
    operations, payloads and the secure firmware's source numbers as the TPM
    service interface gives them: the answer, then the locality states and
    whether notifications are registered. *)
Definition local_reference (source : Z) (request : TpmRequest) (states : list TpmLocalityState)
    (registered : bool) : (TpmStatus.t * Z) * (list TpmLocalityState * bool) :=
  let answers status payload := ((status, payload), (states, registered)) in
  let registers b := ((TpmStatus.Ok, 0), (states, b)) in
  let marks state :=
    ((TpmStatus.Ok, 0), (<[Z.to_nat (locality request mod 256) := state]> states, registered)) in
  if decide (opcode request = 0x0f000001) then answers TpmStatus.OkResultsReturned 0x10000
  else if decide (opcode request = 0x0f000101) then
    if decide (function request = 0x0f000301) then answers TpmStatus.OkResultsReturned 1
    else answers TpmStatus.NotSup 0
  else if decide (opcode request = 0x0f000301) then
    if registered then answers TpmStatus.Already 0 else registers true
  else if decide (opcode request = 0x0f000401) then
    if registered then registers false else answers TpmStatus.Denied 0
  else if decide (opcode request = 0x0f000501) then
    answers (if registered then TpmStatus.Ok else TpmStatus.Denied) 0
  else if decide (opcode request = 0x1f000001) then
    if decide (Z.land source 0xFF00 = 0xFF00) then
      if decide (5 <= locality request mod 256) then answers TpmStatus.InvArg 0
      else if decide (function request mod 65536 = 0) then marks Open
      else if decide (function request mod 65536 = 1) then marks Closed
      else answers TpmStatus.InvArg 0
    else answers TpmStatus.Denied 0
  else answers TpmStatus.NoFunc 0.

(** A request with its answer: one of the others, a start (0x0f000201) that is
    refused, or a start carried out by one call of the driver on the request's
    registers. *)
Inductive tpm_step {W T} `{TpmSstOps W T} (source : Z) (request : TpmRequest) :
    TpmDevice T * W -> TpmStatus.t * Z -> TpmDevice T * W -> Prop :=
  | step_local d w answer states registered :
      opcode request <> 0x0f000201 ->
      local_reference source request (locality_states (svc d)) (notification_registered (svc d)) =
        (answer, (states, registered)) ->
      tpm_step source request (d, w) answer
        (upd_svc (fun s => set_locality_states states (set_notification_registered registered s)) d, w)
  | step_refused d w status :
      opcode request = 0x0f000201 ->
      start_plan (sst_idle_bypass_supported (W := W)) d (trunc 16 (function request))
        (trunc 8 (locality request)) = inl status ->
      tpm_step source request (d, w) (status, 0) (clean d, w)
  | step_driver d w c crb status t data w' :
      opcode request = 0x0f000201 ->
      start_plan (sst_idle_bypass_supported (W := W)) d (trunc 16 (function request))
        (trunc 8 (locality request)) = inr c ->
      crbs d !! Z.to_nat (call_locality c) = Some crb ->
      perform c crb (sst (svc d), w) = (Ok (status, with_data_buffer data crb), (t, w')) ->
      Z.of_nat (length data) = CRB_DATA_BUFFER_SIZE -> bytes_ok data ->
      tpm_step source request (d, w) (convert_error_to_status status, 0)
        (clean (committed c status t data d), w').

Lemma local_reference_length source request states registered a states' registered' :
  local_reference source request states registered = (a, (states', registered')) ->
  length states' = length states.
Proof. unfold local_reference. intros Hr. repeat case_match; simplify_eq; by rewrite ?length_insert. Qed.

Section Steps.
Context {W T : Type} `{SstLaws W T}.
Implicit Types (d : TpmDevice T) (w : W).
#[local] Abbreviation bypass := (sst_idle_bypass_supported (W := W) (T := T)).

Lemma carry_out_step c d w :
  device_wf d -> 0 <= call_locality c < NUM_LOCALITIES ->
  exists status t data w', carry_out c d w =
      (convert_error_to_status status, committed c status t data d, w') /\
    (Z.of_nat (length data) = CRB_DATA_BUFFER_SIZE /\ bytes_ok data) /\
    exists crb, crbs d !! Z.to_nat (call_locality c) = Some crb /\
      perform c crb (sst (svc d), w) = (Ok (status, with_data_buffer data crb), (t, w')).
Proof.
  intros (_ & _ & Hlen & Hok) Hc. unfold carry_out, NUM_LOCALITIES in *.
  destruct (lookup_lt_is_Some_2 (crbs d) (Z.to_nat (call_locality c))) as [crb Hcrb]; [lia|].
  rewrite Hcrb. pose proof (Forall_lookup_1 _ _ _ _ Hok Hcrb) as Hdata.
  pose proof (perform_runs c crb (sst (svc d), w) Hdata) as Hr. unfold runs in Hr.
  destruct (perform c crb (sst (svc d), w)) as [[[status crb']|e| |] [t w']] eqn:Hperf; try done.
  destruct Hr as (data & Heq & Hdata'). cbn [snd] in Heq, Hdata'. subst crb'.
  exists status, t, data, w'. split; [|split; [exact Hdata'|by exists crb]].
  assert (upd_crb (call_locality c) (fun _ => with_data_buffer data crb) (upd_svc (set_sst t) d) =
          upd_crb (call_locality c) (with_data_buffer data) (upd_svc (set_sst t) d)) as Hupd.
  { unfold upd_crb. cbn [upd_svc svc crbs]. f_equal. apply list_alter_ext; [|done].
    intros x Hx. congruence. }
  by rewrite Hupd.
Qed.

Lemma committed_wf c status (t : T) data d :
  device_wf d -> 0 <= call_locality c < NUM_LOCALITIES ->
  Z.of_nat (length data) = CRB_DATA_BUFFER_SIZE -> bytes_ok data ->
  device_wf (committed c status t data d).
Proof.
  intros Hd Hc Hl Hb. unfold committed.
  assert (device_wf (upd_crb (call_locality c) (with_data_buffer data) (upd_svc (set_sst t) d)))
    as Hd' by (apply upd_crb_wf; [by apply upd_svc_wf; [|apply Hd..]|done]).
  case_decide; [by apply commit_wf|done].
Qed.

Lemma tpm_step_wf source request d w a d' w' :
  tpm_step source request (d, w) a (d', w') -> device_wf d -> device_wf d'.
Proof.
  intros Hs Hd.
  inversion Hs as [? ? ? states registered Ho Hl|? ? ? Ho Hp|? ? c ? ? ? ? ? Ho Hp ? ? Hl Hb];
    subst; clear Hs.
  - apply local_reference_length in Hl. apply upd_svc_wf; [done|apply Hd|].
    cbn. rewrite Hl. apply Hd.
  - by apply clean_wf.
  - apply clean_wf, committed_wf; try done.
    apply start_plan_allowed in Hp; [|done|apply trunc_range; lia].
    destruct Hp as (? & -> & _). done.
Qed.

Lemma set_locality_state_step l state d w :
  device_wf d -> 0 <= l < NUM_LOCALITIES ->
  set_locality_state l state (d, w) =
    (Ok tt, (upd_svc (fun s => set_locality_states (<[Z.to_nat l := state]> (locality_states (svc d)))
       (set_notification_registered (notification_registered (svc d)) s)) d, w)).
Proof.
  intros (_ & Hlen & _) Hl. unfold set_locality_state, self, mbind, stM_bind. cbn [fst snd].
  unfold NUM_LOCALITIES in Hl. rewrite decide_True by lia. by destruct d as [[] ?].
Qed.

Lemma local_same d :
  upd_svc (fun s => set_locality_states (locality_states (svc d))
             (set_notification_registered (notification_registered (svc d)) s)) d = d.
Proof. by destruct d as [[] ?]. Qed.

(** Every request but start does what the table says. *)
Lemma local_dispatch source request d w :
  device_wf d -> opcode request <> discr Start ->
  tpm_dispatch source request (d, w) =
    let '(a, (states, registered)) :=
      local_reference source request (locality_states (svc d)) (notification_registered (svc d)) in
    (Ok a, (upd_svc (fun s => set_locality_states states
              (set_notification_registered registered s)) d, w)).
Proof.
  intros Hd Ho. unfold tpm_dispatch, local_reference. cbv zeta.
  destruct (try_from_primitive (opcode request)) as [f|] eqn:Hop.
  2: { assert (forall f : TpmFunction, opcode request <> discr f) as Hn.
       { intros f Hf. rewrite Hf, try_from_primitive_discr in Hop. discriminate. }
       rewrite !(decide_False (P := opcode request = _));
         [by (cbv beta iota; rewrite local_same)|exact (Hn ManageLocality)|exact (Hn FinishNotified)
         |exact (Hn UnregisterForNotification)|exact (Hn RegisterForNotification)
         |exact (Hn GetFeatureInfo)|exact (Hn GetInterfaceVersion)]. }
  apply try_from_primitive_Some in Hop. rewrite <- Hop in Ho |- *.
  destruct f; cbn [discr tpm_function_enum]; try done;
    repeat match goal with |- context [decide (Zpos ?p = Zpos ?q)] =>
      first [ rewrite (decide_True (P := Zpos p = Zpos q)) by reflexivity
            | rewrite (decide_False (P := Zpos p = Zpos q)) by discriminate ] end.
  - by (cbv beta iota; rewrite local_same).
  - unfold get_feature_info_handler. change (discr RegisterForNotification) with 0x0f000301.
    case_decide; by (cbv beta iota; rewrite local_same).
  - unfold register_handler, self, update, modify_fst, mbind, stM_bind. cbn [fst snd].
    destruct d as [[? ? ? ? ? []] ?]; reflexivity.
  - unfold unregister_handler, self, update, modify_fst, mbind, stM_bind. cbn [fst snd].
    destruct d as [[? ? ? ? ? []] ?]; reflexivity.
  - unfold finish_handler, self, mbind, stM_bind. cbn [fst snd].
    destruct d as [[? ? ? ? ? []] ?]; reflexivity.
  - destruct (decide (Z.land source 0xFF00 = 0xFF00)) as [Hsrc|Hsrc].
    2: { rewrite decide_True by done. by (cbv beta iota; rewrite local_same). }
    rewrite decide_False by (intros Hn; by apply Hn).
    unfold manage_locality_handler, NUM_LOCALITIES. cbv zeta.
    change (trunc 16 (function request)) with (function request mod 65536).
    change (trunc 8 (locality request)) with (locality request mod 256).
    pose proof (Z.mod_pos_bound (locality request) 256 eq_refl) as Hl.
    unfold TPM2_FFA_MANAGE_LOCALITY_OPEN, TPM2_FFA_MANAGE_LOCALITY_CLOSE, mbind, stM_bind.
    case_decide; [by (cbv beta iota; rewrite local_same)|].
    case_decide; [|case_decide; [|by (cbv beta iota; rewrite local_same)]];
      by rewrite set_locality_state_step by (done || unfold NUM_LOCALITIES; lia).
Qed.

Lemma local_payload source request states registered :
  is_u 64 (local_reference source request states registered).1.2.
Proof. unfold local_reference. repeat case_match; done. Qed.

(** The start handler takes one of the two start steps. *)
Lemma start_step source request d w :
  device_wf d -> opcode request = discr Start ->
  exists status d' w', start_handler request (d, w) = (Ok status, (d', w')) /\
    tpm_step source request (d, w) (status, 0) (d', w').
Proof.
  intros Hd Ho. rewrite start_handler_reference by done. unfold start_reference.
  destruct (start_plan bypass d _ _) as [status|c] eqn:Hp.
  - do 3 eexists. split; [reflexivity|]. by apply step_refused.
  - pose proof Hp as Hal. apply start_plan_allowed in Hal; [|done|apply trunc_range; lia].
    destruct Hal as (Hl & Hcl & _).
    destruct (carry_out_step c d w Hd) as (status & t & data & w' & -> & [Hdl Hdb] & crb & Hcrb & Hperf);
      [by rewrite Hcl|].
    do 3 eexists. split; [reflexivity|]. by eapply step_driver.
Qed.

(** Every request is one of the steps. *)
Lemma tpm_dispatch_step source request d w :
  device_wf d ->
  exists a d' w', tpm_dispatch source request (d, w) = (Ok a, (d', w')) /\
    tpm_step source request (d, w) a (d', w') /\ is_u 64 a.2.
Proof.
  intros Hd. destruct (decide (opcode request = discr Start)) as [Ho|Ho].
  - unfold tpm_dispatch. rewrite Ho, try_from_primitive_discr. unfold mbind, stM_bind.
    destruct (start_step source request d w Hd Ho) as (st & d' & w' & -> & Hs).
    by exists (st, 0), d', w'.
  - rewrite local_dispatch by done.
    pose proof (local_payload source request (locality_states (svc d)) (notification_registered (svc d))) as Hu.
    destruct (local_reference _ _ _ _) as [a [states registered]] eqn:Hr.
    do 3 eexists. split; [reflexivity|]. split; [by apply step_local|exact Hu].
Qed.
End Steps.

(** *** What a step changes *)

Definition call_state (c : DriverCall) (state : TpmState) : TpmState :=
  match c with
  | CallCmdReady _ => Ready | CallGoIdle _ => Idle | CallStart _ => Complete | _ => state
  end.

Definition call_active (c : DriverCall) (active : Z) : Z :=
  match c with CallRequest l => l | CallRelinquish _ => NO_ACTIVE_LOCALITY | _ => active end.

Section Effects.
Context {T : Type}.
Implicit Types (d : TpmDevice T).

Lemma committed_svc c status (t : T) data d :
  svc (committed c status t data d) =
    if decide (status = ErrorCode.Ok) then
      set_sst t (set_active_locality (call_active c (active_locality (svc d)))
        (set_current_state (call_state c (current_state (svc d))) (svc d)))
    else set_sst t (svc d).
Proof.
  unfold committed. case_decide; [|done]. destruct d as [[] ?]; by destruct c.
Qed.

(** Only the call's own block changes. *)
Lemma committed_other c status (t : T) data d i :
  i <> Z.to_nat (call_locality c) -> crbs (committed c status t data d) !! i = crbs d !! i.
Proof.
  intros Hi. unfold committed.
  case_decide; destruct c; cbn [commit upd_crb upd_svc crbs call_locality] in *;
    by rewrite ?list_lookup_alter_ne.
Qed.

(** The buffer of the call's block. *)
Lemma committed_buffer c status (t : T) data d :
  0 <= call_locality c -> is_Some (crbs d !! Z.to_nat (call_locality c)) ->
  crb_data_buffer <$> (crbs (committed c status t data d) !! Z.to_nat (call_locality c)) =
    Some (if decide (status = ErrorCode.Ok) then
            match c with
            | CallRequest _ | CallRelinquish _ => replicate (Z.to_nat CRB_DATA_BUFFER_SIZE) 0
            | CallStart _ => data
            | _ => if decide (current_state (svc d) = Complete)
                   then replicate (Z.to_nat CRB_DATA_BUFFER_SIZE) 0 else data
            end
          else data).
Proof.
  intros Hl [crb Hcrb]. unfold committed.
  destruct (decide (status = ErrorCode.Ok)) as [_|_];
    [destruct c|]; cbn [commit upd_crb upd_svc svc crbs call_locality set_sst current_state] in *;
    try case_decide; rewrite ?list_lookup_alter_eq, Hcrb; reflexivity.
Qed.

Lemma convert_ok status : convert_error_to_status status = TpmStatus.Ok <-> status = ErrorCode.Ok.
Proof. by destruct status. Qed.
End Effects.

(** The edges of the PTP's state diagram; a second command, or going back to
    ready after one, needs the idle bypass. *)
Inductive ptp_edge (bypass : bool) : TpmState -> TpmState -> Prop :=
  | edge_cmd_ready : ptp_edge bypass Idle Ready
  | edge_ready_idle : ptp_edge bypass Ready Idle
  | edge_start : ptp_edge bypass Ready Complete
  | edge_complete_idle : ptp_edge bypass Complete Idle
  | edge_complete_ready : bypass = true -> ptp_edge bypass Complete Ready.

Lemma command_call_edge state request start bypass l c :
  command_call state request start bypass l = Some c ->
  call_state c state = state \/ ptp_edge bypass state (call_state c state).
Proof.
  unfold command_call. intros Hc. destruct state; repeat case_match; simplify_eq; cbn [call_state];
    auto using ptp_edge.
Qed.

(** *** The driver of [TpmSst] *)

#[export] Instance tpm_sst_laws {W} `{PlatformLaws W} fuel (Hfuel : fuel_ok fuel) :
  SstLaws W TpmSst (H := tpm_sst_ops fuel).
Proof.
  assert (forall op l (tw : TpmSst * W),
    runs (with_self (fun self => run_op (E := Error.t) fuel op self l)) tw (fun _ _ => True) no_error)
    as Hop.
  { intros op l tw. unfold runs, with_self. apply runs_on_snd.
    eapply runs_mono; [by apply run_op_runs|done|done]. }
  split.
  - intros l tw. apply (Hop CmdReady).
  - intros l tw. apply (Hop GoIdle).
  - intros l crb tw Hcrb. cbn [sst_start tpm_sst_ops]. unfold runs, with_self. apply runs_on_snd.
    eapply runs_mono; [by apply start_runs| |done]. intros [s crb'] w' Hst. cbn [fst snd].
    exact (started_data _ _ _ _ _ _ Hcrb Hst).
  - intros l tw. apply (Hop LocalityRequest).
  - intros l tw. apply (Hop LocalityRelinquish).
  - intros [t w]. unfold runs. cbn [sst_init tpm_sst_ops TpmSst.init].
    by destruct (read_u32 (tpm_crb_address t + Crb.interface_id) w).
Qed.

(** ** A concrete service

    A driver that agrees to everything and answers every command with its
    first byte repeated; its state counts the calls. *)
#[export] Instance agreeable : TpmSstOps unit nat := {|
  sst_go_idle _ := fun tw => (Ok ErrorCode.Ok, (S tw.1, tw.2));
  sst_cmd_ready _ := fun tw => (Ok ErrorCode.Ok, (S tw.1, tw.2));
  sst_start _ crb := fun tw =>
    (Ok (ErrorCode.Ok, with_data_buffer ((fun _ => 0x5A) <$> crb_data_buffer crb) crb), (S tw.1, tw.2));
  sst_locality_request _ := fun tw => (Ok ErrorCode.Ok, (S tw.1, tw.2));
  sst_locality_relinquish _ := fun tw => (Ok ErrorCode.Ok, (S tw.1, tw.2));
  sst_idle_bypass_supported _ := false;
  sst_init := fun tw => (Ok tt, tw);
|}.

#[export] Instance agreeable_laws : SstLaws unit nat.
Proof.
  split; try done. intros l crb tw [Hl Hb]. unfold runs. cbn [sst_start agreeable fst snd].
  eexists. split; [reflexivity|]. split; cbn [with_data_buffer crb_data_buffer].
  - by rewrite length_fmap.
  - apply Forall_fmap, Forall_true. intros x. split; done.
Qed.

(** The service after [init]. *)
Definition sample_device : TpmDevice nat :=
  mkDevice (tpm_new 0%nat 0x10000000) (replicate 5 (initialised 0 0)).

(** ** A client's session *)

(** A driver that agrees to every call. *)
Class Cooperative (W T : Type) `{TpmSstOps W T} : Prop := {
  cooperative c crb tw : exists crb' tw', perform c crb tw = (Ok (ErrorCode.Ok, crb'), tw');
}.

Section Session.
Context `{UuidOps} {W T : Type} `{TpmSstOps W T}.

(** The client writes a register of its locality and sends a start request. *)
Definition client_start (l f : Z) (write : PtpCrbRegisters -> PtpCrbRegisters) :
    stM (TpmDevice T * W) Error.t TpmStatus.t :=
  _ ← write_crb l write;
  start_handler {| opcode := discr Start; function := f; locality := l |}.

(** Request the locality, make ready, execute, go idle, relinquish. *)
Definition session (l : Z) : stM (TpmDevice T * W) Error.t (list TpmStatus.t) :=
  a ← client_start l 1 (set_control 1);
  b ← client_start l 0 (set_request_start 1 0);
  c ← client_start l 0 (set_request_start 0 1);
  d ← client_start l 0 (set_request_start 2 0);
  e ← client_start l 1 (set_control 2);
  mret [a; b; c; d; e].
End Session.

Section SessionLemmas.
Context {W T : Type} `{SstLaws W T} `{!Cooperative W T}.
Implicit Types (d : TpmDevice T) (w : W).

(** Between two requests of the session. *)
Definition resting (l : Z) (state : TpmState) (active : Z) d : Prop :=
  device_wf d /\ locality_states (svc d) !! Z.to_nat l = Some Open /\
  current_state (svc d) = state /\ active_locality (svc d) = active.

(** A start whose plan is [c] succeeds and commits [c]. *)
Lemma client_start_ok l f write c state active d w :
  0 <= l < NUM_LOCALITIES -> 0 <= f < 2 -> resting l state active d ->
  (forall crb, data_ok crb -> data_ok (write crb)) ->
  start_plan (sst_idle_bypass_supported (W := W)) (upd_crb l write d) f l = inr c ->
  call_locality c = l ->
  runs (client_start l f write) (d, w)
    (fun s dw => s = TpmStatus.Ok /\ resting l (call_state c state) (call_active c active) dw.1)
    no_error.
Proof.
  intros Hl Hf (Hd & Hopen & Hstate & Hact) Hwrite Hplan Hcl.
  assert (device_wf (upd_crb l write d)) as Hd1 by (by apply upd_crb_wf).
  unfold client_start. apply runs_bind. cbn [runs write_crb modify_fst fst snd].
  unfold runs. rewrite start_handler_reference by done. unfold start_reference.
  cbn [function locality]. rewrite !trunc_small by (unfold NUM_LOCALITIES, is_u in *; lia).
  rewrite Hplan.
  destruct (carry_out_step c (upd_crb l write d) w Hd1) as (status & t & data & w' & Hc & [Hdl Hdb] & _);
    [by rewrite Hcl|].
  rewrite Hc. assert (status = ErrorCode.Ok) as ->.
  { unfold carry_out in Hc. rewrite Hcl in Hc.
    destruct (crbs (upd_crb l write d) !! Z.to_nat l) as [crb|] eqn:Hcrb.
    - destruct (cooperative c crb (sst (svc (upd_crb l write d)), w)) as (crb' & [t' w''] & Hp).
      rewrite Hp in Hc. injection Hc as Hs _ _. by apply convert_ok.
    - exfalso. apply lookup_ge_None in Hcrb. destruct Hd1 as (_ & _ & Hlen & _).
      unfold NUM_LOCALITIES in Hl. lia. }
  split; [done|]. cbn [fst]. unfold resting. rewrite clean_svc, committed_svc, decide_True by done.
  split; [apply clean_wf, committed_wf; try done; by rewrite Hcl|].
  cbn [svc upd_crb current_state active_locality locality_states set_sst set_active_locality
    set_current_state]. by rewrite Hstate, Hact.
Qed.

(** The plan of a start, after the client's write. *)
Lemma poked_plan l state active d f write :
  0 <= l < NUM_LOCALITIES -> resting l state active d -> exists crb,
    start_plan (sst_idle_bypass_supported (W := W)) (upd_crb l write d) f l =
      if decide (f = 0)
      then plan_command (sst_idle_bypass_supported (W := W)) (upd_crb l write d) l (write crb)
      else if decide (f = 1) then plan_locality (upd_crb l write d) l (write crb)
      else inl TpmStatus.InvArg.
Proof.
  intros Hl ((_ & _ & Hlen & _) & Hopen & _ & _).
  destruct (lookup_lt_is_Some_2 (crbs d) (Z.to_nat l)) as [crb Hcrb];
    [unfold NUM_LOCALITIES in *; lia|].
  exists crb. unfold start_plan. cbn [upd_crb crbs svc].
  by rewrite list_lookup_alter_eq, Hcrb, Hopen.
Qed.

Lemma poked_command l state d request start c :
  0 <= l < NUM_LOCALITIES -> resting l state l d -> request <> 0 \/ start <> 0 ->
  command_call state request start (sst_idle_bypass_supported (W := W) (sst (svc d))) l = Some c ->
  start_plan (sst_idle_bypass_supported (W := W))
    (upd_crb l (set_request_start request start) d) 0 l = inr c.
Proof.
  intros Hl Hr Hne Hc. destruct (poked_plan l _ _ d 0 (set_request_start request start) Hl Hr) as (crb & ->).
  rewrite decide_True by done. unfold plan_command.
  cbn [set_request_start crb_control_request crb_control_start upd_crb svc].
  destruct Hr as (_ & _ & Hs & Ha). rewrite Ha, Hs, Hc.
  rewrite (decide_False (P := l <> l)) by (intros Hn; by apply Hn).
  by rewrite decide_False by lia.
Qed.

Lemma poked_locality l state active d control c :
  0 <= l < NUM_LOCALITIES -> resting l state active d ->
  (control = 1 /\ active = NO_ACTIVE_LOCALITY /\ c = CallRequest l \/
   control = 2 /\ active = l /\ c = CallRelinquish l) ->
  start_plan (sst_idle_bypass_supported (W := W)) (upd_crb l (set_control control) d) 1 l = inr c.
Proof.
  intros Hl Hr Hc. destruct (poked_plan l _ _ d 1 (set_control control) Hl Hr) as (crb & ->).
  rewrite decide_False, decide_True by done. unfold plan_locality.
  cbn [set_control locality_control upd_crb svc]. destruct Hr as (_ & _ & _ & ->).
  destruct Hc as [(-> & -> & ->)|(-> & -> & ->)].
  - change (bit_set 1 2) with false. change (bit_set 1 1) with true. cbv iota.
    by rewrite decide_True by (by left).
  - change (bit_set 2 2) with true. cbv iota. by rewrite decide_True.
Qed.

(** One round of the session: its plan is left to prove, then the state it
    leaves is introduced. *)
Local Ltac round c d Hr :=
  apply runs_bind; eapply runs_mono;
  [ eapply (client_start_ok _ _ _ c); [done|done|exact Hr|done| |done]
  | cbn [call_state call_active]; clear Hr; intros ? [d ?] [-> Hr]; cbn [fst] in Hr
  | done ].

Lemma session_runs l d w :
  0 <= l < NUM_LOCALITIES -> resting l Idle NO_ACTIVE_LOCALITY d ->
  runs (session l) (d, w)
    (fun statuses dw => statuses = replicate 5 TpmStatus.Ok /\
       resting l Idle NO_ACTIVE_LOCALITY dw.1) no_error.
Proof.
  intros Hl Hr. unfold session.
  round (CallRequest l) d1 Hr. { eapply poked_locality; [done|exact Hr|by left]. }
  round (CallCmdReady l) d2 Hr. { eapply poked_command; [done|exact Hr|by left|done]. }
  round (CallStart l) d3 Hr. { eapply poked_command; [done|exact Hr|by right|done]. }
  round (CallGoIdle l) d4 Hr. { eapply poked_command; [done|exact Hr|by left|done]. }
  round (CallRelinquish l) d5 Hr. { eapply poked_locality; [done|exact Hr|by right]. }
  by apply runs_ret.
Qed.
End SessionLemmas.

(** ** The interface identifier *)

Inductive IdField : Type := FieldType | FieldVersion | FieldLocality | FieldBypass | FieldCrb.

#[export] Instance id_field_eq_dec : EqDecision IdField.
Proof. solve_decision. Defined.

Definition id_get (f : IdField) : Z -> Z :=
  match f with
  | FieldType => InterfaceId.interface_type
  | FieldVersion => InterfaceId.interface_version
  | FieldLocality => InterfaceId.cap_locality
  | FieldBypass => InterfaceId.cap_crb_idle_bypass
  | FieldCrb => InterfaceId.cap_crb
  end.

Definition id_set (f : IdField) : Z -> Z -> Z :=
  match f with
  | FieldType => InterfaceId.set_interface_type
  | FieldVersion => InterfaceId.set_interface_version
  | FieldLocality => InterfaceId.set_cap_locality
  | FieldBypass => InterfaceId.set_cap_crb_idle_bypass
  | FieldCrb => InterfaceId.set_cap_crb
  end.

(** Position and width. *)
Definition id_bits (f : IdField) : Z * Z :=
  match f with
  | FieldType => (0, 4) | FieldVersion => (4, 4) | FieldLocality => (8, 1)
  | FieldBypass => (9, 1) | FieldCrb => (14, 1)
  end.

Definition field_get (k m id : Z) : Z := Z.land (Z.shiftr id k) (Z.ones m).
Definition field_set (k m id v : Z) : Z :=
  Z.lor (Z.land id (unot 32 (Z.shiftl (Z.ones m) k))) (Z.shiftl (Z.land v (Z.ones m)) k).

Lemma id_get_field f id : id_get f id = field_get (id_bits f).1 (id_bits f).2 id.
Proof. destruct f; [|done..]. unfold field_get. cbn [id_bits fst]. by rewrite Z.shiftr_0_r. Qed.

Lemma id_set_field f id v : id_set f id v = field_set (id_bits f).1 (id_bits f).2 id v.
Proof. destruct f; [|done..]. unfold field_set. cbn [id_bits fst snd]. by rewrite !Z.shiftl_0_r. Qed.

Lemma testbit_unot_mask w z i :
  is_u w z -> 0 <= i < w -> Z.testbit (unot w z) i = negb (Z.testbit z i).
Proof.
  intros Hz Hi. unfold unot. replace (2 ^ w - 1) with (Z.ones w) by (rewrite Z.ones_equiv; lia).
  rewrite Z.sub_nocarry_ldiff.
  - rewrite Z.ldiff_spec, Z.ones_spec_low by lia. done.
  - apply Z.bits_inj'. intros n Hn. rewrite Z.ldiff_spec, Z.bits_0.
    destruct (decide (n < w)).
    + rewrite Z.ones_spec_low by lia. apply andb_false_r.
    + by rewrite (testbit_high z w n) by (done || lia).
Qed.

Lemma mask_range k m : 0 <= k -> 0 <= m -> k + m <= 32 -> is_u 32 (Z.shiftl (Z.ones m) k).
Proof.
  intros. rewrite Z.shiftl_mul_pow2, Z.ones_equiv by lia. unfold is_u.
  assert (2 ^ m * 2 ^ k <= 2 ^ 32) by (rewrite <- Z.pow_add_r by lia; apply Z.pow_le_mono_r; lia).
  assert (0 < 2 ^ m) by (apply Z.pow_pos_nonneg; lia).
  assert (0 < 2 ^ k) by (apply Z.pow_pos_nonneg; lia). nia.
Qed.

(** The bits of an identifier with one field replaced. *)
Lemma field_set_bits k m id v i :
  0 <= k -> 0 <= m -> k + m <= 32 -> is_u 32 id -> 0 <= i ->
  Z.testbit (field_set k m id v) i =
    if decide (k <= i < k + m) then Z.testbit v (i - k) else Z.testbit id i.
Proof.
  intros Hk Hm Hkm Hid Hi. unfold field_set. rewrite Z.lor_spec, Z.land_spec, Z.shiftl_spec by done.
  pose proof (mask_range k m Hk Hm Hkm) as Hmask.
  assert (Z.testbit (Z.shiftl (Z.ones m) k) i = bool_decide (k <= i < k + m)) as Hmb.
  { rewrite Z.shiftl_spec by done. destruct (decide (k <= i)).
    - rewrite Z.testbit_ones by lia. case_bool_decide; lia.
    - rewrite Z.testbit_neg_r by lia. by rewrite bool_decide_false by lia. }
  assert (Z.testbit (Z.land v (Z.ones m)) (i - k) =
          if decide (k <= i < k + m) then Z.testbit v (i - k) else false) as Hv.
  { destruct (decide (k <= i)); [|rewrite Z.testbit_neg_r by lia; by rewrite decide_False by lia].
    rewrite Z.land_spec, Z.testbit_ones by lia. destruct (decide (k <= i < k + m)).
    - rewrite (proj2 (Z.leb_le 0 (i - k))), (proj2 (Z.ltb_lt (i - k) m)) by lia. by rewrite andb_true_r.
    - rewrite (proj2 (Z.ltb_ge (i - k) m)) by lia. by rewrite !andb_false_r. }
  rewrite Hv. destruct (decide (i < 32)).
  - rewrite testbit_unot_mask, Hmb by (done || lia). destruct (decide (k <= i < k + m)).
    + rewrite bool_decide_true by lia. by rewrite andb_false_r.
    + rewrite bool_decide_false by lia. by rewrite andb_true_r, orb_false_r.
  - rewrite (testbit_high id 32 i) by (done || lia). by rewrite decide_False by lia.
Qed.

Lemma field_get_bits k m id i :
  0 <= k -> 0 <= m -> 0 <= i ->
  Z.testbit (field_get k m id) i = if decide (i < m) then Z.testbit id (i + k) else false.
Proof.
  intros Hk Hm Hi. unfold field_get. rewrite Z.land_spec, Z.shiftr_spec, Z.testbit_ones by lia.
  case_decide.
  - rewrite (proj2 (Z.leb_le 0 i)), (proj2 (Z.ltb_lt i m)) by lia. by rewrite andb_true_r.
  - rewrite (proj2 (Z.ltb_ge i m)) by lia. by rewrite !andb_false_r.
Qed.

(** *** The handler *)

Section Handler.
Context `{UuidOps} {W T : Type} `{SstLaws W T}.
Implicit Types (d : TpmDevice T) (w : W) (msg : MsgSendDirectReq2).
#[local] Abbreviation bypass := (sst_idle_bypass_supported (W := W) (T := T)).

(** The status codes of the TPM service interface. *)
Definition status_code (s : TpmStatus.t) : Z :=
  match s with
  | TpmStatus.Ok => 0x05000001 | TpmStatus.OkResultsReturned => 0x05000002
  | TpmStatus.NoFunc => 0x8e000001 | TpmStatus.NotSup => 0x8e000002
  | TpmStatus.InvArg => 0x8e000005 | TpmStatus.InvCrbCtrlData => 0x8e000006
  | TpmStatus.Already => 0x8e000009 | TpmStatus.Denied => 0x8e00000a
  | TpmStatus.NoMem => 0x8e00000b
  end.

(** A status and a payload, in the first two registers of the reply. *)
Definition tpm_reply (a : TpmStatus.t * Z) : DirectMessagePayload :=
  padded (to_le_bytes 8 (status_code a.1) ++ to_le_bytes 8 a.2).

Lemma tpm_reply_wf a : is_u 64 a.2 -> payload_wf (tpm_reply a).
Proof.
  intros Ha. apply padded_wf.
  - rewrite length_app, !length_to_le_bytes. unfold PAYLOAD_LEN. lia.
  - apply Forall_app. split; apply to_le_bytes_ok.
Qed.

(** A handled message is a dispatched request, with the answer as the reply. *)
Lemma tpm_handle_dispatch msg request d w a d' w' :
  tpm_request_from (E := Error.t) msg = Ok request ->
  tpm_dispatch (source_id (req_message msg)) request (d, w) = (Ok a, (d', w')) ->
  tpm_handle msg (d, w) = (Ok (from_req_with_payload msg (tpm_reply a)), (d', w')).
Proof.
  intros Hreq Hr. unfold tpm_handle. rewrite Hreq. unfold mbind, stM_bind, lift. rewrite Hr.
  destruct a as [st p]. unfold tpm_response_payload.
  rewrite payload_from_iter_padded; cbn [fmap list_fmap concat tpm_status tpm_payload].
  - rewrite app_nil_r. by destruct st.
  - rewrite app_nil_r, length_app, !length_to_le_bytes. unfold PAYLOAD_LEN. lia.
Qed.

(** What a message asks: its first three registers. *)
Definition asked msg : TpmRequest :=
  let word i := from_le_bytes (slice (payload_bytes (req_payload msg)) i (i + 8)) in
  {| opcode := word 0%nat; function := word 8%nat; locality := word 16%nat |}.

Lemma tpm_request_from_asked msg :
  message_wf (req_message msg) -> tpm_request_from (E := Error.t) msg = Ok (asked msg).
Proof.
  intros (_ & _ & Hp). fold (req_payload msg) in Hp. unfold tpm_request_from, register_at, u64_at.
  by rewrite !payload_read by exact Hp.
Qed.

Lemma tpm_handle_step msg d w :
  message_wf (req_message msg) -> device_wf d ->
  exists a d' w',
    tpm_handle msg (d, w) = (Ok (from_req_with_payload msg (tpm_reply a)), (d', w')) /\
    tpm_step (source_id (req_message msg)) (asked msg) (d, w) a (d', w') /\ is_u 64 a.2.
Proof.
  intros Hmsg Hd.
  destruct (tpm_dispatch_step (source_id (req_message msg)) (asked msg) d w Hd)
    as (a & d' & w' & Hr & Hs & Hu).
  exists a, d', w'. split; [|by split].
  by eapply tpm_handle_dispatch; [apply tpm_request_from_asked|].
Qed.

#[export] Instance tpm_laws : ServiceLaws W (TpmDevice T).
Proof.
  refine {| svc_inv := device_wf |}. intros req d w Hreq Hd.
  cbn [ffa_msg_send_direct_req2 tpm_service].
  destruct (tpm_handle_step req d w Hreq Hd) as (a & d' & w' & -> & Hs & Hu).
  apply handled_ok; [by apply tpm_reply_wf|]. cbn [compose fst]. by eapply tpm_step_wf.
Defined.
End Handler.

(** A plan never refuses with success. *)
Lemma start_plan_refused {T} (bypass : T -> bool) (d : TpmDevice T) f l status :
  start_plan bypass d f l = inl status ->
  status ∈ [TpmStatus.InvArg; TpmStatus.Denied; TpmStatus.InvCrbCtrlData].
Proof.
  unfold start_plan, plan_command, plan_locality. intros Hp.
  repeat case_match; simplify_eq; set_solver.
Qed.

(** ** Properties *)

(** C12: Every well-formed request gets an answer, never an error or a panic.
    The opcode, the function and the locality are the first three little-endian
    words of the message.  Any request but start is answered, and changes the
    locality states and the registration for notifications, exactly as the
    table of opcodes says, version 1.0, the notification feature, the refusals
    and the secure firmware's source check included.  A start is refused by its
    plan, or it is one call of the driver on the registers of the request's
    locality, answered with what the driver said and committed if it agreed.
    The status' code and the payload go back to the requester, and the five
    localities and their register blocks stay well-formed. *)
Theorem tpm_answers `{UuidOps} {W T} `{SstLaws W T} msg (d : TpmDevice T) (w : W) :
  message_wf (req_message msg) -> device_wf d ->
  exists a d' w',
    tpm_handle msg (d, w) = (Ok (from_req_with_payload msg (tpm_reply a)), (d', w')) /\
    tpm_step (source_id (req_message msg)) (asked msg) (d, w) a (d', w') /\ device_wf d'.
Proof.
  intros Hmsg Hd. destruct (tpm_handle_step msg d w Hmsg Hd) as (a & d' & w' & Hh & Hs & _).
  exists a, d', w'. split_and!; try done. by eapply tpm_step_wf.
Qed.

(** C7: A start request does what its plan says, for any state of the service,
    any register contents and any answer of the driver: the plan is refused
    without reaching the driver, or the one driver call it names is made for
    the request's locality, the state and the registers change only if the
    driver agrees, and the active locality's registers are put in order. *)
Theorem tpm_start_follows_plan {W T} `{SstLaws W T} request (d : TpmDevice T) (w : W) :
  device_wf d ->
  start_handler request (d, w) =
    let '(status, d', w') :=
      start_reference (trunc 16 (function request)) (trunc 8 (locality request)) d w in
    (Ok status, (d', w')).
Proof. intros Hd. by apply start_handler_reference. Qed.

(** The registers a client of the active locality finds, by name and value:
    the locality valid, assigned and named, access granted, everything else it
    may write at rest, and the buffer's place and size.  The buffer is 0x80
    behind the locality's block. *)
Definition in_order (address interface_id active : Z) (state : TpmState) (crb : PtpCrbRegisters) : Prop :=
  let buffer := (address + active * 0x1000) mod 2 ^ 64 + 0x80 in
  Z.land (locality_state crb) (0x82 + 4 * active) = 0x82 + 4 * active /\
  locality_control crb = 0 /\ Z.testbit (locality_status crb) 0 = true /\
  TpmSst.interface_id crb = interface_id /\ crb_control_extension crb = 0 /\
  crb_control_request crb = 0 /\
  crb_control_status crb = (match state with Idle => 2 | _ => 0 end) /\
  crb_control_cancel crb = 0 /\ crb_control_start crb = 0 /\
  crb_interrupt_enable crb = 0 /\ crb_interrupt_status crb = 0 /\
  crb_control_command_size crb = 0xF80 /\ crb_control_response_size crb = 0xF80 /\
  crb_control_command_address_low crb = buffer mod 2 ^ 32 /\
  crb_control_command_address_high crb = buffer / 2 ^ 32 mod 2 ^ 32 /\
  crb_control_response_address crb = buffer.

(** The rest of a block after its locality was granted or given up: no bits of
    other localities, and nothing a former owner has left. *)
Definition handed_over (granted : bool) (l : Z) (crb : PtpCrbRegisters) : Prop :=
  locality_state crb = (if granted then 0x82 + 4 * l else 0) /\
  locality_control crb = 0 /\ locality_status crb = (if granted then 1 else 0) /\
  crb_control_request crb = 0 /\ crb_control_start crb = 0 /\ crb_control_cancel crb = 0 /\
  vid crb = 0 /\ did crb = 0 /\ Forall (eq 0) (reserved1 crb) /\ Forall (eq 0) (reserved2 crb) /\
  Forall (eq 0) (reserved4 crb) /\ Forall (eq 0) (crb_data_buffer crb).

Lemma cleaned_in_order address id active state crb :
  0 <= active < 5 ->
  in_order address id active state
    (cleaned id ((address + active * 0x1000) mod 2 ^ 64 + 0x80) active state crb).
Proof.
  intros Ha. unfold in_order.
  cbn [cleaned locality_state locality_control locality_status TpmSst.interface_id
    crb_control_extension crb_control_request crb_control_status crb_control_cancel
    crb_control_start crb_interrupt_enable crb_interrupt_status crb_control_command_size
    crb_control_response_size crb_control_command_address_low crb_control_command_address_high
    crb_control_response_address].
  rewrite Z.shiftr_div_pow2 by done.
  assert (active = 0 \/ active = 1 \/ active = 2 \/ active = 3 \/ active = 4) as Hcases by lia.
  split_and!; try done.
  - rewrite <- !Z.lor_assoc. set (bits := Z.lor (active_locality_bits active) _).
    replace (0x82 + 4 * active) with bits by (by destruct Hcases as [->|[->|[->|[->| ->]]]]).
    apply Z.bits_inj'. intros n Hn. rewrite Z.land_spec, Z.lor_spec.
    by destruct (Z.testbit (locality_state crb) n), (Z.testbit bits n).
  - rewrite Z.lor_spec. apply orb_true_r.
  - by destruct state.
Qed.

Lemma clean_in_order {T} (d : TpmDevice T) :
  device_wf d -> active_locality (svc d) <> 5 ->
  exists crb, crbs (clean d) !! Z.to_nat (active_locality (svc d)) = Some crb /\
    in_order (tpm_internal_crb_address (svc d)) (interface_id_default (svc d))
      (active_locality (svc d)) (current_state (svc d)) crb.
Proof.
  intros (Ha & _ & Hlen & _) Hne. unfold NUM_LOCALITIES in Ha.
  destruct (lookup_lt_is_Some_2 (crbs d) (Z.to_nat (active_locality (svc d)))) as [crb Hcrb]; [lia|].
  unfold clean. rewrite decide_False by done. cbn [upd_crb crbs]. rewrite list_lookup_alter_eq, Hcrb.
  eexists. split; [reflexivity|]. apply cleaned_in_order. lia.
Qed.

(** A successful locality call starts the block afresh. *)
Lemma handover {T} c status (t : T) data d l :
  device_wf d -> status = ErrorCode.Ok -> 0 <= l < 5 -> c = CallRequest l \/ c = CallRelinquish l ->
  exists crb, crbs (clean (committed c status t data d)) !! Z.to_nat l = Some crb /\
    handed_over (bool_decide (active_locality (svc (committed c status t data d)) = l)) l crb.
Proof.
  intros (_ & _ & Hlen & _) -> Hl Hc.
  destruct (lookup_lt_is_Some_2 (crbs d) (Z.to_nat l)) as [crb Hcrb]; [lia|].
  assert (forall n, Forall (eq 0) (replicate n 0)) as Hz by (intros n; by apply Forall_replicate).
  assert (l = 0 \/ l = 1 \/ l = 2 \/ l = 3 \/ l = 4) as Hcases by lia.
  unfold committed. rewrite decide_True by done. unfold clean.
  destruct Hc as [-> | ->]; cbn [commit call_locality upd_crb upd_svc svc crbs set_sst set_active_locality
    active_locality current_state].
  - rewrite decide_False, bool_decide_true by (done || lia). cbn [upd_crb upd_svc crbs]. rewrite !list_lookup_alter_eq, Hcrb.
    eexists. split; [reflexivity|]. unfold handed_over. split; [|split_and!; first [apply Hz|done]].
    by destruct Hcases as [->|[->|[->|[->| ->]]]].
  - rewrite decide_True, bool_decide_false by (done || lia). cbn [upd_crb upd_svc crbs]. rewrite !list_lookup_alter_eq, Hcrb.
    eexists. split; [reflexivity|]. unfold handed_over. split_and!; first [apply Hz|done].
Qed.

(** C14: After every start request, refused or not and whatever the driver
    answers, the registers of the active locality are in order: the locality
    state is valid and assigned and names the locality, access is granted, the
    request, start, cancel, control and interrupt registers are clear, the
    status shows whether the TPM is idle, and the buffer's size and address are
    those of the locality's own block.  A locality that was just granted, or
    given up, has a block with nothing of a former owner in it: its state and
    status bits are exactly those of the new owner or none, and the reserved
    registers and the whole buffer are zero. *)
Theorem tpm_registers_in_order {W T} `{SstLaws W T} source request (d : TpmDevice T) (w : W) :
  device_wf d -> opcode request = discr Start ->
  exists a d' w', tpm_dispatch source request (d, w) = (Ok a, (d', w')) /\
    let l := locality request mod 256 in
    let active := active_locality (svc d') in
    (active <> 5 -> exists crb, crbs d' !! Z.to_nat active = Some crb /\
       in_order (tpm_internal_crb_address (svc d)) (interface_id_default (svc d)) active
         (current_state (svc d')) crb) /\
    (function request mod 65536 = 1 -> a.1 = TpmStatus.Ok ->
     exists crb, crbs d' !! Z.to_nat l = Some crb /\ handed_over (bool_decide (active = l)) l crb).
Proof.
  intros Hd Hstart. destruct (tpm_dispatch_step source request d w Hd) as (a & d' & w' & Hr & Hs & _).
  exists a, d', w'. split; [exact Hr|]. intros l active. unfold active.
  change (locality request mod 256) with (trunc 8 (locality request)) in l.
  change (function request mod 65536) with (trunc 16 (function request)).
  inversion Hs as [|? ? status Ho Hp|? ? c ? status t data ? Ho Hp Hcrb Hperf Hdl Hdb]; subst; [done| |].
  - split; [intros Hne; rewrite clean_svc in *; by apply clean_in_order|].
    intros _ Hok. cbn [fst] in Hok. apply start_plan_refused in Hp. rewrite Hok in Hp.
    repeat (apply elem_of_cons in Hp as [?|Hp]; [discriminate|]). by apply elem_of_nil in Hp.
  - apply start_plan_allowed in Hp; [|done|apply trunc_range; lia]. fold l in Hp.
    destruct Hp as (Hl & Hcl & _ & Hc). rewrite clean_svc. split.
    + intros Hne. destruct (clean_in_order (committed c status t data d)) as (crb' & Hcrb' & Hin).
      { apply committed_wf; try done. by rewrite Hcl. }
      { exact Hne. }
      exists crb'. split; [exact Hcrb'|]. rewrite committed_svc in Hin at 1 2. rewrite committed_svc.
      rewrite committed_svc in Hin. by case_decide.
    + intros Hf Hok. cbn [fst] in Hok. apply convert_ok in Hok. apply handover; try done.
      destruct c; cbn [call_locality] in Hcl; subst; destruct Hc as (Hf' & _);
        first [by left|by right|congruence].
Qed.

(** The CRB state changes only along the edges of the PTP's state diagram
    (back from complete to ready only with the idle bypass), and only by a
    successful command on the active, open locality. *)
Lemma tpm_state_machine {W T} `{SstLaws W T} source request (d : TpmDevice T) (w : W) :
  device_wf d ->
  exists a d' w', tpm_dispatch source request (d, w) = (Ok a, (d', w')) /\
    let l := trunc 8 (locality request) in
    current_state (svc d') = current_state (svc d) \/
    ptp_edge (sst_idle_bypass_supported (W := W) (sst (svc d))) (current_state (svc d))
      (current_state (svc d')) /\
    a.1 = TpmStatus.Ok /\ opcode request = discr Start /\ trunc 16 (function request) = 0 /\
    l = active_locality (svc d) /\ locality_states (svc d) !! Z.to_nat l = Some Open.
Proof.
  intros Hd. destruct (tpm_dispatch_step source request d w Hd) as (a & d' & w' & Hr & Hs & _).
  exists a, d', w'. split; [exact Hr|].
  intros l. inversion Hs as [|? ? ? Ho Hp|? ? c ? status t data ? Ho Hp]; subst.
  - by left.
  - left. by rewrite clean_svc.
  - rewrite clean_svc, committed_svc. apply start_plan_allowed in Hp; [|done|apply trunc_range; lia].
    destruct Hp as (_ & _ & Hopen & Hc). case_decide as Hok; [|by left].
    cbn [current_state set_sst set_active_locality set_current_state].
    destruct c; try (by left); destruct Hc as (Hf & Ha & req & start & Hcall);
      (destruct (command_call_edge _ _ _ _ _ _ Hcall) as [He|He]; [by left|right]);
      (split; [exact He|]); (split; [by rewrite Hok|]); by rewrite Ha.
Qed.

(** C13: At most one locality is active at a time and it is handed over through
    "none": a step leaves the active locality alone, or a successful locality
    request makes the requested, open locality active when none was, or the
    active one gives itself up; two localities never follow each other
    directly. *)
Theorem tpm_locality_exclusive {W T} `{SstLaws W T} source request (d : TpmDevice T) (w : W) :
  device_wf d ->
  exists a d' w', tpm_dispatch source request (d, w) = (Ok a, (d', w')) /\
    let l := trunc 8 (locality request) in
    let active := active_locality (svc d) in
    let active' := active_locality (svc d') in
    active' = active \/
    (active = NO_ACTIVE_LOCALITY /\ active' = l \/ active = l /\ active' = NO_ACTIVE_LOCALITY) /\
    a.1 = TpmStatus.Ok /\ opcode request = discr Start /\ trunc 16 (function request) = 1 /\
    0 <= l < NUM_LOCALITIES /\ locality_states (svc d) !! Z.to_nat l = Some Open.
Proof.
  intros Hd. destruct (tpm_dispatch_step source request d w Hd) as (a & d' & w' & Hr & Hs & _).
  exists a, d', w'. split; [exact Hr|].
  intros l active active'. inversion Hs as [|? ? ? Ho Hp|? ? c ? status t data ? Ho Hp]; subst.
  - by left.
  - left. unfold active'. by rewrite clean_svc.
  - unfold active', active. rewrite clean_svc, committed_svc.
    apply start_plan_allowed in Hp; [|done|apply trunc_range; lia].
    destruct Hp as (Hl & Hcl & Hopen & Hc). case_decide as Hok; [|by left].
    cbn [active_locality set_sst set_active_locality set_current_state].
    destruct c; cbn [call_active call_locality] in *; try (by left); subst.
    + destruct Hc as (Hf & [Hn|He]); [right|by left]. by split_and!; [left| | | |lia|lia|].
    + destruct Hc as (Hf & He). right. by split_and!; [right| | | |lia|lia|].
Qed.

(** C17: Isolation.  A request touches no register block but those of its own
    and of the active locality.  Requests other than start leave the driver,
    the device and every block alone, and locality management by anyone but a
    partition of the secure firmware (source 0xFFxx) is denied without any
    effect.  A start for a locality that is closed or does not exist, and a
    command for one that is not active, is refused without reaching the
    device. *)
Theorem tpm_isolation {W T} `{SstLaws W T} source request (d : TpmDevice T) (w : W) :
  device_wf d ->
  exists a d' w', tpm_dispatch source request (d, w) = (Ok a, (d', w')) /\
    let l := trunc 8 (locality request) in
    (forall i, i <> Z.to_nat l -> i <> Z.to_nat (active_locality (svc d)) ->
       crbs d' !! i = crbs d !! i) /\
    (opcode request <> discr Start -> sst (svc d') = sst (svc d) /\ crbs d' = crbs d /\ w' = w) /\
    (opcode request = discr ManageLocality -> Z.land source 0xFF00 <> 0xFF00 ->
       a = (TpmStatus.Denied, 0) /\ d' = d) /\
    (opcode request = discr Start ->
       locality_states (svc d) !! Z.to_nat l <> Some Open \/
       trunc 16 (function request) = 0 /\ l <> active_locality (svc d) ->
       (a.1 = TpmStatus.InvArg \/ a.1 = TpmStatus.Denied) /\ d' = clean d /\ w' = w).
Proof.
  intros Hd. destruct (tpm_dispatch_step source request d w Hd) as (a & d' & w' & Hr & Hs & _).
  exists a, d', w'. split; [exact Hr|]. intros l. split_and!.
  - intros i Hi Hi'. inversion Hs as [|? ? ? Ho Hp|? ? c ? status t data ? Ho Hp]; subst; [done| |].
    + by apply clean_other.
    + apply start_plan_allowed in Hp; [|done|apply trunc_range; lia].
      destruct Hp as (_ & Hcl & _ & Hc). fold l in Hcl.
      rewrite clean_other; [apply committed_other; by rewrite Hcl|].
      rewrite committed_svc. case_decide; [|done].
      cbn [active_locality set_sst set_active_locality set_current_state].
      destruct c; cbn [call_active call_locality] in *; try done; by subst.
  - intros Ho. inversion Hs; subst; done.
  - intros Ho Hsrc. unfold tpm_dispatch in Hr. rewrite Ho, try_from_primitive_discr in Hr.
    rewrite decide_True in Hr by done. by injection Hr as <- <- <-.
  - intros Ho Hbad. inversion Hs as [|? ? status ? Hp|? ? c ? ? ? ? ? ? Hp]; subst; [done| |].
    + split; [|done]. cbn [fst]. fold l in Hp. unfold start_plan in Hp.
      destruct (crbs d !! Z.to_nat l); [|injection Hp as <-; by left].
      destruct (locality_states (svc d) !! Z.to_nat l) as [[]|] eqn:Hopen;
        try (injection Hp as <-; auto; fail).
      destruct Hbad as [Hbad|[Hf Hbad]]; [done|]. rewrite decide_True in Hp by done.
      unfold plan_command in Hp. rewrite decide_True in Hp by done. injection Hp as <-. by left.
    + exfalso. apply start_plan_allowed in Hp; [|done|apply trunc_range; lia]. fold l in Hp.
      destruct Hp as (_ & Hcl & Hopen & Hc).
      destruct Hbad as [Hbad|[Hf Hbad]]; [done|].
      rewrite Hf in Hc. destruct c; destruct Hc as (? & Hc); try done; by destruct Hc as [<- _].
Qed.

(** C24: No response outlives its command: when a step leaves the complete
    state, and whenever the active locality changes, the buffer of the
    request's locality is all zeros afterwards. *)
Theorem tpm_buffer_cleared {W T} `{SstLaws W T} source request (d : TpmDevice T) (w : W) :
  device_wf d ->
  exists a d' w', tpm_dispatch source request (d, w) = (Ok a, (d', w')) /\
    (current_state (svc d) = Complete /\ current_state (svc d') <> Complete \/
     active_locality (svc d') <> active_locality (svc d) ->
     crb_data_buffer <$> (crbs d' !! Z.to_nat (trunc 8 (locality request))) =
       Some (replicate (Z.to_nat CRB_DATA_BUFFER_SIZE) 0)).
Proof.
  intros Hd. destruct (tpm_dispatch_step source request d w Hd) as (a & d' & w' & Hr & Hs & _).
  exists a, d', w'. split; [exact Hr|].
  intros Hleft. set (l := trunc 8 (locality request)) in *.
  inversion Hs as [|? ? ? Ho Hp|? ? c ? status t data ? Ho Hp]; subst.
  - exfalso. by destruct Hleft as [[? ?]|?].
  - exfalso. rewrite clean_svc in Hleft. by destruct Hleft as [[? ?]|?].
  - apply start_plan_allowed in Hp; [|done|apply trunc_range; lia]. fold l in Hp.
    destruct Hp as (Hl & Hcl & _ & Hc). rewrite clean_buffer. rewrite <- Hcl.
    rewrite clean_svc, committed_svc in Hleft. destruct Hd as (_ & _ & Hlen & _).
    rewrite committed_buffer; [|lia|apply lookup_lt_is_Some_2; unfold NUM_LOCALITIES in *; lia].
    f_equal. case_decide; [|by exfalso; destruct Hleft as [[? ?]|?]].
    cbn [current_state active_locality set_sst set_active_locality set_current_state] in Hleft.
    destruct c; cbn [call_state call_active] in Hleft; try done;
      (destruct Hleft as [[? ?]|?]; [|done]); by rewrite decide_True || done.
Qed.

(** C40: A locality that is closed while it is active blocks the TPM: until it
    is opened again no start of any locality succeeds, its own relinquish
    included, and neither the state nor the active locality changes. *)
Theorem tpm_closed_active_blocks {W T} `{SstLaws W T} source request (d : TpmDevice T) (w : W) :
  device_wf d -> opcode request = discr Start ->
  locality_states (svc d) !! Z.to_nat (active_locality (svc d)) = Some Closed ->
  exists a d' w', tpm_dispatch source request (d, w) = (Ok a, (d', w')) /\
    a.1 <> TpmStatus.Ok /\ svc d' = svc d.
Proof.
  intros Hd Hstart Hclosed.
  destruct (tpm_dispatch_step source request d w Hd) as (a & d' & w' & Hr & Hs & _).
  exists a, d', w'. split; [exact Hr|].
  inversion Hs as [|? ? status ? Hp|? ? c ? ? ? ? ? ? Hp]; subst.
  - done.
  - rewrite clean_svc. split; [|done]. apply start_plan_refused in Hp. cbn [fst].
    intros ->. repeat (apply elem_of_cons in Hp as [?|Hp]; [discriminate|]). by apply elem_of_nil in Hp.
  - exfalso. apply start_plan_allowed in Hp; [|done|apply trunc_range; lia].
    destruct Hp as (Hl & _ & Hopen & Hc). destruct Hd as (_ & Hlen & _).
    assert (active_locality (svc d) = trunc 8 (locality request) \/
            active_locality (svc d) = NO_ACTIVE_LOCALITY) as [Ha|Ha] by (destruct c; tauto);
      rewrite Ha in Hclosed; [congruence|].
    apply lookup_lt_Some in Hclosed. unfold NO_ACTIVE_LOCALITY, NUM_LOCALITIES in *. lia.
Qed.

(** The accessors of the interface identifier are lenses on separate bits:
    a setter stores its value's low bits, where the getter finds them, and no
    other field changes. *)
Lemma interface_id_fields f g id v :
  is_u 32 id -> is_u 32 v ->
  id_get f (id_set g id v) = if decide (f = g) then v mod 2 ^ (id_bits f).2 else id_get f id.
Proof.
  intros Hid Hv. rewrite !id_get_field, id_set_field.
  assert (forall f, 0 <= (id_bits f).1 /\ 0 <= (id_bits f).2 /\ (id_bits f).1 + (id_bits f).2 <= 32)
    as Hbits by (intros []; cbn; lia).
  pose proof (Hbits f) as (Hk & Hm & Hkm). pose proof (Hbits g) as (Hk' & Hm' & Hkm').
  apply Z.bits_inj'. intros i Hi. rewrite field_get_bits, field_set_bits by (done || lia).
  destruct (decide (f = g)) as [->|Hfg].
  - rewrite <- Z.land_ones, Z.land_spec, Z.testbit_ones by lia.
    destruct (decide (i < (id_bits g).2)).
    + rewrite decide_True by lia. rewrite (proj2 (Z.leb_le 0 i)), (proj2 (Z.ltb_lt i _)) by lia.
      rewrite andb_true_r. f_equal. lia.
    + rewrite (proj2 (Z.ltb_ge i _)) by lia. by rewrite !andb_false_r.
  - rewrite field_get_bits by done. destruct (decide (i < (id_bits f).2)); [|done].
    rewrite decide_False; [done|]. destruct f, g; cbn in *; lia || done.
Qed.

Lemma init_crbs_all {W T} (d : TpmDevice T) (w : W) :
  length (crbs d) = 5%nat ->
  exists d', init_crbs [0; 1; 2; 3; 4] (d, w) = (Ok tt, (d', w)) /\ svc d' = svc d /\
    crbs d' = (fun l => initialised (interface_id_default (svc d)) (buffer_ptr (svc d) l)) <$> [0; 1; 2; 3; 4].
Proof.
  intros Hc. destruct d as [s cs]. cbn [svc crbs] in *.
  destruct cs as [|c0 [|c1 [|c2 [|c3 [|c4 [|]]]]]]; try discriminate Hc.
  eexists. split; [reflexivity|]. by split.
Qed.

(** [init] puts the service into its initial state whatever it was before:
    idle, no active locality, localities 0 and 1 open and the others closed, no
    registration, and every register block zeroed but for the idle status, the
    buffer's address and size and the identifier, which announces a CRB
    interface of version 1 with five localities and without idle bypass. *)
Lemma tpm_init_state {W T} `{SstLaws W T} (d : TpmDevice T) (w : W) :
  length (locality_states (svc d)) = 5%nat -> length (crbs d) = 5%nat ->
  exists d' w', init (d, w) = (Ok tt, (d', w')) /\
    sst_init (sst (svc d), w) = (Ok tt, (sst (svc d'), w')) /\ device_wf d' /\
    current_state (svc d') = Idle /\ active_locality (svc d') = NO_ACTIVE_LOCALITY /\
    locality_states (svc d') = [Open; Open; Closed; Closed; Closed] /\
    notification_registered (svc d') = false /\
    crbs d' = (fun l => initialised default_interface_id (buffer_ptr (svc d) l)) <$> [0; 1; 2; 3; 4] /\
    (fun f => id_get f default_interface_id) <$>
      [FieldType; FieldVersion; FieldLocality; FieldBypass; FieldCrb] = [1; 1; 1; 0; 1].
Proof.
  intros Hs Hc. set (d1 := upd_svc (set_interface_id_default default_interface_id) d).
  destruct (init_crbs_all d1 w Hc) as (d2 & Hrun & Hsvc & Hcrbs).
  assert (forall l state states (d0 : TpmDevice T) (w : W),
    locality_states (svc d0) = states -> (Z.to_nat l < length states)%nat ->
    set_locality_state l state (d0, w) =
      (Ok tt, (upd_svc (fun s => set_locality_states (<[Z.to_nat l := state]> (locality_states s)) s) d0, w)))
    as Hset.
  { intros l state states d0 w0 <- Hl. unfold set_locality_state, self, mbind, stM_bind.
    cbn [fst snd]. by rewrite decide_True. }
  destruct (locality_states (svc d)) as [|s0 [|s1 [|s2 [|s3 [|s4 [|]]]]]] eqn:Hst; try discriminate Hs.
  assert (locality_states (svc d2) = [s0; s1; s2; s3; s4]) as Hst2 by (by rewrite Hsvc).
  unfold init. rewrite (bind_ok _ _ _ tt (d1, w)) by done. rewrite (bind_ok _ _ _ _ _ Hrun).
  do 5 (erewrite bind_ok;
    [|eapply Hset; [cbn [upd_svc svc set_locality_states locality_states]; rewrite ?Hst2; reflexivity|vm_compute; lia]]).
  pose proof (sst_init_law (W := W) (T := T)) as Hinit. unfold on_sst, update, modify_fst, mbind, stM_bind.
  cbn [fst snd]. match goal with |- context [sst_init ?tw] => specialize (Hinit tw) end.
  assert (sst (svc d2) = sst (svc d)) as Hsst by (by rewrite Hsvc).
  unfold runs in Hinit. cbn [upd_svc svc set_locality_states sst] in *. rewrite Hsst in *.
  destruct (sst_init _) as [[[]|e| |] [t' w']]; try done.
  do 2 eexists. split; [reflexivity|]. split; [reflexivity|].
  unfold device_wf. cbn -[initialised default_interface_id buffer_ptr fmap list_fmap Z.le].
  rewrite Hst2, Hcrbs. split; [|by split_and!].
  split; [done|]. split; [done|]. split; [done|].
  apply Forall_fmap, Forall_true. intros l. apply data_ok_initialised.
Qed.

(** C23: A client can always finish: from idle, with no active locality, on an
    open locality and a driver that agrees, the sequence request, command
    ready, start, go idle, relinquish (each a register write and a start
    request) is answered with success five times and ends idle, with no active
    locality, ready for the next client. *)
Theorem tpm_session_completes {W T} `{SstLaws W T} `{!Cooperative W T} l (d : TpmDevice T) (w : W) :
  0 <= l < NUM_LOCALITIES -> resting l Idle NO_ACTIVE_LOCALITY d ->
  exists d' w', session l (d, w) = (Ok (replicate 5 TpmStatus.Ok), (d', w')) /\
    resting l Idle NO_ACTIVE_LOCALITY d'.
Proof.
  intros Hl Hr. destruct (runs_ok _ _ _ _ (session_runs l d w Hl Hr)) as (s & [d' w'] & Hs & -> & Hr').
  { by intros ? ? []. }
  by exists d', w'.
Qed.

(** ** Witnesses *)

Section Witnesses.
(** Locality 0, 1 and 2 open, the given registers in every block. *)
Definition bench_device (state : TpmState) (active : Z) (crb : PtpCrbRegisters) : TpmDevice nat :=
  mkDevice (mkTpm state active 0 [Open; Open; Open; Closed; Closed] 0x10000000 false 0%nat)
    (replicate 5 crb).

Lemma bench_device_wf state active crb :
  0 <= active <= 5 -> data_ok crb -> device_wf (bench_device state active crb).
Proof. intros Ha Hc. split; [exact Ha|]. split; [done|]. split; [done|]. by apply Forall_replicate. Qed.

(** Blank registers with the request, start and locality control bits set. *)
Definition bench_crb (request start control : Z) : PtpCrbRegisters :=
  set_request_start request start (set_control control (initialised 0 0)).

Lemma bench_crb_ok request start control : data_ok (bench_crb request start control).
Proof. apply (data_ok_initialised 0 0). Qed.

Definition start_request (f l : Z) : TpmRequest :=
  {| opcode := discr Start; function := f; locality := l |}.

#[export] Instance agreeable_cooperative : Cooperative unit nat.
Proof. split. intros c crb tw. destruct c; cbn; eauto. Qed.

(** The secure firmware opens locality 3. *)
Lemma tpm_answers_witness :
  let msg := req_new 0xFF01 1 uuid_nil
    (padded (to_le_bytes 8 0x1f000001 ++ to_le_bytes 8 0 ++ to_le_bytes 8 3)) in
  let d := bench_device Idle 5 (bench_crb 0 0 0) in
  exists a d' w',
    tpm_handle (H := uuid_model) msg (d, tt) = (Ok (from_req_with_payload msg (tpm_reply a)), (d', w')) /\
    tpm_step 0xFF01 {| opcode := 0x1f000001; function := 0; locality := 3 |} (d, tt) a (d', w') /\
    device_wf d' /\
    a = (TpmStatus.Ok, 0) /\ locality_states (svc d') = [Open; Open; Open; Open; Closed].
Proof.
  intros msg d.
  destruct (tpm_answers (H := uuid_model) msg d tt) as (a & d' & w' & Hh & Hs & Hd).
  - apply (sample_request_wf_from 0xFF01). vm_compute. reflexivity.
  - apply bench_device_wf; [lia|apply bench_crb_ok].
  - exists a, d', w'. split; [exact Hh|]. split; [exact Hs|]. split; [exact Hd|].
    inversion Hs as [? ? ? ? ? _ Hr|? ? ? Ho|? ? ? ? ? ? ? ? Ho]; subst; try discriminate Ho.
    vm_compute in Hr. injection Hr as <- <- <-. by split.
Defined.

Lemma tpm_start_follows_plan_witness :
  let d := bench_device Ready 1 (bench_crb 0 1 0) in
  start_plan (fun _ => false) d 0 1 = inr (CallStart 1) /\
  start_handler (start_request 0 1) (d, tt) =
    let '(status, d', w') := start_reference 0 1 d tt in (Ok status, (d', w')).
Proof.
  intros d. split; [vm_compute; reflexivity|].
  apply (tpm_start_follows_plan (start_request 0 1)).
  apply bench_device_wf; [lia|apply bench_crb_ok].
Defined.

(** Locality 2 is granted: its registers, as its client reads them. *)
Lemma tpm_registers_in_order_witness :
  let d := bench_device Idle 5 (bench_crb 7 7 1) in
  exists a d' w', tpm_dispatch 1 (start_request 1 2) (d, tt) = (Ok a, (d', w')) /\
    active_locality (svc d') = 2 /\
    exists crb, crbs d' !! 2%nat = Some crb /\ in_order 0x10000000 0 2 Idle crb /\
      handed_over true 2 crb /\ locality_state crb = 0x8A.
Proof.
  intros d.
  destruct (tpm_registers_in_order 1 (start_request 1 2) d tt) as (a & d' & w' & Hr & Hin & Hover);
    [apply bench_device_wf; [lia|apply bench_crb_ok]|reflexivity|].
  exists a, d', w'. split; [exact Hr|].
  assert (a = (TpmStatus.Ok, 0) /\ active_locality (svc d') = 2 /\ current_state (svc d') = Idle)
    as (-> & Ha & Hc) by (vm_compute in Hr; injection Hr as <- <- _; by split_and!).
  split; [exact Ha|]. cbv zeta in Hin, Hover. rewrite Ha in *. rewrite Hc in Hin.
  destruct Hin as (crb & Hcrb & Hin); [done|].
  destruct Hover as (crb' & Hcrb' & Hover); [done|done|].
  change (crbs d' !! 2%nat = Some crb) in Hcrb. change (crbs d' !! 2%nat = Some crb') in Hcrb'.
  rewrite Hcrb in Hcrb'. injection Hcrb' as <-.
  exists crb. split; [exact Hcrb|]. split; [exact Hin|]. split; [exact Hover|]. apply Hover.
Defined.

Lemma tpm_locality_exclusive_witness :
  let d := bench_device Idle 5 (bench_crb 0 0 1) in
  active_locality (svc (tpm_dispatch 1 (start_request 1 2) (d, tt)).2.1) = 2 /\
  exists a d' w', tpm_dispatch 1 (start_request 1 2) (d, tt) = (Ok a, (d', w')) /\
    (active_locality (svc d') = 5 \/
     (5 = 5 /\ active_locality (svc d') = 2 \/ 5 = 2 /\ active_locality (svc d') = 5) /\
     a.1 = TpmStatus.Ok /\ discr Start = discr Start /\ 1 = 1 /\ 0 <= 2 < 5 /\
     Some Open = Some Open).
Proof.
  intros d. split; [vm_compute; reflexivity|].
  destruct (tpm_locality_exclusive 1 (start_request 1 2) d tt) as (a & d' & w' & Hr & Hs);
    [apply bench_device_wf; [lia|apply bench_crb_ok]|].
  exists a, d', w'. split; [exact Hr|exact Hs].
Defined.

Lemma tpm_isolation_witness :
  let d := bench_device Idle 1 (bench_crb 1 0 0) in
  exists a d' w', tpm_dispatch 0x0001 (start_request 0 2) (d, tt) = (Ok a, (d', w')) /\
    (a.1 = TpmStatus.InvArg \/ a.1 = TpmStatus.Denied) /\ d' = clean d.
Proof.
  intros d. destruct (tpm_isolation 0x0001 (start_request 0 2) d tt)
    as (a & d' & w' & Hr & _ & _ & _ & Hs).
  { apply bench_device_wf; [lia|apply bench_crb_ok]. }
  exists a, d', w'. split; [exact Hr|].
  destruct Hs as (Ha & Hd & _); [reflexivity| |by split].
  right. vm_compute. by split.
Defined.

Lemma tpm_buffer_cleared_witness :
  let d := bench_device Complete 1 (bench_crb 2 0 0) in
  current_state (svc (tpm_dispatch 1 (start_request 0 1) (d, tt)).2.1) <> Complete /\
  exists a d' w', tpm_dispatch 1 (start_request 0 1) (d, tt) = (Ok a, (d', w')) /\
    (Complete = Complete /\ current_state (svc d') <> Complete \/ active_locality (svc d') <> 1 ->
     crb_data_buffer <$> (crbs d' !! 1%nat) = Some (replicate (Z.to_nat CRB_DATA_BUFFER_SIZE) 0)).
Proof.
  intros d. split; [vm_compute; discriminate|].
  destruct (tpm_buffer_cleared 1 (start_request 0 1) d tt) as (a & d' & w' & Hr & Hs);
    [apply bench_device_wf; [lia|apply bench_crb_ok]|].
  exists a, d', w'. split; [exact Hr|exact Hs].
Defined.

Lemma tpm_closed_active_blocks_witness :
  let d := bench_device Ready 3 (bench_crb 2 0 2) in
  exists a d' w', tpm_dispatch 1 (start_request 0 3) (d, tt) = (Ok a, (d', w')) /\
    a.1 <> TpmStatus.Ok /\ svc d' = svc d.
Proof.
  intros d. apply (tpm_closed_active_blocks 1 (start_request 0 3) d tt).
  - apply bench_device_wf; [lia|apply bench_crb_ok].
  - reflexivity.
  - reflexivity.
Defined.

Lemma tpm_session_completes_witness :
  let d := bench_device Idle 5 (bench_crb 0 0 0) in
  exists d' w', session 2 (d, tt) = (Ok (replicate 5 TpmStatus.Ok), (d', w')) /\
    resting 2 Idle NO_ACTIVE_LOCALITY d'.
Proof.
  intros d. apply (tpm_session_completes 2 d tt); [done|].
  split; [apply bench_device_wf; [lia|apply bench_crb_ok]|done].
Defined.
End Witnesses.
