(* ===== verification/TpmSystem.v ===== *)
(** The TPM service in its surroundings: clients that write their register
    blocks and send requests, over any driver, whose calls are recorded; and
    the service over the driver of [TpmSst], from a request's registers to the
    stores on the TPM's bus.  The history of driver calls is the abstract view
    of the service: replaying it gives the service's state. *)
From Stdlib Require Import ZArith Lia.
From stdpp Require Import relations.
From S2P Require Import Prelude FfaCore FfaMsg FfaFunctions MsgLoop RelayClient TpmSst TpmBus Tpm.
#[local] Open Scope Z_scope.

(** ** The history of a driver *)

(** One call, its answer, and whether the TPM supported the idle bypass. *)
Record Entry : Type := mkEntry { call : DriverCall; answer : ErrorCode.t; bypass : bool }.
Abbreviation History := (list Entry).

(** The state and the active locality a history leads to. *)
Definition replay_step (sa : TpmState * Z) (e : Entry) : TpmState * Z :=
  if decide (answer e = ErrorCode.Ok) then (call_state (call e) sa.1, call_active (call e) sa.2)
  else sa.
Definition replay (h : History) : TpmState * Z := foldl replay_step (Idle, NO_ACTIVE_LOCALITY) h.

(** When a call is in order: commands only from the active locality and only
    along the CRB's state diagram, a locality only when none is active (or
    again for the active one), giving up only by the active one. *)
Definition in_order (sa : TpmState * Z) (e : Entry) : Prop :=
  0 <= call_locality (call e) < NUM_LOCALITIES /\
  match call e with
  | CallRequest l => sa.2 = NO_ACTIVE_LOCALITY \/ sa.2 = l
  | CallRelinquish l => sa.2 = l
  | CallCmdReady l => sa.2 = l /\ (sa.1 = Complete -> bypass e = true)
  | CallGoIdle l => sa.2 = l /\ sa.1 <> Idle
  | CallStart l => sa.2 = l /\ (sa.1 = Ready \/ sa.1 = Complete /\ bypass e = true)
  end.

Inductive legal : History -> Prop :=
  | legal_nil : legal []
  | legal_snoc h e : legal h -> in_order (replay h) e -> legal (h ++ [e]).

(** The locality a legal history has active. *)
Lemma replay_snoc h e : replay (h ++ [e]) = replay_step (replay h) e.
Proof. unfold replay. by rewrite foldl_app. Qed.

Lemma legal_prefix h h' : legal (h ++ h') -> legal h.
Proof.
  induction h' as [|e h' IH] using rev_ind; [by rewrite app_nil_r|].
  rewrite app_assoc. intros Hl. apply IH. inversion Hl as [Hn|h0 e0 Hl0 _ Heq].
  - by destruct (h ++ h').
  - by apply app_inj_tail in Heq as [<- _].
Qed.

Lemma legal_last h e : legal (h ++ [e]) -> in_order (replay h) e.
Proof.
  intros Hl. inversion Hl as [Hn|h0 e0 _ Ho Heq]; [by destruct h|].
  by apply app_inj_tail in Heq as [<- <-].
Qed.

(** The call by which a locality gives the TPM up. *)
Definition gives_up (l : Z) (e : Entry) : Prop := call e = CallRelinquish l /\ answer e = ErrorCode.Ok.
#[export] Instance gives_up_dec l e : Decision (gives_up l e).
Proof. unfold gives_up. apply _. Defined.

Lemma still_active h h' l :
  0 <= l < NUM_LOCALITIES -> legal (h ++ h') -> (replay h).2 = l -> ~ Exists (gives_up l) h' ->
  (replay (h ++ h')).2 = l.
Proof.
  intros Hl Hlegal Hact. induction h' as [|e h' IH] using rev_ind; [by rewrite app_nil_r|].
  rewrite app_assoc in Hlegal |- *. rewrite Exists_app, Exists_cons. intros Hnone.
  specialize (IH (legal_prefix _ _ Hlegal) (fun H => Hnone (or_introl H))).
  apply legal_last in Hlegal as [_ Ho]. rewrite replay_snoc. unfold replay_step.
  case_decide as Ha; [|exact IH]. cbn [snd]. rewrite IH in Ho.
  destruct (call e) eqn:Hc; cbn [call_active]; try exact IH.
  - unfold NO_ACTIVE_LOCALITY, NUM_LOCALITIES in *. lia.
  - exfalso. apply Hnone. right. left. split; [by rewrite Ho|done].
Qed.

(** While a locality holds the TPM, no other locality's call gets through
    before it has given it up. *)
Lemma session_exclusive h h' l e :
  0 <= l < NUM_LOCALITIES -> legal (h ++ h' ++ [e]) -> (replay h).2 = l ->
  call_locality (call e) <> l -> Exists (gives_up l) h'.
Proof.
  intros Hl Hlegal Hact Hne. destruct (decide (Exists (gives_up l) h')) as [?|Hnone]; [done|].
  exfalso. rewrite app_assoc in Hlegal. pose proof (legal_prefix _ _ Hlegal) as Hp.
  pose proof (still_active _ _ _ Hl Hp Hact Hnone) as Hact'.
  apply legal_last in Hlegal as [Hc Ho]. rewrite Hact' in Ho.
  unfold NO_ACTIVE_LOCALITY, NUM_LOCALITIES in *.
  destruct (call e); cbn [call_locality] in *; destruct Ho; lia.
Qed.

(** ** A recording driver *)

Section Recorded.
Context {W T : Type} `{TpmSstOps W T}.
#[local] Abbreviation bypass_of := (sst_idle_bypass_supported (W := W) (T := T)).

(** A driver call on the world with a history in front. *)
Definition record {A} (c : DriverCall) (status : A -> ErrorCode.t) (m : stM (T * W) Error.t A) :
    stM (T * (History * W)) Error.t A := fun '(t, (h, w)) =>
  let '(r, (t', w')) := m (t, w) in
  (r, (t', (match r with Ok a => h ++ [mkEntry c (status a) (bypass_of t)] | _ => h end, w'))).

#[export] Instance recorded : TpmSstOps (History * W) T := {|
  sst_go_idle l := record (CallGoIdle l) id (sst_go_idle l);
  sst_cmd_ready l := record (CallCmdReady l) id (sst_cmd_ready l);
  sst_start l crb := record (CallStart l) fst (sst_start l crb);
  sst_locality_request l := record (CallRequest l) id (sst_locality_request l);
  sst_locality_relinquish l := record (CallRelinquish l) id (sst_locality_relinquish l);
  sst_idle_bypass_supported := bypass_of;
  sst_init := fun '(t, (h, w)) => let '(r, (t', w')) := sst_init (t, w) in (r, (t', (h, w')));
|}.

Lemma perform_recorded c crb t h w :
  perform (W := History * W) c crb (t, (h, w)) =
    let '(r, (t', w')) := perform c crb (t, w) in
    (r, (t', (match r with Ok a => h ++ [mkEntry c a.1 (bypass_of t)] | _ => h end, w'))).
Proof.
  destruct c; cbn [perform sst_go_idle sst_cmd_ready sst_start sst_locality_request
    sst_locality_relinquish recorded]; unfold mbind, stM_bind, record;
    match goal with |- context [?m (t, w)] => by destruct (m (t, w)) as [[] [? ?]] end.
Qed.

Lemma record_runs {A} c status (m : stM (T * W) Error.t A) tw Q :
  (forall t w, runs m (t, w) (fun a _ => Q a) no_error) ->
  runs (record c status m) tw (fun a _ => Q a) no_error.
Proof.
  intros Hm. destruct tw as [t [h w]]. specialize (Hm t w). unfold runs, record in *.
  by destruct (m (t, w)) as [[] [? ?]].
Qed.
End Recorded.

#[export] Instance recorded_laws {W T} `{SstLaws W T} : SstLaws (History * W) T.
Proof.
  split; intros.
  - apply (record_runs _ _ _ _ (fun _ => True)). intros; apply sst_cmd_ready_law.
  - apply (record_runs _ _ _ _ (fun _ => True)). intros; apply sst_go_idle_law.
  - apply (record_runs (CallStart l) fst _ tw
      (fun r => exists data, r.2 = with_data_buffer data crb /\ data_ok r.2)).
    intros; by apply sst_start_law.
  - apply (record_runs _ _ _ _ (fun _ => True)). intros; apply sst_locality_request_law.
  - apply (record_runs _ _ _ _ (fun _ => True)). intros; apply sst_locality_relinquish_law.
  - destruct tw as [t [h w]]. pose proof (sst_init_law (t, w)) as Hi. unfold runs in *.
    cbn [sst_init recorded]. by destruct (sst_init (t, w)) as [[] [? ?]].
Qed.

(** ** Clients, device and service *)

(** A start request runs its reference. *)
Lemma start_dispatch {W T} `{SstLaws W T} source request (d : TpmDevice T) (w : W) :
  device_wf d -> opcode request = discr Start ->
  tpm_dispatch source request (d, w) =
    let '(status, d', w') :=
      start_reference (trunc 16 (function request)) (trunc 8 (locality request)) d w in
    (Ok (status, 0), (d', w')).
Proof.
  intros Hd Ho. unfold tpm_dispatch. rewrite Ho, try_from_primitive_discr.
  unfold mbind, stM_bind. rewrite start_handler_reference by done.
  by destruct (start_reference _ _ d w) as [[status d'] w'].
Qed.

Section System.
Context {W T : Type} `{SstLaws W T}.
#[local] Abbreviation bypass_of := (sst_idle_bypass_supported (W := W) (T := T)).
#[local] Abbreviation State := (TpmDevice T * (History * W))%type.
Implicit Types (d : TpmDevice T) (h : History) (w : W).

(** A client writes its register block, the outside world moves on, or a
    request from any source is handled, by the build with the test feature or
    by the one without. *)
Inductive system_step : State -> State -> Prop :=
  | client_writes l f d hw :
      (forall crb, data_ok crb -> data_ok (f crb)) -> system_step (d, hw) (upd_crb l f d, hw)
  | world_moves d h w w' : system_step (d, (h, w)) (d, (h, w'))
  | request_handled source request d hw a d' hw' :
      tpm_dispatch source request (d, hw) = (Ok a, (d', hw')) -> system_step (d, hw) (d', hw')
  | request_tested source request d hw a d' hw' :
      tpm_dispatch_test source request (d, hw) = (Ok a, (d', hw')) -> system_step (d, hw) (d', hw').

(** The invariant: the service's state is what the history says, and the
    history is in order. *)
Definition tracked (s : State) : Prop :=
  device_wf s.1 /\ legal s.2.1 /\
  replay s.2.1 = (current_state (svc s.1), active_locality (svc s.1)).

(** A planned call is in order for the state it is planned in. *)
Lemma allowed_in_order f l c status d :
  call_allowed bypass_of d f l c ->
  in_order (current_state (svc d), active_locality (svc d))
    (mkEntry c status (bypass_of (sst (svc d)))).
Proof.
  intros (Hl & Hcl & _ & Hc). split; cbn [call answer TpmSystem.bypass fst snd]; [by rewrite Hcl|].
  destruct c as [l'|l'|l'|l'|l']; cbn [call_locality] in Hcl; subst l'; try tauto;
    destruct Hc as (_ & Ha & request & start & Hcall); (split; [exact Ha|]);
    unfold command_call in Hcall; destruct (current_state (svc d)); repeat case_match;
    simplify_eq; auto; done.
Qed.

Lemma start_tracked request d h w status d' hw' :
  tracked (d, (h, w)) ->
  start_reference (W := History * W) (trunc 16 (function request)) (trunc 8 (locality request))
    d (h, w) = (status, d', hw') ->
  tracked (d', hw').
Proof.
  intros (Hd & Hlegal & Hreplay) Hs. cbn [fst snd] in *. unfold start_reference in Hs.
  change (sst_idle_bypass_supported (W := History * W)) with bypass_of in Hs.
  destruct (start_plan bypass_of d _ _) as [st|c] eqn:Hp.
  { injection Hs as <- <- <-. split_and!; cbn [fst snd]; rewrite ?clean_svc; auto using clean_wf. }
  apply start_plan_allowed in Hp; [|done|apply trunc_range; lia].
  pose proof Hp as (Hl & Hcl & _).
  destruct (carry_out_step c d (h, w) Hd) as (answer & t & data & w' & Hco & [Hdl Hdb] & crb & _ & Hperf);
    [by rewrite Hcl|].
  rewrite Hco in Hs. injection Hs as _ <- <-.
  rewrite perform_recorded in Hperf.
  destruct (perform c crb (sst (svc d), w)) as [[[st crb']|e| |] [t' w0]]; try discriminate Hperf.
  injection Hperf as -> _ _ <-. cbn [fst]. split_and!; cbn [fst snd].
  - apply clean_wf, committed_wf; try done. by rewrite Hcl.
  - apply legal_snoc; [exact Hlegal|]. rewrite Hreplay. by eapply allowed_in_order.
  - rewrite replay_snoc, clean_svc, committed_svc, Hreplay. unfold replay_step.
    cbn [call TpmSystem.answer fst snd]. by case_decide.
Qed.

Lemma dispatch_tracked source request s a s' :
  tracked s -> tpm_dispatch source request s = (Ok a, s') -> tracked s'.
Proof.
  destruct s as [d [h w]], s' as [d' hw']. intros Ht Hr. pose proof Ht as (Hd & Hlegal & Hreplay).
  destruct (decide (opcode request = discr Start)) as [Ho|Ho].
  { rewrite start_dispatch in Hr by done.
    destruct (start_reference _ _ d (h, w)) as [[st d1] hw1] eqn:Hs. injection Hr as _ <- <-.
    by eapply start_tracked. }
  destruct (tpm_dispatch_step source request d (h, w) Hd) as (a1 & d1 & hw1 & Hr' & Hs & _).
  rewrite Hr' in Hr. injection Hr as _ <- <-. pose proof (tpm_step_wf _ _ _ _ _ _ _ Hs Hd) as Hd'.
  inversion Hs; subst; [|done..]. by split_and!.
Qed.

(** The test feature's operations are a client's write, or the request of
    another source. *)
Lemma dispatch_test_cases source request (s : State) a s' :
  tpm_dispatch_test source request s = (Ok a, s') ->
  s' = s \/
  (exists l f, (forall crb, data_ok crb -> data_ok (f crb)) /\ s' = (upd_crb l f s.1, s.2)) \/
  exists source' a', tpm_dispatch source' request s = (Ok a', s').
Proof.
  unfold tpm_dispatch_test. intros Hr.
  destruct (decide (opcode request = TEST_WRITE_CRB)) as [Ho|Ho].
  - unfold test_write_crb, mbind, stM_bind in Hr.
    destruct (decide (NUM_LOCALITIES <= trunc 8 (locality request))); [left; by inversion Hr|].
    destruct (test_write (trunc 16 (function request))) as [f|] eqn:Hf; [|left; by inversion Hr].
    right. left. exists (trunc 8 (locality request)), f.
    split; [|by inversion Hr].
    unfold test_write in Hf. repeat case_match; simplify_eq; try done. intros crb [Hl Hb].
    unfold data_ok. cbn [set_command crb_data_buffer]. split.
    + rewrite length_blit; [done|]. unfold CRB_DATA_BUFFER_SIZE in Hl. cbn. lia.
    + apply Forall_blit; [done|]. apply (bool_decide_unpack _). vm_compute. exact I.
  - destruct (decide (opcode request = discr ManageLocality)) as [Hm|Hm]; right; right; [|by exists source, a].
    exists 0xFF00, a. unfold tpm_dispatch. rewrite Hm, try_from_primitive_discr.
    rewrite decide_False by (intros Hn; by apply Hn). exact Hr.
Qed.

(** Every step keeps the invariant. *)
Lemma step_tracked s s' : system_step s s' -> tracked s -> tracked s'.
Proof.
  intros Hs Ht. destruct Hs as [l f d hw Hf| |source request d hw a d' hw' Hr|source request d hw a d' hw' Hr].
  - destruct Ht as (Hd & ? & ?). split_and!; try done. by apply upd_crb_wf.
  - exact Ht.
  - by eapply dispatch_tracked.
  - apply dispatch_test_cases in Hr as [Hr|[(l & f & Hf & Hr)|(source' & a' & Hr)]].
    + by rewrite Hr.
    + rewrite Hr. destruct Ht as (Hd & ? & ?). split_and!; try done. by apply upd_crb_wf.
    + by eapply dispatch_tracked.
Qed.

Lemma reachable_tracked s s' : rtc system_step s s' -> tracked s -> tracked s'.
Proof. induction 1; eauto using step_tracked. Qed.
End System.

(** [init] starts the history. *)
Lemma init_tracked {W T} `{SstLaws W T} (d : TpmDevice T) w :
  length (locality_states (svc d)) = 5%nat -> length (crbs d) = 5%nat ->
  exists d' w', init (W := History * W) (d, ([], w)) = (Ok tt, (d', ([], w'))) /\
    tracked (d', ([] : History, w')).
Proof.
  intros Hs Hc. destruct (tpm_init_state (W := History * W) d ([], w) Hs Hc)
    as (d' & [h w'] & Hi & Hsst & Hd & Hst & Ha & _).
  cbn [sst_init recorded] in Hsst. destruct (sst_init (sst (svc d), w)) as [r [t w1]].
  injection Hsst as -> _ <- <-. exists d', w1. split; [exact Hi|].
  split; [exact Hd|]. split; [constructor|]. cbn [fst snd]. by rewrite Hst, Ha.
Qed.

(** ** A command, from the request to the TPM's bus *)

Section Command.
Context {W : Type} `{PlatformLaws W} (fuel : nat) (Hfuel : fuel_ok fuel).
Let driver : TpmSstOps W TpmSst := tpm_sst_ops fuel.
#[local] Existing Instance driver.
Let driver_laws : SstLaws W TpmSst := tpm_sst_laws fuel Hfuel.
#[local] Existing Instance driver_laws.

(** A locality that may execute what its registers hold. *)
Definition may_execute (d : TpmDevice TpmSst) (l : Z) (crb : PtpCrbRegisters) : Prop :=
  device_wf d /\ crbs d !! Z.to_nat l = Some crb /\
  locality_states (svc d) !! Z.to_nat l = Some Open /\ active_locality (svc d) = l /\
  current_state (svc d) = Ready /\
  crb_control_request crb = 0 /\ bit_set (crb_control_start crb) PTP_CRB_CONTROL_START = true.

Lemma may_execute_plan d l crb :
  may_execute d l crb -> start_plan is_idle_bypass_supported d 0 l = inr (CallStart l).
Proof.
  intros (_ & Hcrb & Hopen & Ha & Hs & Hreq & Hgo). unfold start_plan. rewrite Hcrb, Hopen.
  rewrite decide_True by done. unfold plan_command.
  rewrite (decide_False (P := l <> _)) by (intros Hn; by apply Hn).
  rewrite Hreq, Hs. unfold command_call. change (bit_set 0 2) with false.
  change (bit_set 0 1) with false. cbv iota. change 1 with PTP_CRB_CONTROL_START. rewrite Hgo.
  rewrite decide_False; [done|]. intros [_ Hz]. rewrite Hz in Hgo. by vm_compute in Hgo.
Qed.

(** What is left of a command's way through the service: the driver's call. *)
Lemma command_executed source request d w crb :
  opcode request = discr Start -> trunc 16 (function request) = 0 ->
  let l := trunc 8 (locality request) in
  may_execute d l crb ->
  exists status crb' d' w',
    tpm_dispatch source request (d, w) =
      (Ok (convert_error_to_status status, 0), (d', w')) /\
    start (E := Error.t) fuel (sst (svc d)) l crb w = (Ok (status, crb'), w') /\
    crb_data_buffer <$> crbs d' !! Z.to_nat l = Some (crb_data_buffer crb') /\
    current_state (svc d') = (if decide (status = ErrorCode.Ok) then Complete else Ready) /\
    active_locality (svc d') = l /\
    forall i, i <> Z.to_nat l -> crbs d' !! i = crbs d !! i.
Proof.
  intros Ho Hf l Hm.
  pose proof Hm as (Hd & Hcrb & _ & Ha & Hs & _).
  rewrite start_dispatch by done. unfold start_reference. fold l. rewrite Hf.
  change (sst_idle_bypass_supported (W := W)) with is_idle_bypass_supported.
  rewrite (may_execute_plan d l crb Hm).
  assert (0 <= l < NUM_LOCALITIES) as Hl.
  { pose proof (trunc_range 8 (locality request)) as [Hl0 _]; [lia|]. fold l in Hl0.
    apply lookup_lt_Some in Hcrb. destruct Hd as (_ & _ & Hlen & _). unfold NUM_LOCALITIES. lia. }
  destruct (carry_out_step (CallStart l) d w Hd) as (status & t & data & w' & Hco & _ & crb0 & Hcrb0 & Hperf);
    [exact Hl|].
  cbn [call_locality] in Hcrb0. rewrite Hcrb in Hcrb0. injection Hcrb0 as <-.
  rewrite Hco. exists status, (with_data_buffer data crb), (clean (committed (CallStart l) status t data d)), w'.
  split; [done|]. split.
  { cbn [perform sst_start tpm_sst_ops driver] in Hperf. unfold with_self, on_snd in Hperf. cbn [fst snd] in Hperf.
    destruct (start fuel (sst (svc d)) l crb w) as [r w1]. by injection Hperf as -> _ <-. }
  rewrite clean_svc, clean_buffer, committed_svc.
  change (Z.to_nat l) with (Z.to_nat (call_locality (CallStart l))).
  rewrite (committed_buffer (CallStart l)); cbn [call_locality]; [|lia|by eexists].
  split; [by case_decide|]. split; [by case_decide|]. split; [by case_decide|].
  intros i Hi. rewrite clean_other; [by apply committed_other|].
  intros _. rewrite committed_svc. by case_decide; cbn; rewrite Ha.
Qed.

Lemma started_by self l crb w r w' :
  data_ok crb -> start (E := Error.t) fuel self l crb w = (Ok r, w') -> started self l crb w r w'.
Proof.
  intros Hdata Hs. pose proof (start_runs (E := Error.t) fuel Hfuel self l crb w Hdata) as Hrun.
  unfold runs in Hrun. by rewrite Hs in Hrun.
Qed.
End Command.

(** ** Properties *)

(** C4: The service's state is the history of its driver calls.  From [init]
    on, whatever the clients write into their register blocks, whatever
    requests arrive from whatever source (in the test build too) and however
    the driver answers: replaying the calls made gives the state and the active
    locality, every call was in order when it was made (commands of the active
    locality along the CRB's state diagram, a locality only while none is
    active), and while a locality holds the TPM no call of another one reaches
    the driver before the holder has given it up. *)
Theorem tpm_history_in_order {W T} `{SstLaws W T} (d0 : TpmDevice T) w0 :
  length (locality_states (svc d0)) = 5%nat -> length (crbs d0) = 5%nat ->
  exists d1 w1, init (W := History * W) (d0, ([], w0)) = (Ok tt, (d1, ([], w1))) /\
    forall d h w, rtc system_step (d1, ([] : History, w1)) (d, (h, w)) ->
      device_wf d /\ legal h /\
      replay h = (current_state (svc d), active_locality (svc d)) /\
      forall h1 h2 e h3 l, h = h1 ++ h2 ++ e :: h3 -> (replay h1).2 = l ->
        0 <= l < NUM_LOCALITIES -> call_locality (call e) <> l -> Exists (gives_up l) h2.
Proof.
  intros Hs Hc. destruct (init_tracked d0 w0 Hs Hc) as (d1 & w1 & Hi & Ht).
  exists d1, w1. split; [exact Hi|]. intros d h w Hr.
  destruct (reachable_tracked _ _ Hr Ht) as (Hd & Hl & Hrep). cbn [fst snd] in *.
  split_and!; [done..|]. intros h1 h2 e h3 l -> Hact Hloc Hne.
  apply (session_exclusive h1 h2 l e Hloc); [|done..].
  apply (legal_prefix _ h3). by rewrite <- !app_assoc.
Qed.

(** C6: A TPM command from register to register.  A start request for the
    active, open locality in the ready state runs the driver once on the
    command in the locality's buffer.  On success the TPM's bus has seen the
    command's bytes handed over, the start bit, the end of the command and the
    loads of the response, and nothing else; the locality's buffer holds
    exactly the bytes loaded (from 0x80 of the CRB, or out of the data FIFO at
    0x24), followed by what was there, and the state is complete.  If the TPM
    stops answering, a prefix of the command's stores has been made and the
    buffer and the state are as before; a command of a bad length touches
    nothing.  The status travels back to the requester, and no other
    locality's registers change. *)
Theorem tpm_command_end_to_end `{UuidOps} `{PlatformLaws W} fuel msg request
    (d : TpmDevice TpmSst) (w : W) crb :
  fuel_ok fuel -> tpm_request_from (E := Error.t) msg = Ok request ->
  opcode request = discr Start -> trunc 16 (function request) = 0 ->
  let l := trunc 8 (locality request) in
  may_execute d l crb ->
  exists status crb' d' w',
    tpm_handle (H0 := tpm_sst_ops fuel) msg (d, w) =
      (Ok (from_req_with_payload msg (tpm_reply (convert_error_to_status status, 0))), (d', w')) /\
    started (sst (svc d)) l crb w (status, crb') w' /\
    crb_data_buffer <$> crbs d' !! Z.to_nat l = Some (crb_data_buffer crb') /\
    current_state (svc d') = (if decide (status = ErrorCode.Ok) then Complete else Ready) /\
    active_locality (svc d') = l /\
    forall i, i <> Z.to_nat l -> crbs d' !! i = crbs d !! i.
Proof.
  intros Hfuel Hreq Ho Hf l Hm.
  destruct (command_executed fuel Hfuel (source_id (req_message msg)) request d w crb Ho Hf Hm)
    as (status & crb' & d' & w' & Hr & Hs & Hrest).
  exists status, crb', d', w'. split; [|split; [|exact Hrest]].
  2: { destruct Hm as (Hd & Hcrb & _). apply (started_by fuel); [done| |done].
       destruct Hd as (_ & _ & _ & Hok). by eapply Forall_lookup_1 in Hok. }
  by eapply (tpm_handle_dispatch (H0 := tpm_sst_ops fuel)).
Qed.

(** ** Witnesses *)

(** The service of [sample_device] after [init]: the client of locality 0 asks
    for the TPM. *)
Definition initial_device : TpmDevice nat := (init (W := unit) (sample_device, tt)).2.1.

Definition request_locality_0 : TpmRequest :=
  {| opcode := discr Start; function := 1; locality := 0 |}.

Lemma tpm_history_in_order_witness :
  exists d, rtc (system_step (W := unit)) (initial_device, ([], tt))
      (d, ([mkEntry (CallRequest 0) ErrorCode.Ok false], tt)) /\
    current_state (svc d) = Idle /\ active_locality (svc d) = 0.
Proof.
  destruct (tpm_history_in_order (W := unit) sample_device tt eq_refl eq_refl)
    as (d1 & w1 & Hi & Hall).
  assert (init (W := History * unit) (sample_device, ([], tt)) = (Ok tt, (initial_device, ([], tt))))
    as Hi' by reflexivity.
  rewrite Hi' in Hi. injection Hi as <- <-.
  set (asked := upd_crb 0 (set_control 1) initial_device).
  assert (exists d, tpm_dispatch 2 request_locality_0 (asked, (([] : History), tt)) =
    (Ok (TpmStatus.Ok, 0), (d, ([mkEntry (CallRequest 0) ErrorCode.Ok false], tt)))) as [d Hd]
    by (eexists; reflexivity).
  assert (rtc (system_step (W := unit)) (initial_device, ([], tt))
      (d, ([mkEntry (CallRequest 0) ErrorCode.Ok false], tt))) as Hr.
  { eapply rtc_l; [by apply (client_writes 0 (set_control 1))|].
    eapply rtc_once, request_handled, Hd. }
  exists d. split; [exact Hr|]. destruct (Hall _ _ _ Hr) as (_ & _ & Hrep & _).
  by injection Hrep as <- <-.
Defined.

#[local] Existing Instance uuid_model.

(** Locality 1 active and ready, with [TPM2_Startup] in its buffer, over a TPM
    behind a FIFO. *)
Definition startup_crb : PtpCrbRegisters := set_request_start 0 1 (sample_crb startup_command).
Definition startup_device : TpmDevice TpmSst :=
  mkDevice (mkTpm Ready 1 0 [Open; Open; Open; Closed; Closed] 0x10000000 false fifo_sst)
    (replicate 5 startup_crb).

Definition execute_request : TpmRequest :=
  {| opcode := discr Start; function := 0; locality := 1 |}.
Definition execute_message : MsgSendDirectReq2 :=
  sample_request (to_le_bytes 8 (discr Start) ++ to_le_bytes 8 0 ++ to_le_bytes 8 1).

Lemma startup_may_execute : may_execute startup_device 1 startup_crb.
Proof.
  assert (data_ok startup_crb) as Hok by apply sample_crb_ok.
  split_and!; try done. split_and!; try done. by apply Forall_replicate.
Qed.

Lemma tpm_command_end_to_end_witness :
  exists status crb' d' w',
    tpm_handle (H0 := tpm_sst_ops 100) execute_message (startup_device, fifo_bench) =
      (Ok (from_req_with_payload execute_message (tpm_reply (convert_error_to_status status, 0))),
       (d', w')) /\
    started fifo_sst 1 startup_crb fifo_bench (status, crb') w'.
Proof.
  destruct (tpm_command_end_to_end 100 execute_message execute_request startup_device fifo_bench
    startup_crb bench_fuel) as (status & crb' & d' & w' & Hh & Hs & _);
    [vm_compute; reflexivity|reflexivity|reflexivity|exact startup_may_execute|].
  exists status, crb', d', w'. split; [exact Hh|exact Hs].
Defined.
