(* ===== verification/TpmDevice.v ===== *)
(** A TPM behind a command/response buffer (CRB): a device that, once started,
    is busy for a while and then holds the answer to its command in its buffer.
    Over such a device the driver of [TpmSst] computes what the TPM computes.
    What it shares with the TPM behind a FIFO ([TpmFifo]) is here: responses,
    waits that end in time, and reading a response byte by byte. *)
From Stdlib Require Import ZArith Lia.
From S2P Require Import Prelude FfaCore FfaMsg FfaFunctions MsgLoop RelayClient TpmSst TpmBus Tpm TpmSystem.
#[local] Open Scope Z_scope.

(** ** What TPMs have in common *)

(** A response of the TPM: its header announces its length. *)
Definition response_ok (r : list Z) : Prop :=
  (TPM_HEADER_SIZE <= length r)%nat /\ Z.of_nat (length r) <= CRB_DATA_BUFFER_SIZE /\ bytes_ok r /\
  from_be_bytes (slice r 2 6) = Z.of_nat (length r).

(** One look at the counter or at a byte register takes at most [look] ticks. *)
Class Prompt (W : Type) `{PlatformLaws W} := {
  look : Z;
  look_vct w : time (cntvct w).2 <= time w + look;
  look_u8 a w : time (read_u8 a w).2 <= time w + look;
}.

(** A timeout leaves room for so many ticks, whatever frequency is read. *)
Definition allows {W} `{PlatformLaws W} (ticks timeout : Z) : Prop :=
  forall w, ticks < counter_ticks_for_microseconds (cntfrq w).1 timeout.

(** Polling succeeds if what it looks for is there from [deadline] on: a read that
    finds nothing has ended less than [slack] after it. *)
Lemma poll_in_time {W} `{Prompt W} {E A} I (read : stM W E (option A)) fuel timeout deadline wait slack w :
  steady I -> reads I read -> I w -> fuel_ok fuel -> 0 <= timeout <= PTP_TIMEOUT_MAX ->
  (forall w0 w1, I w0 -> read w0 = (Ok None, w1) -> time w1 < deadline + slack) ->
  deadline <= time w + wait -> allows (wait + slack + look) timeout ->
  runs (poll fuel read timeout) w (fun r w' => quiet w w' /\ I w' /\
    exists a w0, r = Some a /\ I w0 /\ read w0 = (Ok (Some a), w')) no_error.
Proof.
  intros HI Hreads Hw Hfuel Ht Hnone Hd Hroom.
  eapply runs_mono; [by apply (poll_runs I)| |done].
  intros r w' [(Hq & Hw' & Hr) Hout]. split; [done|]. split; [done|]. destruct r as [a|].
  - destruct Hr as (w0 & _ & ? & ?). by exists a, w0.
  - exfalso. destruct Hr as (w0 & w1 & _ & Hw0 & Hread & ->).
    specialize (Hnone _ _ Hw0 Hread). pose proof (look_vct w1).
    destruct (Hout eq_refl) as (wf & _ & Hticks). specialize (Hroom wf). lia.
Qed.

(** Bytes that can be read make a response that is read. *)
Lemma read_bytes_reads {W} (read_byte : nat -> stM W ErrorCode.t Z) i bs buf w w' :
  (i + length bs <= length buf)%nat -> byte_reads read_byte (seq i (length bs)) bs w w' ->
  read_bytes read_byte (seq i (length bs)) (buf, w) = (Ok tt, (blit buf i bs, w')).
Proof.
  revert i buf w. induction bs as [|b bs IH]; intros i buf w Hi Hr; cbn [length seq] in *.
  - inversion Hr; subst. cbn. unfold blit. cbn. by rewrite Nat.add_0_r, take_drop.
  - inversion Hr as [|? ? ? ? ? w1 ? Hb Hrest]; subst. cbn [read_bytes].
    unfold mbind, stM_bind, on_snd, modify_fst. cbn [fst snd]. rewrite Hb. cbn [fst snd].
    rewrite (IH (S i)); [|by rewrite length_insert; lia|exact Hrest].
    by rewrite blit_insert by lia.
Qed.

Lemma byte_reads_split {W} (read_byte : nat -> stM W ErrorCode.t Z) l l' bs w w' :
  byte_reads read_byte (l ++ l') bs w w' ->
  exists bs1 bs2 w1, bs = bs1 ++ bs2 /\ length bs1 = length l /\
    byte_reads read_byte l bs1 w w1 /\ byte_reads read_byte l' bs2 w1 w'.
Proof.
  revert bs w. induction l as [|o l IH]; intros bs w Hr; cbn [app] in Hr.
  - exists [], bs, w. split_and!; try done. constructor.
  - inversion Hr as [|? b ? bs0 ? w1 ? Hb Hrest]; subst.
    destruct (IH _ _ Hrest) as (bs1 & bs2 & w2 & -> & Hl & H1 & H2).
    exists (b :: bs1), bs2, w2. split_and!; [done|cbn; congruence|by econstructor|done].
Qed.

Lemma read_tpm_response_reads {W} (read_byte : nat -> stM W ErrorCode.t Z) r buf w w' :
  response_ok r -> (length r <= length buf)%nat -> capacity_ok (Z.of_nat (length buf)) = true ->
  byte_reads read_byte (seq 0 (length r)) r w w' ->
  read_tpm_response read_byte (buf, w) = (Ok (Z.of_nat (length r)), (blit buf 0 r, w')).
Proof.
  intros (Hl & _ & _ & Hh) Hbuf Hcap Hr. unfold TPM_HEADER_SIZE in Hl.
  pose proof Hcap as Hcap'. unfold capacity_ok in Hcap'. apply bool_decide_eq_true in Hcap'.
  replace (length r) with (TPM_HEADER_SIZE + (length r - TPM_HEADER_SIZE))%nat in Hr at 1
    by (unfold TPM_HEADER_SIZE; lia).
  rewrite seq_app in Hr. apply byte_reads_split in Hr as (r1 & r2 & w1 & -> & Hl1 & H1 & H2).
  rewrite length_seq in Hl1. rewrite length_app, Hl1 in *. rewrite Nat.add_sub' in H2.
  unfold read_tpm_response, mbind, stM_bind, get_st. cbn [fst snd]. rewrite Hcap. cbn [negb].
  rewrite <- Hl1 in H1 |- * at 1. rewrite read_bytes_reads with (w' := w1) by (done || lia).
  unfold lift. rewrite tpm_packet_length_eq by (rewrite length_blit; unfold TPM_HEADER_SIZE in *; lia).
  assert (slice (blit buf 0 r1) 2 6 = slice (r1 ++ r2) 2 6) as ->.
  { rewrite blit_0, !slice_app_l by (rewrite Hl1; unfold TPM_HEADER_SIZE; lia). done. }
  rewrite Hh, decide_True by (unfold TPM_HEADER_SIZE in *; lia). cbn [fst snd].
  replace (Z.to_nat _ - _)%nat with (length r2) by lia. rewrite Nat.add_0_l in H2.
  rewrite read_bytes_reads with (w' := w'); [|rewrite length_blit; lia|done].
  unfold mret, stM_ret. by rewrite <- Hl1, blit_twice.
Qed.

(** A command that is accepted lies in the buffer. *)
Lemma command_size crb :
  data_ok crb -> command_ok crb = true ->
  Z.of_nat TPM_HEADER_SIZE <= command_length crb <= Z.of_nat (length (crb_data_buffer crb)).
Proof.
  intros [-> _] Hok. unfold command_ok, capacity_ok in Hok.
  apply andb_true_iff in Hok as [Hc Hn]. apply andb_true_iff in Hc as [Hc _].
  apply bool_decide_eq_true in Hc, Hn. lia.
Qed.

(** A command in its three parts: handing it over, having it executed, taking
    the response [r]. *)
Lemma start_by_parts {W} `{PlatformLaws W} {E} fuel self locality crb r (handed spoken over : W -> Prop) w :
  data_ok crb -> command_ok crb = true -> Z.of_nat (length r) <= crb_control_response_size crb ->
  (forall buffer, command_in crb buffer ->
     runs (copy_command_data (E := E) fuel self locality buffer (command_length crb)) w
       (fun s w' => s = ErrorCode.Ok /\ handed w') no_error) ->
  (forall w, handed w -> runs (start_command (E := E) fuel self locality) w
     (fun s w' => s = ErrorCode.Ok /\ spoken w') no_error) ->
  (forall buffer w, spoken w -> capacity_ok (Z.of_nat (length buffer)) = true ->
     (length r <= length buffer)%nat ->
     runs (copy_response_data fuel self locality buffer) w
       (fun nb w' => nb.1 = Z.of_nat (length r) /\ take (length r) nb.2 = r /\ over w') no_error) ->
  runs (start (E := E) fuel self locality crb) w
    (fun a w' => a = (ErrorCode.Ok, with_data_buffer (blit (crb_data_buffer crb) 0 r) crb) /\ over w')
    no_error.
Proof.
  intros Hdata Hok Hfits Hcopy Hstart Hresponse.
  pose proof (start_cases (E := E) fuel self locality crb Hdata) as Hs. rewrite Hok in Hs.
  destruct Hs as (buffer & Hbuffer & ->). specialize (Hcopy buffer Hbuffer).
  destruct Hbuffer as (Hbl & _ & _).
  unfold command_ok, capacity_ok in Hok.
  apply andb_true_iff in Hok as [Hc _]. apply andb_true_iff in Hc as [_ Hr].
  apply bool_decide_eq_true in Hr. unfold transfer.
  apply runs_bind. eapply runs_mono; [exact Hcopy| |done]. intros s w1 [-> Hw1].
  rewrite decide_False by (intros Hne; by apply Hne).
  apply runs_bind. eapply runs_mono; [by apply Hstart| |done]. intros s w2 [-> Hw2].
  rewrite decide_False by (intros Hne; by apply Hne).
  assert (length (take (Z.to_nat (crb_control_response_size crb)) buffer) =
          Z.to_nat (crb_control_response_size crb)) as Hcap by (rewrite length_take; lia).
  apply runs_bind, runs_attempt. eapply runs_mono; [apply Hresponse; [done| |]| |done].
  - rewrite Hcap. unfold capacity_ok. apply bool_decide_eq_true. lia.
  - rewrite Hcap. lia.
  - intros [n response] w3 (Hlen & Ht & Hw3). cbn [fst snd] in *. subst n. apply runs_ret.
    rewrite Nat2Z.id, Ht. by split.
Qed.

(** ** Through the service *)

(** A start request for a command, and a locality that may run it. *)
Definition command_request `{UuidOps} (msg : MsgSendDirectReq2)
    (d : TpmDevice TpmSst) (l : Z) (crb : PtpCrbRegisters) : Prop :=
  exists request, tpm_request_from (E := Error.t) msg = Ok request /\
    opcode request = discr Start /\ trunc 16 (function request) = 0 /\
    l = trunc 8 (locality request) /\ may_execute d l crb /\ command_ok crb = true.

(** It was run with success: the reply says so, the front of the locality's
    buffer is [r] and the rest of it is as before, the service is in the complete
    state, and no other locality's registers have changed. *)
Definition answered_with {W} `{UuidOps} `{PlatformLaws W} (fuel : nat) (msg : MsgSendDirectReq2)
    (d : TpmDevice TpmSst) (w : W) (l : Z) (crb : PtpCrbRegisters) (r : list Z) (over : W -> Prop) : Prop :=
  exists d' w',
    tpm_handle (H0 := tpm_sst_ops fuel) msg (d, w) =
      (Ok (from_req_with_payload msg (tpm_reply (TpmStatus.Ok, 0))), (d', w')) /\
    crb_data_buffer <$> crbs d' !! Z.to_nat l = Some (blit (crb_data_buffer crb) 0 r) /\
    current_state (svc d') = Complete /\ active_locality (svc d') = l /\
    (forall i, i <> Z.to_nat l -> crbs d' !! i = crbs d !! i) /\ over w'.

Lemma service_answers `{UuidOps} `{PlatformLaws W} fuel msg d l crb r (over : W -> Prop) (w : W) :
  fuel_ok fuel -> command_request msg d l crb ->
  (data_ok crb -> runs (start (E := Error.t) fuel (sst (svc d)) l crb) w
    (fun a w' => a = (ErrorCode.Ok, with_data_buffer (blit (crb_data_buffer crb) 0 r) crb) /\ over w')
    no_error) ->
  answered_with fuel msg d w l crb r over.
Proof.
  intros Hfuel (request & Hreq & Ho & Hf & -> & Hm & _) Hrun.
  pose proof Hm as ((_ & _ & _ & Hdata) & Hl & _). eapply Forall_lookup_1 in Hdata; [|exact Hl].
  destruct (command_executed fuel Hfuel (source_id (req_message msg)) request d w crb Ho Hf Hm)
    as (status & crb' & d' & w' & Hr & Hs & Hbuf & Hstate & Hactive & Hother).
  specialize (Hrun Hdata). unfold runs in Hrun. rewrite Hs in Hrun. destruct Hrun as [Heq Hover].
  injection Heq as -> ->. exists d', w'.
  split; [by eapply (tpm_handle_dispatch (H0 := tpm_sst_ops fuel))|]. by split_and!.
Qed.

(** ** The device *)

(** The buffer once the TPM, which computes [tpm], has executed the command in
    it: the command is as long as its header says. *)
Definition executed (tpm : list Z -> list Z) (mem : list Z) : list Z :=
  let r := tpm (take (Z.to_nat (from_be_bytes (slice mem 2 6))) mem) in
  r ++ drop (length r) mem.

(** What the TCG's PTP specification promises of a TPM with a CRB, for the
    registers at [crb_base]: bytes stored into the buffer of an idle TPM stay
    there; storing the start bit makes it busy, for at most [latency] ticks;
    the start bit reads as zero exactly once it is done; its buffer then holds
    the response.  Nothing else changes the buffer.  The longest timeout leaves
    the TPM room. *)
Class CrbTpm (W : Type) `{Prompt W} := {
  crb_base : Z;
  tpm : list Z -> list Z;
  memory : W -> list Z;
  busy_until : W -> Z;
  latency : Z;
  tpm_response c : response_ok (tpm c);
  memory_law w : Z.of_nat (length (memory w)) = CRB_DATA_BUFFER_SIZE /\ bytes_ok (memory w);
  still_frq w : (memory (cntfrq w).2, busy_until (cntfrq w).2) = (memory w, busy_until w);
  still_vct w : (memory (cntvct w).2, busy_until (cntvct w).2) = (memory w, busy_until w);
  still_yield w w' : Yield.exec (Yield.new YIELD_TIMEOUT_HINT_NS) w = (Ok tt, w') ->
    (memory w', busy_until w') = (memory w, busy_until w);
  still_read_u8 a w : (memory (read_u8 a w).2, busy_until (read_u8 a w).2) = (memory w, busy_until w);
  still_read_u32 a w :
    (memory (read_u32 a w).2, busy_until (read_u32 a w).2) = (memory w, busy_until w);
  store_data i v w : (i < Z.to_nat CRB_DATA_BUFFER_SIZE)%nat -> is_byte v -> busy_until w <= time w ->
    let w' := write_u8 (crb_base + Crb.crb_data_buffer + Z.of_nat i) v w in
    (memory w', busy_until w') = (<[i := v]> (memory w), busy_until w);
  store_start w : busy_until w <= time w ->
    let w' := write_u32 (crb_base + Crb.crb_control_start) PTP_CRB_CONTROL_START w in
    memory w' = executed tpm (memory w) /\ busy_until w' <= time w' + latency;
  read_start w :
    let '(v, w') := read_u32 (crb_base + Crb.crb_control_start) w in
    Z.land v PTP_CRB_CONTROL_START = 0 <-> busy_until w <= time w';
  read_data i w : (i < Z.to_nat CRB_DATA_BUFFER_SIZE)%nat -> busy_until w <= time w ->
    Some (read_u8 (crb_base + Crb.crb_data_buffer + Z.of_nat i) w).1 = memory w !! i;
  in_time : allows (latency + look) PTP_TIMEOUT_MAX;
}.

(** ** The driver *)

Section Driver.
Context {W : Type} `{CrbTpm W} (fuel : nat) (Hfuel : fuel_ok fuel).
Implicit Types (w : W) (self : TpmSst).

(** The TPM is idle and its buffer holds [mem]. *)
Definition holds_idle (mem : list Z) w : Prop := memory w = mem /\ busy_until w <= time w.

Lemma store_byte i v mem w :
  (i < Z.to_nat CRB_DATA_BUFFER_SIZE)%nat -> is_byte v -> holds_idle mem w ->
  holds_idle (<[i := v]> mem) (write_u8 (crb_base + Crb.crb_data_buffer + Z.of_nat i) v w).
Proof.
  intros Hi Hv [<- Hb]. pose proof (store_data i v w Hi Hv Hb) as Hs. injection Hs as Hm Hbu.
  destruct (write_u8_law (crb_base + Crb.crb_data_buffer + Z.of_nat i) v w) as [Ht _].
  split; [exact Hm|]. rewrite Hbu. lia.
Qed.

(** Copying puts the command in front. *)
Lemma copy_holds {E} buffer n mem w :
  (n <= length buffer)%nat -> Z.of_nat (length buffer) = CRB_DATA_BUFFER_SIZE ->
  Z.of_nat (length mem) = CRB_DATA_BUFFER_SIZE -> bytes_ok buffer -> holds_idle mem w ->
  runs (copy_to_crb (E := E) crb_base buffer (seq 0 n)) w
    (fun _ => holds_idle (blit mem 0 (take n buffer))) no_error.
Proof.
  intros Hn Hl Hm Hb Hw.
  assert (forall k i mem w, (i + k = n)%nat -> Z.of_nat (length mem) = CRB_DATA_BUFFER_SIZE ->
    holds_idle mem w ->
    runs (copy_to_crb (E := E) crb_base buffer (seq i k)) w
      (fun _ => holds_idle (blit mem i (slice buffer i n))) no_error) as Hgen.
  { clear mem w Hm Hw. induction k as [|k IH]; intros i mem w Hik Hm Hw; cbn [seq copy_to_crb].
    - apply runs_ret. unfold slice. replace (n - i)%nat with 0%nat by lia.
      rewrite take_0. unfold blit. cbn. by rewrite Nat.add_0_r, take_drop.
    - destruct (lookup_lt_is_Some_2 buffer i) as [b Hbi]; [lia|].
      apply runs_bind. rewrite runs_lift, Hbi. cbn [or_panic].
      apply runs_bind. rewrite decide_True by lia. unfold store_u8, runs at 1.
      eapply runs_mono; [apply (IH (S i) (<[i := b]> mem)); [lia|by rewrite length_insert| ]| |done].
      + apply store_byte; [lia| |done]. by eapply Forall_lookup_1 in Hb.
      + intros [] w' Hw'. rewrite <- (slice_app buffer i (i + 1) n) by lia.
        rewrite (slice_one buffer i b Hbi). cbn [app]. rewrite <- blit_insert, Nat.add_1_r by lia.
        exact Hw'. }
  replace (take n buffer) with (slice buffer 0 n) by (unfold slice; by rewrite Nat.sub_0_r).
  by apply Hgen.
Qed.

(** *** Waiting for the TPM *)

(** The TPM works on, or is done, with [mem] in its buffer. *)
Definition working (mem : list Z) (until : Z) w : Prop := memory w = mem /\ busy_until w = until.

Lemma working_steady mem until : steady (working mem until).
Proof.
  unfold working. split_and!.
  - intros w Hw. pose proof (still_frq w) as Hs. injection Hs as -> ->. exact Hw.
  - intros w Hw. pose proof (still_vct w) as Hs. injection Hs as -> ->. exact Hw.
  - intros w w' Hw Hy. pose proof (still_yield w w' Hy) as Hs. injection Hs as -> ->. exact Hw.
Qed.

Abbreviation start_register := (crb_base + Crb.crb_control_start).

(** One look at the start register. *)
Lemma read_start_bits {E} self mem until w :
  is_crb_interface self = true -> working mem until w ->
  runs (read_bits (E := E) self start_register 0 PTP_CRB_CONTROL_START) w
    (fun r w' => passes time writes 2 w w' /\ working mem until w' /\
       (r = None -> time w' < until) /\ (r = Some tt -> until <= time w')) no_error.
Proof.
  intros Hself [Hm Hb]. unfold read_bits, read_register. rewrite Hself.
  apply runs_bind, runs_call. pose proof (read_start w) as Hr.
  pose proof (still_read_u32 start_register w) as Hs. injection Hs as Hm' Hb'.
  destruct (read_u32_law start_register w) as [_ [Ht Hw]].
  destruct (read_u32 start_register w) as [v w']. cbn [fst snd] in *.
  apply runs_ret. split; [split; [unfold STEP in *; lia|done]|].
  split; [split; congruence|]. unfold bits_match. rewrite Z.land_0_r.
  rewrite (bool_decide_true (0 = 0)) by done. cbn [andb]. rewrite Hb in Hr.
  case_bool_decide as Hz; (split; [|]); intros Hn; try discriminate; [by apply Hr|].
  destruct (Z.lt_ge_cases (time w') until) as [?|Hge]; [done|]. by apply Hr in Hge.
Qed.

(** The wait for the start bit succeeds, and only when the TPM is done. *)
Lemma wait_start {E} self mem w :
  is_crb_interface self = true -> memory w = mem -> busy_until w <= time w + latency ->
  runs (wait_register_bits (E := E) fuel self start_register 0 PTP_CRB_CONTROL_START PTP_TIMEOUT_MAX) w
    (fun s w' => s = ErrorCode.Ok /\ holds_idle mem w') no_error.
Proof.
  intros Hself Hm Hb. unfold wait_register_bits. apply runs_bind. set (until := busy_until w) in *.
  set (I := working mem until).
  assert (reads I (read_bits (E := E) self start_register 0 PTP_CRB_CONTROL_START)) as Hreads.
  { intros w0 Hw0. eapply runs_mono; [by apply read_start_bits| |done]. cbv beta. tauto. }
  eapply runs_mono; [apply (poll_in_time I) with (deadline := until) (wait := latency) (slack := 0);
    try done; [apply working_steady| |rewrite Z.add_0_r; apply in_time]| |done].
  - intros w0 w1 Hw0 Hr. pose proof (read_start_bits (E := E) self mem until w0 Hself Hw0) as Hread.
    unfold runs in Hread. rewrite Hr in Hread. destruct Hread as (_ & _ & Hearly & _).
    specialize (Hearly eq_refl). lia.
  - intros r w' (_ & Hw' & [] & w0 & -> & Hw0 & Hr). apply runs_ret. split; [done|].
    pose proof (read_start_bits (E := E) self mem until w0 Hself Hw0) as Hread.
    unfold runs in Hread. rewrite Hr in Hread. destruct Hread as (_ & [? Hb'] & _ & Hdone).
    split; [done|]. rewrite Hb'. by apply Hdone.
Qed.

(** *** Reading the response *)

(** The bytes of an idle TPM's buffer, read in order. *)
Lemma memory_reads mem i k w :
  (i + k <= Z.to_nat CRB_DATA_BUFFER_SIZE)%nat -> holds_idle mem w ->
  exists w', byte_reads (crb_read_byte crb_base) (seq i k) (slice mem i (i + k)) w w' /\
    holds_idle mem w'.
Proof.
  revert i w. induction k as [|k IH]; intros i w Hi [Hm Hb].
  - exists w. split; [|by split]. rewrite Nat.add_0_r. unfold slice. rewrite Nat.sub_diag. constructor.
  - cbn [seq]. pose proof (read_data i w ltac:(lia) Hb) as Hv. rewrite Hm in Hv.
    pose proof (still_read_u8 (crb_base + Crb.crb_data_buffer + Z.of_nat i) w) as Hs.
    injection Hs as Hm' Hb'.
    destruct (read_u8_law (crb_base + Crb.crb_data_buffer + Z.of_nat i) w) as [_ [Ht _]].
    destruct (IH (S i) (read_u8 (crb_base + Crb.crb_data_buffer + Z.of_nat i) w).2)
      as (w' & Hr & Hw'); [lia|split; [congruence|lia]|].
    exists w'. split; [|done]. replace (S i + k)%nat with (i + S k)%nat in Hr by lia.
    rewrite <- (slice_app mem i (i + 1)) by lia. rewrite (slice_one mem i _ (eq_sym Hv)).
    econstructor; [|by rewrite Nat.add_1_r].
    unfold crb_read_byte. rewrite decide_True by lia. unfold Prelude.call. by destruct (read_u8 _ w).
Qed.

Lemma copy_response_reads self locality buffer r rest w :
  is_crb_interface self = true -> external_crb_ptr self locality = crb_base ->
  capacity_ok (Z.of_nat (length buffer)) = true -> response_ok r -> (length r <= length buffer)%nat ->
  holds_idle (r ++ rest) w ->
  runs (copy_response_data fuel self locality buffer) w
    (fun nb w' => nb.1 = Z.of_nat (length r) /\ take (length r) nb.2 = r /\
       holds_idle (r ++ rest) w') no_error.
Proof.
  intros Hself Hbase Hcap Hr Hfits Hw. unfold copy_response_data, runs. rewrite Hself, Hbase.
  pose proof Hr as (_ & Hsize & _).
  destruct (memory_reads (r ++ rest) 0 (length r) w) as (w' & Hreads & Hw'); [lia|done|].
  assert (slice (r ++ rest) 0 (0 + length r) = r) as Hs
    by (unfold slice; by rewrite Nat.add_0_l, Nat.sub_0_r, drop_0, take_app_length).
  rewrite Hs in Hreads. rewrite (read_tpm_response_reads _ r buffer w w') by done.
  cbn [mbind outcome_bind fst snd]. rewrite blit_0. split; [done|]. split; [apply take_app_length|done].
Qed.

(** *** A command *)

Lemma start_command_executes {E} self locality mem w :
  is_crb_interface self = true -> external_crb_ptr self locality = crb_base -> holds_idle mem w ->
  runs (start_command (E := E) fuel self locality) w
    (fun s w' => s = ErrorCode.Ok /\ holds_idle (executed tpm mem) w') no_error.
Proof.
  intros Hself Hbase [<- Hb]. unfold start_command. rewrite Hself, Hbase.
  apply runs_bind. unfold store_u32, runs at 1. destruct (store_start w Hb) as [Hm' Hb'].
  by apply wait_start.
Qed.

(** What the TPM finds in its buffer is the command. *)
Lemma executed_command (data mem : list Z) n :
  length mem = length data -> n = Z.to_nat (from_be_bytes (slice data 2 6)) ->
  (TPM_HEADER_SIZE <= n <= length data)%nat ->
  exists rest, executed tpm (blit mem 0 (take n data)) = tpm (take n data) ++ rest.
Proof.
  intros Hl Hn Hr. unfold executed. rewrite blit_0.
  assert (length (take n data) = n) as Hlen by (rewrite length_take; lia).
  rewrite slice_app_l by (rewrite Hlen; unfold TPM_HEADER_SIZE in *; lia).
  assert (slice (take n data) 2 6 = slice data 2 6) as ->.
  { replace (take n data) with (slice data 0 n) by (unfold slice; by rewrite Nat.sub_0_r).
    unfold TPM_HEADER_SIZE in *. by rewrite slice_slice by lia. }
  rewrite <- Hn. rewrite take_app_length' by done. by eexists.
Qed.

(** The driver computes what the TPM computes. *)
Lemma start_computes {E} self locality crb mem w :
  is_crb_interface self = true -> external_crb_ptr self locality = crb_base ->
  data_ok crb -> command_ok crb = true ->
  Z.of_nat (length (tpm (command_bytes crb))) <= crb_control_response_size crb ->
  holds_idle mem w ->
  runs (start (E := E) fuel self locality crb) w
    (fun r w' => r = (ErrorCode.Ok, with_data_buffer
         (blit (crb_data_buffer crb) 0 (tpm (command_bytes crb))) crb) /\
       exists mem', holds_idle mem' w') no_error.
Proof.
  intros Hself Hbase Hdata Hok Hfits Hw.
  assert (Z.of_nat (length mem) = CRB_DATA_BUFFER_SIZE) as Hm by (destruct Hw as [<- _]; apply memory_law).
  pose proof (command_size crb Hdata Hok) as Hn.
  destruct (executed_command (crb_data_buffer crb) mem (Z.to_nat (command_length crb)))
    as [rest Hrest]; [destruct Hdata; lia|done|lia|].
  eapply runs_mono; [apply (start_by_parts _ _ _ _ (tpm (command_bytes crb))
    (holds_idle (blit mem 0 (command_bytes crb))) (holds_idle (tpm (command_bytes crb) ++ rest))
    (holds_idle (tpm (command_bytes crb) ++ rest))); try done| |done].
  - intros buffer (Hbl & Hbb & <-). destruct Hdata as [Hl _]. unfold copy_command_data.
    rewrite Hself, Hbase. apply runs_bind.
    eapply runs_mono; [apply (copy_holds _ _ mem); done || lia| |done].
    intros [] w1 Hw1. by apply runs_ret.
  - intros w1 Hw1. eapply runs_mono; [by eapply start_command_executes| |done].
    intros s w2 [-> Hw2]. split; [done|]. unfold command_bytes. by rewrite <- Hrest.
  - intros buffer w2 Hw2 Hcap Hlen. apply copy_response_reads; try done. apply tpm_response.
  - cbv beta. intros a w' [-> Hw']. split; [done|]. by eexists.
Qed.
End Driver.

(** ** A concrete TPM

    At 0x11000, busy for five ticks of a 1 Hz clock that advances with every
    access.  It answers success with two bytes of the command. *)
Record CrbBench : Type := mkCrbBench {
  bench_time : Z; bench_events : list Event; bench_buffer : list Z; bench_busy : Z }.

Definition BENCH_BASE : Z := 0x11000.
Definition bench_tpm (c : list Z) : list Z :=
  [0x80; 1; 0; 0; 0; 12; 0; 0; 0; 0] ++ [trunc 8 (default 0 (c !! 10%nat)); trunc 8 (default 0 (c !! 11%nat))].

Definition buffer_of (l : list Z) : list Z :=
  take (Z.to_nat CRB_DATA_BUFFER_SIZE) ((trunc 8 <$> l) ++ replicate (Z.to_nat CRB_DATA_BUFFER_SIZE) 0).
Definition bench_memory (b : CrbBench) : list Z := buffer_of (bench_buffer b).

(** Where in the buffer an address points. *)
Definition buffer_index (a : Z) : option nat :=
  let o := a - (BENCH_BASE + Crb.crb_data_buffer) in
  if decide (0 <= o < CRB_DATA_BUFFER_SIZE) then Some (Z.to_nat o) else None.

(** An event takes a tick; only two kinds of store change anything else. *)
Definition later (e : Event) (b : CrbBench) : CrbBench :=
  mkCrbBench (bench_time b + 1) (bench_events b ++ [e]) (bench_buffer b) (bench_busy b).

Definition shown_byte (a : Z) (b : CrbBench) : Z :=
  match buffer_index a with Some i => default 0 (bench_memory b !! i) | None => 0 end.
Definition shown_start (a : Z) (b : CrbBench) : Z :=
  if decide (a = BENCH_BASE + Crb.crb_control_start)
  then if decide (bench_busy b <= bench_time b + 1) then 0 else 1 else 0.

#[export] Instance crb_bench_mmio : Mmio CrbBench := {|
  read_u8 a b := (shown_byte a b, later (Load8 a (shown_byte a b)) b);
  read_u32 a b := (shown_start a b, later (Load32 a (shown_start a b)) b);
  write_u8 a v b :=
    match buffer_index a with
    | Some i => mkCrbBench (bench_time b + 1) (bench_events b ++ [Store8 a v])
                  (<[i := v]> (bench_memory b)) (bench_busy b)
    | None => later (Store8 a v) b
    end;
  write_u32 a v b :=
    if decide (a = BENCH_BASE + Crb.crb_control_start)
    then mkCrbBench (bench_time b + 1) (bench_events b ++ [Store32 a v])
           (executed bench_tpm (bench_memory b)) (bench_time b + 5)
    else later (Store32 a v) b;
|}.

#[export] Instance crb_bench_counter : Counter CrbBench := {|
  cntfrq b := (1, later (Frequency 1) b);
  cntvct b := (trunc 64 (bench_time b + 1), later (Count (trunc 64 (bench_time b + 1))) b);
|}.

#[export] Instance crb_bench_smc : SmcEnv CrbBench := fun _ _ b =>
  (0x84000061 :: replicate 17 0, later Yielded b).

Lemma buffer_of_ok l :
  Z.of_nat (length (buffer_of l)) = CRB_DATA_BUFFER_SIZE /\ bytes_ok (buffer_of l).
Proof.
  unfold buffer_of. split.
  - rewrite length_take, length_app, length_replicate. unfold CRB_DATA_BUFFER_SIZE. lia.
  - apply Forall_take, Forall_app. split.
    + apply Forall_fmap, Forall_true. intros z. apply (trunc_range 8). lia.
    + apply Forall_replicate. split; done.
Qed.

Lemma buffer_of_same l :
  Z.of_nat (length l) = CRB_DATA_BUFFER_SIZE -> bytes_ok l -> buffer_of l = l.
Proof.
  intros Hl Hb. unfold buffer_of. rewrite trunc_words by done. apply take_app_length'. lia.
Qed.

Lemma bench_yield b : Yield.exec (Yield.new YIELD_TIMEOUT_HINT_NS) b = (Ok tt, later Yielded b).
Proof.
  unfold Yield.exec. by rewrite (exec_simple_unfold (Yield.new YIELD_TIMEOUT_HINT_NS)
    (SmcParams.with_default 0 0 0 0)) by done.
Qed.

Lemma memory_byte b i : is_byte (default 0 (bench_memory b !! i)).
Proof.
  destruct (bench_memory b !! i) as [x|] eqn:Hx; [|split; done].
  by eapply Forall_lookup_1 in Hx; [|apply buffer_of_ok].
Qed.

#[export] Instance crb_bench_laws : PlatformLaws CrbBench.
Proof.
  refine {| time := bench_time; trace := bench_events; freq_max := 1 |}.
  - done.
  - intros a b. split; [cbn; unfold shown_byte; destruct (buffer_index a); [apply memory_byte|split; done]|].
    split; [cbn; unfold STEP; lia|done].
  - intros a b. split; [cbn; unfold shown_start; repeat case_decide; split; done|].
    split; [cbn; unfold STEP; lia|done].
  - intros a v b. cbn. destruct (buffer_index a); cbn; split; done || lia.
  - intros a v b. cbn. case_decide; cbn; split; done || lia.
  - intros b. split; [cbn; lia|]. split; [cbn; unfold STEP; lia|done].
  - intros b. split; [done|]. split; [cbn; lia|]. split; [cbn; unfold STEP; lia|done].
  - intros b. exists (later Yielded b). split; [apply bench_yield|]. split; [cbn; unfold STEP; lia|done].
Defined.

Lemma bench_tpm_ok c : response_ok (bench_tpm c).
Proof.
  split; [cbn; unfold TPM_HEADER_SIZE; lia|]. split; [cbn; unfold CRB_DATA_BUFFER_SIZE; lia|].
  split; [|reflexivity]. unfold bench_tpm. apply Forall_app.
  split; [apply (bool_decide_unpack _); vm_compute; exact I|].
  repeat constructor; apply (trunc_range 8); lia.
Qed.

Lemma buffer_index_data i :
  (i < Z.to_nat CRB_DATA_BUFFER_SIZE)%nat ->
  buffer_index (BENCH_BASE + Crb.crb_data_buffer + Z.of_nat i) = Some i.
Proof. intros Hi. unfold buffer_index. rewrite decide_True by lia. f_equal. lia. Qed.

Lemma bench_store i v b :
  is_byte v -> buffer_of (<[i := v]> (bench_memory b)) = <[i := v]> (bench_memory b).
Proof.
  intros Hv. destruct (buffer_of_ok (bench_buffer b)) as [Hl Hb]. apply buffer_of_same.
  - by rewrite length_insert.
  - by apply Forall_insert.
Qed.

Lemma bench_execute b :
  buffer_of (executed bench_tpm (bench_memory b)) = executed bench_tpm (bench_memory b).
Proof.
  destruct (buffer_of_ok (bench_buffer b)) as [Hl Hb]. fold (bench_memory b) in *. unfold executed.
  set (c := take _ _). destruct (bench_tpm_ok c) as (_ & Hr & Hrb & _).
  apply buffer_of_same; [rewrite length_app, length_drop; lia|].
  apply Forall_app. split; [exact Hrb|by apply Forall_drop].
Qed.

#[export] Instance crb_bench_prompt : Prompt CrbBench.
Proof. refine {| look := 1 |}; cbn; lia. Defined.

#[export] Instance crb_bench : CrbTpm CrbBench.
Proof.
  refine {| crb_base := BENCH_BASE; tpm := bench_tpm; memory := bench_memory;
            busy_until := bench_busy; latency := 5 |}; try done.
  - apply bench_tpm_ok.
  - intros b. apply buffer_of_ok.
  - intros b b' Hy. rewrite bench_yield in Hy. by injection Hy as <-.
  - intros i v b Hi Hv Hb. cbn [write_u8 crb_bench_mmio]. rewrite buffer_index_data by done.
    unfold bench_memory at 1. cbn [bench_buffer bench_busy]. by rewrite bench_store.
  - intros b Hb. cbn [write_u32 crb_bench_mmio]. rewrite decide_True by done.
    unfold bench_memory at 1. cbn [bench_buffer bench_busy time crb_bench_laws bench_time].
    rewrite bench_execute. split; [done|lia].
  - intros b. cbn [read_u32 crb_bench_mmio]. unfold shown_start. rewrite decide_True by done.
    cbn [time crb_bench_laws bench_time later]. case_decide; split; intros; done || lia.
  - intros i b Hi Hb. cbn [read_u8 crb_bench_mmio]. unfold shown_byte. rewrite buffer_index_data by done. cbn [fst].
    destruct (buffer_of_ok (bench_buffer b)) as [Hl _]. fold (bench_memory b) in Hl.
    destruct (lookup_lt_is_Some_2 (bench_memory b) i) as [v Hv]; [lia|]. by rewrite Hv.
Defined.
