(* ===== verification/TpmFifo.v ===== *)
(** A TPM behind a FIFO: it takes a command byte by byte, in bursts whose length
    it announces, executes it once told to go, and gives the response back in
    bursts.  Over such a device, too, the driver of [TpmSst] and the service of
    [Tpm] compute what the TPM computes. *)
From Stdlib Require Import ZArith Lia.
From S2P Require Import Prelude FfaCore FfaMsg FfaFunctions MsgLoop RelayClient TpmSst TpmBus Tpm TpmSystem TpmDevice.
#[local] Open Scope Z_scope.

(** ** The device *)

(** What the device is about: it takes a command, of which it has these bytes,
    or gives a response, of which these bytes are left. *)
Inductive FifoPhase : Type := Receiving (command : list Z) | Answering (response : list Z).

(** How many bytes it takes or gives before the burst count must be read again,
    when the burst count is next readable, and when the status is. *)
Record FifoView : Type := mkView {
  phase : FifoPhase; credit : Z; ready_at : Z; settled_at : Z }.

(** Time passes: nothing changes, but the device may get ready for more. *)
Definition still (v v' : FifoView) : Prop :=
  phase v' = phase v /\ ready_at v' = ready_at v /\ settled_at v' = settled_at v /\
  credit v <= credit v'.

(** A command that is complete: as long as its header says. *)
Definition complete (c : list Z) : Prop :=
  (TPM_HEADER_SIZE <= length c)%nat /\ from_be_bytes (slice c 2 6) = Z.of_nat (length c).

(** The promises of the TCG's PTP specification for the registers at
    [fifo_base].  The burst count never promises more than the device takes and
    is not zero once the device is ready; after each byte it is ready again
    within [burst_wait].  The status settles within [status_wait] of a byte,
    and then is valid, with "expect" clear if the command is complete; "go" may
    then be stored.  After it the status settles within [run_wait], and then is
    valid, with "data available" until the last byte of the response has been
    read.  A valid status shows "expect" clear, or "data available", only once
    it has settled.  The timeouts leave room for all this. *)
Class FifoTpm (W : Type) `{Prompt W} := {
  fifo_base : Z;
  fifo_tpm : list Z -> list Z;
  view : W -> FifoView;
  burst_wait : Z;
  status_wait : Z;
  run_wait : Z;
  fifo_tpm_response c : response_ok (fifo_tpm c);
  credit_law w : 0 <= credit (view w);
  still_frq w : still (view w) (view (cntfrq w).2);
  still_vct w : still (view w) (view (cntvct w).2);
  still_yield w w' : Yield.exec (Yield.new YIELD_TIMEOUT_HINT_NS) w = (Ok tt, w') ->
    still (view w) (view w');
  still_read a w : a <> fifo_base + Fifo.data_fifo -> still (view w) (view (read_u8 a w).2);
  read_burst_count w :
    let '(lo, w1) := read_u8 (fifo_base + Fifo.burst_count) w in
    let '(hi, w2) := read_u8 (fifo_base + Fifo.burst_count + 1) w1 in
    let count := Z.lor (Z.shiftl hi 8) lo in
    count <= credit (view w2) /\ (ready_at (view w) <= time w -> count <> 0);
  read_status w :
    let '(v, w') := read_u8 (fifo_base + Fifo.status) w in
    (settled_at (view w) <= time w ->
       Z.land v PTP_FIFO_STS_VALID = PTP_FIFO_STS_VALID /\
       match phase (view w) with
       | Receiving c => complete c -> Z.land v PTP_FIFO_STS_EXPECT = 0
       | Answering r => r <> [] -> Z.land v PTP_FIFO_STS_DATA = PTP_FIFO_STS_DATA
       end) /\
    (Z.land v PTP_FIFO_STS_VALID = PTP_FIFO_STS_VALID ->
       match phase (view w) with
       | Receiving _ => Z.land v PTP_FIFO_STS_EXPECT = 0
       | Answering _ => Z.land v PTP_FIFO_STS_DATA = PTP_FIFO_STS_DATA
       end -> settled_at (view w) <= time w');
  store_data c b w :
    phase (view w) = Receiving c -> ~ complete c -> is_byte b -> 0 < credit (view w) ->
    let w' := write_u8 (fifo_base + Fifo.data_fifo) b w in
    phase (view w') = Receiving (c ++ [b]) /\ credit (view w) - 1 <= credit (view w') /\
    ready_at (view w') <= time w' + burst_wait /\ settled_at (view w') <= time w' + status_wait;
  store_go c w : phase (view w) = Receiving c -> complete c -> settled_at (view w) <= time w ->
    let w' := write_u8 (fifo_base + Fifo.status) (trunc 8 PTP_FIFO_STS_GO) w in
    phase (view w') = Answering (fifo_tpm c) /\
    settled_at (view w') <= time w' + run_wait /\
    ready_at (view w') <= settled_at (view w') + burst_wait;
  read_data b rest w :
    phase (view w) = Answering (b :: rest) -> 0 < credit (view w) -> settled_at (view w) <= time w ->
    let '(v, w') := read_u8 (fifo_base + Fifo.data_fifo) w in
    v = b /\ phase (view w') = Answering rest /\ credit (view w) - 1 <= credit (view w') /\
    ready_at (view w') <= time w' + burst_wait /\ settled_at (view w') = settled_at (view w);
  burst_room : allows (burst_wait + 2 * look + look) PTP_TIMEOUT_D;
  status_room : allows (status_wait + look + look) PTP_TIMEOUT_C;
  run_room : allows (run_wait + look + look) PTP_TIMEOUT_MAX;
}.

#[export] Instance still_preorder : PreOrder still.
Proof.
  split; [by repeat split|]. intros u v w (? & ? & ? & ?) (? & ? & ? & ?).
  repeat split; try congruence. lia.
Qed.

(** ** The driver *)

Section Driver.
Context {W : Type} `{FifoTpm W} (fuel : nat) (Hfuel : fuel_ok fuel).
Implicit Types (w : W) (self : TpmSst).

(** Waiting leaves the device as it is. *)
Lemma still_steady v : steady (fun w => still v (view w)).
Proof.
  split_and!.
  - intros w Hw. etransitivity; [exact Hw|apply still_frq].
  - intros w Hw. etransitivity; [exact Hw|apply still_vct].
  - intros w w' Hw Hy. etransitivity; [exact Hw|by apply still_yield].
Qed.

(** One look at the burst count: none is given only before the device is ready. *)
Lemma look_burst w :
  runs (read_burst (E := ErrorCode.t) fifo_base) w (fun r w' =>
    passes time writes 2 w w' /\ still (view w) (view w') /\ time w' <= time w + 2 * look /\
    match r with Some n => 0 < n <= credit (view w') | None => time w < ready_at (view w) end) no_error.
Proof.
  unfold read_burst. pose proof (read_burst_count w) as Hc.
  apply runs_bind, runs_call.
  pose proof (still_read (fifo_base + Fifo.burst_count) w) as Hs1.
  pose proof (look_u8 (fifo_base + Fifo.burst_count) w) as Hl1.
  destruct (read_u8_law (fifo_base + Fifo.burst_count) w) as [[Hlo _] Hp1].
  destruct (read_u8 (fifo_base + Fifo.burst_count) w) as [lo w1]. cbn [fst snd] in *.
  apply runs_bind, runs_call.
  pose proof (still_read (fifo_base + Fifo.burst_count + 1) w1) as Hs2.
  pose proof (look_u8 (fifo_base + Fifo.burst_count + 1) w1) as Hl2.
  destruct (read_u8_law (fifo_base + Fifo.burst_count + 1) w1) as [[Hhi _] Hp2].
  destruct (read_u8 (fifo_base + Fifo.burst_count + 1) w1) as [hi w2]. cbn [fst snd] in *.
  destruct Hc as [Hcredit Hready].
  apply runs_ret. split; [by apply (passes_trans 1 1 w w1)|].
  split; [etransitivity; [apply Hs1|apply Hs2]; unfold Fifo.burst_count, Fifo.data_fifo; lia|].
  split; [lia|].
  assert (0 <= Z.lor (Z.shiftl hi 8) lo)
    by (apply Z.lor_nonneg; split; [by apply Z.shiftl_nonneg|done]).
  case_decide as Hz; [lia|].
  destruct (Z.lt_ge_cases (time w) (ready_at (view w))) as [?|Hge]; [done|].
  exfalso. by apply Hready in Hge.
Qed.

(** The burst count comes in time. *)
Lemma burst_in_time w :
  ready_at (view w) <= time w + burst_wait ->
  runs (fifo_read_burst_count fuel fifo_base) w
    (fun n w' => quiet w w' /\ still (view w) (view w') /\ 0 < n <= credit (view w')) no_error.
Proof.
  intros Hr. unfold fifo_read_burst_count. apply runs_bind.
  set (I := fun w' => still (view w) (view w')).
  assert (reads I (read_burst (E := ErrorCode.t) fifo_base)) as Hreads.
  { intros w0 Hw0. eapply runs_mono; [apply look_burst| |done]. intros r w1 (Hp & Hs & _).
    split; [exact Hp|]. unfold I in *. by etransitivity. }
  eapply runs_mono; [apply (poll_in_time I) with (deadline := ready_at (view w)) (wait := burst_wait)
    (slack := 2 * look); try done; [apply still_steady| |apply burst_room]| |done].
  - intros w0 w1 Hw0 Hread. pose proof (look_burst w0) as Hlook. unfold runs in Hlook.
    rewrite Hread in Hlook. destruct Hlook as (_ & _ & Ht & Hn). destruct Hw0 as (_ & Hra & _).
    rewrite Hra in Hn. lia.
  - intros r w' (Hq & Hw' & n & w0 & -> & Hw0 & Hread). apply runs_ret.
    pose proof (look_burst w0) as Hlook. unfold runs in Hlook. rewrite Hread in Hlook.
    split; [done|]. split; [exact Hw'|apply Hlook].
Qed.

(** A register shows these bits set and those clear. *)
Lemma bits_match_both v bit_set bit_clear :
  bits_match v bit_set bit_clear = true -> Z.land v bit_set = bit_set /\ Z.land v bit_clear = 0.
Proof. unfold bits_match. by intros [?%bool_decide_eq_true ?%bool_decide_eq_true]%andb_true_iff. Qed.

(** *** Handing the command over *)

(** The device takes a command of which it has [c]. *)
Definition listening (c : list Z) w : Prop :=
  phase (view w) = Receiving c /\ ready_at (view w) <= time w + burst_wait /\
  settled_at (view w) <= time w + status_wait.

Lemma listening_still c w w' :
  listening c w -> still (view w) (view w') -> time w <= time w' -> listening c w'.
Proof. intros (Hc & Hr & Hs) (Hp & Hra & Hse & _) Ht. split_and!; [congruence|lia|lia]. Qed.

(** A part of a command is not complete. *)
Lemma part_incomplete buffer i n :
  complete (take n buffer) -> (i < n <= length buffer)%nat -> ~ complete (take i buffer).
Proof.
  intros [Hn Hh] Hi [Hl Hh']. rewrite length_take_le in Hl, Hh' by lia.
  rewrite length_take_le in Hn, Hh by lia. unfold TPM_HEADER_SIZE in *.
  replace (take n buffer) with (take i buffer ++ slice buffer i n) in Hh.
  - rewrite slice_app_l in Hh by (rewrite length_take_le; lia). lia.
  - unfold slice. rewrite <- (take_drop i (take n buffer)), take_take, skipn_firstn_comm.
    do 2 f_equal. lia.
Qed.

Lemma write_burst_hands {E} buffer len n i w :
  complete (take len buffer) -> bytes_ok buffer -> (i <= len <= length buffer)%nat ->
  Z.of_nat n <= credit (view w) -> listening (take i buffer) w ->
  runs (write_burst (E := E) fifo_base buffer len n i) w
    (fun j w' => j = (i + Nat.min n (len - i))%nat /\ listening (take j buffer) w') no_error.
Proof.
  intros Hc Hb. revert i w. induction n as [|n IH]; intros i w Hi Hn Hw; cbn [write_burst].
  - apply runs_ret. by rewrite Nat.add_0_r.
  - case_decide as Hlt.
    2: { apply runs_ret. replace (len - i)%nat with 0%nat by lia. by rewrite Nat.min_0_r, Nat.add_0_r. }
    destruct (lookup_lt_is_Some_2 buffer i) as [b Hbi]; [lia|].
    apply runs_bind. rewrite runs_lift, Hbi. cbn [or_panic].
    apply runs_bind. unfold store_u8, runs at 1. destruct Hw as (Hp & _).
    destruct (store_data (take i buffer) b w Hp) as (Hp' & Hcr & Hr & Hs); [| |lia|].
    { by apply (part_incomplete _ i len); [|lia]. }
    { by eapply Forall_lookup_1 in Hb. }
    eapply runs_mono; [apply (IH (S i)); [lia|lia|]| |done].
    + rewrite (take_S_r _ _ b) by done. by split_and!.
    + intros j w' [-> Hw']. split; [lia|exact Hw'].
Qed.

Lemma write_fifo_hands {E} buffer len rounds i w :
  complete (take len buffer) -> bytes_ok buffer -> (i <= len <= length buffer)%nat ->
  (len - i < rounds)%nat -> listening (take i buffer) w ->
  runs (write_fifo (E := E) fuel fifo_base buffer len rounds i) w
    (fun s w' => s = ErrorCode.Ok /\ listening (take len buffer) w') no_error.
Proof.
  intros Hc Hb. revert i w. induction rounds as [|rounds IH]; intros i w Hi Hr Hw; [lia|].
  cbn [write_fifo]. case_decide as Hlt.
  2: { apply runs_ret. by replace len with i by lia. }
  apply runs_bind, runs_attempt. eapply runs_mono; [apply burst_in_time, Hw| |done].
  intros n w1 ([Ht _] & Hs & Hn). apply (listening_still _ _ _ Hw) in Hs; [|done].
  apply runs_bind. eapply runs_mono; [by apply write_burst_hands; [..|lia|]| |done].
  intros j w2 [-> Hw2]. by apply IH; [lia|lia|].
Qed.

(** *** Waiting for the status *)

Abbreviation status_register := (fifo_base + Fifo.status).

(** The status is waited for with success, whatever bits a settled one has. *)
Lemma wait_status {E} self bit_set bit_clear timeout wait w :
  is_crb_interface self = false -> 0 <= timeout <= PTP_TIMEOUT_MAX ->
  allows (wait + look + look) timeout -> settled_at (view w) <= time w + wait ->
  (forall w0, still (view w) (view w0) -> settled_at (view w0) <= time w0 ->
     bits_match (read_u8 status_register w0).1 bit_set bit_clear = true) ->
  runs (wait_register_bits (E := E) fuel self status_register bit_set bit_clear timeout) w
    (fun s w' => s = ErrorCode.Ok /\ time w <= time w' /\ still (view w) (view w') /\
       exists w0, still (view w) (view w0) /\ w' = (read_u8 status_register w0).2 /\
         bits_match (read_u8 status_register w0).1 bit_set bit_clear = true) no_error.
Proof.
  intros Hself Ht Hroom Hset Hbits. unfold wait_register_bits. apply runs_bind.
  set (I := fun w' => still (view w) (view w')).
  assert (forall w0, read_bits (E := E) self status_register bit_set bit_clear w0 =
    (Ok (if bits_match (read_u8 status_register w0).1 bit_set bit_clear then Some tt else None),
     (read_u8 status_register w0).2)) as Hread.
  { intros w0. unfold read_bits, read_register. rewrite Hself.
    unfold mbind, stM_bind, Prelude.call. by destruct (read_u8 status_register w0). }
  assert (reads I (read_bits (E := E) self status_register bit_set bit_clear)) as Hreads.
  { intros w0 Hw0. unfold runs. rewrite Hread.
    destruct (read_u8_law status_register w0) as [_ [Hp ?]].
    split; [split; [unfold STEP in *; lia|done]|]. unfold I in *. etransitivity; [exact Hw0|].
    apply still_read. unfold Fifo.status, Fifo.data_fifo. lia. }
  eapply runs_mono; [apply (poll_in_time I) with (deadline := settled_at (view w)) (wait := wait)
    (slack := look); try done; [apply still_steady|]| |done].
  - intros w0 w1 Hw0 Hr. rewrite Hread in Hr. injection Hr as Hb <-.
    pose proof (look_u8 status_register w0). pose proof Hw0 as (_ & _ & Hse & _).
    destruct (Z.lt_ge_cases (time w0) (settled_at (view w0))) as [?|Hge]; [lia|].
    by rewrite Hbits in Hb.
  - intros r w' ([? _] & Hw' & [] & w0 & -> & Hw0 & Hr). apply runs_ret.
    split_and!; try done. exists w0. split; [exact Hw0|]. rewrite Hread in Hr.
    injection Hr as Hb ->. split; [done|]. by destruct (bits_match _ _ _).
Qed.

(** *** A command *)

(** The command [c] is with the device, which says so. *)
Definition handed (c : list Z) w : Prop :=
  phase (view w) = Receiving c /\ settled_at (view w) <= time w.

Lemma copy_command_hands {E} self locality buffer n w :
  is_crb_interface self = false -> external_fifo_ptr self locality = fifo_base ->
  complete (take (Z.to_nat n) buffer) -> bytes_ok buffer -> (Z.to_nat n <= length buffer)%nat ->
  listening [] w ->
  runs (copy_command_data (E := E) fuel self locality buffer n) w
    (fun s w' => s = ErrorCode.Ok /\ handed (take (Z.to_nat n) buffer) w') no_error.
Proof.
  intros Hself Hbase Hc Hb Hn Hw. unfold copy_command_data. rewrite Hself, Hbase.
  apply runs_bind. eapply runs_mono; [by apply write_fifo_hands; [..|lia|lia|]| |done].
  intros s w1 [-> Hw1]. rewrite decide_True by done. pose proof Hw1 as (Hp & _ & Hse).
  eapply runs_mono; [apply (wait_status self) with (wait := status_wait);
    [done|done|apply status_room|done|]| |done].
  - intros w0 (Hp0 & _) Hge. pose proof (read_status w0) as Hst.
    destruct (read_u8 status_register w0) as [v w2]. destruct Hst as [Hst _].
    destruct (Hst Hge) as [Hv He]. rewrite Hp0, Hp in He. cbn [fst]. unfold bits_match.
    by rewrite Hv, (He Hc), !bool_decide_true.
  - intros s w' (-> & Ht & (Hp' & _ & Hse' & _) & w0 & (Hp0 & _ & Hse0 & _) & -> & Hm).
    split; [done|]. split; [congruence|]. rewrite Hse'.
    pose proof (read_status w0) as Hst. destruct (read_u8 status_register w0) as [v w2].
    destruct Hst as [_ Hst]. cbn [fst snd] in *. rewrite Hp0, Hp, Hse0 in Hst.
    by apply bits_match_both in Hm as [? ?]; apply Hst.
Qed.

(** The device answers: [r] is left of the response. *)
Definition speaking (r : list Z) w : Prop :=
  phase (view w) = Answering r /\ ready_at (view w) <= time w + burst_wait /\
  settled_at (view w) <= time w.

Lemma speaking_still r w w' :
  speaking r w -> still (view w) (view w') -> time w <= time w' -> speaking r w'.
Proof. intros (Hc & Hr & Hs) (Hp & Hra & Hse & _) Ht. split_and!; [congruence|lia|lia]. Qed.

(** Two bits at once. *)
Lemma land_both v a b : Z.land v a = a -> Z.land v b = b -> Z.land v (Z.lor a b) = Z.lor a b.
Proof. intros Ha Hb. by rewrite Z.land_lor_distr_r, Ha, Hb. Qed.

Lemma land_part v a b : Z.land v a = a -> Z.land a b = b -> Z.land v b = b.
Proof. intros Ha Hb. by rewrite <- Hb, Z.land_assoc, Ha. Qed.

Lemma start_command_speaks {E} self locality c w :
  is_crb_interface self = false -> external_fifo_ptr self locality = fifo_base ->
  complete c -> handed c w ->
  runs (start_command (E := E) fuel self locality) w
    (fun s w' => s = ErrorCode.Ok /\ speaking (fifo_tpm c) w') no_error.
Proof.
  intros Hself Hbase Hc [Hp Hs]. unfold start_command. rewrite Hself, Hbase.
  apply runs_bind. unfold store_u8, runs at 1.
  destruct (store_go c w Hp Hc Hs) as (Hp' & Hse & Hr). set (w1 := write_u8 _ _ w) in *.
  eapply runs_mono; [apply (wait_status self) with (wait := run_wait);
    [done|done|apply run_room|done|]| |done].
  - intros w0 (Hp0 & _) Hge. pose proof (read_status w0) as Hst.
    destruct (read_u8 status_register w0) as [v w2]. destruct Hst as [Hst _].
    destruct (Hst Hge) as [Hv Hd]. rewrite Hp0, Hp' in Hd. cbn [fst]. unfold bits_match.
    rewrite land_both, Z.land_0_r, !bool_decide_true; try done. apply Hd.
    destruct (fifo_tpm_response c) as (Hl & _). unfold TPM_HEADER_SIZE in Hl.
    intros Hnil. rewrite Hnil in Hl. cbn in Hl. lia.
  - intros s w' (-> & Ht & Hs' & w0 & (Hp0 & _ & Hse0 & _) & -> & Hb). split; [done|].
    pose proof (read_status w0) as Hst. destruct (read_u8 status_register w0) as [v w2].
    destruct Hst as [_ Hst]. cbn [fst snd] in *. apply bits_match_both in Hb as [Hb _].
    rewrite Hp0, Hp' in Hst.
    specialize (Hst (land_part _ _ _ Hb eq_refl) (land_part _ _ _ Hb eq_refl)).
    destruct Hs' as (Hp2 & Hr2 & Hse2 & _). split_and!; [congruence|lia|lia].
Qed.

(** *** Reading the response *)

Lemma fifo_byte_speaks o b rest rb w :
  speaking (b :: rest) w -> 0 <= rb <= credit (view w) ->
  runs (fifo_read_byte fuel fifo_base o) (rb, w)
    (fun v bw => v = b /\ speaking rest bw.2 /\ 0 <= bw.1 <= credit (view bw.2)) no_error.
Proof.
  intros Hw Hrb. unfold fifo_read_byte. apply runs_bind. cbn [runs get_st]. apply runs_bind.
  apply runs_mono with (Q := fun _ bw => speaking (b :: rest) bw.2 /\ 0 < bw.1 <= credit (view bw.2))
    (X := no_error); [|clear rb w Hw Hrb|done].
  { case_decide as Hz.
    - apply runs_bind, runs_on_snd. cbn [fst snd].
      eapply runs_mono; [apply burst_in_time, Hw| |done]. intros n w' ([Ht _] & Hs & Hn).
      split; [by eapply speaking_still|done].
    - apply runs_ret. cbn [fst snd]. split; [done|lia]. }
  intros [] [rb w] [(Hp & Hr & Hse) Hrb]. cbn [fst snd] in *.
  apply runs_bind, runs_on_snd, runs_call. cbn [fst snd].
  pose proof (read_status w) as Hst.
  assert (still (view w) (view (read_u8 status_register w).2)) as (Hp1 & Hr1 & Hse1 & Hc1)
    by (apply still_read; unfold Fifo.status, Fifo.data_fifo; lia).
  destruct (read_u8_law status_register w) as [_ [Ht1 _]].
  destruct (read_u8 status_register w) as [v w1]. cbn [fst snd] in *. destruct Hst as [Hst _].
  destruct (Hst Hse) as [_ Hd]. rewrite Hp in Hd. specialize (Hd ltac:(done)).
  change (trunc 8 PTP_FIFO_STS_DATA) with PTP_FIFO_STS_DATA. rewrite Hd, decide_False by done.
  apply runs_bind, runs_on_snd, runs_call. cbn [fst snd].
  rewrite Hp in Hp1. pose proof (read_data b rest w1 Hp1) as Hda.
  destruct (read_u8_law (fifo_base + Fifo.data_fifo) w1) as [_ [Ht2 _]].
  destruct (read_u8 (fifo_base + Fifo.data_fifo) w1) as [v2 w2]. cbn [fst snd] in *.
  destruct Hda as (-> & Hp2 & Hc2 & Hr2 & Hse2); [lia..|].
  apply runs_bind. cbn [runs modify_fst fst snd]. apply runs_ret. cbn [fst snd].
  split; [done|]. split; [split_and!; [done|lia|lia]|lia].
Qed.

(** A response is read byte by byte. *)
Lemma fifo_reads i r rb w :
  speaking r w -> 0 <= rb <= credit (view w) ->
  exists rb' w', byte_reads (fifo_read_byte fuel fifo_base) (seq i (length r)) r (rb, w) (rb', w') /\
    speaking [] w'.
Proof.
  revert i rb w. induction r as [|b r IH]; intros i rb w Hw Hrb.
  - exists rb, w. split; [constructor|done].
  - pose proof (fifo_byte_speaks i b r rb w Hw Hrb) as Hb. unfold runs in Hb.
    destruct (fifo_read_byte fuel fifo_base i (rb, w)) as [[v|e| |] [rb1 w1]] eqn:Hread; try done.
    destruct Hb as (-> & Hw1 & Hrb1). destruct (IH (S i) rb1 w1 Hw1 Hrb1) as (rb' & w' & Hr & Hw').
    exists rb', w'. split; [|done]. cbn [length seq]. by econstructor.
Qed.

Lemma copy_response_speaks self locality buffer r w :
  is_crb_interface self = false -> external_fifo_ptr self locality = fifo_base ->
  capacity_ok (Z.of_nat (length buffer)) = true -> response_ok r -> (length r <= length buffer)%nat ->
  speaking r w -> 0 <= credit (view w) ->
  runs (copy_response_data fuel self locality buffer) w
    (fun nb w' => nb.1 = Z.of_nat (length r) /\ take (length r) nb.2 = r /\ speaking [] w') no_error.
Proof.
  intros Hself Hbase Hcap Hr Hfits Hw Hc. unfold copy_response_data, runs. rewrite Hself, Hbase.
  destruct (fifo_reads 0 r 0 w Hw) as (rb' & w' & Hreads & Hw'); [lia|].
  rewrite (read_tpm_response_reads _ r buffer (0, w) (rb', w')) by done.
  cbn [mbind outcome_bind fst snd]. rewrite blit_0. split; [done|]. split; [apply take_app_length|done].
Qed.

(** *** The whole command *)

Lemma command_complete crb : data_ok crb -> command_ok crb = true -> complete (command_bytes crb).
Proof.
  intros Hdata Hok. destruct (command_size crb Hdata Hok) as [Hlo Hhi].
  assert (length (command_bytes crb) = Z.to_nat (command_length crb)) as Hl
    by (unfold command_bytes; rewrite length_take; lia).
  split; [lia|]. rewrite Hl. replace (slice (command_bytes crb) 2 6) with (slice (crb_data_buffer crb) 2 6).
  - fold (command_length crb). lia.
  - unfold TPM_HEADER_SIZE in Hlo. rewrite <- (take_drop (Z.to_nat (command_length crb)) (crb_data_buffer crb)).
    fold (command_bytes crb). apply slice_app_l. lia.
Qed.

(** The driver computes what the TPM computes. *)
Lemma fifo_start_computes {E} self locality crb w :
  is_crb_interface self = false -> external_fifo_ptr self locality = fifo_base ->
  data_ok crb -> command_ok crb = true ->
  Z.of_nat (length (fifo_tpm (command_bytes crb))) <= crb_control_response_size crb ->
  listening [] w ->
  runs (start (E := E) fuel self locality crb) w
    (fun r w' => r = (ErrorCode.Ok, with_data_buffer
         (blit (crb_data_buffer crb) 0 (fifo_tpm (command_bytes crb))) crb) /\ speaking [] w') no_error.
Proof.
  intros Hself Hbase Hdata Hok Hfits Hw.
  apply (start_by_parts _ _ _ _ _ (handed (command_bytes crb))
    (speaking (fifo_tpm (command_bytes crb)))); try done.
  - intros buffer (Hbl & Hbb & Hcmd). rewrite <- Hcmd. apply copy_command_hands; try done.
    + rewrite Hcmd. by apply command_complete.
    + destruct (command_size crb Hdata Hok) as [_ Hn]. destruct Hdata as [Hl _]. lia.
  - intros w1 Hw1. apply start_command_speaks; try done. by apply command_complete.
  - intros buffer w2 Hw2 Hcap Hlen. apply copy_response_speaks; try done; [apply fifo_tpm_response|apply credit_law].
Qed.
End Driver.

(** ** A concrete TPM

    At 0x11000, with the clock at 400 Hz: it takes and gives four bytes at a
    time, needs three ticks before the next burst, two to look at a byte and
    five to execute a command, which it answers like the one behind a CRB. *)
Record FifoBench : Type := mkFifoBench {
  bench_time : Z; bench_events : list Event; bench_phase : FifoPhase;
  bench_left : Z; bench_ready : Z; bench_settled : Z }.

(** A tick, and a line of the trace. *)
Definition later (b : FifoBench) : FifoBench :=
  mkFifoBench (bench_time b + 1) (bench_events b) (bench_phase b) (bench_left b)
    (bench_ready b) (bench_settled b).
Definition noted (e : Event) (b : FifoBench) : FifoBench :=
  mkFifoBench (bench_time b) (bench_events b ++ [e]) (bench_phase b) (bench_left b)
    (bench_ready b) (bench_settled b).

Definition bench_view (b : FifoBench) : FifoView :=
  mkView match bench_phase b with
         | Receiving c => Receiving c
         | Answering r => Answering (trunc 8 <$> r)
         end (Z.max 0 (bench_left b)) (bench_ready b) (bench_settled b).

#[export] Instance complete_dec c : Decision (complete c).
Proof. unfold complete. apply _. Defined.

Definition status_byte (b : FifoBench) : Z :=
  if decide (bench_settled b <= bench_time b)
  then Z.lor PTP_FIFO_STS_VALID
         match bench_phase b with
         | Receiving c => if decide (complete c) then 0 else PTP_FIFO_STS_EXPECT
         | Answering [] => 0
         | Answering (_ :: _) => PTP_FIFO_STS_DATA
         end
  else 0.

(** One byte has gone through the FIFO. *)
Definition exchanged (p : FifoPhase) (settled : Z) (b : FifoBench) : FifoBench :=
  mkFifoBench (bench_time b + 1) (bench_events b) p (bench_left b - 1) (bench_time b + 4) settled.

(** What a byte read shows, and what a byte written does. *)
Definition shown (a : Z) (b : FifoBench) : Z * FifoBench :=
  if decide (a = BENCH_BASE + Fifo.data_fifo) then
    match bench_phase b with
    | Answering (v :: r) => (trunc 8 v, exchanged (Answering r) (bench_settled b) b)
    | _ => (0, later b)
    end
  else if decide (a = BENCH_BASE + Fifo.status) then (status_byte b, later b)
  else if decide (a = BENCH_BASE + Fifo.burst_count /\ bench_ready b <= bench_time b) then
    (4, mkFifoBench (bench_time b + 1) (bench_events b) (bench_phase b) (Z.max 4 (bench_left b))
          (bench_ready b) (bench_settled b))
  else (0, later b).

Definition taken_in (a v : Z) (b : FifoBench) : FifoBench :=
  match bench_phase b with
  | Receiving c =>
      if decide (a = BENCH_BASE + Fifo.data_fifo)
      then exchanged (Receiving (c ++ [v])) (bench_time b + 3) b
      else if decide (a = BENCH_BASE + Fifo.status /\ v = trunc 8 PTP_FIFO_STS_GO)
      then mkFifoBench (bench_time b + 1) (bench_events b) (Answering (bench_tpm c)) (bench_left b)
             (bench_time b + 6) (bench_time b + 6)
      else later b
  | Answering _ => later b
  end.

#[export] Instance fifo_bench_mmio : Mmio FifoBench := {|
  read_u8 a b := ((shown a b).1, noted (Load8 a (shown a b).1) (shown a b).2);
  read_u32 a b := (0, noted (Load32 a 0) (later b));
  write_u8 a v b := noted (Store8 a v) (taken_in a v b);
  write_u32 a v b := noted (Store32 a v) (later b);
|}.

#[export] Instance fifo_bench_counter : Counter FifoBench := {|
  cntfrq b := (400, noted (Frequency 400) (later b));
  cntvct b := (trunc 64 (bench_time b + 1), noted (Count (trunc 64 (bench_time b + 1))) (later b));
|}.

#[export] Instance fifo_bench_smc : SmcEnv FifoBench := fun _ _ b =>
  (0x84000061 :: replicate 17 0, noted Yielded (later b)).

Lemma fifo_bench_yield b : Yield.exec (Yield.new YIELD_TIMEOUT_HINT_NS) b =
  (Ok tt, noted Yielded (later b)).
Proof.
  unfold Yield.exec. by rewrite (exec_simple_unfold (Yield.new YIELD_TIMEOUT_HINT_NS)
    (SmcParams.with_default 0 0 0 0)) by done.
Qed.

(** Every read shows a byte and takes one tick; so does every store. *)
Lemma shown_read a b :
  is_byte (shown a b).1 /\ bench_time (shown a b).2 = bench_time b + 1 /\
  bench_events (shown a b).2 = bench_events b.
Proof.
  unfold shown. repeat case_decide; [|unfold status_byte..];
    repeat (case_match || case_decide); cbn [fst snd bench_time bench_events exchanged later];
    (split; [|split; [lia|done]]); solve [apply (trunc_range 8); lia | done].
Qed.

Lemma taken_in_write a v b :
  bench_time (taken_in a v b) = bench_time b + 1 /\ bench_events (taken_in a v b) = bench_events b.
Proof. unfold taken_in. repeat (case_match || case_decide); done. Qed.

#[export] Instance fifo_bench_laws : PlatformLaws FifoBench.
Proof.
  refine {| time := bench_time; trace := bench_events; freq_max := 400 |}.
  - done.
  - intros a b. destruct (shown_read a b) as (Hb & Ht & Hs).
    split; [done|]. split; cbn; [unfold STEP; lia|by rewrite Hs].
  - intros a b. split; [split; done|]. split; [cbn; unfold STEP; lia|done].
  - intros a v b. destruct (taken_in_write a v b) as [Ht Hs]. cbn. split; [lia|by rewrite Hs].
  - intros a v b. cbn. split; [lia|done].
  - intros b. split; [cbn; lia|]. split; [cbn; unfold STEP; lia|done].
  - intros b. split; [done|]. split; [cbn; lia|]. split; [cbn; unfold STEP; lia|done].
  - intros b. exists (noted Yielded (later b)). split; [apply fifo_bench_yield|].
    split; [cbn; unfold STEP; lia|done].
Defined.

#[export] Instance fifo_bench_prompt : Prompt FifoBench.
Proof.
  refine {| look := 1 |}; [cbn; lia|]. intros a b. cbn [time fifo_bench_laws].
  destruct (shown_read a b) as (_ & Ht & _). cbn. lia.
Defined.

Lemma later_still b : still (bench_view b) (bench_view (later b)).
Proof. repeat split. cbn. lia. Qed.

Lemma fifo_bench_still a b :
  a <> BENCH_BASE + Fifo.data_fifo -> still (bench_view b) (bench_view (read_u8 a b).2).
Proof.
  intros Ha. cbn [read_u8 fifo_bench_mmio snd]. unfold shown. rewrite decide_False by done.
  repeat case_decide; cbn [snd]; try apply later_still. repeat split. cbn. lia.
Qed.

Lemma fifo_bench_burst b :
  let '(lo, b1) := read_u8 (BENCH_BASE + Fifo.burst_count) b in
  let '(hi, b2) := read_u8 (BENCH_BASE + Fifo.burst_count + 1) b1 in
  let count := Z.lor (Z.shiftl hi 8) lo in
  count <= credit (bench_view b2) /\ (bench_ready b <= bench_time b -> count <> 0).
Proof.
  assert (forall b, shown (BENCH_BASE + Fifo.burst_count + 1) b = (0, later b)) as Hhi.
  { intros b0. unfold shown. rewrite !(decide_False (P := _ = _)) by done.
    by rewrite decide_False by (intros [? _]; done). }
  assert (shown (BENCH_BASE + Fifo.burst_count) b =
    if decide (bench_ready b <= bench_time b)
    then (4, mkFifoBench (bench_time b + 1) (bench_events b) (bench_phase b) (Z.max 4 (bench_left b))
               (bench_ready b) (bench_settled b))
    else (0, later b)) as Hlo.
  { unfold shown. rewrite !(decide_False (P := _ = _)) by done. apply decide_ext. tauto. }
  cbn [read_u8 fifo_bench_mmio]. rewrite Hlo.
  case_decide; cbn [fst snd]; rewrite Hhi; cbn [fst snd]; rewrite Z.shiftl_0_l, Z.lor_0_l; cbn;
    (split; [lia|done]).
Qed.

#[export] Instance fifo_tpm_bench : FifoTpm FifoBench.
Proof.
  refine {| fifo_base := BENCH_BASE; fifo_tpm := bench_tpm; view := bench_view;
            burst_wait := 3; status_wait := 2; run_wait := 5 |};
    try (intros; apply later_still).
  - apply bench_tpm_ok.
  - intros b. cbn. lia.
  - intros b b' Hy. rewrite fifo_bench_yield in Hy. injection Hy as <-. apply later_still.
  - intros a b. apply fifo_bench_still.
  - apply fifo_bench_burst.
  - intros b. cbn [read_u8 fifo_bench_mmio]. unfold shown. rewrite decide_False by done.
    rewrite decide_True by done. cbn. unfold status_byte.
    case_decide as Hs; [|split; [lia|done]]. split; [|lia]. intros _.
    destruct (bench_phase b) as [c|[|v r]].
    + case_decide; done.
    + done.
    + split; done.
  - intros c v b Hp Hc Hv Hcr. cbn [write_u8 fifo_bench_mmio]. unfold taken_in. cbn in Hp.
    destruct (bench_phase b) as [c'|]; [|done]. injection Hp as ->. rewrite decide_True by done.
    cbn. cbn in Hcr. split; [done|]. lia.
  - intros c b Hp Hc. cbn [write_u8 fifo_bench_mmio]. unfold taken_in. cbn in Hp.
    destruct (bench_phase b) as [c'|]; [|done]. injection Hp as ->.
    rewrite decide_False by done. rewrite decide_True by done. cbn [bench_view view phase bench_phase].
    destruct (bench_tpm_ok c) as (_ & _ & Hb & _). split; [|cbn; lia].
    cbn [noted bench_phase]. by rewrite trunc_words.
  - intros v r b Hp Hcr Hs. cbn [read_u8 fifo_bench_mmio]. unfold shown. cbn in Hp. rewrite decide_True by done.
    destruct (bench_phase b) as [|[|v' r']]; try done. injection Hp as <- <-.
    cbn. cbn in Hcr. split; [done|]. split; [done|]. lia.
  - intros b. vm_compute. done.
  - intros b. vm_compute. done.
  - intros b. vm_compute. done.
Defined.

(** ** Properties *)

(** C5: The service computes what the TPM computes.  Over a TPM that works
    within the timeouts, a start request for the active, open locality in the
    ready state, whose buffer holds a command of a valid length and room for the
    response, succeeds: the reply says so, the front of the locality's buffer is
    the TPM's answer to exactly that command, the bytes behind it are as before,
    the service is in the complete state and no other locality's registers have
    changed.  This holds for an idle TPM behind a CRB, which is idle again
    afterwards, and for one behind a FIFO that waits for a command, which has
    given its whole response afterwards. *)
Theorem tpm_computes `{UuidOps} :
  (forall (W : Type) `{CrbTpm W} fuel msg d l crb (w : W),
     fuel_ok fuel -> command_request msg d l crb ->
     is_crb_interface (sst (svc d)) = true -> external_crb_ptr (sst (svc d)) l = crb_base ->
     Z.of_nat (length (tpm (command_bytes crb))) <= crb_control_response_size crb ->
     busy_until w <= time w ->
     answered_with fuel msg d w l crb (tpm (command_bytes crb)) (fun w' => busy_until w' <= time w')) /\
  (forall (W : Type) `{FifoTpm W} fuel msg d l crb (w : W),
     fuel_ok fuel -> command_request msg d l crb ->
     is_crb_interface (sst (svc d)) = false -> external_fifo_ptr (sst (svc d)) l = fifo_base ->
     Z.of_nat (length (fifo_tpm (command_bytes crb))) <= crb_control_response_size crb ->
     listening [] w ->
     answered_with fuel msg d w l crb (fifo_tpm (command_bytes crb)) (speaking [])).
Proof.
  split; intros W ? ? ? ? ? ? fuel msg d l crb w Hfuel Hreq Hkind Hbase Hfits Hw;
    (apply service_answers; [done..|]); pose proof Hreq as (_ & _ & _ & _ & _ & _ & Hok); intros Hdata.
  - eapply runs_mono; [by apply (start_computes fuel Hfuel _ _ _ (memory w))| |done].
    intros a w' [-> (mem & _ & Hidle)]. by split.
  - by apply fifo_start_computes.
Qed.

(** The device of [startup_device] with the TPM behind a CRB, and behind a FIFO. *)
#[local] Existing Instance uuid_model.
Definition startup_over (sst : TpmSst) : TpmDevice TpmSst :=
  mkDevice (mkTpm Ready 1 0 [Open; Open; Open; Closed; Closed] 0x10000000 false sst)
    (replicate 5 startup_crb).
Definition crb_sst : TpmSst := mkSst true false 0x10000.
Definition idle_tpm : CrbBench := mkCrbBench 0 [] [] 0.
Definition waiting_tpm : FifoBench := mkFifoBench 0 [] (Receiving []) 0 0 0.

Lemma startup_requested sst : command_request execute_message (startup_over sst) 1 startup_crb.
Proof.
  assert (data_ok startup_crb) as Hok by apply sample_crb_ok.
  exists execute_request. split; [vm_compute; reflexivity|]. do 3 (split; [reflexivity|]).
  split; [|vm_compute; reflexivity].
  split_and!; try done. split_and!; try done. by apply Forall_replicate.
Qed.

Lemma tpm_computes_witness :
  let r := [0x80; 1; 0; 0; 0; 12; 0; 0; 0; 0; 0; 0] in
  answered_with 100 execute_message (startup_over crb_sst) idle_tpm 1 startup_crb r
    (fun w' => bench_busy w' <= TpmDevice.bench_time w') /\
  answered_with (Z.to_nat 40000) execute_message (startup_over fifo_sst) waiting_tpm 1
    startup_crb r (speaking []).
Proof.
  intros r. assert (bench_tpm (command_bytes startup_crb) = r) as <- by (vm_compute; reflexivity).
  pose proof tpm_computes as [Hcrb Hfifo]. split.
  - refine (Hcrb CrbBench _ _ _ _ _ crb_bench 100%nat execute_message (startup_over crb_sst) 1
      startup_crb idle_tpm _ _ _ _ _ _);
      [vm_compute; reflexivity|apply startup_requested|reflexivity..| |]; vm_compute; discriminate.
  - refine (Hfifo FifoBench _ _ _ _ _ fifo_tpm_bench (Z.to_nat 40000) execute_message
      (startup_over fifo_sst) 1 startup_crb waiting_tpm _ _ _ _ _ _); [| |reflexivity..| |].
    + unfold fuel_ok. rewrite Z2Nat.id by done. vm_compute. reflexivity.
    + apply startup_requested.
    + vm_compute. discriminate.
    + split_and!; [reflexivity|vm_compute; discriminate..].
Defined.

(** The run itself: twelve bytes and "go" are stored, and every byte of the
    response is taken, in bursts of four. *)
Example fifo_run :
  let '(r, w') := start (E := Error.t) (Z.to_nat 40000) fifo_sst 1 startup_crb waiting_tpm in
  r = Ok (ErrorCode.Ok, with_data_buffer
            (blit (crb_data_buffer startup_crb) 0 (bench_tpm startup_command)) startup_crb) /\
  writes w' = fifo_stores BENCH_BASE startup_command ++ [(BENCH_BASE + Fifo.status, 0x20)] /\
  bench_phase w' = Answering [] /\ bench_left w' = 0.
Proof. vm_compute. repeat split. Qed.
