(* ===== verification/Uart.v ===== *)
(** The PL011 driver of the QEMU partition ([qemu-sp-uart/src/lib.rs]): polled
    transmission, bounded polled reception, and its [embedded_io] interface,
    which discharges [UartIo] for the serial transport of [EcRelay]. *)
From Stdlib Require Import ZArith Lia.
From S2P Require Import Prelude EcRelay TpmSst.
#[local] Open Scope Z_scope.

(** [trait Mmio] of the driver: accesses at byte offsets of the device. *)
Class UartMmio (M : Type) := {
  read32 : Z -> M -> Z * M;
  read8 : Z -> M -> Z * M;
  write8 : Z -> Z -> M -> M;
}.

(** The production backend: volatile accesses at [base + off]. *)
Record RawMmio (W : Type) : Type := mkRaw { base : Z; bus : W }.
Arguments mkRaw {W} base bus.
Arguments base {W} r.
Arguments bus {W} r.

Definition raw_new {W} (base : Z) (bus : W) : RawMmio W := mkRaw base bus.

#[export] Instance raw_mmio {W} `{Mmio W} : UartMmio (RawMmio W) := {|
  read32 off m := let '(v, w) := read_u32 (base m + off) (bus m) in (v, mkRaw (base m) w);
  read8 off m := let '(v, w) := read_u8 (base m + off) (bus m) in (v, mkRaw (base m) w);
  write8 off v m := mkRaw (base m) (write_u8 (base m + off) v (bus m));
|}.

Definition UARTDR : Z := 0x000.
Definition UARTFR : Z := 0x018.
Definition FR_RXFE : Z := Z.shiftl 1 4.
Definition FR_TXFF : Z := Z.shiftl 1 5.

Module UartError.
Inductive t : Type := Timeout.

(** [embedded_io::Error::kind] *)
Definition kind (e : t) : IoErrorKind := TimedOut.
End UartError.

Record Pl011Uart (M : Type) : Type := mkPl011 { mmio : M }.
Arguments mkPl011 {M} mmio.
Arguments mmio {M} p.

Definition from_mmio {M} (mmio : M) : Pl011Uart M := mkPl011 mmio.
Definition uart_new {W} (base : Z) (bus : W) : Pl011Uart (RawMmio W) :=
  from_mmio (raw_new base bus).

Definition RX_POLL_BUDGET : Z := 10000000.

Section Driver.
Context {M : Type} `{UartMmio M}.
(** The polls one byte may wait for room in the transmit FIFO. *)
Context (fuel : nat).

(** [while self.mmio.read32(UARTFR) & FR_TXFF != 0 { spin_loop() }] *)
Fixpoint wait_tx (fuel : nat) : stM M UartError.t unit :=
  match fuel with
  | O => lift NoFuel
  | S fuel =>
      fr ← call (read32 UARTFR);
      if decide (Z.land fr FR_TXFF <> 0) then wait_tx fuel else mret tt
  end.

Fixpoint write_bytes (bytes : list Z) : stM M UartError.t unit :=
  match bytes with
  | [] => mret tt
  | b :: bytes =>
      _ ← wait_tx fuel;
      _ ← (fun m => (Ok tt, write8 UARTDR b m));
      write_bytes bytes
  end.

(** [for _ in 0..budget] *)
Fixpoint read_rounds (rounds : nat) : stM M UartError.t Z :=
  match rounds with
  | O => lift (Err UartError.Timeout)
  | S rounds =>
      fr ← call (read32 UARTFR);
      if decide (Z.land fr FR_RXFE = 0) then call (read8 UARTDR) else read_rounds rounds
  end.

Definition read_byte_bounded (budget : Z) : stM M UartError.t Z := read_rounds (Z.to_nat budget).

Definition read_byte_blocking : stM M UartError.t Z := read_byte_bounded RX_POLL_BUDGET.

(** [embedded_io::Read::read] into a buffer of the given length: the bytes put
    at its front, their number being the result. *)
Definition uart_read (len : nat) : stM M UartError.t (list Z) :=
  if decide (len = 0%nat) then mret [] else b ← read_byte_blocking; mret [b].

(** [embedded_io::Write] *)
Definition uart_write (buf : list Z) : stM M UartError.t nat :=
  _ ← write_bytes buf; mret (length buf).
Definition uart_flush : stM M UartError.t unit := mret tt.

(** A method of the driver on its backend. *)
Definition on_mmio {E A} (m : stM M E A) : stM (Pl011Uart M) E A := fun p =>
  let '(r, x) := m (mmio p) in (r, mkPl011 x).

(** [write_all] and [read_exact] of one byte are [embedded_io]'s default
    methods: they call [write] until the buffer is empty and [read] until one
    byte is there, and this driver's take the whole buffer, or give the byte,
    at the first call. *)
#[export] Instance pl011_io : UartIo (Pl011Uart M) := {|
  write_all buf :=
    if decide (buf = []) then mret tt
    else _ ← st_map_err UartError.kind (on_mmio (uart_write buf)); mret tt;
  read_byte :=
    l ← st_map_err (fun e => OtherError (UartError.kind e)) (on_mmio (uart_read 1));
    match l with
    | b :: _ => mret b
    | [] => lift (Err UnexpectedEof)
    end;
|}.
End Driver.

(** ** The device *)

(** A bus access as an observer of the bus sees it. *)
Inductive Access : Type := Read32 (off v : Z) | Read8 (off v : Z) | Write8 (off v : Z).

(** [n] reads of the flag register in a row. *)
Fixpoint after_polls {M} `{UartMmio M} (n : nat) (m : M) : M :=
  match n with O => m | S n => after_polls n (read32 UARTFR m).2 end.

(** Every access shows on the bus, data reads are bytes, and the transmit FIFO
    drains: within [tx_bound] polls it has room. *)
Class UartMmioLaws (M : Type) `{UartMmio M} := {
  bus_log : M -> list Access;
  read32_log off m : bus_log (read32 off m).2 = bus_log m ++ [Read32 off (read32 off m).1];
  read8_log off m : bus_log (read8 off m).2 = bus_log m ++ [Read8 off (read8 off m).1];
  write8_log off v m : bus_log (write8 off v m) = bus_log m ++ [Write8 off v];
  read8_byte off m : is_byte (read8 off m).1;
  tx_bound : nat;
  tx_drains m : exists k, (k < tx_bound)%nat /\
    Z.land (read32 UARTFR (after_polls k m)).1 FR_TXFF = 0;
}.

(** What the bus sees when the bytes are sent: before each one flag reads that
    show a full FIFO, then one that shows room, then the byte. *)
Inductive tx_accesses : list Z -> list Access -> Prop :=
  | tx_done : tx_accesses [] []
  | tx_full b bs v l :
      Z.land v FR_TXFF <> 0 -> tx_accesses (b :: bs) l ->
      tx_accesses (b :: bs) (Read32 UARTFR v :: l)
  | tx_room b bs v l :
      Z.land v FR_TXFF = 0 -> tx_accesses bs l ->
      tx_accesses (b :: bs) (Read32 UARTFR v :: Write8 UARTDR b :: l).

(** What it sees of a read with the given budget: flag reads that show an empty
    FIFO, and then one that shows a byte with the byte, or none after [budget]
    of them. *)
Inductive rx_accesses : nat -> outcome UartError.t Z -> list Access -> Prop :=
  | rx_timeout : rx_accesses 0 (Err UartError.Timeout) []
  | rx_empty n r v l :
      Z.land v FR_RXFE <> 0 -> rx_accesses n r l -> rx_accesses (S n) r (Read32 UARTFR v :: l)
  | rx_byte n v b :
      Z.land v FR_RXFE = 0 -> is_byte b ->
      rx_accesses (S n) (Ok b) [Read32 UARTFR v; Read8 UARTDR b].

Lemma rx_accesses_cases n r l :
  rx_accesses n r l ->
  (exists b, r = Ok b /\ is_byte b) \/
  r = Err UartError.Timeout /\ length l = n.
Proof.
  induction 1 as [|n r v l _ _ IH|n v b _ Hb]; [by right| |by left; exists b].
  destruct IH as [IH|[-> <-]]; [by left|by right].
Qed.

(** ** Lemmas *)

Section Lemmas.
Context {M : Type} `{UartMmioLaws M}.

Lemma wait_tx_runs k fuel (m : M) bs b :
  (k < fuel)%nat -> Z.land (read32 UARTFR (after_polls k m)).1 FR_TXFF = 0 ->
  runs (wait_tx fuel) m (fun _ m' => exists l, bus_log m' = bus_log m ++ l /\
    forall l0, tx_accesses bs l0 -> tx_accesses (b :: bs) (l ++ Write8 UARTDR b :: l0)) no_error.
Proof.
  revert fuel m. induction k as [|k IH]; intros [|fuel] m Hk Hf; try lia; cbn [wait_tx after_polls] in *;
    apply runs_bind, runs_call.
  - rewrite decide_False by (intros Hn; by apply Hn). apply runs_ret.
    eexists. split; [apply read32_log|]. intros l0 Hl. by apply tx_room.
  - case_decide as Hfull.
    + eapply runs_mono; [apply (IH fuel); [lia|exact Hf]| |done].
      intros [] m' (l & Hl & Htx). exists (Read32 UARTFR (read32 UARTFR m).1 :: l).
      split; [by rewrite Hl, read32_log, <- app_assoc|]. intros l0 Hl0. cbn [app].
      apply tx_full; [exact Hfull|by apply Htx].
    + apply runs_ret. eexists. split; [apply read32_log|]. intros l0 Hl. by apply tx_room.
Qed.

Lemma write_bytes_runs fuel (bs : list Z) (m : M) :
  (tx_bound <= fuel)%nat ->
  runs (write_bytes fuel bs) m
    (fun _ m' => exists l, bus_log m' = bus_log m ++ l /\ tx_accesses bs l) no_error.
Proof.
  intros Hfuel. revert m. induction bs as [|b bs IH]; intros m; cbn [write_bytes].
  { apply runs_ret. exists []. by rewrite app_nil_r; split; [|constructor]. }
  destruct (tx_drains m) as (k & Hk & Hf). apply runs_bind.
  eapply runs_mono; [apply (wait_tx_runs k fuel m bs b); [lia|exact Hf]| |done].
  intros [] m1 (l1 & Hl1 & Htx).
  apply runs_bind. unfold runs at 1. eapply runs_mono; [apply IH| |done].
  intros [] m2 (l2 & Hl2 & Hl). exists (l1 ++ Write8 UARTDR b :: l2).
  split; [|by apply Htx]. by rewrite Hl2, write8_log, Hl1, <- !app_assoc.
Qed.

Lemma read_rounds_spec n (m : M) :
  exists l, bus_log (read_rounds n m).2 = bus_log m ++ l /\ rx_accesses n (read_rounds n m).1 l.
Proof.
  revert m. induction n as [|n IH]; intros m.
  { exists []. rewrite app_nil_r. split; [done|constructor]. }
  cbn [read_rounds]. unfold mbind, stM_bind, call.
  pose proof (read32_log UARTFR m) as Hl. destruct (read32 UARTFR m) as [fr m1]. cbn [fst snd] in Hl.
  case_decide as Hfr.
  - pose proof (read8_log UARTDR m1) as Hl'. pose proof (read8_byte UARTDR m1) as Hb.
    destruct (read8 UARTDR m1) as [b m2]. cbn [fst snd] in *. eexists.
    split; [by rewrite Hl', Hl, <- app_assoc|]. by apply rx_byte.
  - destruct (IH m1) as (l & Hm & Hr). exists (Read32 UARTFR fr :: l).
    split; [by rewrite Hm, Hl, <- app_assoc|]. by apply rx_empty.
Qed.

(** The driver keeps the promises the serial transport relies on. *)
#[export] Instance pl011_laws fuel (Hfuel : (tx_bound <= fuel)%nat) :
  UartIoLaws (Pl011Uart M) (H := pl011_io fuel).
Proof.
  assert (forall E A (Q : A -> Prop) (m : stM M E A), st_settles Q m -> st_settles Q (on_mmio m))
    as Hon.
  { intros E A Q m Hm p. unfold on_mmio. specialize (Hm (mmio p)). by destruct (m (mmio p)). }
  split.
  - intros buf. cbn [write_all pl011_io]. case_decide; [by apply st_settles_ret|].
    apply st_settles_bind with (fun _ => True); [|by intros; apply st_settles_ret].
    apply st_settles_map_err, Hon. unfold uart_write.
    apply st_settles_bind with (fun _ => True); [|by intros; apply st_settles_ret].
    intros m. eapply runs_settles; [by apply write_bytes_runs|done].
  - cbn [read_byte pl011_io]. eapply st_settles_bind with (fun l => exists b, l = [b] /\ is_byte b).
    2: { intros l (b & -> & Hb). by apply st_settles_ret. }
    apply st_settles_map_err, Hon. unfold uart_read. rewrite decide_False by done.
    eapply st_settles_bind with is_byte; [|intros b Hb; apply st_settles_ret; exists b; by split].
    intros m. unfold read_byte_blocking, read_byte_bounded.
    destruct (read_rounds_spec (Z.to_nat RX_POLL_BUDGET) m) as (l & _ & Hr).
    apply rx_accesses_cases in Hr as [(b & -> & Hb)|[-> _]]; done.
Qed.
End Lemmas.

(** ** A concrete device

    A device that has received some bytes and whose transmit FIFO has room
    for one byte, free again after one poll. *)
Record UartBench : Type := mkUartBench { rx : list Z; tx_busy : bool; bus_trace : list Access }.

Definition bench_flags (u : UartBench) : Z :=
  Z.lor (if decide (rx u = []) then FR_RXFE else 0) (if tx_busy u then FR_TXFF else 0).

#[export] Instance bench_uart : UartMmio UartBench := {|
  read32 off u :=
    (bench_flags u, mkUartBench (rx u) false (bus_trace u ++ [Read32 off (bench_flags u)]));
  read8 off u :=
    let b := trunc 8 (default 0 (head (rx u))) in
    (b, mkUartBench (tail (rx u)) (tx_busy u) (bus_trace u ++ [Read8 off b]));
  write8 off v u := mkUartBench (rx u) true (bus_trace u ++ [Write8 off v]);
|}.

#[export] Instance bench_uart_laws : UartMmioLaws UartBench.
Proof.
  refine {| bus_log := bus_trace; tx_bound := 2 |}; try done.
  - intros off m. apply trunc_range. lia.
  - intros [l b t]. destruct b; [exists 1%nat|exists 0%nat]; (split; [lia|]);
      by destruct l.
Defined.

(** ** Properties *)

(** C27: On the bus the driver keeps the PL011's protocol.  Bytes are written in
    order and completely, each right after a flag read that shows room in the
    transmit FIFO, and the write ends as long as the FIFO drains.  A bounded
    read polls the flag at most [budget] times and takes a byte only right
    after a poll that shows one; otherwise it times out after exactly
    [budget] polls. *)
Theorem pl011_protocol {M} `{UartMmioLaws M} fuel bytes budget (m : M) :
  (tx_bound <= fuel)%nat ->
  (exists m' l, write_bytes fuel bytes m = (Ok tt, m') /\ bus_log m' = bus_log m ++ l /\
     tx_accesses bytes l) /\
  (exists r m' l, read_byte_bounded budget m = (r, m') /\ bus_log m' = bus_log m ++ l /\
     rx_accesses (Z.to_nat budget) r l).
Proof.
  intros Hfuel. split.
  - destruct (runs_ok _ _ _ _ (write_bytes_runs fuel bytes m Hfuel)) as ([] & m' & Hw & l & Hl & Htx).
    { by intros ? ? []. }
    by exists m', l.
  - destruct (read_rounds_spec (Z.to_nat budget) m) as (l & Hl & Hr). unfold read_byte_bounded.
    destruct (read_rounds (Z.to_nat budget) m) as [r m']. by exists r, m', l.
Qed.

Lemma pl011_protocol_witness :
  let m := mkUartBench [0xAB] true [] in
  (exists m' l, write_bytes 2 [1; 2] m = (Ok tt, m') /\ bus_trace m' = [] ++ l /\
     tx_accesses [1; 2] l) /\
  (exists r m' l, read_byte_bounded 3 m = (r, m') /\ bus_trace m' = [] ++ l /\
     rx_accesses 3 r l) /\
  (read_byte_bounded 3 m).1 = Ok 0xAB.
Proof.
  intros m. destruct (pl011_protocol 2 [1; 2] 3 m) as [Hw Hr]; [cbn; lia|].
  split; [exact Hw|]. split; [exact Hr|reflexivity].
Defined.
