(* ===== verification/Interrupts.v ===== *)
(** Interrupts: the hypervisor calls ([hafnium/src/lib.rs]), the exception
    vectors and the critical section ([aarch64-haf/src]), and the partitions'
    handlers ([platform/*/src/baremetal/interrupt.rs]).  The [hvc]
    instruction, the [DAIF] register and the user's handler are interfaces. *)
From Stdlib Require Import ZArith Lia.
From S2P Require Import Prelude.
#[local] Open Scope Z_scope.

(** ** Hypervisor calls *)

(** [hvc #0] with [x0]-[x3]: the value left in [x0]. *)
Class HvcEnv (W : Type) := hvc : Z -> Z -> Z -> Z -> W -> Z * W.

Module HfCall.
Inductive t : Type :=
  | MailboxWritableGet | MailboxWaiterGet | InterruptEnable | InterruptGet | InterruptInject
  | InterruptDeactivate | InterruptReconfigure.

Definition to_u64 (c : t) : Z :=
  match c with
  | MailboxWritableGet => 0xff01
  | MailboxWaiterGet => 0xff02
  | InterruptEnable => 0xff03
  | InterruptGet => 0xff04
  | InterruptInject => 0xff05
  | InterruptDeactivate => 0xff08
  | InterruptReconfigure => 0xff09
  end.
End HfCall.

(** The field of [InterruptId]. *)
Record InterruptId : Type := mkInterruptId { intid : Z }.

Module InterruptType.
Inductive t : Type := Irq | Fiq.
Definition to_u64 (ty : t) : Z := match ty with Irq => 0 | Fiq => 1 end.
End InterruptType.

Module InterruptReconfigureCommand.
Inductive t : Type := TargetPe | SecState | Enable.
Definition to_u64 (c : t) : Z := match c with TargetPe => 0 | SecState => 1 | Enable => 2 end.
End InterruptReconfigureCommand.

Definition INVALID_ID : Z := 0xffffffff.

Section Calls.
Context {W : Type} `{HvcEnv W}.

(** [r0 as i64] *)
Definition hf_call {E} (arg0 : HfCall.t) (arg1 arg2 arg3 : Z) : stM W E Z :=
  r0 ← call (hvc (HfCall.to_u64 arg0) arg1 arg2 arg3);
  mret (to_signed 64 r0).

Definition hf_interrupt_set (id : InterruptId) (int_type : InterruptType.t) (enable : bool) :
    stM W Z unit :=
  result ← hf_call HfCall.InterruptEnable (intid id) (Z.b2z enable) (InterruptType.to_u64 int_type);
  if decide (result = 0) then mret tt else lift (Err result).

(** [as u32] of the signed result is its low word. *)
Definition hf_interrupt_get {E} : stM W E (option InterruptId) :=
  r ← hf_call HfCall.InterruptGet 0 0 0;
  let id := trunc 32 r in
  mret (if decide (id = INVALID_ID) then None else Some (mkInterruptId id)).

Definition hf_interrupt_deactivate (id : InterruptId) : stM W Z unit :=
  result ← hf_call HfCall.InterruptDeactivate (intid id) (intid id) 0;
  if decide (result = 0) then mret tt else lift (Err result).

Definition hf_interrupt_reconfigure (id : InterruptId) (command : InterruptReconfigureCommand.t)
    (value : Z) : stM W Z unit :=
  result ← hf_call HfCall.InterruptReconfigure (intid id)
    (InterruptReconfigureCommand.to_u64 command) value;
  if decide (result = 0) then mret tt else lift (Err result).
End Calls.

(** ** Exception vectors *)

(** [trait HafInterruptHandler]: the handler the platform installs. *)
Class HafInterruptHandler (W : Type) := handle_interrupt : InterruptId -> W -> W.

(** The partitions' handlers write a log line and nothing else. *)
Definition QemuInterriptHandler {W} : HafInterruptHandler W := fun _ w => w.
Definition IHV1InterriptHandler {W} : HafInterruptHandler W := fun _ w => w.

Section Vectors.
Context {W : Type} `{HvcEnv W} `{HafInterruptHandler W}.

Definition irq_current {E} : stM W E bool :=
  interrupt ← hf_interrupt_get;
  match interrupt with
  | None => lift Panic
  | Some interrupt_id =>
      r ← attempt (hf_interrupt_deactivate interrupt_id);
      match r with
      | inr _ => lift Panic
      | inl _ => _ ← call (fun w => (tt, handle_interrupt interrupt_id w)); mret false
      end
  end.

(** Every other vector panics. *)
Definition sync_exception_current {E} : stM W E unit := lift Panic.
Definition fiq_current {E} : stM W E unit := lift Panic.
Definition serr_current {E} : stM W E unit := lift Panic.
Definition sync_lower {E} : stM W E unit := lift Panic.
Definition irq_lower {E} : stM W E unit := lift Panic.
Definition fiq_lower {E} : stM W E unit := lift Panic.
Definition serr_lower {E} : stM W E unit := lift Panic.

(** The CPU takes [n] interrupts one after another. *)
Fixpoint irqs {E} (n : nat) : stM W E unit :=
  match n with
  | O => mret tt
  | S n => _ ← irq_current; irqs n
  end.
End Vectors.

(** ** The critical section *)

(** The [DAIF] register and the masks its fields have: reading, setting, and
    writing fields, which leaves the fields not named zero. *)
Class DaifRegister (W : Type) := {
  daif_get : W -> Z;
  daif_set : Z -> W -> W;
  D_Masked : Z; A_Masked : Z; I_Masked : Z; F_Masked : Z;
}.

Section Daif.
Context {W : Type} `{DaifRegister W}.

Definition acquire (w : W) : Z * W :=
  let daif := daif_get w in (daif, daif_set (Z.lor I_Masked F_Masked) w).
Definition release (restore_state : Z) (w : W) : W := daif_set restore_state w.

Definition enable_arch_interrupts (w : W) : W := daif_set 0 w.
Definition disable_arch_interrupts (w : W) : W :=
  daif_set (Z.lor D_Masked (Z.lor A_Masked (Z.lor I_Masked F_Masked))) w.

(** A critical section, nested ones included, leaves the masks as they were,
    and inside it both interrupts are masked. *)
Lemma critical_section_restores (Hset : forall v w, daif_get (daif_set v w) = v) (w w' : W) :
  daif_get (acquire w).2 = Z.lor I_Masked F_Masked /\
  daif_get (release (acquire w).1 w') = daif_get w.
Proof. unfold acquire, release. cbn [fst snd]. by rewrite !Hset. Qed.
End Daif.

(** ** The interrupt controller

    What the hypervisor's interface promises: the interrupts pending for the
    partition are handed out in order, each once, and stay active until they
    are deactivated; none pending is answered with [INVALID_ID].  The
    handler is only asked to do its work while no interrupt is active. *)
Class IrqLaws (W : Type) `{HvcEnv W} `{HafInterruptHandler W} := {
  pending : W -> list Z;
  active : W -> option Z;
  delivered : W -> list Z;
  pending_ids w : Forall (fun id => is_u 32 id /\ id <> INVALID_ID) (pending w);
  get_none w : pending w = [] -> exists r, (hvc 0xff04 0 0 0 w).1 = r /\ trunc 32 r = INVALID_ID /\ is_u 64 r;
  get_some id l w : pending w = id :: l -> active w = None ->
    exists r w', hvc 0xff04 0 0 0 w = (r, w') /\ is_u 64 r /\ trunc 32 r = id /\
      pending w' = l /\ active w' = Some id /\ delivered w' = delivered w;
  deactivate_active id w : active w = Some id ->
    exists w', hvc 0xff08 id id 0 w = (0, w') /\
      pending w' = pending w /\ active w' = None /\ delivered w' = delivered w;
  handler_delivers id w : active w = None ->
    let w' := handle_interrupt (mkInterruptId id) w in
    pending w' = pending w /\ active w' = None /\ delivered w' = delivered w ++ [id];
}.

Lemma trunc_to_signed r : is_u 64 r -> trunc 32 (to_signed 64 r) = trunc 32 r.
Proof.
  intros _. unfold to_signed, trunc. case_decide; [done|].
  replace (r - 2 ^ 64) with (r + (- 2 ^ 32) * 2 ^ 32) by lia. by rewrite Z.mod_add by lia.
Qed.

Section Lemmas.
Context {W : Type} `{IrqLaws W}.

(** The whole vector, with an interrupt pending and with none. *)
Lemma irq_current_delivers {E} id l (w : W) :
  pending w = id :: l -> active w = None ->
  exists w', irq_current (E := E) w = (Ok false, w') /\
    pending w' = l /\ active w' = None /\ delivered w' = delivered w ++ [id].
Proof.
  intros Hp Ha. destruct (get_some id l w Hp Ha) as (r & w1 & Hg & Hr & Hid & Hp1 & Ha1 & Hd1).
  destruct (deactivate_active id w1 Ha1) as (w2 & Hde & Hp2 & Ha2 & Hd2).
  pose proof (pending_ids w) as Hids. rewrite Hp in Hids. apply Forall_cons in Hids as [[_ Hne] _].
  destruct (handler_delivers id w2 Ha2) as (Hp3 & Ha3 & Hd3).
  exists (handle_interrupt (mkInterruptId id) w2). split_and!; [|congruence..].
  unfold irq_current, hf_interrupt_get, hf_interrupt_deactivate, hf_call, attempt, mbind, stM_bind, call.
  cbn [HfCall.to_u64]. rewrite Hg. cbn. rewrite trunc_to_signed, Hid by done.
  rewrite decide_False by done. cbn [intid]. by rewrite Hde.
Qed.

Lemma irq_current_spurious {E} (w : W) :
  pending w = [] -> (irq_current (E := E) w).1 = Panic.
Proof.
  intros Hp. destruct (get_none w Hp) as (r & Hr & Hid & Hu).
  unfold irq_current, hf_interrupt_get, hf_call, mbind, stM_bind, call. cbn [HfCall.to_u64].
  destruct (hvc 0xff04 0 0 0 w) as [r' w1]. cbn [fst] in Hr. subst r'. cbn.
  rewrite trunc_to_signed, Hid by done. by rewrite decide_True.
Qed.

Lemma irqs_deliver {E} l (w : W) :
  pending w = l -> active w = None ->
  exists w', irqs (E := E) (length l) w = (Ok tt, w') /\
    pending w' = [] /\ active w' = None /\ delivered w' = delivered w ++ l.
Proof.
  revert w. induction l as [|id l IH]; intros w Hp Ha.
  { exists w. by rewrite app_nil_r. }
  destruct (irq_current_delivers (E := E) id l w Hp Ha) as (w1 & Hi & Hp1 & Ha1 & Hd1).
  destruct (IH w1 Hp1 Ha1) as (w2 & Hi2 & Hp2 & Ha2 & Hd2). exists w2.
  split_and!; [|done|done|by rewrite Hd2, Hd1, <- app_assoc].
  cbn [length irqs]. unfold mbind, stM_bind at 1. by rewrite Hi.
Qed.
End Lemmas.

(** ** A concrete controller *)

Record IrqBench : Type := mkIrqBench {
  bench_raised : list Z; bench_active : option Z; bench_delivered : list Z }.

Definition valid_id (id : Z) : Prop := is_u 32 id /\ id <> INVALID_ID.
#[export] Instance valid_id_dec id : Decision (valid_id id).
Proof. unfold valid_id. apply _. Defined.

(** The interrupts raised that are identifiers at all. *)
Definition bench_pending (b : IrqBench) : list Z := filter valid_id (bench_raised b).

#[export] Instance irq_bench_hvc : HvcEnv IrqBench := fun call arg _ _ b =>
  if decide (call = 0xff04) then
    match bench_pending b with
    | [] => (INVALID_ID, b)
    | id :: l => (id, mkIrqBench l (Some id) (bench_delivered b))
    end
  else if decide (call = 0xff08) then
    if decide (bench_active b = Some arg) then
      (0, mkIrqBench (bench_raised b) None (bench_delivered b))
    else (2 ^ 64 - 1, b)
  else (2 ^ 64 - 1, b).

#[export] Instance irq_bench_handler : HafInterruptHandler IrqBench := fun id b =>
  mkIrqBench (bench_raised b) (bench_active b)
    (if decide (bench_active b = None) then bench_delivered b ++ [intid id] else bench_delivered b).

Lemma filter_valid l : Forall valid_id l -> filter valid_id l = l.
Proof. induction 1 as [|id l Hid _ IH]; [done|]. by rewrite filter_cons_True, IH. Qed.

#[export] Instance irq_bench_laws : IrqLaws IrqBench.
Proof.
  refine {| pending := bench_pending; active := bench_active; delivered := bench_delivered |}.
  - intros b. apply Forall_forall. intros id Hid. by apply list_elem_of_filter in Hid as [? _].
  - intros b Hb. exists INVALID_ID. unfold hvc, irq_bench_hvc. cbn. rewrite Hb. by split_and!.
  - intros id l b Hb Ha. unfold hvc, irq_bench_hvc. cbn. rewrite Hb.
    assert (Forall valid_id (id :: l)) as [[Hu Hn] Hl]%Forall_cons.
    { rewrite <- Hb. apply Forall_forall. intros x Hx. by apply list_elem_of_filter in Hx as [? _]. }
    eexists _, _. split; [done|]. split; [destruct Hu; split; lia|]. split; [by apply trunc_small|].
    split; [|done]. unfold bench_pending. cbn [bench_raised]. by apply filter_valid.
  - intros id b Ha. unfold hvc, irq_bench_hvc. cbn. rewrite (decide_True (P := bench_active b = Some id)) by done. by eexists.
  - intros id b Ha. cbn. by rewrite decide_True.
Defined.

(** ** Properties *)

(** C28: Interrupts are delivered.  Taking as many interrupts as are pending
    reaches no panic, hands each of them to the platform's handler once and in
    the controller's order, each after it was deactivated, and leaves none
    pending or active; one interrupt more, with none pending, panics. *)
Theorem irqs_delivered `{IrqLaws W} {E} (w : W) :
  active w = None ->
  exists w', irqs (E := E) (length (pending w)) w = (Ok tt, w') /\
    pending w' = [] /\ active w' = None /\ delivered w' = delivered w ++ pending w /\
    (irq_current (E := E) w').1 = Panic.
Proof.
  intros Ha. destruct (irqs_deliver (E := E) (pending w) w eq_refl Ha) as (w' & Hi & Hp & Ha' & Hd).
  exists w'. split_and!; [done..|by apply irq_current_spurious].
Qed.

Lemma irqs_delivered_witness :
  exists w', irqs (E := unit) 2 (mkIrqBench [27; 33] None []) = (Ok tt, w') /\
    bench_delivered w' = [27; 33].
Proof.
  destruct (irqs_delivered (E := unit) (mkIrqBench [27; 33] None []))
    as (w' & Hi & _ & _ & Hd & _); [reflexivity|].
  exists w'. split; [exact Hi|exact Hd].
Defined.
