(* ===== verification/Espi.v ===== *)
(** The codecs of the eSPI device crate ([espi-device/src]): cycle types,
    command operation codes, short operands, tags and payload sizes.  The
    registers that the [bit_register] macro generates are not modelled. *)
From Stdlib Require Import ZArith Lia.
From S2P Require Import Prelude.
#[local] Open Scope Z_scope.

(** ** Errors and tags (espi_error.rs, lib.rs) *)

Module EspiError.
Inductive t : Type :=
  | CrcError | Timeout | ChannelNotAvailable | FatalError | NonFatalError | ProtocolError
  | InvalidParameters | Unsupported | MalformedPacket | DeviceBusy
  | PlatformError (msg : string) | Other (msg : string).

(** [impl Display] *)
#[local] Open Scope string_scope.
Definition fmt (self : t) : string :=
  match self with
  | CrcError => "CRC error detected"
  | Timeout => "Command or response timeout"
  | ChannelNotAvailable => "Channel not supported or not enabled"
  | FatalError => "Device reported a fatal error"
  | NonFatalError => "Device reported a non-fatal error"
  | ProtocolError => "Protocol violation"
  | InvalidParameters => "Invalid parameters provided"
  | Unsupported => "Feature not supported by device"
  | MalformedPacket => "Malformed packet received"
  | DeviceBusy => "Device busy or buffer full"
  | PlatformError msg => "Platform error: " ++ msg
  | Other msg => "Other error: " ++ msg
  end.

(** Different errors read differently. *)
Lemma fmt_inj e e' : fmt e = fmt e' -> e = e'.
Proof.
  destruct e, e'; cbn; intros Hs; try discriminate; try done;
  injection Hs as Hs; f_equal; exact Hs.
Qed.
End EspiError.

Module Tag.
(** The field of [Tag]. *)
Record t : Type := mk { value : Z }.
Definition MAX : Z := 0x0F.
Definition encode (self : t) : Z := value self.
Definition try_from (v : Z) : outcome EspiError.t t :=
  if decide (v > MAX) then Err (EspiError.Other "Tag value out of range") else Ok (mk v).
Definition try_from_bits (bits : Z) : outcome string t :=
  if decide (bits > MAX) then Err "Tag value out of range"%string else Ok (mk (trunc 8 bits)).
Definition try_into_bits (self : t) : outcome string Z := Ok (value self).
End Tag.

(** ** Cycle types (espi_types/cycle_type.rs) *)

Inductive Routing : Type := Local.

Module CompletionType.
Inductive t : Type := Middle | First | Last | Only.
#[export] Instance t_eq_dec : EqDecision t.
Proof. solve_decision. Defined.

Definition encode (self : t) : Z :=
  match self with Middle => 0 | First => 1 | Last => 2 | Only => 3 end.

Definition try_from (value : Z) : outcome string t :=
  match value with
  | 0 => Ok Middle
  | 1 => Ok First
  | 2 => Ok Last
  | 3 => Ok Only
  | _ => Err "Invalid completion type"%string
  end.
End CompletionType.
Export (hints) CompletionType.

(** [_ if value & 0b00001001 == 0b00001001 => ..] and the two arms after it,
    which both channels share. *)
Definition completion {C} (with_data without_data : CompletionType.t -> C) (message : string)
    (value : Z) : outcome string C :=
  if decide (Z.land value 0x09 = 0x09) then
    ct ← CompletionType.try_from (Z.shiftr (Z.land value 0x06) 1); Ok (with_data ct)
  else if decide (Z.land value 0x08 = 0x08) then
    ct ← CompletionType.try_from (Z.shiftr (Z.land value 0x06) 1); Ok (without_data ct)
  else Err message.

Module PeripheralChannelCycleType.
Inductive t : Type :=
  | MemRead32 | MemRead64 | MemWrite32 | MemWrite64
  | Message (r : Routing) | MessageWithData (r : Routing)
  | SuccessfulCompletionWithoutData
  | SuccessfulCompletionWithData (ct : CompletionType.t)
  | UnsuccessfulCompletionWithoutData (ct : CompletionType.t).

Definition into_u8 (value : t) : Z :=
  match value with
  | MemRead32 => 0x00
  | MemRead64 => 0x02
  | MemWrite32 => 0x01
  | MemWrite64 => 0x03
  | Message Local => 0x10
  | MessageWithData Local => 0x11
  | SuccessfulCompletionWithoutData => 0x06
  | SuccessfulCompletionWithData ct => Z.lor 0x09 (Z.shiftl (CompletionType.encode ct) 1)
  | UnsuccessfulCompletionWithoutData ct => Z.lor 0x08 (Z.shiftl (CompletionType.encode ct) 1)
  end.

Definition try_from (value : Z) : outcome string t :=
  if decide (value = 0x00) then Ok MemRead32
  else if decide (value = 0x02) then Ok MemRead64
  else if decide (value = 0x01) then Ok MemWrite32
  else if decide (value = 0x03) then Ok MemWrite64
  else if decide (value = 0x10) then Ok (Message Local)
  else if decide (value = 0x11) then Ok (MessageWithData Local)
  else if decide (value = 0x06) then Ok SuccessfulCompletionWithoutData
  else completion SuccessfulCompletionWithData UnsuccessfulCompletionWithoutData
         "Invalid peripheral channel cycle type" value.
End PeripheralChannelCycleType.

Module OutOfBandChannelCycleType.
Inductive t : Type := OutOfBand.
Definition into_u8 (value : t) : Z := 0x21.
Definition try_from (value : Z) : outcome string t :=
  if decide (value = 0x21) then Ok OutOfBand
  else Err "Invalid out-of-band channel cycle type"%string.
End OutOfBandChannelCycleType.

Module FlashChannelCycleType.
Inductive t : Type :=
  | FlashRead | FlashWrite | FlashErase
  | SuccessfulCompletionWithoutData
  | SuccessfulCompletionWithData (ct : CompletionType.t)
  | UnsuccessfulCompletionWithoutData (ct : CompletionType.t).
#[export] Instance t_eq_dec : EqDecision t.
Proof. solve_decision. Defined.

Definition into_u8 (value : t) : Z :=
  match value with
  | FlashRead => 0x0B
  | FlashWrite => 0x0C
  | FlashErase => 0x0D
  | SuccessfulCompletionWithoutData => 0x06
  | SuccessfulCompletionWithData ct => Z.lor 0x09 (Z.shiftl (CompletionType.encode ct) 1)
  | UnsuccessfulCompletionWithoutData ct => Z.lor 0x08 (Z.shiftl (CompletionType.encode ct) 1)
  end.

Definition try_from (value : Z) : outcome string t :=
  if decide (value = 0x0B) then Ok FlashRead
  else if decide (value = 0x0C) then Ok FlashWrite
  else if decide (value = 0x0D) then Ok FlashErase
  else if decide (value = 0x06) then Ok SuccessfulCompletionWithoutData
  else completion SuccessfulCompletionWithData UnsuccessfulCompletionWithoutData
         "Invalid flash channel cycle type" value.
End FlashChannelCycleType.
Export (hints) FlashChannelCycleType.

(** [trait CycleType]: both conversions, and [encode] for the one into [u8]. *)
Class CycleType (C : Type) := { cycle_into_u8 : C -> Z; cycle_try_from : Z -> outcome string C }.
Definition cycle_encode {C} `{CycleType C} (self : C) : Z := cycle_into_u8 self.

#[export] Instance peripheral_cycle_type : CycleType PeripheralChannelCycleType.t := {|
  cycle_into_u8 := PeripheralChannelCycleType.into_u8;
  cycle_try_from := PeripheralChannelCycleType.try_from |}.
#[export] Instance oob_cycle_type : CycleType OutOfBandChannelCycleType.t := {|
  cycle_into_u8 := OutOfBandChannelCycleType.into_u8;
  cycle_try_from := OutOfBandChannelCycleType.try_from |}.
#[export] Instance flash_cycle_type : CycleType FlashChannelCycleType.t := {|
  cycle_into_u8 := FlashChannelCycleType.into_u8;
  cycle_try_from := FlashChannelCycleType.try_from |}.

(** ** Operation codes (espi_types/op_code.rs) *)

Module ShortOpLength.
Inductive t : Type := U8 | U16 | U32.
Definition encode (self : t) : Z := match self with U8 => 0x01 | U16 => 0x02 | U32 => 0x03 end.
End ShortOpLength.

(** [trait ShortOpData] of the three operand types, which their length names. *)
Definition BYTES (ty : ShortOpLength.t) : Z :=
  match ty with ShortOpLength.U8 => 1 | ShortOpLength.U16 => 2 | ShortOpLength.U32 => 4 end.

Definition short_op_try_from_u32 (ty : ShortOpLength.t) (value : Z) : outcome string Z :=
  match ty with
  | ShortOpLength.U8 =>
      if decide (value > 0xFF) then
        Err "ShortOpData::try_from_u32: value is too large to fit in a u8"%string
      else Ok (trunc 8 value)
  | ShortOpLength.U16 =>
      if decide (value > 0xFFFF) then
        Err "ShortOpData::try_from_u32: value is too large to fit in a u16"%string
      else Ok (trunc 16 value)
  | ShortOpLength.U32 => Ok value
  end.

Module EspiCommandOpCode.
Inductive t : Type :=
  | PutPc | GetPc | PutNp | GetNp | PutVwire | GetVwire | PutOob | GetOob
  | PutFlashC | GetFlashNp | PutFlashNp | GetFlashC
  | GetStatus | GetConfiguration | SetConfiguration | InbandReset
  | PutIoRdShort (len : ShortOpLength.t) | PutIoWrShort (len : ShortOpLength.t)
  | PutMemRd32Short (len : ShortOpLength.t) | PutMemWr32Short (len : ShortOpLength.t).

Definition encode (self : t) : Z :=
  match self with
  | PutPc => 0x00
  | GetPc => 0x01
  | PutNp => 0x02
  | GetNp => 0x03
  | PutVwire => 0x04
  | GetVwire => 0x05
  | PutOob => 0x06
  | GetOob => 0x07
  | PutFlashC => 0x08
  | GetFlashNp => 0x09
  | PutFlashNp => 0x0A
  | GetFlashC => 0x0B
  | GetStatus => 0x25
  | GetConfiguration => 0x21
  | SetConfiguration => 0x22
  | InbandReset => 0xFF
  | PutIoRdShort len => Z.lor 0x40 (ShortOpLength.encode len)
  | PutIoWrShort len => Z.lor 0x44 (ShortOpLength.encode len)
  | PutMemRd32Short len => Z.lor 0x48 (ShortOpLength.encode len)
  | PutMemWr32Short len => Z.lor 0x4C (ShortOpLength.encode len)
  end.
End EspiCommandOpCode.

(** ** Payload sizes (register_enum_types.rs) *)

(** [MaxPayloadSize], and [MaxPayloadSizeSupport] with the same variants. *)
Module MaxPayloadSize.
Inductive t : Type := Size64Bytes | Size128Bytes | Size256Bytes.
#[export] Instance t_eq_dec : EqDecision t.
Proof. solve_decision. Defined.
Definition to_u32 (self : t) : Z :=
  match self with Size64Bytes => 1 | Size128Bytes => 2 | Size256Bytes => 3 end.
End MaxPayloadSize.
Export (hints) MaxPayloadSize.

Module MaxPayloadSizeSupport.
Inductive t : Type := Size64Bytes | Size128Bytes | Size256Bytes.
Definition to_u32 (self : t) : Z :=
  match self with Size64Bytes => 1 | Size128Bytes => 2 | Size256Bytes => 3 end.

Definition supports (self : t) (max_payload_size : MaxPayloadSize.t) : bool :=
  match self with
  | Size64Bytes => bool_decide (max_payload_size = MaxPayloadSize.Size64Bytes)
  | Size128Bytes =>
      bool_decide (max_payload_size = MaxPayloadSize.Size64Bytes) ||
      bool_decide (max_payload_size = MaxPayloadSize.Size128Bytes)
  | Size256Bytes =>
      bool_decide (max_payload_size = MaxPayloadSize.Size64Bytes) ||
      bool_decide (max_payload_size = MaxPayloadSize.Size128Bytes) ||
      bool_decide (max_payload_size = MaxPayloadSize.Size256Bytes)
  end.
End MaxPayloadSizeSupport.

(** ** Lemmas *)

(** A property of all bytes, by looking at each. *)
Lemma all_bytes (P : Z -> bool) :
  forallb P (seqZ 0 256) = true -> forall v, is_byte v -> P v = true.
Proof.
  intros Hall v [Hv0 Hv]. rewrite forallb_forall in Hall. apply Hall, list_elem_of_In, elem_of_seqZ.
  change (2 ^ 8) with 256 in Hv. lia.
Qed.


Definition decodes_to_code {C} `{CycleType C} (v : Z) : bool :=
  match cycle_try_from (C := C) v with
  | Ok c => bool_decide (cycle_encode c = v \/
              Z.testbit v 3 = true /\ cycle_encode c = Z.land v 0x0F)
  | Err _ => negb (Z.testbit v 3)
  | _ => false
  end.

Lemma peripheral_bytes v :
  is_byte v -> decodes_to_code (C := PeripheralChannelCycleType.t) v = true.
Proof. apply all_bytes. vm_compute. reflexivity. Qed.

Lemma flash_bytes v : is_byte v -> decodes_to_code (C := FlashChannelCycleType.t) v = true.
Proof. apply all_bytes. vm_compute. reflexivity. Qed.

Lemma op_code_encode_inj o o' :
  EspiCommandOpCode.encode o = EspiCommandOpCode.encode o' -> o = o'.
Proof.
  destruct o as [| | | | | | | | | | | | | | | |[]|[]|[]|[]], o' as [| | | | | | | | | | | | | | | |[]|[]|[]|[]];
    (reflexivity || discriminate).
Qed.

Lemma supports_iff s m :
  MaxPayloadSizeSupport.supports s m = true <->
  MaxPayloadSize.to_u32 m <= MaxPayloadSizeSupport.to_u32 s.
Proof. destruct s, m; vm_compute; intuition congruence. Qed.

Lemma short_op_fits ty v :
  is_u 32 v ->
  short_op_try_from_u32 ty v =
    if decide (v < 2 ^ (8 * BYTES ty)) then Ok v
    else short_op_try_from_u32 ty (2 ^ (8 * BYTES ty)).
Proof.
  intros [Hv0 Hv]. destruct ty; cbn [short_op_try_from_u32 BYTES].
  - change (2 ^ (8 * 1)) with 256. repeat case_decide; try lia; try done.
    rewrite trunc_small; [done|split; [lia|]]. change (2 ^ 8) with 256. lia.
  - change (2 ^ (8 * 2)) with 65536. repeat case_decide; try lia; try done.
    rewrite trunc_small; [done|split; [lia|]]. change (2 ^ 16) with 65536. lia.
  - change (2 ^ (8 * 4)) with (2 ^ 32). by rewrite decide_True.
Qed.

(** ** Properties *)

(** C38: The eSPI codes.  A peripheral or out-of-band cycle type decodes to
    itself, and so does a flash cycle type except for three: the codes of the
    last failed completion and of the first and last data completions are
    also those of write, read and erase, which they decode to.  A byte
    decodes to the cycle type with its code or, when bit 3 is set, to the one
    with its low four bits, and fails only with bit 3 clear.  Command operation
    codes are different for different commands. *)
Theorem espi_codes :
  (forall c : PeripheralChannelCycleType.t, cycle_try_from (cycle_encode c) = Ok c) /\
  (forall c : OutOfBandChannelCycleType.t, cycle_try_from (cycle_encode c) = Ok c) /\
  (forall c : FlashChannelCycleType.t,
     cycle_try_from (cycle_encode c) =
       match c with
       | FlashChannelCycleType.SuccessfulCompletionWithData CompletionType.First =>
           Ok FlashChannelCycleType.FlashRead
       | FlashChannelCycleType.UnsuccessfulCompletionWithoutData CompletionType.Last =>
           Ok FlashChannelCycleType.FlashWrite
       | FlashChannelCycleType.SuccessfulCompletionWithData CompletionType.Last =>
           Ok FlashChannelCycleType.FlashErase
       | _ => Ok c
       end) /\
  (forall v, is_byte v ->
     decodes_to_code (C := PeripheralChannelCycleType.t) v = true /\
     decodes_to_code (C := FlashChannelCycleType.t) v = true) /\
  (forall o o', EspiCommandOpCode.encode o = EspiCommandOpCode.encode o' -> o = o').
Proof.
  split; [by intros [| | | |[]|[]| |[]|[]]|]. split; [by intros []|].
  split; [by intros [| | | |[]|[]]|].
  split; [|apply op_code_encode_inj]. split; [by apply peripheral_bytes|by apply flash_bytes].
Qed.

Lemma espi_codes_witness :
  decodes_to_code (C := PeripheralChannelCycleType.t) 0x8B = true /\
  cycle_try_from (C := PeripheralChannelCycleType.t) 0x8B =
    Ok (PeripheralChannelCycleType.SuccessfulCompletionWithData CompletionType.First).
Proof.
  destruct espi_codes as (_ & _ & _ & Hb & _).
  split; [apply (Hb 0x8B); split; done|reflexivity].
Defined.
