(* ===== verification/EspiRegisters.v ===== *)
(** The registers of the eSPI device crate ([espi-device/src/config_register.rs,
    status_register.rs, register_enum_types.rs]).  A register is declared to the
    [bit_register] macro of another crate by the bit ranges and types of its
    fields; these declarations are the model.  What the theorems use of the
    macro is only what a declaration says: a field is read from its bits. *)
From Stdlib Require Import ZArith Lia.
From S2P Require Import Prelude Espi.
#[local] Open Scope Z_scope.

(** ** Enumerations (register_enum_types.rs) *)

Module FlashSharingMode.
Inductive t : Type := MasterAttached | ShaveAttached.
Definition to_u8 (self : t) : Z := match self with MasterAttached => 0 | ShaveAttached => 1 end.
Definition all : list t := [MasterAttached; ShaveAttached].
End FlashSharingMode.

Module IoMode.
Inductive t : Type := Single | Dual | Quad.
Definition to_u32 (self : t) : Z := match self with Single => 0 | Dual => 1 | Quad => 2 end.
Definition all : list t := [Single; Dual; Quad].
End IoMode.

Module Frequency.
Inductive t : Type := Freq20Mhz | Freq25Mhz | Freq33Mhz | Freq50Mhz | Freq66Mhz.
Definition to_u32 (self : t) : Z :=
  match self with
  | Freq20Mhz => 0 | Freq25Mhz => 1 | Freq33Mhz => 2 | Freq50Mhz => 3 | Freq66Mhz => 4
  end.
Definition all : list t := [Freq20Mhz; Freq25Mhz; Freq33Mhz; Freq50Mhz; Freq66Mhz].
End Frequency.

Module ChannelType.
Inductive t : Type := Peripheral | VirtualWire | OobMessage | FlashAccess.
Definition to_u32 (self : t) : Z :=
  match self with Peripheral => 0 | VirtualWire => 1 | OobMessage => 2 | FlashAccess => 3 end.
Definition all : list t := [Peripheral; VirtualWire; OobMessage; FlashAccess].
End ChannelType.

Module MaxReadRequestSize.
Inductive t : Type :=
  | Size64Bytes | Size128Bytes | Size256Bytes | Size512Bytes | Size1024Bytes | Size2048Bytes
  | Size4096Bytes.
Definition to_u32 (self : t) : Z :=
  match self with
  | Size64Bytes => 1 | Size128Bytes => 2 | Size256Bytes => 3 | Size512Bytes => 4
  | Size1024Bytes => 5 | Size2048Bytes => 6 | Size4096Bytes => 7
  end.
Definition all : list t :=
  [Size64Bytes; Size128Bytes; Size256Bytes; Size512Bytes; Size1024Bytes; Size2048Bytes;
   Size4096Bytes].
End MaxReadRequestSize.

Module FlashEraseBlockSize.
Inductive t : Type := Size4KBytes | Size64KBytes | Size4KAnd64KBytes | Size128KBytes | Size256KBytes.
Definition to_u32 (self : t) : Z :=
  match self with
  | Size4KBytes => 1 | Size64KBytes => 2 | Size4KAnd64KBytes => 3 | Size128KBytes => 4
  | Size256KBytes => 5
  end.
Definition all : list t :=
  [Size4KBytes; Size64KBytes; Size4KAnd64KBytes; Size128KBytes; Size256KBytes].
End FlashEraseBlockSize.

Module AlertMode.
Inductive t : Type := IoPin | AlertPin.
Definition to_u32 (self : t) : Z := match self with IoPin => 0 | AlertPin => 1 end.
Definition all : list t := [IoPin; AlertPin].
End AlertMode.

Module IoModeSupport.
Inductive t : Type := Single | SingleDual | SingleQuad | SingleDualQuad.
Definition to_u32 (self : t) : Z :=
  match self with Single => 0 | SingleDual => 1 | SingleQuad => 2 | SingleDualQuad => 3 end.
Definition all : list t := [Single; SingleDual; SingleQuad; SingleDualQuad].
End IoModeSupport.

(** ** Declarations *)

(** The type of a field: a flag, a number, or an enumeration, by its codes. *)
Inductive FieldType : Type := Flag | U8 | Codes (codes : list Z).

(** [name: type => [lo:hi]] *)
Record Field : Type := mkField { name : string; kind : FieldType; lo : Z; hi : Z }.

Record Register : Type := mkRegister { width : Z; fields : list Field }.

#[local] Open Scope string_scope.
#[local] Abbreviation bit n i := (mkField n Flag i i).
#[local] Abbreviation enum n f all l h := (mkField n (Codes (map f all)) l h).

Definition DeviceId : Register := mkRegister 32 [mkField "version_id" U8 0 7].

Definition max_payload_sizes : list Z :=
  map MaxPayloadSize.to_u32
    [MaxPayloadSize.Size64Bytes; MaxPayloadSize.Size128Bytes; MaxPayloadSize.Size256Bytes].
Definition max_payload_supports : list Z :=
  map MaxPayloadSizeSupport.to_u32
    [MaxPayloadSizeSupport.Size64Bytes; MaxPayloadSizeSupport.Size128Bytes;
     MaxPayloadSizeSupport.Size256Bytes].

Definition GeneralCapabilities : Register := mkRegister 32
  [bit "crc_checking_enable" 31; bit "response_modifier_enable" 30;
   enum "alert_mode" AlertMode.to_u32 AlertMode.all 28 28;
   enum "io_mode_select" IoMode.to_u32 IoMode.all 26 27;
   enum "io_mode_support" IoModeSupport.to_u32 IoModeSupport.all 24 25;
   bit "open_drain_alert_selected" 23;
   enum "operating_frequency" Frequency.to_u32 Frequency.all 20 22;
   bit "open_drain_alert_supported" 19;
   enum "max_frequency_supported" Frequency.to_u32 Frequency.all 16 18;
   mkField "max_wait_state_allowed" U8 12 15;
   bit "flash_access_channel_support" 3; bit "oob_message_channel_support" 2;
   bit "virtual_wire_channel_support" 1; bit "peripheral_channel_support" 0].

Definition PeripheralChannelCapabilities : Register := mkRegister 32
  [enum "max_read_request_size" MaxReadRequestSize.to_u32 MaxReadRequestSize.all 12 14;
   mkField "max_payload_size_selected" (Codes max_payload_sizes) 8 10;
   mkField "max_payload_size_supported" (Codes max_payload_supports) 4 6;
   bit "bus_master_enable" 2; bit "channel_ready" 1; bit "channel_enable" 0].

Definition VwireChannelCapabilities : Register := mkRegister 32
  [mkField "max_vw_count" U8 16 21; mkField "max_vw_count_support" U8 8 13;
   bit "channel_ready" 1; bit "channel_enable" 0].

Definition OobChannelCapabilities : Register := mkRegister 32
  [mkField "max_payload_size" (Codes max_payload_sizes) 8 10;
   mkField "max_payload_size_support" (Codes max_payload_supports) 4 6;
   bit "channel_ready" 1; bit "channel_enable" 0].

Definition FlashChannelCapabilities : Register := mkRegister 32
  [enum "max_read_request_size" MaxReadRequestSize.to_u32 MaxReadRequestSize.all 12 14;
   enum "flash_sharing_mode" FlashSharingMode.to_u8 FlashSharingMode.all 11 11;
   mkField "max_payload_size_selected" (Codes max_payload_sizes) 8 10;
   mkField "max_payload_size_supported" (Codes max_payload_supports) 4 6;
   enum "flash_block_erase_size" FlashEraseBlockSize.to_u32 FlashEraseBlockSize.all 2 4;
   bit "channel_ready" 1; bit "channel_enable" 0].

Definition StatusRegister : Register := mkRegister 16
  [bit "pc_free" 0; bit "np_free" 1; bit "vwire_free" 2; bit "oob_free" 3; bit "pc_avail" 4;
   bit "np_avail" 5; bit "vwire_avail" 6; bit "oob_avail" 7; bit "flash_c_free" 8;
   bit "flash_np_free" 9; bit "flash_c_avail" 12; bit "flash_np_avail" 13].

#[local] Close Scope string_scope.

(** [ConfigRegister::OFFSET] *)
Definition config_registers : list (Z * Register) :=
  [(0x04, DeviceId); (0x08, GeneralCapabilities); (0x10, PeripheralChannelCapabilities);
   (0x20, VwireChannelCapabilities); (0x30, OobChannelCapabilities); (0x40, FlashChannelCapabilities)].

(** ** What a declaration means *)

Definition bits (f : Field) : Z := hi f - lo f + 1.

(** A field's value in a word. *)
Definition field_value (f : Field) (v : Z) : Z := Z.land (Z.shiftr v (lo f)) (Z.ones (bits f)).

Definition holds (v : Z) (r : Register) : list Z := (fun f => field_value f v) <$> fields r.

(** A value the field has room for. *)
Definition fits (f : Field) (x : Z) : Prop := is_u (bits f) x.

(** Values the field's type has. *)
Definition admits (f : Field) (x : Z) : Prop :=
  match kind f with Flag => x = 0 \/ x = 1 | U8 => 0 <= x <= 255 | Codes codes => x ∈ codes end.

Definition apart (f g : Field) : Prop := hi f < lo g \/ hi g < lo f.

(** Field by field: in the word, no wider than the type, room for a flag and for
    every code, and apart from the fields that follow. *)
Fixpoint fields_ok (width : Z) (fs : list Field) : Prop :=
  match fs with
  | [] => True
  | f :: fs =>
      0 <= lo f <= hi f /\ hi f < width /\
      match kind f with Flag => hi f = lo f | U8 => bits f <= 8 | Codes codes => Forall (fits f) codes end /\
      Forall (apart f) fs /\ fields_ok width fs
  end.

#[export] Instance fields_ok_dec width fs : Decision (fields_ok width fs).
Proof.
  induction fs as [|f fs IH]; cbn [fields_ok]; [apply _|].
  unfold fits, apart. destruct (kind f); apply _.
Defined.

(** The word with the given values in its fields. *)
Fixpoint pack (fs : list Field) (vs : list Z) : Z :=
  match fs, vs with
  | f :: fs, v :: vs => Z.lor (Z.shiftl v (lo f)) (pack fs vs)
  | _, _ => 0
  end.

(** ** Lemmas *)

Lemma field_value_bits f v i :
  0 <= lo f <= hi f -> 0 <= i ->
  Z.testbit (field_value f v) i = Z.testbit v (i + lo f) && bool_decide (i < bits f).
Proof.
  intros Hf Hi. unfold field_value, bits.
  rewrite Z.land_spec, Z.shiftr_spec, Z.testbit_ones by lia. f_equal.
  rewrite (proj2 (Z.leb_le 0 i)) by lia. cbn [andb].
  apply Bool.eq_iff_eq_true. rewrite bool_decide_eq_true. apply Z.ltb_lt.
Qed.

(** Bits outside every field are clear. *)
Lemma pack_outside width fs vs i :
  fields_ok width fs -> Forall2 fits fs vs -> 0 <= i ->
  Forall (fun f => i < lo f \/ hi f < i) fs -> Z.testbit (pack fs vs) i = false.
Proof.
  intros Hok Hv Hi. induction Hv as [|f v fs vs Hfit _ IH]; intros Ho; cbn [pack];
    [by rewrite Z.testbit_0_l|].
  destruct Hok as (Hlo & _ & _ & _ & Hok). apply Forall_cons in Ho as [Hout Ho].
  rewrite Z.lor_spec, IH by done. rewrite orb_false_r.
  destruct Hout as [Hout|Hout]; [by rewrite Z.shiftl_spec_low by lia|].
  rewrite Z.shiftl_spec by lia. apply (testbit_high _ (bits f)); [done|unfold bits; lia].
Qed.

Lemma field_inside f v word :
  0 <= lo f <= hi f -> fits f v ->
  (forall i, lo f <= i <= hi f -> Z.testbit word i = Z.testbit v (i - lo f)) ->
  field_value f word = v.
Proof.
  intros Hf Hv Hw. apply Z.bits_inj'. intros i Hi. rewrite field_value_bits by done.
  case_bool_decide as Hb.
  - rewrite andb_true_r, Hw by (unfold bits in Hb; lia). f_equal. lia.
  - rewrite andb_false_r. symmetry. apply (testbit_high _ (bits f)); [done|lia].
Qed.

Lemma holds_app width f g fs vs v :
  fields_ok width (f :: fs) -> Forall2 fits fs vs -> g ∈ fs -> fits f v ->
  field_value g (pack (f :: fs) (v :: vs)) = field_value g (pack fs vs).
Proof.
  intros (Hlo & _ & _ & Hap & Hok) Hv Hg Hfit. apply Z.bits_inj'. intros i Hi.
  assert (0 <= lo g <= hi g) as Hglo.
  { clear -Hok Hg. induction fs as [|f fs IH]; [by apply elem_of_nil in Hg|].
    destruct Hok as (? & _ & _ & _ & Hok). apply elem_of_cons in Hg as [->|Hg]; auto. }
  rewrite !field_value_bits by done. case_bool_decide as Hb; [|by rewrite !andb_false_r].
  f_equal. cbn [pack]. rewrite Z.lor_spec.
  rewrite Forall_forall in Hap. specialize (Hap g Hg). unfold apart, bits in *.
  destruct Hap as [Hap|Hap]; [|by rewrite Z.shiftl_spec_low by lia].
  rewrite Z.shiftl_spec by lia. rewrite (testbit_high _ (hi f - lo f + 1)); [done|exact Hfit|lia].
Qed.

(** Packed values are read back, if the fields are apart. *)
Lemma pack_holds width fs vs :
  fields_ok width fs -> Forall2 fits fs vs -> (fun f => field_value f (pack fs vs)) <$> fs = vs.
Proof.
  intros Hok Hv. induction Hv as [|f v fs vs Hfit Hv IH]; [done|]. cbn [fmap list_fmap]. f_equal.
  - pose proof Hok as (Hlo & _ & _ & Hap & Hok'). apply field_inside; [done..|].
    intros i Hi. cbn [pack]. rewrite Z.lor_spec, Z.shiftl_spec by lia.
    rewrite (pack_outside width) by (done || lia || (eapply Forall_impl; [exact Hap|]; unfold apart; intros; cbn; lia)).
    by rewrite orb_false_r.
  - etransitivity; [|apply IH, Hok]. apply list_fmap_ext. intros k g Hg.
    eapply (holds_app width); [exact Hok|done| |done]. by eapply list_elem_of_lookup_2.
Qed.

Lemma pack_range width fs vs :
  0 <= width -> fields_ok width fs -> Forall2 fits fs vs -> is_u width (pack fs vs).
Proof.
  intros Hw Hok Hv. assert (0 <= pack fs vs) as Hpos.
  { clear Hw. revert Hok. induction Hv as [|f v fs vs Hfit _ IH]; cbn [pack]; [done|].
    intros (Hlo & _ & _ & _ & Hok). apply Z.lor_nonneg. split; [|by apply IH].
    apply Z.shiftl_nonneg, Hfit. }
  split; [done|]. destruct (Z.lt_ge_cases (pack fs vs) (2 ^ width)) as [?|Hge]; [done|exfalso].
  assert (0 < pack fs vs) as Hp by (pose proof (Z.pow_pos_nonneg 2 width); lia).
  pose proof (Z.bit_log2 (pack fs vs) Hp) as Hbit.
  apply (proj1 (Z.log2_le_pow2 _ _ Hp)) in Hge.
  rewrite (pack_outside width) in Hbit; [done|done|done|lia|].
  clear -Hok Hge. generalize dependent (Z.log2 (pack fs vs)). intros i Hi.
  induction fs as [|f fs IH]; [done|]. destruct Hok as (? & ? & _ & _ & Hok).
  constructor; [lia|auto].
Qed.

(** What is read fits. *)
Lemma field_value_fits f v : 0 <= lo f <= hi f -> fits f (field_value f v).
Proof.
  intros Hf. unfold fits, field_value, is_u, bits. rewrite Z.land_ones by lia.
  apply Z.mod_pos_bound, Z.pow_pos_nonneg; lia.
Qed.

Lemma holds_fits width fs v : fields_ok width fs -> Forall2 fits fs ((fun f => field_value f v) <$> fs).
Proof.
  induction fs as [|f fs IH]; [constructor|]. intros (Hlo & _ & _ & _ & Hok).
  constructor; [by apply field_value_fits|by apply IH].
Qed.

(** A field without room for every value of its type is a number of fewer bits
    than a byte. *)
Definition narrow (f : Field) : bool :=
  match kind f with U8 => bool_decide (bits f < 8) | _ => false end.

Lemma narrow_iff width fs f :
  fields_ok width fs -> f ∈ fs -> (exists x, admits f x /\ ~ fits f x) <-> narrow f = true.
Proof.
  intros Hok Hf. induction fs as [|g fs IH]; [by apply elem_of_nil in Hf|].
  destruct Hok as (Hlo & _ & Hkind & _ & Hok). apply elem_of_cons in Hf as [->|Hf]; [|by apply IH].
  unfold admits, narrow, fits, is_u, bits in *. destruct (kind g) as [| |codes].
  - rewrite Hkind. replace (lo g - lo g + 1) with 1 by lia. split; [|done].
    intros (x & Hx & Hn). exfalso. apply Hn. destruct Hx as [-> | ->]; done.
  - rewrite bool_decide_eq_true. split.
    + intros (x & Hx & Hn). destruct (Z.lt_ge_cases (hi g - lo g + 1) 8) as [?|Hge]; [done|].
      exfalso. apply Hn. replace (hi g - lo g + 1) with 8 by lia. lia.
    + intros Hb. exists (2 ^ (hi g - lo g + 1)). split; [|lia].
      assert (2 ^ (hi g - lo g + 1) <= 2 ^ 7) by (apply Z.pow_le_mono_r; lia).
      assert (0 < 2 ^ (hi g - lo g + 1)) by (apply Z.pow_pos_nonneg; lia). lia.
  - split; [|done]. intros (x & Hx & Hn). exfalso. apply Hn.
    rewrite Forall_forall in Hkind. by apply Hkind.
Qed.

(** The registers whose fields are apart. *)
Definition sound_registers : list Register :=
  [DeviceId; GeneralCapabilities; PeripheralChannelCapabilities; VwireChannelCapabilities;
   OobChannelCapabilities; StatusRegister].

Lemma sound_registers_ok r :
  r ∈ sound_registers -> 0 <= width r /\ fields_ok (width r) (fields r).
Proof.
  assert (Forall (fun r => 0 <= width r /\ fields_ok (width r) (fields r)) sound_registers) as Hall
    by (apply (bool_decide_unpack _); vm_compute; exact I).
  rewrite Forall_forall in Hall. apply Hall.
Qed.

(** The numbers declared as bytes on fewer bits. *)
Definition narrow_fields : list (string * Z * Z) :=
  [("max_wait_state_allowed"%string, 12, 15); ("max_vw_count"%string, 16, 21);
   ("max_vw_count_support"%string, 8, 13)].

Lemma narrow_listed r f :
  r ∈ sound_registers -> f ∈ fields r -> narrow f = true <-> (name f, lo f, hi f) ∈ narrow_fields.
Proof.
  intros Hr Hf.
  assert (Forall (fun r => Forall (fun f => narrow f = bool_decide ((name f, lo f, hi f) ∈ narrow_fields))
    (fields r)) sound_registers) as Hall by (apply (bool_decide_unpack _); vm_compute; exact I).
  rewrite Forall_forall in Hall. specialize (Hall r Hr). rewrite Forall_forall in Hall.
  rewrite (Hall f Hf). apply bool_decide_eq_true.
Qed.

(** The two fields of the flash register that share bit 4. *)
Definition flash_payload : Field :=
  mkField "max_payload_size_supported" (Codes max_payload_supports) 4 6.
Definition flash_erase : Field :=
  mkField "flash_block_erase_size" (Codes (map FlashEraseBlockSize.to_u32 FlashEraseBlockSize.all)) 2 4.

(** Both read bit 4. *)
Lemma flash_fields_share v :
  Z.odd (field_value flash_payload v) = bool_decide (4 <= field_value flash_erase v).
Proof.
  rewrite <- Z.bit0_odd, field_value_bits by (cbn; lia). cbn [lo hi bits flash_payload].
  rewrite andb_true_r. change (0 + 4) with 4.
  assert (is_u 3 (field_value flash_erase v)) as Hr.
  { unfold field_value. rewrite trunc_ones by (by vm_compute). apply (trunc_range 3). lia. }
  transitivity (Z.testbit (field_value flash_erase v) 2).
  - rewrite field_value_bits by (cbn; lia). cbn. by rewrite andb_true_r.
  - destruct Hr as [Hr0 Hr]. apply Bool.eq_iff_eq_true. rewrite bool_decide_eq_true.
    generalize dependent (field_value flash_erase v). intros x Hx0 Hx. change (2 ^ 3) with 8 in Hx.
    assert (x = 0 \/ x = 1 \/ x = 2 \/ x = 3 \/ x = 4 \/ x = 5 \/ x = 6 \/ x = 7) as Hc by lia.
    destruct_or! Hc; subst; vm_compute; split; congruence.
Qed.

(** ** Properties *)

(** C39: The declared registers.  In every register but the flash channel's the
    fields lie in the word and do not overlap, so values of the fields' types
    are held together by some word, from which they are read back, exactly if
    each of them fits its field's bits.  Every value of the type does, flags,
    enumerations and bytes, except in three fields declared as bytes on fewer
    bits: [max_wait_state_allowed] on four, [max_vw_count] and
    [max_vw_count_support] on six, where the larger values have no word.  The
    flash channel's erase block size and supported payload size share bit 4: in
    any word the erase size is at least 4 exactly if the payload size is odd,
    so, for one, 4-kilobyte blocks with 64-byte payloads have no word.  The
    configuration registers have different offsets. *)
Theorem espi_registers_declared :
  (forall r vs, r ∈ sound_registers -> Forall2 admits (fields r) vs ->
     (exists v, is_u (width r) v /\ holds v r = vs) <-> Forall2 fits (fields r) vs) /\
  (forall r f, r ∈ sound_registers -> f ∈ fields r ->
     (exists x, admits f x /\ ~ fits f x) <->
     (name f, lo f, hi f) ∈ [("max_wait_state_allowed"%string, 12, 15); ("max_vw_count"%string, 16, 21);
                             ("max_vw_count_support"%string, 8, 13)]) /\
  flash_payload ∈ fields FlashChannelCapabilities /\ flash_erase ∈ fields FlashChannelCapabilities /\
  (forall v, Z.odd (field_value flash_payload v) = bool_decide (4 <= field_value flash_erase v)) /\
  (forall v, ~ (field_value flash_erase v = FlashEraseBlockSize.to_u32 FlashEraseBlockSize.Size4KBytes /\
               field_value flash_payload v =
                 MaxPayloadSizeSupport.to_u32 MaxPayloadSizeSupport.Size64Bytes)) /\
  NoDup config_registers.*1.
Proof.
  split.
  { intros r vs Hr _. destruct (sound_registers_ok r Hr) as [Hw Hok]. split.
    - intros (v & _ & <-). by eapply holds_fits.
    - intros Hf. exists (pack (fields r) vs). split; [by apply pack_range|by eapply pack_holds]. }
  split.
  { intros r f Hr Hf. destruct (sound_registers_ok r Hr) as [_ Hok].
    rewrite (narrow_iff _ _ _ Hok Hf). exact (narrow_listed r f Hr Hf). }
  split; [set_solver|]. split; [set_solver|]. split; [exact flash_fields_share|]. split.
  { intros v [He Hp]. pose proof (flash_fields_share v) as Hs. by rewrite He, Hp in Hs. }
  apply (bool_decide_unpack _). vm_compute. exact I.
Qed.

(** Eight virtual wires out of 63 have a word; 64 have none. *)
Lemma espi_registers_declared_witness :
  (exists v, is_u 32 v /\ holds v VwireChannelCapabilities = [8; 63; 1; 0]) /\
  ~ exists v, is_u 32 v /\ holds v VwireChannelCapabilities = [8; 64; 1; 0].
Proof.
  destruct espi_registers_declared as [Hr _].
  assert (forall n, 0 <= n <= 255 -> Forall2 admits (fields VwireChannelCapabilities) [8; n; 1; 0]) as Ha.
  { intros n Hn. unfold admits. repeat (apply Forall2_cons; split); cbn [kind]; [lia|lia|by right|by left|constructor]. }
  split.
  - apply (Hr VwireChannelCapabilities); [set_solver|by apply Ha|].
    repeat (apply Forall2_cons; split); [done..|constructor].
  - intros Hv. apply (Hr VwireChannelCapabilities) in Hv; [|set_solver|by apply Ha].
    apply Forall2_cons in Hv as [_ Hv]. apply Forall2_cons in Hv as [[_ Hv] _]. vm_compute in Hv. discriminate.
Defined.
