(* ===== verification/EspiStub.v ===== *)
(** The channels of the eSPI device crate ([espi-device/src/lib.rs]) as classes
    of operations, and the stub device that logs and answers zero
    ([espi-device-stub/src/lib.rs]). *)
From Stdlib Require Import ZArith Lia.
From S2P Require Import Prelude Espi EspiRegisters.
#[local] Open Scope Z_scope.

(** [trait ConfigRegister]; the conversions of the declared registers come out
    of the [bit_register] macro. *)
Class ConfigRegister (T : Type) := {
  OFFSET : Z;
  try_from_u32 : Z -> outcome string T;
  try_into_u32 : T -> outcome string Z;
}.

Abbreviation espi_result := (outcome EspiError.t).

(** ** The channels; a device is not changed by its operations ([&self]) *)

Class IndependentChannel (D S : Type) := {
  get_configuration_register {T} `{ConfigRegister T} : D -> espi_result T;
  set_configuration_register {T} `{ConfigRegister T} : D -> T -> espi_result unit;
  get_status : D -> espi_result S;
  reset : D -> espi_result unit;
}.

(** Operands are named by their type's length; buffers are byte lists. *)
Class PeripheralChannel (D : Type) := {
  mem32_write_short : ShortOpLength.t -> D -> Z -> Z -> espi_result unit;
  mem32_read_short : ShortOpLength.t -> D -> Z -> espi_result Z;
  io_read_short : ShortOpLength.t -> D -> Z -> espi_result Z;
  io_write_short : ShortOpLength.t -> D -> Z -> Z -> espi_result unit;
  put_posted_mem32_write : D -> Tag.t -> Z -> list Z -> espi_result unit;
  put_np_mem32_read : D -> Tag.t -> Z -> list Z -> espi_result (list Z);
  put_posted_mem64_write : D -> Tag.t -> Z -> list Z -> espi_result unit;
  put_np_mem64_read : D -> Tag.t -> Z -> list Z -> espi_result (list Z);
  put_posted_message : D -> Tag.t -> Z -> list Z -> espi_result unit;
  put_posted_message_with_data : D -> Tag.t -> Z -> list Z -> list Z -> espi_result unit;
}.

Record PutVwireData : Type := mkVwire { index : Z; data : Z }.

Class VirtualWireChannel (D : Type) := {
  put_vwire : D -> list PutVwireData -> espi_result unit;
  get_vwire : D -> list Z -> espi_result (list Z);
}.

Class OobChannel (D : Type) := {
  put_oob : D -> list Z -> Tag.t -> espi_result unit;
  get_oob : D -> list Z -> espi_result (list Z);
}.

(** ** The stub *)

Inductive EspiDeviceStub : Type := EspiDeviceStub_new.

Record StubConfigRegister : Type := mkStubRegister { stub_word : Z }.

#[export] Instance stub_config_register : ConfigRegister StubConfigRegister := {|
  OFFSET := 0x00;
  try_from_u32 value := Ok (mkStubRegister value);
  try_into_u32 r := Ok (stub_word r);
|}.

(** [r.unwrap()] *)
Definition unwrap {E E' A} (r : outcome E A) : outcome E' A :=
  match r with Ok a => Ok a | Err _ | Panic => Panic | NoFuel => NoFuel end.

(** The status register's conversion is the macro's, too. *)
#[export] Instance stub_independent {S} (status_try_from : Z -> outcome string S) :
  IndependentChannel EspiDeviceStub S := {|
  get_configuration_register T _ _ := unwrap (try_from_u32 0);
  set_configuration_register T _ _ _ := Ok tt;
  get_status _ := unwrap (status_try_from 0);
  reset _ := Ok tt;
|}.

#[export] Instance stub_peripheral : PeripheralChannel EspiDeviceStub := {|
  mem32_write_short _ _ _ _ := Ok tt;
  mem32_read_short ty _ _ := unwrap (short_op_try_from_u32 ty 0);
  io_read_short ty _ _ := unwrap (short_op_try_from_u32 ty 0);
  io_write_short _ _ _ _ := Ok tt;
  put_posted_mem32_write _ _ _ _ := Ok tt;
  put_np_mem32_read _ _ _ buffer := Ok buffer;
  put_posted_mem64_write _ _ _ _ := Ok tt;
  put_np_mem64_read _ _ _ buffer := Ok buffer;
  put_posted_message _ _ _ _ := Ok tt;
  put_posted_message_with_data _ _ _ _ _ := Ok tt;
|}.

#[export] Instance stub_oob : OobChannel EspiDeviceStub := {|
  put_oob _ _ _ := Ok tt;
  get_oob _ buffer := Ok buffer;
|}.

(** ** Lemmas *)

(** A type declared as the register [r]: a word converts to it only if every
    field has a value of its type there, since no other value exists. *)
Class Declared (T : Type) (r : Register) `{ConfigRegister T} : Prop := {
  declared_typed v t : try_from_u32 v = Ok t -> Forall2 admits (fields r) (holds v r);
  declared_total v : settles (fun _ => True) (try_from_u32 (T := T) v);
}.

(** Short reads answer zero. *)
Lemma stub_reads_zero ty d address :
  mem32_read_short ty d address = Ok 0 /\ io_read_short ty d address = Ok 0.
Proof. by destruct ty. Qed.

#[local] Instance admits_dec f x : Decision (admits f x).
Proof. unfold admits. destruct (kind f); apply _. Defined.

(** The word zero names no payload size. *)
Lemma zero_not_admitted r :
  r ∈ [PeripheralChannelCapabilities; OobChannelCapabilities; FlashChannelCapabilities] ->
  ~ Forall2 admits (fields r) (holds 0 r).
Proof.
  assert (Forall (fun r => ~ Forall2 admits (fields r) (holds 0 r))
    [PeripheralChannelCapabilities; OobChannelCapabilities; FlashChannelCapabilities]) as Hall
    by (apply (bool_decide_unpack _); vm_compute; exact I).
  rewrite Forall_forall in Hall. apply Hall.
Qed.

(** So the stub cannot give the capabilities of a channel with one. *)
Lemma stub_capabilities_panic {S T} (status_try_from : Z -> outcome string S) r `{Declared T r} d :
  r ∈ [PeripheralChannelCapabilities; OobChannelCapabilities; FlashChannelCapabilities] ->
  get_configuration_register (T := T) (IndependentChannel := stub_independent status_try_from) d = Panic.
Proof.
  intros Hr. cbn [get_configuration_register stub_independent]. unfold unwrap.
  pose proof (declared_total (r := r) 0) as Hs. destruct (try_from_u32 0) as [t|e| |] eqn:Ht; try done.
  exfalso. apply (zero_not_admitted r Hr), (declared_typed (r := r) 0 t), Ht.
Qed.
