(* ===== verification/EcMemory.v ===== *)
(** The EC's shared memory of the IHV1 platform
    ([platform/ihv1-sp/src/services/ec_memory.rs]): structures declared
    [repr(C, packed(1))], as lists of fields, with the sizes and offsets the
    representation gives them. *)
From Stdlib Require Import ZArith Lia.
From S2P Require Import Prelude.
#[local] Open Scope Z_scope.

(** Types of fields: integers and nested structures. *)
#[warnings="-register-all"] Inductive FieldTy : Type :=
  | U8 | U16 | U32
  | Struct (fields : list (string * FieldTy)).

#[local] Open Scope string_scope.

Definition Version : list (string * FieldTy) :=
  [("major", U8); ("minor", U8); ("spin", U8); ("res0", U8)].

Definition Capabilities : list (string * FieldTy) :=
  [("events", U32); ("fw_version", Struct Version); ("secure_state", U8); ("boot_status", U8);
   ("fan_mask", U8); ("battery_mask", U8); ("temp_mask", U16); ("key_mask", U16);
   ("debug_mask", U16); ("res0", U16)].

Definition Notifications : list (string * FieldTy) := [("service", U16); ("event", U16)].

Definition TimeAlarm : list (string * FieldTy) :=
  [("events", U32); ("capability", U32); ("year", U16); ("month", U8); ("day", U8); ("hour", U8);
   ("minute", U8); ("second", U8); ("valid", U8); ("daylight", U8); ("res1", U8); ("milli", U16);
   ("time_zone", U16); ("res2", U16); ("alarm_status", U32); ("ac_time_val", U32);
   ("dc_time_val", U32)].

Definition Battery : list (string * FieldTy) :=
  [("events", U32); ("status", U32); ("last_full_charge", U32); ("cycle_count", U32);
   ("state", U32); ("present_rate", U32); ("remain_cap", U32); ("present_volt", U32);
   ("psr_state", U32); ("psr_max_out", U32); ("psr_max_in", U32); ("peak_level", U32);
   ("peak_power", U32); ("sus_level", U32); ("sus_power", U32); ("peak_thres", U32);
   ("sus_thres", U32); ("trip_thres", U32); ("bmc_data", U32); ("bmd_data", U32);
   ("bmd_flags", U32); ("bmd_count", U32); ("charge_time", U32); ("run_time", U32);
   ("sample_time", U32)].

Definition Thermal : list (string * FieldTy) :=
  [("events", U32); ("cool_mode", U32); ("dba_limit", U32); ("sonne_limit", U32);
   ("ma_limit", U32); ("fan1_on_temp", U32); ("fan1_ramp_temp", U32); ("fan1_max_temp", U32);
   ("fan1_crt_temp", U32); ("fan1_hot_temp", U32); ("fan1_max_rpm", U32); ("fan1_cur_rpm", U32);
   ("tmp1_val", U32); ("tmp1_timeout", U32); ("tmp1_low", U32); ("tmp1_high", U32)].

Definition EcMemory : list (string * FieldTy) :=
  [("ver", Struct Version); ("caps", Struct Capabilities); ("notifications", Struct Notifications);
   ("tas", Struct TimeAlarm); ("batt", Struct Battery); ("therm", Struct Thermal)].

#[local] Close Scope string_scope.

(** ** Representation *)

(** [packed(1)]: no padding anywhere. *)
Fixpoint packed_size (ty : FieldTy) : Z :=
  match ty with
  | U8 => 1
  | U16 => 2
  | U32 => 4
  | Struct fields => foldr (fun f n => packed_size f.2 + n) 0 fields
  end.

(** A field on its way down the tree, the offset so far in front. *)
Fixpoint flatten (path : string) (offset : Z) (ty : FieldTy) : list (string * Z * FieldTy) :=
  match ty with
  | Struct fields =>
      (fix go (offset : Z) (fields : list (string * FieldTy)) : list (string * Z * FieldTy) :=
         match fields with
         | [] => []
         | f :: fields =>
             flatten (path ++ "." ++ f.1)%string offset f.2 ++ go (offset + packed_size f.2) fields
         end) offset fields
  | _ => [(path, offset, ty)]
  end.

(** The integers of a structure with their offsets. *)
Definition integers (fields : list (string * FieldTy)) : list (string * Z * FieldTy) :=
  flatten "" 0 (Struct fields).

(** [repr(C)] without packing: alignment of a type, and its size with the padding
    that keeps every field aligned. *)
Fixpoint align (ty : FieldTy) : Z :=
  match ty with
  | U8 => 1
  | U16 => 2
  | U32 => 4
  | Struct fields => foldr (fun f n => Z.max (align f.2) n) 1 fields
  end.

Definition round_up (n a : Z) : Z := (n + a - 1) / a * a.

Fixpoint c_size (ty : FieldTy) : Z :=
  match ty with
  | U8 => 1
  | U16 => 2
  | U32 => 4
  | Struct fields =>
      round_up (foldl (fun offset f => round_up offset (align f.2) + c_size f.2) 0 fields)
        (foldr (fun f n => Z.max (align f.2) n) 1 fields)
  end.

(** ** Lemmas *)

(** Consecutive integers touch. *)
Fixpoint contiguous (offset : Z) (l : list (string * Z * FieldTy)) : Prop :=
  match l with
  | [] => True
  | (_, o, ty) :: l => o = offset /\ contiguous (offset + packed_size ty) l
  end.

#[export] Instance contiguous_dec offset l : Decision (contiguous offset l).
Proof.
  revert offset. induction l as [|[[n o] ty] l IH]; intros offset; cbn [contiguous]; apply _.
Defined.

Lemma contiguous_disjoint offset l i j a b :
  contiguous offset l -> Forall (fun f => 0 < packed_size f.2) l ->
  l !! i = Some a -> l !! j = Some b -> (i < j)%nat -> a.1.2 + packed_size a.2 <= b.1.2.
Proof.
  assert (forall l offset k f, contiguous offset l -> Forall (fun f => 0 < packed_size f.2) l ->
    l !! k = Some f -> offset <= f.1.2) as Hge.
  { clear. induction l as [|[[n o] ty] l IH]; intros offset k f Hc Hp Hk; [done|].
    destruct Hc as [-> Hc]. apply Forall_cons in Hp as [Hty Hp]. cbn [snd] in Hty.
    destruct k as [|k]; cbn in Hk; [injection Hk as <-; cbn; lia|].
    specialize (IH _ _ _ Hc Hp Hk). lia. }
  revert offset i j. induction l as [|[[n o] ty] l IH]; intros offset i j Hc Hp Hi Hj Hij; [done|].
  destruct Hc as [-> Hc]. apply Forall_cons in Hp as [Hty Hp].
  destruct j as [|j]; [lia|]. destruct i as [|i]; cbn in Hi, Hj.
  - injection Hi as <-. cbn [fst snd]. by eapply Hge.
  - eapply IH; [exact Hc|done..|lia].
Qed.

(** ** The layout *)

(** The layout of the EC's memory.  The structures have the sizes 4, 20, 4,
    36, 100 and 64, the memory is their sum, 228 bytes; its integers follow
    each other without gaps, so no two of them overlap and none lies outside;
    each is aligned to its own size, and the packing changes nothing: C's
    layout of the same structures needs no padding. *)
Lemma ec_memory_layout :
  (packed_size ∘ Struct) <$> [Version; Capabilities; Notifications; TimeAlarm; Battery; Thermal] =
    [4; 20; 4; 36; 100; 64] /\
  packed_size (Struct EcMemory) = 228 /\
  Forall (fun s => c_size (Struct s) = packed_size (Struct s))
    [Version; Capabilities; Notifications; TimeAlarm; Battery; Thermal; EcMemory] /\
  Forall (fun f => f.1.2 mod packed_size f.2 = 0 /\ f.1.2 + packed_size f.2 <= 228) (integers EcMemory) /\
  NoDup (integers EcMemory).*1.*1 /\
  forall i j a b, integers EcMemory !! i = Some a -> integers EcMemory !! j = Some b ->
    (i < j)%nat -> a.1.2 + packed_size a.2 <= b.1.2.
Proof.
  split; [reflexivity|]. split; [reflexivity|].
  split; [repeat constructor|].
  split; [apply (bool_decide_unpack _); vm_compute; exact I|].
  split; [apply (bool_decide_unpack _); vm_compute; exact I|].
  intros i j a b. apply (contiguous_disjoint 0); apply (bool_decide_unpack _); vm_compute; exact I.
Qed.
