(* ===== verification/Platform.v ===== *)
(** The QEMU secure partition ([platform/qemu-sp/src/main.rs, battery.rs]): its
    battery stub, the chain of five services over one world, and [main], with
    the IHV1 partition's.  The world is the EC relay over the PL011 beside the
    hypervisor. *)
From Stdlib Require Import ZArith Lia.
From S2P Require Import Prelude FfaCore FfaMsg FfaFunctions Console MsgLoop Notify.
From S2P Require Import EcRelay RelayClient Thermal FwMgmt Ucsi TpmSst Uart.
#[local] Open Scope Z_scope.
(** A recording hypervisor is not a pair of a state and a hypervisor. *)
#[local] Typeclasses Opaque Recorded.

(** ** The battery stub (battery.rs) *)

Module QemuBattery.
Definition EC_BAT_GET_BIX : Z := 0x1.
Definition EC_BAT_GET_BST : Z := 0x2.
Definition EC_BAT_GET_PSR : Z := 0x3.
Definition EC_BAT_GET_PIF : Z := 0x4.
Definition EC_BAT_GET_BPS : Z := 0x5.
Definition EC_BAT_GET_BTP : Z := 0x6.
Definition EC_BAT_GET_BPT : Z := 0x7.
Definition EC_BAT_GET_BPC : Z := 0x8.
Definition EC_BAT_GET_BMC : Z := 0x9.
Definition EC_BAT_GET_BMD : Z := 0xa.
Definition EC_BAT_GET_BCT : Z := 0xb.
Definition EC_BAT_GET_BTM : Z := 0xc.
Definition EC_BAT_GET_BMS : Z := 0xd.
Definition EC_BAT_GET_BMA : Z := 0xe.
Definition EC_BAT_GET_STA : Z := 0xf.

Record GenericRsp : Type := { status : Z }.
Definition generic_payload {E} (value : GenericRsp) : outcome E DirectMessagePayload :=
  payload_from_iter (to_le_bytes 8 (status value)).

Record BstRsp : Type := { state : Z; present_rate : Z; remaining_cap : Z; present_volt : Z }.
Definition bst_payload {E} (value : BstRsp) : outcome E DirectMessagePayload :=
  payload_from_iter (concat (to_le_bytes 4 <$>
    [state value; present_rate value; remaining_cap value; present_volt value])).

Definition bst_from_payload {E} (payload : DirectMessagePayload) : outcome E BstRsp :=
  state ← u32_at payload 0;
  present_rate ← u32_at payload 4;
  remaining_cap ← u32_at payload 8;
  present_volt ← u32_at payload 12;
  Ok {| state := state; present_rate := present_rate; remaining_cap := remaining_cap;
        present_volt := present_volt |}.

Inductive Battery : Type := Battery_new.

Definition get_bst : BstRsp :=
  {| state := 0x1; present_rate := 500; remaining_cap := 5000; present_volt := 12000 |}.
Definition generic_test : GenericRsp := {| status := 0x0 |}.

Definition generic_commands : list Z :=
  [EC_BAT_GET_BIX; EC_BAT_GET_PSR; EC_BAT_GET_PIF; EC_BAT_GET_BPS; EC_BAT_GET_BTP; EC_BAT_GET_BPT;
   EC_BAT_GET_BPC; EC_BAT_GET_BMC; EC_BAT_GET_BMD; EC_BAT_GET_BCT; EC_BAT_GET_BTM; EC_BAT_GET_BMS;
   EC_BAT_GET_BMA; EC_BAT_GET_STA].

Section Handler.
Context `{UuidOps}.

Definition battery_handle (msg : MsgSendDirectReq2) : ffa_result MsgSendDirectResp2 :=
  cmd ← u8_at (req_payload msg) 0;
  payload ←
    (if decide (cmd = EC_BAT_GET_BST) then bst_payload get_bst
     else if decide (cmd ∈ generic_commands) then generic_payload generic_test
     else Err (Error.Other "Unknown Battery Command"));
  Ok (from_req_with_payload msg payload).

#[export] Instance battery_service {W} : Service W Battery := {|
  svc_UUID := uuid_lit 0x25cb5207ac36427daaef3aa78877d27e;
  svc_NAME := "Battery";
  ffa_msg_send_direct_req2 msg := lift (battery_handle msg);
|}.

(** The whole handler: a fixed status, eight zero bytes, or an error. *)
Definition battery_reference (msg : MsgSendDirectReq2) : ffa_result MsgSendDirectResp2 :=
  match payload_bytes (req_payload msg) !! 0%nat with
  | None => Panic
  | Some cmd =>
      if decide (cmd = 2) then
        Ok (from_req_with_payload msg
              (padded [1; 0; 0; 0; 0xF4; 1; 0; 0; 0x88; 0x13; 0; 0; 0xE0; 0x2E; 0; 0]))
      else if decide (1 <= cmd <= 15) then Ok (from_req_with_payload msg (padded (replicate 8 0)))
      else Err (Error.Other "Unknown Battery Command")
  end.

Lemma generic_commands_range cmd : cmd <> 2 -> cmd ∈ generic_commands <-> 1 <= cmd <= 15.
Proof.
  intros Hc. unfold generic_commands, EC_BAT_GET_BIX, EC_BAT_GET_PSR, EC_BAT_GET_PIF, EC_BAT_GET_BPS,
    EC_BAT_GET_BTP, EC_BAT_GET_BPT, EC_BAT_GET_BPC, EC_BAT_GET_BMC, EC_BAT_GET_BMD, EC_BAT_GET_BCT,
    EC_BAT_GET_BTM, EC_BAT_GET_BMS, EC_BAT_GET_BMA, EC_BAT_GET_STA.
  rewrite !elem_of_cons, elem_of_nil. lia.
Qed.

Lemma stub_handle_reference msg :
  message_wf (req_message msg) -> battery_handle msg = battery_reference msg.
Proof.
  intros (_ & _ & Hp). fold (req_payload msg) in Hp. unfold battery_handle, battery_reference.
  destruct (payload_lookup (req_payload msg) 0 Hp) as (cmd & Hcmd & _); [unfold PAYLOAD_LEN; lia|].
  rewrite (u8_at_lookup _ _ _ Hcmd), Hcmd. cbn [mbind outcome_bind]. unfold EC_BAT_GET_BST.
  destruct (decide (cmd = 2)) as [->|Hne]; [reflexivity|].
  rewrite (decide_ext _ _ _ _ (generic_commands_range cmd Hne)).
  destruct (decide (1 <= cmd <= 15)); reflexivity.
Qed.

#[export] Instance battery_laws {W} : ServiceLaws W Battery.
Proof.
  refine {| svc_inv := fun _ : Battery => True |}. intros req s w Hreq _.
  cbn [ffa_msg_send_direct_req2 battery_service]. unfold lift. split; [done|]. cbn [fst].
  rewrite stub_handle_reference by done. unfold battery_reference.
  destruct Hreq as (_ & _ & Hp). fold (req_payload req) in Hp.
  destruct (payload_lookup (req_payload req) 0 Hp) as (cmd & -> & _); [unfold PAYLOAD_LEN; lia|].
  repeat (case_decide; [apply from_req_replies, padded_wf;
    [cbn; unfold PAYLOAD_LEN; lia|apply (bool_decide_unpack _); vm_compute; exact I]|]). done.
Defined.
End Handler.
End QemuBattery.
Export (hints) QemuBattery.

(** ** The chain and main (main.rs) *)

Section Main.
Context `{UuidOps} {W : Type} `{Relay W} `{SmcEnv W}.

#[local] Abbreviation QemuChain :=
  (HandlerNodeInner QemuBattery.Battery (HandlerNodeInner Notify (HandlerNodeInner FwMgmt
     (HandlerNodeInner Ucsi (HandlerNodeInner Thermal HandlerNodeTerminal))))).

(** The chain with the notification service in state [n], the only one that
    keeps a state of its own. *)
Definition qemu_chain (n : Notify) : MessageHandler QemuChain :=
  append (append (append (append (append handler_new Thermal_new) Ucsi_new) FwMgmt_new) n)
    QemuBattery.Battery_new.

(** A computation on a chain, which [main] builds and owns. *)
Definition with_chain {N E A} (n : N) (m : stM (N * W) E A) : stM W E A := fun w =>
  let '(r, (_, w)) := m (n, w) in (r, w).

(** [expect] makes an error of the loop a panic, and so is reaching
    [unreachable!()]. *)
Definition sp_main {N E} `{HandlerNode W N} (chain : MessageHandler N) (fuel : nat) : stM W E unit :=
  _ ← st_unwrap (Version.exec Version.new);
  _ ← st_unwrap (with_chain (node chain) (run_message_loop fuel));
  lift Panic.

Definition qemu_sp_main {E} (fuel : nat) : stM W E unit := sp_main (qemu_chain notify_new) fuel.

(** [main] of the IHV1 partition, whose chain has no service yet
    ([platform/ihv1-sp/src/main.rs]). *)
Definition ihv1_sp_main {E} (fuel : nat) : stM W E unit := sp_main handler_new fuel.

(** The [log] crate's global logger and level, which the entry points set. *)
Class LogCrate := { set_logger : stM W unit unit; set_max_level : Z -> W -> W }.

(** [LevelFilter::Trace] *)
Definition TRACE : Z := 5.

(** The entry point of either partition ([platform/*/src/baremetal/mod.rs]). *)
Definition aarch64_rt_main `{LogCrate} {E} (main : stM W E unit) : stM W E unit :=
  _ ← st_unwrap set_logger;
  _ ← Prelude.call (fun w => (tt, set_max_level TRACE w));
  main.

(** What a request does to the partition, service by service. *)
Definition qemu_reference (req : MsgSendDirectReq2) (n : Notify) (w : W) :
    outcome Error.t MsgSendDirectResp2 * (Notify * W) :=
  let u := uuid (req_message req) in
  if decide (u = uuid_lit 0x31f56da7593c4d72a4b38fc7171ac073) then
    let '(r, w) := thermal_reference req w in (r, (n, w))
  else if decide (u = uuid_lit 0x65467f50827f4e4f8770dbf4c3f77f45) then (ucsi_reference req, (n, w))
  else if decide (u = uuid_lit 0x330c1273fde5475798195b6539037502) then
    let '(r, w) := fw_mgmt_reference req w in (r, (n, w))
  else if decide (u = uuid_lit 0xe474d87e57314044a727cb3e8cf3c8df) then notify_handle req (n, w)
  else if decide (u = uuid_lit 0x25cb5207ac36427daaef3aa78877d27e) then
    (QemuBattery.battery_reference req, (n, w))
  else (Err (Error.Other "Unknown UUID"), (n, w)).
End Main.

(** ** The world of the partition *)

Section World.
Context {R S : Type}.

#[export] Instance pair_relay `{Relay R} : Relay (R * S) := fun A h b parse rs =>
  let '(r, x) := invoke (W := R) A h b parse rs.1 in (r, (x, rs.2)).

#[export] Instance pair_relay_laws `{RelayLaws R} : RelayLaws (R * S).
Proof.
  split.
  - intros A Q h b parse Hp [x s]. unfold invoke, pair_relay. cbn [fst snd].
    pose proof (relay_settles A Q h b parse Hp x) as Hs. by destruct (invoke A h b parse x).
  - intros A A' f h b parse parse' [x s] Hp. unfold invoke, pair_relay. cbn [fst snd].
    rewrite (relay_map A A' f h b parse parse' x Hp). by destruct (invoke A h b parse x).
Qed.
End World.

Section Qemu.
Context `{MctpOps} {D S : Type} `{Mmio D} `{SmcEnv S}.

(** The EC relay over the PL011 at its fixed address, as [main] sets it up. *)
Definition qemu_relay (device : D) : EcRelay (MctpSerialTransport (Pl011Uart (RawMmio D))) :=
  relay_new (mkTransport (uart_new 0x09040000 device)).

Definition qemu_world (device : D) (spm : S) :
    EcRelay (MctpSerialTransport (Pl011Uart (RawMmio D))) * S := (qemu_relay device, spm).
End Qemu.

(** ** Lemmas *)

Lemma uuid_lit_inj `{UuidLaws} a b : is_u 128 a -> is_u 128 b -> uuid_lit a = uuid_lit b -> a = b.
Proof.
  intros Ha Hb He. apply (f_equal as_u64_pair) in He. rewrite !as_uuid_lit in He by done.
  injection He as Hhi Hlo. rewrite <- (field_split 64 a), <- (field_split 64 b) by (done || apply Ha || apply Hb).
  by rewrite Hhi, Hlo.
Qed.

Section ChainLemmas.
Context `{UuidLaws} {W : Type} `{RelayLaws W} `{SmcEnvLaws W}.

#[local] Abbreviation QemuNode :=
  (HandlerNodeInner QemuBattery.Battery (HandlerNodeInner Notify (HandlerNodeInner FwMgmt
     (HandlerNodeInner Ucsi (HandlerNodeInner Thermal HandlerNodeTerminal))))).

(** The five UUIDs, in the order the chain asks for them. *)
Lemma qemu_uuids_distinct : NoDup (node_uuids (W := W) (N := QemuNode)).
Proof.
  assert (forall a b, is_u 128 a -> is_u 128 b -> a <> b -> uuid_lit a <> uuid_lit b) as Hne
    by (intros a b Ha Hb Hab Hu; by apply Hab, uuid_lit_inj).
  cbn [node_uuids inner_node terminal_node].
  repeat (apply NoDup_cons; split;
    [rewrite ?not_elem_of_cons; split_and?; (apply not_elem_of_nil || by apply Hne)|]).
  apply NoDup_nil_2.
Qed.

(** Decides the chain's comparisons of UUIDs known equal or distinct. *)
#[local] Ltac chain_skip :=
  repeat first [rewrite decide_True by congruence | rewrite decide_False by congruence].

Lemma qemu_chain_reference req n (w : W) :
  message_wf (req_message req) ->
  handle req (node (qemu_chain n), w) =
    let '(r, (n', w')) := qemu_reference req n w in (r, (node (qemu_chain n'), w')).
Proof.
  intros Hreq. unfold qemu_reference. pose proof qemu_uuids_distinct as Hnd.
  cbn [node_uuids inner_node terminal_node] in Hnd.
  rewrite !NoDup_cons, !not_elem_of_cons in Hnd.
  cbn [service next svc_UUID QemuBattery.battery_service notify_service fw_mgmt_service ucsi_service
    thermal_service] in Hnd.
  destruct_and! Hnd.
  cbn [handle inner_node qemu_chain append node].
  do 5 (unfold inner_handle; cbn [service next svc_UUID handle inner_node terminal_node
    QemuBattery.battery_service notify_service fw_mgmt_service ucsi_service thermal_service
    ffa_msg_send_direct_req2]).
  unfold on_snd, lift. cbn [fst snd]. generalize dependent (uuid (req_message req)). intros u.
  destruct (decide (u = uuid_lit 0x31f56da7593c4d72a4b38fc7171ac073)) as [->|Ht].
  { rewrite thermal_handle_reference by done. chain_skip. by destruct (thermal_reference req w). }
  destruct (decide (u = uuid_lit 0x65467f50827f4e4f8770dbf4c3f77f45)) as [->|Hu].
  { rewrite ucsi_handle_reference by done. by chain_skip. }
  destruct (decide (u = uuid_lit 0x330c1273fde5475798195b6539037502)) as [->|Hf].
  { rewrite fw_mgmt_handle_reference by done. chain_skip. by destruct (fw_mgmt_reference req w). }
  destruct (decide (u = uuid_lit 0xe474d87e57314044a727cb3e8cf3c8df)) as [->|Hn].
  { chain_skip. by destruct (notify_handle req (n, w)) as [r [n' w']]. }
  destruct (decide (u = uuid_lit 0x25cb5207ac36427daaef3aa78877d27e)) as [->|Hb].
  { rewrite QemuBattery.stub_handle_reference by done. by chain_skip. }
  by chain_skip.
Qed.

(** The chain starts in its invariant. *)
Lemma qemu_chain_new_inv : node_inv (W := W) (node (qemu_chain notify_new)).
Proof. repeat split; try done; apply notify_new_wf. Qed.

End ChainLemmas.

(** *** The SMCs of a run *)

(** The hypervisor after a sequence of calls. *)
Definition after {X} `{SmcEnv X} (calls : list (Z * SmcParams.t)) (x : X) : X :=
  fold_left (fun x c => (smc c.1 c.2 x).2) calls x.

Lemma after_app {X} `{SmcEnv X} calls calls' (x : X) :
  after (calls ++ calls') x = after calls' (after calls x).
Proof. apply fold_left_app. Qed.

(** A log has all of them. *)
Lemma after_recorded {X} `{SmcEnv X} calls log (x : X) :
  after calls ((log, x) : Recorded X) = (log ++ calls, after calls x).
Proof.
  revert log x. induction calls as [|[id p] calls IH]; intros log x; [by rewrite app_nil_r|].
  unfold after. cbn [fold_left fst snd]. rewrite recorded_smc. cbn [fst snd].
  destruct (smc id p x) as [r x'] eqn:Hs. cbn [fst snd]. unfold after in IH. rewrite IH, <- app_assoc.
  by cbn [app snd].
Qed.

(** An FFA_MSG_WAIT or FFA_MSG_SEND_DIRECT_RESP2 whose answer is not one of
    FFA_SUCCESS, of either width, and FFA_MSG_SEND_DIRECT_REQ2. *)
Definition loop_refused {X} `{SmcEnv X} (id : Z) (p : SmcParams.t) (x : X) : Prop :=
  (id = 0x8400006B \/ id = 0xC400008E) /\
  exists r0 rest, (smc id p x).1 = r0 :: rest /\ r0 ∉ [0x84000061; 0xC4000061; 0xC400008D].

(** The calls of a run that started with FFA_VERSION, over a hypervisor that
    started as [x]: it is still going, or it has panicked because the last call
    was refused, the version or one of the loop's. *)
Definition VERSION : Z := 0x84000063.
Definition stopped {X} `{SmcEnv X} {A E} (r : outcome E A) (x : X) (calls : list (Z * SmcParams.t)) : Prop :=
  exists q rest, calls = (VERSION, q) :: rest /\
    (r = NoFuel \/
     r = Panic /\
     (rest = [] /\ (exists r0 others, (smc VERSION q x).1 = r0 :: others /\ Z.testbit r0 31 = true) \/
      exists before id p, rest = before ++ [(id, p)] /\
        loop_refused id p (after ((VERSION, q) :: before) x))).

Lemma simple_outcome_refused {T} r0 r2 (ok : FunctionId.t -> ffa_result T) e :
  simple_outcome r0 r2 ok = Err e -> (forall f, exists a, ok f = Ok a) ->
  r0 ∉ [0x84000061; 0xC4000061; 0xC400008D].
Proof.
  intros He Hok Hin. unfold simple_outcome in He.
  assert (exists f, success_id f = true /\ r0 = discr f) as (f & Hf & ->).
  { rewrite !elem_of_cons, elem_of_nil in Hin. destruct Hin as [->|[->|[->|[]]]];
      [by exists FunctionId.Success32|by exists FunctionId.Success64|by exists FunctionId.MsgSendDirectReq2]. }
  rewrite try_from_primitive_discr, Hf in He. destruct (Hok f) as [a Ha]. congruence.
Qed.

Section Calls.
Context `{UuidLaws} {W X N : Type} `{SmcEnvLaws W} `{!SmcEnv X} `{!HandlerNode W N} `{!HandlerNodeLaws W N}.
(** The hypervisor in the world, and a chain that reaches it by calls alone. *)
Context (spm_of : W -> X)
  (Hspm : forall id p w, smc id p (spm_of w) = ((smc id p w).1, spm_of (smc id p w).2))
  (Hchain : forall req n w, message_wf (req_message req) -> node_inv (W := W) n ->
     exists calls, spm_of (handle req (n, w)).2.2 = after calls (spm_of w)).
Implicit Types (n : N) (w : W) (x : X).

(** A piece of the run: calls, and a refused one at its end if it fails. *)
Definition so_far {A} (good : A -> Prop) x (r : outcome Error.t A * (N * W)) : Prop :=
  node_inv (W := W) r.2.1 /\
  match r.1 with
  | Ok a => good a /\ exists calls, spm_of r.2.2 = after calls x
  | NoFuel => exists calls, spm_of r.2.2 = after calls x
  | Err _ => exists calls id p,
      spm_of r.2.2 = after (calls ++ [(id, p)]) x /\ loop_refused id p (after calls x)
  | Panic => False
  end.

Lemma so_far_after {A} (good : A -> Prop) calls x r :
  so_far good (after calls x) r -> so_far good x r.
Proof.
  intros [Hi Hr]. split; [exact Hi|]. destruct r.1 as [a|e| |].
  - destruct Hr as (Ha & cs & Hr). split; [exact Ha|]. exists (calls ++ cs). by rewrite after_app.
  - destruct Hr as (cs & id & p & Hr & Href). exists (calls ++ cs), id, p.
    by rewrite <- app_assoc, !(after_app calls).
  - done.
  - destruct Hr as (cs & Hr). exists (calls ++ cs). by rewrite after_app.
Qed.

Lemma call_so_far {F} `{Function F} (f : F) p n w :
  fn_try_into f = Ok p -> discr (fn_ID (F := F)) = 0x8400006B \/ discr (fn_ID (F := F)) = 0xC400008E ->
  node_inv (W := W) n -> so_far call_wf (spm_of w) (exec_simple f Ok (n, w)).
Proof.
  intros Hp Hid Hn. destruct (exec_simple_call f p (n, w) Hp) as [_ Hcall].
  destruct (exec_simple_result f p Ok (n, w) Hp) as (r0 & ps & Hr & He).
  rewrite pair_smc in Hr, He. cbn [fst snd] in Hr, He. rewrite He in *. cbn [fst] in Hcall.
  split; [exact Hn|]. cbn [fst snd].
  assert (spm_of (smc (discr (fn_ID (F := F))) p w).2 = after [(discr (fn_ID (F := F)), p)] (spm_of w))
    as Hw by (unfold after; cbn [fold_left fst snd]; by rewrite Hspm).
  destruct Hcall as [(c & -> & Hc)|(e & Heq & _)].
  - split; [exact Hc|]. by eexists.
  - rewrite Heq. exists [], (discr (fn_ID (F := F))), p. split; [exact Hw|]. split; [exact Hid|].
    exists r0, (SmcParams.to_list ps). cbn [after fold_left]. rewrite Hspm. split; [exact Hr|].
    eapply simple_outcome_refused; [exact Heq|]. eauto.
Qed.

Lemma wait_so_far n w : node_inv (W := W) n -> so_far call_wf (spm_of w) (exec_msg_wait (n, w)).
Proof. intros Hn. apply (call_so_far MsgWait_new SmcParams.default); [done|by left|done]. Qed.

Lemma round_so_far c n w :
  call_wf c -> node_inv (W := W) n ->
  so_far call_wf (spm_of w) (msg_loop_round handle (fun _ => mret tt) c (n, w)).
Proof.
  intros Hc Hn. unfold msg_loop_round.
  destruct (request_of_call c Hc) as [(req & -> & Hreq)|Hnot]; [|rewrite Hnot; by apply wait_so_far].
  unfold mbind, stM_bind, attempt, mret, stM_ret.
  destruct (Hchain req n w Hreq Hn) as [calls Hcalls]. pose proof (node_handled req n w Hreq Hn) as [Hi Hr].
  destruct (handle req (n, w)) as [r [n' w']]. cbn [fst snd compose] in Hi, Hr, Hcalls.
  apply (so_far_after _ calls). rewrite <- Hcalls.
  destruct r as [resp|e| |]; [| |done|done]; [|by apply wait_so_far].
  destruct (resp_params resp) as (p & Hp & _); [by eapply replies_wf|].
  apply (call_so_far resp p); [done|by right|done].
Qed.

Lemma loop_so_far fuel c n w :
  call_wf c -> node_inv (W := W) n ->
  so_far (fun _ => False) (spm_of w) (msg_loop_from handle (fun _ => mret tt) fuel c (n, w)).
Proof.
  revert c n w. induction fuel as [|fuel IH]; intros c n w Hc Hn.
  { split; [exact Hn|]. by exists []. }
  cbn [msg_loop_from]. unfold mbind, stM_bind. pose proof (round_so_far c n w Hc Hn) as [Hi Hr].
  destruct (msg_loop_round _ _ c (n, w)) as [[c'|e| |] [n' w']]; cbn [fst snd] in Hi, Hr; [|by split..].
  destruct Hr as (Hc' & calls & Hcalls). apply (so_far_after _ calls). rewrite <- Hcalls. by apply IH.
Qed.

(** [main] makes calls and ends, if it does, right after a refused one. *)
Lemma sp_main_stopped {E} (chain : MessageHandler N) fuel w :
  node_inv (W := W) (node chain) ->
  let r := sp_main (E := E) chain fuel w in
  exists calls, spm_of r.2 = after calls (spm_of w) /\ stopped r.1 (spm_of w) calls.
Proof.
  intros Hn. destruct (version_exec_spec Version.new w) as (r0 & others & Hr0 & Hv).
  set (q := SmcParams.with_default _ 0 0 0) in Hr0.
  assert ((Version.exec Version.new w).2 = (smc VERSION q w).2) as Hw.
  { unfold Version.exec, ffa_smc, mbind, stM_bind, lift, call.
    cbn [fn_try_into fn_ID Version.function]. fold q. change (discr FunctionId.Version) with VERSION in *.
    destruct (smc _ q w) as [rs w1]. cbn [fst] in Hr0.
    subst rs. cbn [lookup list_lookup or_panic snd]. by case_decide. }
  assert (spm_of (smc VERSION q w).2 = after [(VERSION, q)] (spm_of w)) as Hafter
    by (unfold after; cbn [fold_left fst snd]; by rewrite Hspm).
  change (discr FunctionId.Version) with VERSION in Hr0.
  unfold sp_main, mbind, stM_bind, st_unwrap, lift, with_chain.
  destruct (Version.exec Version.new w) as [v w1]. cbn [fst snd] in Hv, Hw. subst v w1.
  destruct (Z.testbit r0 31) eqn:Hbit.
  { exists [(VERSION, q)]. split; [exact Hafter|]. exists q, []. split; [done|]. right. split; [done|]. left.
    split; [done|]. exists r0, others. split; [by rewrite Hspm|done]. }
  set (w1 := (smc _ q w).2) in *.
  assert (so_far (fun _ => False) (spm_of w1) (run_message_loop fuel (node chain, w1))) as [_ Hloop].
  { unfold run_message_loop, msg_loop, mbind, stM_bind. pose proof (wait_so_far (node chain) w1 Hn) as [Hi Hr].
    destruct (exec_msg_wait (node chain, w1)) as [[c|e| |] [n' w']]; cbn [fst snd] in Hi, Hr; [|by split..].
    destruct Hr as (Hc & calls & Hcalls). apply (so_far_after _ calls). rewrite <- Hcalls.
    by apply loop_so_far. }
  rewrite Hafter in Hloop. destruct (run_message_loop fuel (node chain, w1)) as [[[]|e| |] [n2 w2]];
    cbn [fst snd] in Hloop |- *.
  - by destruct Hloop.
  - destruct Hloop as (calls & id & p & Hw2 & Href). exists ((VERSION, q) :: calls ++ [(id, p)]).
    split; [exact Hw2|]. exists q, (calls ++ [(id, p)]). split; [done|]. right. split; [done|]. right. eauto.
  - done.
  - destruct Hloop as (calls & Hw2). exists ((VERSION, q) :: calls). split; [exact Hw2|].
    exists q, calls. split; [done|by left].
Qed.

End Calls.

Lemma pair_relay_keeps {R S} `{Relay R} A h b parse (rs : R * S) :
  (invoke (W := R * S) A h b parse rs).2.2 = rs.2.
Proof. unfold invoke, pair_relay. by destruct (invoke (W := R) A h b parse rs.1). Qed.

(** The services reach the hypervisor by calls alone. *)
Lemma reference_calls `{UuidLaws} {R S} `{RelayLaws R} `{SmcEnvLaws S} req n (w : R * S) :
  message_wf (req_message req) -> notify_wf n ->
  exists calls, (qemu_reference req n w).2.2.2 = after calls w.2.
Proof.
  intros Hreq Hn. unfold qemu_reference.
  repeat case_decide; try (by exists []).
  - exists []. destruct (thermal_reference req w) as [r w'] eqn:Ht. cbn [snd]. revert Ht.
    unfold thermal_reference, raw_round_trip, invoke_request_with_response_id.
    case_match; [|by intros [= _ <-]]. case_match; [by intros [= _ <-]|].
    match goal with |- context [invoke (W := R * S) ?A ?h ?b ?p w] =>
      pose proof (pair_relay_keeps A h b p w) as Hk; destruct (invoke (W := R * S) A h b p w) as [r2 w2] end.
    by intros [= _ <-].
  - destruct (fw_mgmt_reference req w) as [r w'] eqn:Hf. cbn [snd]. revert Hf.
    unfold fw_mgmt_reference. case_match; [|intros [= _ <-]; by exists []].
    case_match; [intros [= _ <-]; by exists []| |intros [= _ <-]; by exists []].
    destruct w as [y s]. rewrite pair_smc. intros [= _ <-]. by eexists [(_, _)].
  - exists []. destruct (notify_handle_effect req n w Hreq Hn) as (result & n1 & -> & _). done.
Qed.

(** Nor does the entry point return, whatever the logger does. *)
Lemma rt_main_never_returns `{UuidOps} {W N E} `{SmcEnv W} `{HandlerNode W N}
    (log : LogCrate (W := W)) (chain : MessageHandler N) fuel (w : W) :
  is_ok (aarch64_rt_main (E := E) (sp_main chain fuel) w).1 = false.
Proof.
  unfold aarch64_rt_main, sp_main, mbind, stM_bind, st_unwrap, Prelude.call, lift.
  destruct (set_logger w) as [[]?]; try done.
  destruct (Version.exec Version.new _) as [[]?]; try done.
  by destruct (with_chain _ _ _) as [[]?].
Qed.

Lemma qemu_chain_calls `{UuidLaws} {R S} `{RelayLaws R} `{SmcEnvLaws S} req
    (n : HandlerNodeInner QemuBattery.Battery (HandlerNodeInner Notify (HandlerNodeInner FwMgmt
       (HandlerNodeInner Ucsi (HandlerNodeInner Thermal HandlerNodeTerminal))))) (w : R * S) :
  message_wf (req_message req) -> node_inv (W := R * S) n ->
  exists calls, (handle req (n, w)).2.2.2 = after calls w.2.
Proof.
  intros Hreq Hn. destruct n as [[] [notify [[] [[] [[] []]]]]]. destruct Hn as (_ & Hn & _).
  destruct (reference_calls req notify w Hreq Hn) as [calls Hcalls]. exists calls. rewrite <- Hcalls.
  pose proof (qemu_chain_reference req notify w Hreq) as Hr.
  cbn [qemu_chain append node handler_new] in Hr. rewrite Hr.
  by destruct (qemu_reference req notify w) as [r [n' w']].
Qed.

#[export] Instance recorded_smc_laws `{SmcEnvLaws X} : SmcEnvLaws (Recorded X).
Proof.
  split; intros id p [log x]; rewrite recorded_smc; cbn [fst snd].
  - pose proof (smc_length id p x) as Hl. by destruct (smc id p x).
  - pose proof (smc_range id p x) as Hr. by destruct (smc id p x).
Qed.

(** What a recording hypervisor says of the run. *)
Lemma recorded_run {S A E} `{SmcEnv S} (r : outcome E A) (spm : S) (x' : Recorded S) :
  (exists calls, x' = after calls (([], spm) : Recorded S) /\ stopped r (([], spm) : Recorded S) calls) ->
  exists calls, x' = (calls, after calls spm) /\ stopped r spm calls.
Proof.
  intros (calls & -> & q & rest & -> & Hs). exists ((VERSION, q) :: rest).
  split; [by rewrite after_recorded|]. exists q, rest. split; [done|].
  destruct Hs as [Hs|[Hs Hwhy]]; [by left|right]. split; [exact Hs|].
  assert (forall id p log (x : S), (smc id p ((log, x) : Recorded S)).1 = (smc id p x).1) as Hsmc
    by (intros id p log x; rewrite recorded_smc; cbn [snd]; by destruct (smc id p x)).
  destruct Hwhy as [(Hrest & Href)|(before & id & p & Hrest & Href)]; [left|right].
  - by rewrite Hsmc in Href.
  - exists before, id, p. split; [exact Hrest|]. rewrite after_recorded in Href.
    destruct Href as (Hid & Href). split; [exact Hid|]. by rewrite Hsmc in Href.
Qed.

(** ** A concrete partition

    The PL011 bench as a bus, wherever the driver is told it is. *)
#[export] Instance uart_bench_mmio : Mmio UartBench := {|
  TpmSst.read_u8 a u := read8 a u;
  read_u32 a u := read32 a u;
  TpmSst.write_u8 a v u := write8 a v u;
  write_u32 a v u := write8 a v u;
|}.

Definition relative (base : Z) (a : Access) : Access :=
  match a with
  | Read32 off v => Read32 (off - base) v
  | Read8 off v => Read8 (off - base) v
  | Write8 off v => Write8 (off - base) v
  end.

Lemma raw_bench_flags off (m : RawMmio UartBench) : (read32 off m).1 = bench_flags (bus m).
Proof. reflexivity. Qed.

#[export] Instance raw_bench_laws : UartMmioLaws (RawMmio UartBench).
Proof.
  refine {| bus_log m := relative (base m) <$> bus_trace (bus m); tx_bound := 2 |}.
  1-3: intros; cbn; rewrite fmap_app; cbn; by rewrite Z.add_simpl_l.
  - intros off m. apply trunc_range. lia.
  - intros [b [l t tr]]. destruct t; [exists 1%nat|exists 0%nat]; (split; [lia|]);
      by destruct l.
Defined.

(** ** Properties *)

(** C9: The secure partition answers every well-formed direct request exactly
    as the reference functions of its five services say.  The thermal, firmware
    management, UCSI, notification and battery services each answer for their
    own UUID, no two of which are equal, any other UUID is refused, and of the
    services' state only the notification tables change. *)
Theorem qemu_sp_serves `{UuidLaws} {W : Type} `{RelayLaws W} `{SmcEnvLaws W}
    (req : MsgSendDirectReq2) (n : Notify) (w : W) :
  message_wf (req_message req) ->
  handle req (node (qemu_chain n), w) =
    (let '(r, (n', w')) := qemu_reference req n w in (r, (node (qemu_chain n'), w'))) /\
  NoDup (node_uuids (W := W) (N := HandlerNodeInner QemuBattery.Battery
    (HandlerNodeInner Notify (HandlerNodeInner FwMgmt
      (HandlerNodeInner Ucsi (HandlerNodeInner Thermal HandlerNodeTerminal)))))).
Proof. intros Hreq. split; [by apply qemu_chain_reference|apply qemu_uuids_distinct]. Qed.

(** C8: [main] of a secure partition never returns: the QEMU one, with its EC
    relay over the PL011 at its fixed address and the hypervisor beside it, and
    the IHV1 one, which has no services.  However long it runs, whatever
    requests and EC answers arrive, the hypervisor has heard FFA_VERSION and
    then the calls of the loop and of the services, and [main] is still serving
    unless it has panicked right after the last call it made: the version call,
    which the hypervisor refused, or a wait or a response of the loop, which the
    hypervisor, as those calls left it, answered with anything but a success or
    a direct request.  No request and no failed call of a service can stop it.
    The log lines, which the model leaves out, are console calls beside these;
    a panic out of one of them is not covered. *)
Theorem sp_main_never_returns `{MctpLaws} `{UuidLaws} {D S : Type} `{Mmio D}
    `{!UartMmioLaws (RawMmio D)} `{SmcEnvLaws S} {E} (tx_fuel fuel : nat) (device : D) (spm : S) :
  (tx_bound (M := RawMmio D) <= tx_fuel)%nat ->
  let io := pl011_io (M := RawMmio D) tx_fuel in
  let heard : Recorded S := ([], spm) in
  (let r := qemu_sp_main (E := E) fuel (qemu_world device heard) in
   exists calls, r.2.2 = (calls, after calls spm) /\ stopped r.1 spm calls) /\
  (let r := ihv1_sp_main (E := E) fuel heard in
   exists calls, r.2 = (calls, after calls spm) /\ stopped r.1 spm calls).
Proof.
  intros Hfuel io heard. pose proof (pl011_laws tx_fuel Hfuel).
  split; intros r; apply recorded_run.
  - refine (sp_main_stopped snd _ _ _ fuel (qemu_world device heard) qemu_chain_new_inv).
    + intros id p [y x]. rewrite pair_smc. cbn [fst snd]. by destruct (smc id p x).
    + intros req n w Hreq Hn. exact (qemu_chain_calls req n w Hreq Hn).
  - refine (sp_main_stopped (fun w => w) _ _ handler_new fuel heard _); [| |done].
    + intros id p x. by destruct (smc id p x).
    + intros req [] w _ _. by exists [].
Qed.

#[local] Existing Instance mctp_model.
#[local] Existing Instance uuid_model.

Definition sample_world : EcWorld * Script := (ec_world [], []).

(** The battery's status, asked for by a client. *)
Definition battery_status_request : MsgSendDirectReq2 :=
  req_new 2 1 (uuid_lit 0x25cb5207ac36427daaef3aa78877d27e) (padded [2]).

Lemma qemu_sp_serves_witness :
  handle battery_status_request (node (qemu_chain notify_new), sample_world) =
    (Ok (from_req_with_payload battery_status_request
           (padded [1; 0; 0; 0; 0xF4; 1; 0; 0; 0x88; 0x13; 0; 0; 0xE0; 0x2E; 0; 0])),
     (node (qemu_chain notify_new), sample_world)).
Proof.
  destruct (qemu_sp_serves battery_status_request notify_new sample_world) as [-> _].
  { apply (sample_request_wf [2] eq_refl). }
  unfold qemu_reference.
  rewrite !decide_False by (intros Hu%uuid_lit_inj; [discriminate|by split..]).
  by rewrite decide_True.
Defined.

(** A hypervisor that answers zeros: the version is taken, the first wait is not. *)
Lemma sp_main_never_returns_witness :
  let world := qemu_world (mkUartBench [] false []) (([], []) : Recorded Script) in
  let io := pl011_io (M := RawMmio UartBench) 2 in
  let r := ihv1_sp_main (E := unit) 5 (([], []) : Recorded Script) in
  (exists calls, (qemu_sp_main (E := unit) 5 world).2.2 = (calls, after calls ([] : Script)) /\
     stopped (qemu_sp_main (E := unit) 5 world).1 ([] : Script) calls) /\
  r.1 = Panic /\ fst <$> r.2.1 = [VERSION; 0x8400006B] /\
  stopped r.1 ([] : Script) r.2.1.
Proof.
  intros world io r.
  destruct (sp_main_never_returns (D := UartBench) (S := Script) (E := unit) 2 5
    (mkUartBench [] false []) []) as [Hq (calls & Hcalls & Hs)]; [cbn; lia|].
  split; [exact Hq|]. split; [vm_compute; reflexivity|]. split; [vm_compute; reflexivity|].
  assert (r.2.1 = calls) as -> by exact (f_equal fst Hcalls). exact Hs.
Defined.
