(* ===== verification/Session.v ===== *)
(** The QEMU partition at work: a hypervisor with a queue of direct requests,
    the five services, the EC behind the relay.  The specification serves the
    queue request by request, from the reference functions of the services;
    it knows nothing of the chain, the loop or how calls are parsed. *)
From Stdlib Require Import ZArith Lia.
From S2P Require Import Prelude FfaCore FfaMsg FfaFunctions MsgLoop Notify.
From S2P Require Import EcRelay RelayClient Thermal FwMgmt Ucsi Platform.
#[local] Open Scope Z_scope.

(** ** The hypervisor *)

(** The calls by which a partition takes its next request. *)
Definition takes_next (id : Z) : bool :=
  bool_decide (id = discr FunctionId.MsgWait \/ id = discr FunctionId.MsgSendDirectResp2).

Section Hypervisor.
Context `{UuidOps}.

(** The requests still to be delivered, and the calls that asked for them. *)
Class Hypervisor (S : Type) := {
  queue : S -> list MsgSendDirectReq2;
  heard : S -> list (Z * SmcParams.t);
}.

(** FF-A 1.2: [FFA_MSG_WAIT] and [FFA_MSG_SEND_DIRECT_RESP2] return with the
    next direct request in the registers, and no other call takes one. *)
Class HypervisorLaws (S : Type) `{SmcEnvLaws S} `{Hypervisor S} : Prop := {
  heard_law id p s : heard (smc id p s).2 = heard s ++ if takes_next id then [(id, p)] else [];
  queue_law id p s : queue (smc id p s).2 = if takes_next id then tail (queue s) else queue s;
  next_law id p s req reqs : takes_next id = true -> queue s = req :: reqs ->
    message_wf (req_message req) ->
    exists q, direct_message_into_params (req_message req) = Ok q /\
      (smc id p s).1 = discr FunctionId.MsgSendDirectReq2 :: SmcParams.to_list q;
}.

(** ** The specification *)

(** What the partition says after a request: the response, or, after an error,
    that it waits. *)
Definition waits : Z * SmcParams.t := (discr FunctionId.MsgWait, SmcParams.default).
Definition said (r : outcome Error.t MsgSendDirectResp2) : Z * SmcParams.t :=
  match r with
  | Ok resp =>
      match direct_message_into_params (resp_message resp) with
      | Ok p => (discr FunctionId.MsgSendDirectResp2, p)
      | _ => waits
      end
  | _ => waits
  end.

Section Spec.
Context {R S : Type} `{Relay R} `{SmcEnv S}.

Definition say (a : Z * SmcParams.t) (w : R * S) : R * S := (w.1, (smc a.1 a.2 w.2).2).

Fixpoint serve_queue (reqs : list MsgSendDirectReq2) (n : Notify) (w : R * S) :
    list (Z * SmcParams.t) * (Notify * (R * S)) :=
  match reqs with
  | [] => ([], (n, w))
  | req :: reqs =>
      let '(r, (n, w)) := qemu_reference req n w in
      let '(l, nw) := serve_queue reqs n (say (said r) w) in
      (said r :: l, nw)
  end.
End Spec.
End Hypervisor.

(** ** Lemmas *)

Lemma smc_status_not_next cmd src dst id p :
  fw_answer cmd src dst = AfterSmc id p -> takes_next (FunctionId.to_u64 id) = false.
Proof. unfold fw_answer. intros Ha. repeat case_match; simplify_eq; reflexivity. Qed.

(** One round, one request. *)
Lemma loop_from_S `{UuidOps} {W} `{SmcEnv W} handler before fuel c (w : W) :
  msg_loop_from handler before (S fuel) c w =
    let '(r, w') := msg_loop_round handler before c w in
    match r with
    | Ok c' => msg_loop_from handler before fuel c' w'
    | Err e => (Err e, w') | Panic => (Panic, w') | NoFuel => (NoFuel, w')
    end.
Proof. cbn [msg_loop_from]. unfold mbind, stM_bind. by destruct (msg_loop_round _ _ c w) as [[] ?]. Qed.

Lemma serve_queue_cons `{UuidOps} {R S} `{Relay R} `{SmcEnv S} req reqs n (w : R * S) :
  serve_queue (req :: reqs) n w =
    let '(r, (n, w)) := qemu_reference req n w in
    let '(l, nw) := serve_queue reqs n (say (said r) w) in (said r :: l, nw).
Proof. reflexivity. Qed.

Section Session.
Context `{UuidLaws} {R S : Type} `{RelayLaws R}
  `{!SmcEnv S} `{!SmcEnvLaws S} `{!Hypervisor S} `{!HypervisorLaws S}.
Implicit Types (req : MsgSendDirectReq2) (n : Notify) (w : R * S).

#[local] Abbreviation chain n := (node (qemu_chain n)).

(** The services leave the hypervisor's queue alone. *)
Lemma reference_keeps req n w r n' w' :
  message_wf (req_message req) -> notify_wf n -> qemu_reference req n w = (r, (n', w')) ->
  queue w'.2 = queue w.2 /\ heard w'.2 = heard w.2.
Proof.
  intros Hreq Hn Hr. unfold qemu_reference in Hr.
  repeat case_decide; try (injection Hr as <- <- <-; by split).
  - destruct (thermal_reference req w) as [r1 w1] eqn:Ht. injection Hr as _ _ <-.
    unfold thermal_reference, raw_round_trip, invoke_request_with_response_id in Ht.
    case_match; [|by injection Ht as _ <-]. case_match; [by injection Ht as _ <-|].
    match type of Ht with context [invoke (W := R * S) ?A ?h ?b ?p w] =>
      pose proof (pair_relay_keeps A h b p w) as Hk;
      destruct (invoke (W := R * S) A h b p w) as [r2 w2] end.
    injection Ht as _ <-. by rewrite <- Hk.
  - destruct (fw_mgmt_reference req w) as [r1 w1] eqn:Ht. injection Hr as _ _ <-.
    unfold fw_mgmt_reference in Ht. case_match; [|by injection Ht as _ <-].
    case_match eqn:Ha; [by injection Ht as _ <-| |by injection Ht as _ <-].
    destruct w as [x s]. rewrite pair_smc in Ht. injection Ht as _ <-. cbn [snd].
    by rewrite queue_law, heard_law, (smc_status_not_next _ _ _ _ _ Ha), app_nil_r.
  - destruct (notify_handle_effect req n w Hreq Hn) as (result & n1 & Hh & _).
    rewrite Hh in Hr. by injection Hr as _ _ <-.
Qed.

(** What comes back is never a panic, and the tables stay well formed. *)
Lemma reference_handled req n w r n' w' :
  message_wf (req_message req) -> notify_wf n -> qemu_reference req n w = (r, (n', w')) ->
  notify_wf n' /\ ((exists resp, r = Ok resp /\ replies_to req resp) \/ exists e, r = Err e).
Proof.
  intros Hreq Hn Hr.
  assert (node_inv (W := R * S) (chain n)) as Hinv by (repeat split; try done; apply Hn).
  pose proof (node_handled req (chain n) w Hreq Hinv) as [Hi Ha].
  rewrite qemu_chain_reference, Hr in Hi, Ha by done. cbn [fst snd] in Hi, Ha.
  split; [apply Hi|]. destruct r as [resp|e| |]; [left|right|done|done]; eauto.
Qed.

(** A request on its way: the call it arrives as. *)
Definition arrives req (c : SmcCall.t) : Prop :=
  SmcCall.id c = FunctionId.MsgSendDirectReq2 /\
  direct_message_into_params (req_message req) = Ok (SmcCall.params c).

Lemma arrives_parsed req c :
  message_wf (req_message req) -> arrives req c ->
  (try_from_smc_call c : ffa_result MsgSendDirectReq2) = Ok req.
Proof.
  intros Hwf [Hid Hp]. unfold try_from_smc_call. rewrite decide_True by done.
  unfold fn_try_from, req2_from_params. rewrite (direct_message_from_into _ _ Hwf Hp).
  by destruct req.
Qed.

(** A call that takes the next request, if there is one. *)
Lemma take_call {F} `{Function F} (f : F) p n w :
  fn_try_into f = Ok p -> takes_next (discr (fn_ID (F := F))) = true ->
  Forall (fun r => message_wf (req_message r)) (queue w.2) ->
  (exec_simple f Ok (chain n, w)).2 = (chain n, say (discr (fn_ID (F := F)), p) w) /\
  forall req reqs, queue w.2 = req :: reqs ->
    exists c, (exec_simple f Ok (chain n, w)).1 = Ok c /\ arrives req c.
Proof.
  intros Hp Ht Hwf. destruct w as [x s].
  destruct (exec_simple_result f p Ok (chain n, (x, s)) Hp) as (r0 & ps & Hr & ->).
  split; [by rewrite !pair_smc|]. intros req reqs Hq. cbn [snd] in *. cbn [fst].
  rewrite Hq in Hwf. apply Forall_cons in Hwf as [Hreq _].
  destruct (next_law _ p s req reqs Ht Hq Hreq) as (q & Hinto & Hregs).
  rewrite !pair_smc in Hr. cbn [fst] in Hr. rewrite Hregs in Hr.
  apply cons_eq_inj in Hr as [<- <-%to_list_inj]. eexists. split; [reflexivity|]. by split.
Qed.

(** One round serves one request. *)
Lemma round_serves req c n w r n' w' :
  message_wf (req_message req) -> notify_wf n -> arrives req c ->
  Forall (fun r => message_wf (req_message r)) (queue w.2) ->
  qemu_reference req n w = (r, (n', w')) ->
  let round := msg_loop_round handle (fun _ => mret tt) c (chain n, w) in
  round.2 = (chain n', say (said r) w') /\ takes_next (said r).1 = true /\
  forall req' reqs, queue w.2 = req' :: reqs -> exists c', round.1 = Ok c' /\ arrives req' c'.
Proof.
  intros Hreq Hn Hc Hq Hr.
  destruct (reference_keeps _ _ _ _ _ _ Hreq Hn Hr) as [Hqueue _].
  destruct (reference_handled _ _ _ _ _ _ Hreq Hn Hr) as [_ Ha].
  assert (handle req (chain n, w) = (r, (chain n', w'))) as Hh
    by (by rewrite qemu_chain_reference, Hr).
  unfold msg_loop_round. rewrite (arrives_parsed _ _ Hreq Hc).
  unfold mbind, stM_bind, attempt, mret, stM_ret. rewrite Hh, <- Hqueue.
  rewrite <- Hqueue in Hq. destruct Ha as [(resp & -> & Hresp)|[e ->]].
  - destruct (resp_params resp) as (p & Hp & Hp'); [by eapply replies_wf|].
    cbn [said]. rewrite Hp'. destruct (take_call resp p n' w' Hp) as [Hs Hnext]; [done..|].
    split; [exact Hs|]. split; [done|exact Hnext].
  - destruct (take_call MsgWait_new SmcParams.default n' w') as [Hs Hnext]; [done..|].
    split; [exact Hs|]. split; [done|exact Hnext].
Qed.

(** The loop serves the queue. *)
Lemma loop_serves reqs req c n w :
  queue w.2 = reqs -> Forall (fun r => message_wf (req_message r)) (req :: reqs) ->
  notify_wf n -> arrives req c ->
  (msg_loop_from handle (fun _ => mret tt) (Datatypes.S (length reqs)) c (chain n, w)).2 =
    let '(_, (n', w')) := serve_queue (req :: reqs) n w in (chain n', w').
Proof.
  revert req c n w. induction reqs as [|req' reqs IH]; intros req c n w Hq Hwf Hn Hc;
    pose proof Hwf as [Hreq Hwf']%Forall_cons;
    rewrite serve_queue_cons; destruct (qemu_reference req n w) as [r [n' w']] eqn:Hr;
    (destruct (round_serves _ _ _ _ _ _ _ Hreq Hn Hc ltac:(by rewrite Hq) Hr) as (Hs & Ht & Hnext));
    rewrite loop_from_S; destruct (msg_loop_round _ _ c (chain n, w)) as [r1 s1];
    cbn [fst snd] in Hs, Hnext; subst s1.
  - by destruct r1.
  - destruct (Hnext _ _ Hq) as (c' & -> & Hc').
    destruct (reference_handled _ _ _ _ _ _ Hreq Hn Hr) as [Hn' _].
    destruct (reference_keeps _ _ _ _ _ _ Hreq Hn Hr) as [Hqueue _].
    cbn [length]. rewrite IH with (req := req'); try done.
    + by destruct (serve_queue (req' :: reqs) n' (say (said r) w')) as [l [n2 w2]].
    + unfold say. cbn [snd]. by rewrite queue_law, Ht, Hqueue, Hq.
Qed.

(** What a request is answered with. *)
Definition answers req (a : Z * SmcParams.t) : Prop :=
  a = waits \/
  exists resp p, a = (discr FunctionId.MsgSendDirectResp2, p) /\
    direct_message_from_params p = Ok (resp_message resp) /\ replies_to req resp.

Lemma said_answers req n w r n' w' :
  message_wf (req_message req) -> notify_wf n -> qemu_reference req n w = (r, (n', w')) ->
  answers req (said r) /\ takes_next (said r).1 = true.
Proof.
  intros Hreq Hn Hr.
  destruct (reference_handled _ _ _ _ _ _ Hreq Hn Hr) as [_ [(resp & -> & Hresp)|[e ->]]].
  - pose proof (replies_wf _ _ Hreq Hresp) as Hwf.
    destruct (resp_params resp Hwf) as (p & _ & Hp). cbn [said]. rewrite Hp. split; [right|done].
    exists resp, p. split_and!; try apply Hresp; [done|by apply direct_message_from_into].
  - split; [by left|done].
Qed.

(** What the hypervisor has heard when the queue is served. *)
Lemma serve_queue_heard reqs n w replies n' w' :
  Forall (fun r => message_wf (req_message r)) reqs -> notify_wf n ->
  serve_queue reqs n w = (replies, (n', w')) ->
  heard w'.2 = heard w.2 ++ replies /\ queue w'.2 = drop (length reqs) (queue w.2) /\
  Forall2 answers reqs replies.
Proof.
  revert n w replies. induction reqs as [|req reqs IH]; intros n w replies Hwf Hn Hs.
  { injection Hs as <- _ <-. by rewrite app_nil_r. }
  apply Forall_cons in Hwf as [Hreq Hwf]. rewrite serve_queue_cons in Hs.
  destruct (qemu_reference req n w) as [r [n1 w1]] eqn:Hr.
  destruct (serve_queue reqs n1 (say (said r) w1)) as [l [n2 w2]] eqn:Hs'.
  injection Hs as <- -> ->.
  destruct (reference_handled _ _ _ _ _ _ Hreq Hn Hr) as [Hn1 _].
  destruct (reference_keeps _ _ _ _ _ _ Hreq Hn Hr) as [Hq Hh].
  destruct (said_answers _ _ _ _ _ _ Hreq Hn Hr) as [Ha Ht].
  destruct (IH _ _ _ Hwf Hn1 Hs') as (-> & -> & Hall). unfold say. cbn [snd].
  rewrite heard_law, queue_law, Ht, Hq, Hh, <- app_assoc. split; [by destruct (said r)|].
  split; [|by constructor]. cbn [length]. destruct (queue w.2); cbn [tail]; by rewrite ?drop_nil.
Qed.

(** After the queue: whatever arrives, what was said stays said. *)
Definition grows w w' : Prop := heard w.2 `prefix_of` heard w'.2.

Lemma say_grows a w : grows w (say a w).
Proof. unfold grows, say. cbn [snd]. rewrite heard_law. by apply prefix_app_r. Qed.

Lemma call_grows {F} `{Function F} (f : F) p n w :
  fn_try_into f = Ok p -> notify_wf n ->
  exists n' w', (exec_simple f Ok (chain n, w)).2 = (chain n', w') /\ notify_wf n' /\ grows w w' /\
    forall c, (exec_simple f Ok (chain n, w)).1 = Ok c -> call_wf c.
Proof.
  intros Hp Hn. destruct (exec_simple_call f p (chain n, w) Hp) as [Hs Hr].
  exists n, (say (discr (fn_ID (F := F)), p) w). split; [destruct w; by rewrite Hs, !pair_smc|].
  split; [done|]. split; [apply say_grows|]. intros c Hc.
  destruct Hr as [(c' & Hc' & Hwf)|(e & He & _)]; congruence.
Qed.

Lemma round_grows c n w :
  call_wf c -> notify_wf n ->
  let round := msg_loop_round handle (fun _ => mret tt) c (chain n, w) in
  exists n' w', round.2 = (chain n', w') /\ notify_wf n' /\ grows w w' /\
    forall c', round.1 = Ok c' -> call_wf c'.
Proof.
  intros Hc Hn. unfold msg_loop_round.
  destruct (request_of_call c Hc) as [(req & -> & Hreq)|Hnot];
    [|rewrite Hnot; by apply (call_grows MsgWait_new SmcParams.default)].
  destruct (qemu_reference req n w) as [r [n1 w1]] eqn:Hr.
  destruct (reference_keeps _ _ _ _ _ _ Hreq Hn Hr) as [_ Hh].
  destruct (reference_handled _ _ _ _ _ _ Hreq Hn Hr) as [Hn1 Ha].
  unfold mbind, stM_bind, attempt, mret, stM_ret. rewrite qemu_chain_reference, Hr by done.
  unfold grows. rewrite <- Hh. destruct Ha as [(resp & -> & Hresp)|[e ->]].
  - destruct (resp_params resp) as (p & Hp & _); [by eapply replies_wf|]. by apply (call_grows resp p).
  - by apply (call_grows MsgWait_new SmcParams.default).
Qed.

Lemma loop_grows fuel c n w :
  call_wf c -> notify_wf n ->
  grows w (msg_loop_from handle (fun _ => mret tt) fuel c (chain n, w)).2.2.
Proof.
  revert c n w. induction fuel as [|fuel IH]; intros c n w Hc Hn; [unfold grows; reflexivity|]. rewrite loop_from_S.
  destruct (round_grows c n w Hc Hn) as (n' & w' & Hs & Hn' & Hg & Hok).
  destruct (msg_loop_round _ _ c (chain n, w)) as [r s]. cbn [fst snd] in Hs, Hok. subst s.
  destruct r as [c'|e| |]; try exact Hg.
  unfold grows. etransitivity; [exact Hg|]. by apply IH; [apply Hok|].
Qed.

Lemma loop_longer fuel fuel' c n w :
  call_wf c -> notify_wf n -> (fuel <= fuel')%nat ->
  grows (msg_loop_from handle (fun _ => mret tt) fuel c (chain n, w)).2.2
    (msg_loop_from handle (fun _ => mret tt) fuel' c (chain n, w)).2.2.
Proof.
  revert fuel' c n w. induction fuel as [|fuel IH]; intros fuel' c n w Hc Hn Hf; [by apply loop_grows|].
  destruct fuel' as [|fuel']; [lia|]. rewrite !loop_from_S.
  destruct (round_grows c n w Hc Hn) as (n' & w' & Hs & Hn' & _ & Hok).
  destruct (msg_loop_round _ _ c (chain n, w)) as [r s]. cbn [fst snd] in Hs, Hok. subst s.
  destruct r as [c'|e| |]; [|unfold grows; reflexivity..]. apply IH; [by apply Hok|done|lia].
Qed.

(** The whole loop: the first wait, the queue, and what may follow. *)
Lemma run_serves n w :
  Forall (fun r => message_wf (req_message r)) (queue w.2) -> notify_wf n ->
  (run_message_loop (length (queue w.2)) (chain n, w)).2 =
    (let '(_, (n', w')) := serve_queue (queue w.2) n (say waits w) in (chain n', w')) /\
  forall fuel, (length (queue w.2) <= fuel)%nat ->
    grows (run_message_loop (length (queue w.2)) (chain n, w)).2.2
      (run_message_loop fuel (chain n, w)).2.2.
Proof.
  intros Hwf Hn.
  destruct (take_call MsgWait_new SmcParams.default n w) as [Hs Hnext]; [done..|].
  destruct (call_grows MsgWait_new SmcParams.default n w) as (_ & _ & _ & _ & _ & Hcall); [done..|].
  unfold run_message_loop, msg_loop, exec_msg_wait. unfold mbind, stM_bind.
  destruct (exec_simple MsgWait_new Ok (chain n, w)) as [r s]. cbn [fst snd] in Hs, Hnext, Hcall. subst s.
  split.
  - destruct (queue w.2) as [|req reqs] eqn:Hq; [by destruct r|].
    destruct (Hnext req reqs eq_refl) as (c & -> & Hc). cbn [length]. apply loop_serves; try done.
    unfold say. cbn [snd]. by rewrite queue_law, Hq.
  - intros fuel Hf. destruct r as [c|e| |]; [|unfold grows; reflexivity..].
    apply loop_longer; [by apply Hcall|done|done].
Qed.

(** [main] asks for the version and runs the loop. *)
Lemma main_world {E} fuel w v :
  (Version.exec Version.new w).1 = Ok v ->
  (qemu_sp_main (E := E) fuel w).2 =
    (run_message_loop fuel (chain notify_new, (Version.exec Version.new w).2)).2.2.
Proof.
  intros Hv. unfold qemu_sp_main, sp_main, mbind, stM_bind, st_unwrap, with_chain, lift.
  destruct (Version.exec Version.new w) as [r w1]. cbn [fst] in Hv. subst r. cbn [snd].
  by destruct (run_message_loop fuel (chain notify_new, w1)) as [[] [? ?]].
Qed.

Lemma version_keeps w :
  let w' := (Version.exec Version.new w).2 in queue w'.2 = queue w.2 /\ heard w'.2 = heard w.2.
Proof.
  set (p := SmcParams.with_default (pack16 (Version.major Version.new) (Version.minor Version.new)) 0 0 0).
  assert ((Version.exec Version.new w).2 = (w.1, (smc (discr FunctionId.Version) p w.2).2)) as ->.
  { destruct w as [x s]. unfold Version.exec, ffa_smc, mbind, stM_bind, lift, call.
    cbn [fn_try_into fn_ID Version.function]. rewrite pair_smc. cbn [fst snd].
    destruct (or_panic _) as [r0| | |]; [case_decide|..]; reflexivity. }
  cbv zeta. cbn [snd]. by rewrite queue_law, heard_law, app_nil_r.
Qed.
End Session.

(** ** Properties *)

(** C3: The QEMU partition serves every client in turn.  From its start, for any
    queue of well-formed direct requests, [main] handles them one by one, in
    order, exactly as the services' reference functions say, each on the state
    its predecessors left: the hypervisor hears one wait and then one call per
    request, the response, which decodes to the service's reply and goes back
    to the requester, or a wait if the service reports an error.  Nothing is
    lost, repeated or reordered, the world ends up as specified, and a longer
    run takes nothing back. *)
Theorem qemu_session `{UuidLaws} {R S : Type} `{RelayLaws R}
    `{!SmcEnv S} `{!SmcEnvLaws S} `{!Hypervisor S} `{!HypervisorLaws S} {E} (w : R * S) :
  Forall (fun req => message_wf (req_message req)) (queue w.2) ->
  (exists v, (Version.exec Version.new w).1 = Ok v) ->
  let '(replies, (_, w')) :=
    serve_queue (queue w.2) notify_new (say waits (Version.exec Version.new w).2) in
  (qemu_sp_main (E := E) (length (queue w.2)) w).2 = w' /\
  queue w'.2 = [] /\ heard w'.2 = heard w.2 ++ waits :: replies /\
  Forall2 answers (queue w.2) replies /\
  forall fuel, (length (queue w.2) <= fuel)%nat ->
    heard w'.2 `prefix_of` heard (qemu_sp_main (E := E) fuel w).2.2.
Proof.
  intros Hwf [v Hv]. destruct (version_keeps w) as [Hq Hh].
  pose proof (fun fuel => main_world (E := E) fuel w v Hv) as Hmain. clear Hv.
  set (w0 := (Version.exec Version.new w).2) in *. rewrite <- Hq in Hwf |- *.
  destruct (run_serves notify_new w0 Hwf notify_new_wf) as [Hrun Hlonger].
  destruct (serve_queue _ _ _) as [replies [n' w']] eqn:Hs.
  destruct (serve_queue_heard _ _ _ _ _ _ Hwf notify_new_wf Hs) as (Hheard & Hqueue & Hall).
  rewrite Hmain, Hrun. cbn [snd]. unfold say in Hheard, Hqueue. cbn [snd] in Hheard, Hqueue.
  rewrite heard_law, <- app_assoc in Hheard. rewrite queue_law in Hqueue.
  split_and!; [done| |by rewrite Hheard, Hh|done|].
  - rewrite Hqueue. apply drop_ge. change (takes_next waits.1) with true.
    destruct (queue w0.2); cbn [tail length]; [done|]. apply Nat.le_succ_diag_r.
  - intros fuel Hf. rewrite Hmain. pose proof (Hlonger fuel Hf) as Hg. by rewrite Hrun in Hg.
Qed.

(** ** A hypervisor *)

#[local] Existing Instance uuid_model.
#[local] Existing Instance mctp_model.

(** It keeps a list of requests, grants version 1.2 and says success to
    everything else. *)
Record Spm : Type := mkSpm { spm_queue : list MsgSendDirectReq2; spm_heard : list (Z * SmcParams.t) }.

Definition spm_regs (id : Z) (s : Spm) : list Z :=
  if takes_next id then
    match spm_queue s with
    | req :: _ =>
        match direct_message_into_params (req_message req) with
        | Ok q => script_regs (discr FunctionId.MsgSendDirectReq2 :: SmcParams.to_list q)
        | _ => script_regs []
        end
    | [] => script_regs []
    end
  else if decide (id = discr FunctionId.Version) then script_regs [0x10002]
  else script_regs [0x84000061].

#[export] Instance spm_env : SmcEnv Spm := fun id p s =>
  (spm_regs id s,
   if takes_next id then mkSpm (tail (spm_queue s)) (spm_heard s ++ [(id, p)]) else s).

#[export] Instance spm : Hypervisor Spm := {| queue := spm_queue; heard := spm_heard |}.

Lemma script_regs_ok r : length (script_regs r) = 18%nat /\ Forall (is_u 64) (script_regs r).
Proof.
  destruct script_laws as [Hl Hr].
  split; [exact (Hl 0 SmcParams.default [r])|exact (Hr 0 SmcParams.default [r])].
Qed.

#[export] Instance spm_smc_laws : SmcEnvLaws Spm.
Proof.
  split; intros id p s; unfold smc, spm_env, spm_regs; cbn [fst];
    repeat case_match; apply script_regs_ok.
Qed.

Lemma script_regs_whole r : length r = 18%nat -> Forall (is_u 64) r -> script_regs r = r.
Proof.
  intros Hl Hr. unfold script_regs. rewrite trunc_words by done. apply take_app_length'. lia.
Qed.

#[export] Instance spm_laws : HypervisorLaws Spm.
Proof.
  split; unfold smc, spm_env; cbn [queue heard spm snd fst].
  - intros id p s. by destruct (takes_next id); [|rewrite app_nil_r].
  - intros id p s. by destruct (takes_next id).
  - intros id p s req reqs Ht Hq Hwf.
    destruct (direct_message_into_ok _ Hwf) as (q & Hinto & _). exists q. split; [exact Hinto|].
    unfold spm_regs. rewrite Ht, Hq, Hinto. apply script_regs_whole; [done|].
    apply Forall_cons. split; [split; done|]. by apply (direct_message_registers _ _ Hwf Hinto).
Qed.

(** Two clients: one asks for the battery's status, one for the state of the firmware. *)
Definition firmware_state_request : MsgSendDirectReq2 :=
  req_new 3 1 (uuid_lit 0x330c1273fde5475798195b6539037502) (padded [1]).
Definition busy_spm : Spm := mkSpm [battery_status_request; firmware_state_request] [].

Lemma qemu_session_witness :
  exists replies,
    spm_heard (qemu_sp_main (E := unit) 2 (ec_world [], busy_spm)).2.2 = waits :: replies /\
    Forall2 answers [battery_status_request; firmware_state_request] replies.
Proof.
  pose proof (qemu_session (E := unit) (ec_world [], busy_spm)) as Hs.
  destruct (serve_queue _ _ _) as [replies [n' w']].
  destruct Hs as (Hmain & _ & Hheard & Hall & _).
  - repeat (apply Forall_cons; split); [apply (sample_request_wf [2] eq_refl)| |apply Forall_nil_2].
    apply (sample_request_wf [1] eq_refl).
  - eexists. reflexivity.
  - exists replies. split; [|exact Hall].
    cbn [snd queue spm spm_queue busy_spm length] in Hmain. rewrite Hmain. exact Hheard.
Defined.
